(** * Memoire: ingestion curation, contextualization and grouped recall

    A shallow embedding of the core of the Memoire semantic-memory backend
    (embedding cache, semantic chunker, context resolver, grouped recall,
    synthesizer and ingestion curator) together with the properties the
    specification states about them.

    Conventions used throughout:
    - A Python [str] is a [string] whose characters are the code points
      below 256; on that range the case mapping and the whitespace class
      are Python's.
    - A Python [dict] keyed by strings is an association list in insertion
      order (module [Dict]); the dictionaries whose order is never observed
      (the embedding cache, the resolver cache, the tables keyed by id) are
      [gmap string _].  A Python [set] is a [gset].
    - A call that may raise returns a [result]; the store and the clock of
      external calls are threaded explicitly through the monad [M].
    - Floats that are only carried around (similarities, vector entries)
      are rationals; [datetime] and [timedelta] values are integers
      (microseconds). *)

From Stdlib Require Import ZArith QArith Ascii List Lia.
From stdpp Require Import base gmap sets list strings pretty.

Local Open Scope Z_scope.

(** ** Outcome of a call that may raise *)

Inductive exn : Type :=
  | ValueError (msg : string)
  | AttributeError (msg : string)
  | TypeError (msg : string)
  | ProviderError (msg : string)
  | JSONDecodeError (msg : string)
  | StoreError (msg : string)
  | RuntimeError (msg : string).

Inductive result (A : Type) : Type :=
  | Ok (a : A)
  | Raise (e : exn).
Arguments Ok {A} a.
Arguments Raise {A} e.

Definition is_ok {A} (r : result A) : bool :=
  match r with Ok _ => true | Raise _ => false end.

(** ** Embedding cache (src/core/embedding/cache.py) *)

Module EmbeddingCache.
Section Cache.
(** [hashlib.md5(...).hexdigest()] comes from outside the repository.
    Embedding vectors are lists of rationals. *)
Variable md5_hexdigest : string -> string.

Definition vector := list Q.

Record t := mk {
  _cache : gmap string vector;
  _timestamps : gmap string Z;
  ttl : Z
}.

Definition microseconds_per_hour : Z := 3600000000.

(** [__init__]: [timedelta(hours=ttl_hours)]. *)
Definition init (ttl_hours : Z) : t :=
  mk ∅ ∅ (ttl_hours * microseconds_per_hour).

Definition _generate_key (text model : string) : string :=
  md5_hexdigest (model +:+ ":" +:+ text).

Definition _is_valid (c : t) (key : string) (now : Z) : bool :=
  match _timestamps c !! key with
  | None => false
  | Some stamp => let age := now - stamp in bool_decide (age < ttl c)
  end.

Definition _remove (c : t) (key : string) : t :=
  mk (delete key (_cache c)) (delete key (_timestamps c)) (ttl c).

(** [get] reads the clock once, inside [_is_valid]. *)
Definition get (c : t) (text model : string) (now : Z) : option vector * t :=
  let key := _generate_key text model in
  if bool_decide (is_Some (_cache c !! key)) && _is_valid c key now
  then (_cache c !! key, c)
  else if bool_decide (is_Some (_cache c !! key))
       then (None, _remove c key)
       else (None, c).

Definition set (c : t) (text model : string) (embedding : vector) (now : Z) : t :=
  let key := _generate_key text model in
  mk (<[key := embedding]> (_cache c)) (<[key := now]> (_timestamps c)) (ttl c).

Definition clear (c : t) : t := mk ∅ ∅ (ttl c).

(** [cleanup_expired]: the expired keys are collected from [_timestamps]. *)
Definition expired_keys (c : t) (now : Z) : list string :=
  (List.filter (fun kt : string * Z => bool_decide (ttl c <= now - kt.2))
               (map_to_list (_timestamps c))).*1.

Definition cleanup_expired (c : t) (now : Z) : nat * t :=
  let keys := expired_keys c now in
  (length keys, foldl _remove c keys).

End Cache.
End EmbeddingCache.

(** ** Python string operations used by the pipeline *)

Module Py.

Definition code (a : ascii) : N := N_of_ascii a.

(** [str.isspace] on one character: TAB..CR, FS..US, SPACE, NEL, NBSP. *)
Definition isspace (a : ascii) : bool :=
  let n := code a in
  ((9 <=? n) && (n <=? 13) || (28 <=? n) && (n <=? 32)
   || (n =? 133) || (n =? 160))%N.

(** [str.lower] on one character: A..Z and the Latin-1 capitals. *)
Definition lower_char (a : ascii) : ascii :=
  let n := code a in
  if ((65 <=? n) && (n <=? 90)
      || (192 <=? n) && (n <=? 222) && negb (n =? 215))%N
  then ascii_of_N (n + 32) else a.

Fixpoint map_chars (f : ascii -> ascii) (s : string) : string :=
  match s with
  | EmptyString => EmptyString
  | String a s' => String (f a) (map_chars f s')
  end.

Definition lower (s : string) : string := map_chars lower_char s.

(** [s.replace(old, new)] for one-character [old] and [new]. *)
Definition replace (old new : ascii) (s : string) : string :=
  map_chars (fun a => if Ascii.eqb a old then new else a) s.

Fixpoint lstrip (s : string) : string :=
  match s with
  | EmptyString => EmptyString
  | String a s' => if isspace a then lstrip s' else s
  end.

Fixpoint rstrip (s : string) : string :=
  match s with
  | EmptyString => EmptyString
  | String a s' =>
      match rstrip s' with
      | EmptyString => if isspace a then EmptyString else String a EmptyString
      | r => String a r
      end
  end.

Definition strip (s : string) : string := rstrip (lstrip s).

(** [s.split()]: maximal runs of non-whitespace characters. *)
Fixpoint split_ws (s : string) : list string :=
  match s with
  | EmptyString => []
  | String a s' =>
      if isspace a then split_ws s'
      else match s' with
           | EmptyString => [String a EmptyString]
           | String b _ =>
               if isspace b then String a EmptyString :: split_ws s'
               else match split_ws s' with
                    | w :: ws => String a w :: ws
                    | [] => [String a EmptyString]
                    end
           end
  end.

(** [s.split(sep)] for a non-empty [sep]: cut at the leftmost occurrence,
    resume after it.  [skip] counts the separator characters still to be
    passed over. *)
Fixpoint split_from (sep : string) (skip : nat) (s : string) : list string :=
  match s with
  | EmptyString => [EmptyString]
  | String a s' =>
      match skip with
      | S k => split_from sep k s'
      | O =>
          if String.prefix sep s
          then EmptyString :: split_from sep (String.length sep - 1) s'
          else match split_from sep 0 s' with
               | w :: ws => String a w :: ws
               | [] => [String a EmptyString]
               end
      end
  end.

Definition split (sep s : string) : list string := split_from sep 0 s.

(** [sep.join(parts)]. *)
Definition join (sep : string) (parts : list string) : string :=
  String.concat sep parts.

(** [sub in s]. *)
Fixpoint contains (sub s : string) : bool :=
  String.prefix sub s
  || match s with
     | EmptyString => false
     | String _ s' => contains sub s'
     end.

(** [s[:n]]. *)
Definition take (n : nat) (s : string) : string := String.substring 0 n s.

(** [s.replace(old, "")] for a one-character [old]. *)
Fixpoint remove (old : ascii) (s : string) : string :=
  match s with
  | EmptyString => EmptyString
  | String a s' =>
      if Ascii.eqb a old then remove old s' else String a (remove old s')
  end.

(** Index of the leftmost occurrence of [sub] in [s], counted from [i]. *)
Fixpoint find_at (sub s : string) (i : nat) : option nat :=
  if String.prefix sub s then Some i
  else match s with
       | EmptyString => None
       | String _ s' => find_at sub s' (S i)
       end.

Fixpoint drop (n : nat) (s : string) : string :=
  match n, s with
  | O, _ => s
  | S _, EmptyString => EmptyString
  | S k, String _ s' => drop k s'
  end.

(** [s.find(sub, start)] for [start >= 0]; [-1] when absent. *)
Definition find (sub s : string) (start : nat) : Z :=
  if (String.length s <? start)%nat then -1
  else match find_at sub (drop start s) start with
       | Some i => Z.of_nat i
       | None => -1
       end.

(** Index of the rightmost occurrence of [sub] in [s], counted from [i]. *)
Fixpoint rfind_at (sub s : string) (i : nat) : option nat :=
  let later :=
    match s with
    | EmptyString => None
    | String _ s' => rfind_at sub s' (S i)
    end in
  match later with
  | Some j => Some j
  | None => if String.prefix sub s then Some i else None
  end.

(** [s.rfind(sub)]. *)
Definition rfind (sub s : string) : Z :=
  match rfind_at sub s 0 with
  | Some i => Z.of_nat i
  | None => -1
  end.

(** [s[start:stop]] with Python's treatment of negative and large bounds. *)
Definition slice (s : string) (start stop : Z) : string :=
  let n := Z.of_nat (String.length s) in
  let norm x := if x <? 0 then Z.max (x + n) 0 else Z.min x n in
  let i := norm start in
  let j := norm stop in
  String.substring (Z.to_nat i) (Z.to_nat (j - i)) s.

(** Truthiness of a [str]. *)
Definition truthy (s : string) : bool :=
  match s with EmptyString => false | _ => true end.

(** [len(s.split())]. *)
Definition word_count (s : string) : Z := Z.of_nat (length (split_ws s)).

(** A non-empty string without leading or trailing whitespace. *)
Definition tidy (s : string) : Prop :=
  s <> EmptyString /\ lstrip s = s /\ rstrip s = s.

End Py.

(** ** Python dictionaries with string keys

    A [dict] keeps its keys in insertion order; assigning to a key that is
    present keeps the key's place. *)

Module Dict.
Section Dict.
Context {V : Type}.

(** [d.get(key)] *)
Fixpoint get (d : list (string * V)) (key : string) : option V :=
  match d with
  | [] => None
  | (k, v) :: rest => if String.eqb k key then Some v else get rest key
  end.

(** [d[key] = v] *)
Fixpoint set (d : list (string * V)) (key : string) (v : V)
    : list (string * V) :=
  match d with
  | [] => [(key, v)]
  | (k, x) :: rest =>
      if String.eqb k key then (k, v) :: rest else (k, x) :: set rest key v
  end.

(** [key in d] *)
Definition mem (d : list (string * V)) (key : string) : bool :=
  match get d key with Some _ => true | None => false end.

(** [d.setdefault(key, default)], the returned value dropped. *)
Definition setdefault (d : list (string * V)) (key : string) (default : V)
    : list (string * V) :=
  if mem d key then d else set d key default.

End Dict.
End Dict.

(** ** JSON values, as produced by [json.loads] *)

#[warnings="-register-all"]
Inductive json : Type :=
  | JNull
  | JBool (b : bool)
  | JNum (q : Q)
  | JStr (s : string)
  | JArr (items : list json)
  | JObj (fields : list (string * json)).

Module Json.

(** [d.get(key, default)] on a value that should be a dict; [None] stands
    for the AttributeError raised on anything else. *)
Definition get (d : json) (key : string) (default : json) : option json :=
  match d with
  | JObj fields => Some (from_option id default (Dict.get fields key))
  | _ => None
  end.

(** Truthiness of a Python value. *)
Definition truthy (v : json) : bool :=
  match v with
  | JNull => false
  | JBool b => b
  | JNum q => negb (Qeq_bool q 0)
  | JStr s => Py.truthy s
  | JArr items => match items with [] => false | _ => true end
  | JObj fields => match fields with [] => false | _ => true end
  end.

(** [len(v)]; [None] stands for the TypeError. *)
Definition len (v : json) : option nat :=
  match v with
  | JStr s => Some (String.length s)
  | JArr items => Some (length items)
  | JObj fields => Some (length fields)
  | _ => None
  end.

(** The items visited by [for x in v]; [None] stands for the TypeError. *)
Definition iter (v : json) : option (list json) :=
  match v with
  | JArr items => Some items
  | JObj fields => Some (List.map (fun kv => JStr kv.1) fields)
  | JStr s =>
      Some (List.map (fun a => JStr (String a EmptyString))
                     (String.list_ascii_of_string s))
  | _ => None
  end.

(** A list of strings, when the value is one. *)
Definition strings (v : json) : option (list string) :=
  match v with
  | JArr items =>
      mapM (fun x => match x with JStr s => Some s | _ => None end) items
  | _ => None
  end.

End Json.

(** ** Data model (src/models/__init__.py)

    Timestamps are left out of the records: no modelled operation reads
    them. *)

Module Project.
Record t := mk { id : string; name : string; description : string }.
End Project.

Module MemoryFragment.
Record t := mk {
  id : string;
  project_id : string;
  content : string;
  category : string;
  tags : list string;
  source : string;
  context_ids : list string;
  anchor_ids : list string;
  custom_fields : list (string * json)
}.
End MemoryFragment.

Module MemoryContext.
Record t := mk {
  id : string;
  project_id : string;
  name : string;
  description : string;
  fragment_ids : list string;
  parent_context_id : option string;
  child_context_ids : list string;
  custom_fields : list (string * json);
  fragment_count : Z
}.
End MemoryContext.

Module CognitiveAnchor.
Record t := mk {
  id : string;
  project_id : string;
  title : string;
  description : string;
  priority : string
}.
End CognitiveAnchor.

Module SearchOptions.
Record t := mk {
  project_id : option string;
  max_results : Z;
  similarity_threshold : Q;
  categories : option (list string);
  tags : option (list string)
}.

(** [options.copy(update={'project_id': p_id})]. *)
Definition with_project (o : t) (p_id : string) : t :=
  mk (Some p_id) (max_results o) (similarity_threshold o)
     (categories o) (tags o).
End SearchOptions.

Module SearchResult.
Record t := mk {
  fragment : MemoryFragment.t;
  similarity : Q;
  context : option MemoryContext.t;
  anchors : list CognitiveAnchor.t
}.
End SearchResult.

(** ** The world outside the core

    [World] holds the SQLite tables and the Qdrant collections.  [tick]
    counts the calls made so far to anything outside the process (SQLite,
    Qdrant, the generative provider, the embedding provider, [uuid4]); the
    environment [Env] says, per tick, whether that call raises and what it
    answers otherwise. *)

Record World := mkWorld {
  projects : list Project.t;                (* rows, newest first *)
  fragments : gmap string MemoryFragment.t; (* by primary key *)
  contexts : list MemoryContext.t;          (* rows, newest first *)
  anchors : gmap string CognitiveAnchor.t;
  collections : gmap string (gmap string (list Q));
  tick : nat
}.

(** A JSON number is a Python [int] or a [float]; the model keeps its
    value only.  What the store makes of a number that is passed as a
    fragment id depends on which of the two it is: SQLite compares the [id]
    column with the number's text, and [sqlite3] raises OverflowError for an
    integer beyond 64 bits ([None]); the Qdrant client takes an integer for
    a point id and refuses a float. *)
Inductive py_number : Type :=
  | PyInt (sqlite_text : option string)
  | PyFloat (sqlite_text : string).

Class Env := {
  (** the external call issued at this tick raises *)
  fault : nat -> bool;
  (** [response.text] of [generate_content] for a prompt *)
  llm_text : nat -> string -> string;
  (** [json.loads] *)
  json_loads : string -> result json;
  (** the embedding provider's vector for a text *)
  embed_vector : nat -> string -> list Q;
  (** [str(uuid.uuid4())] *)
  uuid4 : nat -> string;
  (** Qdrant's ranked hits in a collection for a query vector *)
  qdrant_search :
    gmap string (list Q) -> list Q -> SearchOptions.t -> list (string * Q);
  (** the Python number behind a JSON number bound at this tick *)
  python_number : nat -> Q -> py_number
}.

Definition M (A : Type) : Type := World -> result A * World.

Definition ret {A} (a : A) : M A := fun w => (Ok a, w).

Definition raise {A} (e : exn) : M A := fun w => (Raise e, w).

Definition bind {A B} (m : M A) (k : A -> M B) : M B :=
  fun w => match m w with
           | (Ok a, w') => k a w'
           | (Raise e, w') => (Raise e, w')
           end.

(** [try: m  except Exception as e: handler e]; what [m] already did to the
    world stays done. *)
Definition try_except {A} (m : M A) (handler : exn -> M A) : M A :=
  fun w => match m w with
           | (Ok a, w') => (Ok a, w')
           | (Raise e, w') => handler e w'
           end.

Declare Scope monad_scope.
Delimit Scope monad_scope with M.
Notation "'let*' x ':=' m 'in' k" := (bind m (fun x => k))
  (at level 10, x name, m at level 100, k at level 200, only parsing)
  : monad_scope.
Notation "'let*' ' p ':=' m 'in' k" :=
  (bind m (fun x => match x with p => k end))
  (at level 10, p pattern, m at level 100, k at level 200, only parsing)
  : monad_scope.
Local Open Scope monad_scope.

Definition get_world : M World := fun w => (Ok w, w).

Definition set_tick (w : World) (n : nat) : World :=
  mkWorld (projects w) (fragments w) (contexts w) (anchors w) (collections w) n.
Definition set_fragments (w : World) (fs : gmap string MemoryFragment.t) : World :=
  mkWorld (projects w) fs (contexts w) (anchors w) (collections w) (tick w).
Definition set_contexts (w : World) (cs : list MemoryContext.t) : World :=
  mkWorld (projects w) (fragments w) cs (anchors w) (collections w) (tick w).
Definition set_collections (w : World)
    (cols : gmap string (gmap string (list Q))) : World :=
  mkWorld (projects w) (fragments w) (contexts w) (anchors w) cols (tick w).

Definition modify (f : World -> World) : M unit := fun w => (Ok tt, f w).

Section External.
Context {E : Env}.

(** One call to the outside: returns the tick it was issued at, or raises
    [e] when the environment makes that call fail. *)
Definition external (e : exn) : M nat :=
  fun w =>
    let n := tick w in
    if fault n then (Raise e, set_tick w (S n)) else (Ok n, set_tick w (S n)).

Definition sqlite : M nat := external (StoreError "sqlite3").
Definition qdrant : M nat := external (StoreError "qdrant").

(** [for x in xs: body x], stopping at the first exception. *)
Fixpoint for_each {A} (xs : list A) (body : A -> M unit) : M unit :=
  match xs with
  | [] => ret tt
  | x :: rest => let* _ := body x in for_each rest body
  end.

(** [[f x for x in xs]]. *)
Fixpoint map_m {A B} (f : A -> M B) (xs : list A) : M (list B) :=
  match xs with
  | [] => ret []
  | x :: rest => let* y := f x in let* ys := map_m f rest in ret (y :: ys)
  end.

(** A loop threading an accumulator. *)
Fixpoint fold_m {A S} (body : S -> A -> M S) (xs : list A) (s : S) : M S :=
  match xs with
  | [] => ret s
  | x :: rest => let* s' := body s x in fold_m body rest s'
  end.
End External.

(** [w'] holds the projects, fragments, contexts and anchors of [w], and
    every collection of [w] with the points it had: nothing was created in
    or deleted from the tables, and no point was added or removed.  (A
    search may have created an empty collection, and the tick may have
    advanced.) *)
Definition store_preserved (w w' : World) : Prop :=
  projects w' = projects w
  /\ fragments w' = fragments w
  /\ contexts w' = contexts w
  /\ anchors w' = anchors w
  /\ forall name points,
       collections w !! name = Some points ->
       collections w' !! name = Some points.

(** A computation that only reads the store. *)
Definition reads {A} (m : M A) : Prop :=
  forall w r w', m w = (r, w') -> store_preserved w w'.

(** Named configuration values read by the core ([config.get]). *)
Class Config := {
  max_chunk_words : Z;            (* chunking.max_chunk_words *)
  min_chunk_words : Z;            (* chunking.min_chunk_words *)
  max_content_length : Z;         (* fragment_limits.max_content_length *)
  search_max_results : Z;         (* search.max_results *)
  search_similarity_threshold : Q;(* search.similarity_threshold *)
  curation_search_threshold : Q   (* intelligence.curation_search_threshold *)
}.

(** ** Storage layer (src/core/storage) *)

Module Storage.
Section Storage.
Context {E : Env}.

(** A tick consumed without the possibility of failure. *)
Definition next_tick : M nat :=
  fun w => (Ok (tick w), set_tick w (S (tick w))).

Definition has_collection (name : string) : M bool :=
  let* w := get_world in
  ret (bool_decide (is_Some (collections w !! name))).

(** db.py [get_or_create_collection]: [get_collection] is tried first and
    any failure of it leads to [create_collection]. *)
Definition get_or_create_collection (project_id : string) : M string :=
  let collection_name := "project_" +:+ Py.replace "-" "_" project_id in
  let* _ :=
    try_except
      (let* _ := qdrant in
       let* present := has_collection collection_name in
       if present then ret tt else raise (StoreError "collection not found"))
      (fun _ =>
       let* _ := qdrant in
       let* present := has_collection collection_name in
       if present then raise (StoreError "collection already exists")
       else modify (fun w =>
              set_collections w (<[collection_name := ∅]> (collections w))))
  in ret collection_name.

(** project.py *)
Definition get_project (project_id : string) : M (option Project.t) :=
  try_except
    (let* _ := sqlite in
     let* w := get_world in
     ret (List.find (fun p => String.eqb (Project.id p) project_id)
                    (projects w)))
    (fun _ => ret None).

Definition list_projects : M (list Project.t) :=
  try_except
    (let* _ := sqlite in
     let* w := get_world in
     ret (projects w))
    (fun _ => ret []).

(** fragment.py *)
Definition store_fragment (fragment : MemoryFragment.t) (embedding : list Q)
    : M string :=
  let fid := MemoryFragment.id fragment in
  try_except
    (let* _ := sqlite in
     let* w := get_world in
     let* _ :=
       match fragments w !! fid with
       | Some _ => raise (StoreError "UNIQUE constraint failed: fragments.id")
       | None => modify (fun w =>
                   set_fragments w (<[fid := fragment]> (fragments w)))
       end in
     let* collection_name :=
       get_or_create_collection (MemoryFragment.project_id fragment) in
     let* _ := qdrant in
     let* _ := modify (fun w =>
       set_collections w
         (<[collection_name :=
              <[fid := embedding]>
                (default ∅ (collections w !! collection_name))]>
            (collections w))) in
     ret fid)
    (fun e => raise e).

(** [_row_to_fragment]: an empty category reads as "general" and an empty
    source as "user" ([row[3] or "general"], [row[5] or "user"]). *)
Definition _row_to_fragment (row : MemoryFragment.t) : MemoryFragment.t :=
  MemoryFragment.mk
    (MemoryFragment.id row) (MemoryFragment.project_id row)
    (MemoryFragment.content row)
    (if Py.truthy (MemoryFragment.category row)
     then MemoryFragment.category row else "general")
    (MemoryFragment.tags row)
    (if Py.truthy (MemoryFragment.source row)
     then MemoryFragment.source row else "user")
    (MemoryFragment.context_ids row) (MemoryFragment.anchor_ids row)
    (MemoryFragment.custom_fields row).

Definition get_fragment (fragment_id : string) : M (option MemoryFragment.t) :=
  try_except
    (let* _ := sqlite in
     let* w := get_world in
     ret (_row_to_fragment <$> fragments w !! fragment_id))
    (fun _ => ret None).

Definition delete_rows (ids : list string)
    (fs : gmap string MemoryFragment.t) : gmap string MemoryFragment.t :=
  foldr delete fs ids.

Definition delete_fragments (fragment_ids : list string) (project_id : string)
    : M bool :=
  match fragment_ids with
  | [] => ret true
  | _ =>
    try_except
      (let* _ := sqlite in
       let* w := get_world in
       let sqlite_success :=
         existsb (fun i => bool_decide (is_Some (fragments w !! i)))
                 fragment_ids in
       let* _ := modify (fun w =>
         set_fragments w (delete_rows fragment_ids (fragments w))) in
       let* collection_name := get_or_create_collection project_id in
       let* _ := qdrant in
       let* _ := modify (fun w =>
         set_collections w
           (<[collection_name :=
                foldr delete (default ∅ (collections w !! collection_name))
                      fragment_ids]>
              (collections w))) in
       ret sqlite_success)
      (fun _ => ret false)
  end.

(** How [sqlite3] binds one parameter of the [DELETE]: the text SQLite
    compares with the [id] column (the inner [None]: NULL, equal to no
    id), or an exception (the outer [None]).  A [str] is bound as it is and
    [None] as NULL; [True] and [False] are the integers 1 and 0, which the
    TEXT column compares as "1" and "0"; a number is compared as its text;
    a list or a dict is not supported. *)
Definition bind_parameter (n : nat) (item : json) : option (option string) :=
  match item with
  | JStr s => Some (Some s)
  | JNull => Some None
  | JBool b => Some (Some (if b then "1" else "0"))
  | JNum q =>
      match python_number n q with
      | PyInt (Some text) => Some (Some text)
      | PyInt None => None
      | PyFloat text => Some (Some text)
      end
  | JArr _ | JObj _ => None
  end.

(** The ids of stored points that the Qdrant client makes of the points
    selector, or [None] when it refuses the selector: it takes a list of
    strings and integers (an integer names no stored point: the points are
    stored under fragment ids). *)
Definition point_ids (n : nat) (points_selector : json)
    : option (list string) :=
  match points_selector with
  | JArr items =>
      omap id <$>
        mapM (fun item =>
                match item with
                | JStr s => Some (Some s)
                | JNum q =>
                    match python_number n q with
                    | PyInt _ => Some None
                    | PyFloat _ => None
                    end
                | _ => None
                end) items
  | _ => None
  end.

(** fragment.py [delete_fragments] on whatever value reaches it: the
    curator passes the decision's [ids_to_delete] on unchecked.  The
    parameters of the statement are the items of the value (the characters
    of a string); a dict is refused by [execute]. *)
Definition delete_fragments_value (fragment_ids : json) (project_id : string)
    : M bool :=
  if negb (Json.truthy fragment_ids) then ret true
  else
    try_except
      (let* n := sqlite in
       match Json.iter fragment_ids with
       | None => raise (TypeError "object is not iterable")
       | Some parameters =>
           match fragment_ids, mapM (bind_parameter n) parameters with
           | JObj _, _ =>
               raise (StoreError "Binding 1 has no name")
           | _, None => raise (StoreError "Error binding parameter")
           | _, Some texts =>
               let ids := omap id texts in
               let* w := get_world in
               let sqlite_success :=
                 existsb (fun i => bool_decide (is_Some (fragments w !! i)))
                         ids in
               let* _ := modify (fun w =>
                 set_fragments w (delete_rows ids (fragments w))) in
               let* collection_name := get_or_create_collection project_id in
               let* _ := qdrant in
               match point_ids n fragment_ids with
               | None => raise (StoreError "points selector refused")
               | Some points =>
                   let* _ := modify (fun w =>
                     set_collections w
                       (<[collection_name :=
                            foldr delete
                                  (default ∅ (collections w !! collection_name))
                                  points]>
                          (collections w))) in
                   ret sqlite_success
               end
           end
       end)
      (fun _ => ret false).

(** context.py *)
Definition find_context (context_id : string) (rows : list MemoryContext.t)
    : option MemoryContext.t :=
  List.find (fun c => String.eqb (MemoryContext.id c) context_id) rows.

Definition create_context (context : MemoryContext.t) : M string :=
  try_except
    (let* _ := sqlite in
     let* w := get_world in
     match find_context (MemoryContext.id context) (contexts w) with
     | Some _ => raise (StoreError "UNIQUE constraint failed: contexts.id")
     | None =>
         let* _ := modify (fun w => set_contexts w (context :: contexts w)) in
         ret (MemoryContext.id context)
     end)
    (fun e => raise e).

Definition get_context (context_id : string) : M (option MemoryContext.t) :=
  try_except
    (let* _ := sqlite in
     let* w := get_world in
     ret (find_context context_id (contexts w)))
    (fun _ => ret None).

(** [SELECT ... WHERE project_id = ? ORDER BY created_at DESC]. *)
Definition list_contexts_by_project (project_id : string)
    : M (list MemoryContext.t) :=
  try_except
    (let* _ := sqlite in
     let* w := get_world in
     ret (List.filter
            (fun c => String.eqb (MemoryContext.project_id c) project_id)
            (contexts w)))
    (fun _ => ret []).

(** [UPDATE contexts SET fragment_ids = ?, fragment_count = ? WHERE id = ?]. *)
Definition set_members (fragment_ids : list string) (c : MemoryContext.t)
    : MemoryContext.t :=
  MemoryContext.mk (MemoryContext.id c) (MemoryContext.project_id c)
    (MemoryContext.name c) (MemoryContext.description c) fragment_ids
    (MemoryContext.parent_context_id c) (MemoryContext.child_context_ids c)
    (MemoryContext.custom_fields c) (Z.of_nat (length fragment_ids)).

Definition update_rows (context_id : string) (fragment_ids : list string)
    (rows : list MemoryContext.t) : list MemoryContext.t :=
  List.map (fun c => if String.eqb (MemoryContext.id c) context_id
                     then set_members fragment_ids c else c) rows.

Definition update_context_fragments (context_id : string)
    (fragment_ids : list string) : M bool :=
  try_except
    (let* _ := sqlite in
     let* w := get_world in
     let success :=
       bool_decide (is_Some (find_context context_id (contexts w))) in
     let* _ := modify (fun w =>
       set_contexts w (update_rows context_id fragment_ids (contexts w))) in
     ret success)
    (fun _ => ret false).

(** anchor.py; [_row_to_anchor]: an empty priority reads as "medium"
    ([row[4] or "medium"]). *)
Definition _row_to_anchor (row : CognitiveAnchor.t) : CognitiveAnchor.t :=
  CognitiveAnchor.mk
    (CognitiveAnchor.id row) (CognitiveAnchor.project_id row)
    (CognitiveAnchor.title row) (CognitiveAnchor.description row)
    (if Py.truthy (CognitiveAnchor.priority row)
     then CognitiveAnchor.priority row else "medium").

Definition get_anchor (anchor_id : string) : M (option CognitiveAnchor.t) :=
  try_except
    (let* _ := sqlite in
     let* w := get_world in
     ret (_row_to_anchor <$> anchors w !! anchor_id))
    (fun _ => ret None).

(** search.py [semantic_search] *)
Definition semantic_search (query_embedding : list Q)
    (options : SearchOptions.t) : M (list (string * Q)) :=
  match SearchOptions.project_id options with
  | None => raise (ValueError "Project ID required for search")
  | Some project_id =>
      if negb (Py.truthy project_id)
      then raise (ValueError "Project ID required for search")
      else
        let* collection_name := get_or_create_collection project_id in
        try_except
          (let* _ := qdrant in
           let* w := get_world in
           ret (qdrant_search
                  (default ∅ (collections w !! collection_name))
                  query_embedding options))
          (fun e => raise e)
  end.

(** manager.py [StorageManager.search_fragments] *)
Definition search_hit (hit : string * Q) : M (list SearchResult.t) :=
  let '(fragment_id, similarity) := hit in
  let* fragment := get_fragment fragment_id in
  match fragment with
  | Some fragment =>
      let* context :=
        match MemoryFragment.context_ids fragment with
        | [] => ret None
        | first :: _ => get_context first
        end in
      let* anchors :=
        map_m get_anchor (MemoryFragment.anchor_ids fragment) in
      ret [SearchResult.mk fragment similarity context (omap id anchors)]
  | None => ret []
  end.

Definition search_fragments (query_embedding : list Q)
    (options : SearchOptions.t) : M (list SearchResult.t) :=
  let* search_results := semantic_search query_embedding options in
  let* results := map_m search_hit search_results in
  ret (concat results).

End Storage.
End Storage.

(** ** Embedding service (src/core/embedding/service.py)

    The cache in front of the provider is not threaded here: a hit answers
    without calling the provider, which the environment covers by not
    failing at that tick. *)

Module EmbeddingService.
Section Service.
Context {E : Env}.

Definition generate_embedding (text : string) : M (list Q) :=
  if negb (Py.truthy text) || negb (Py.truthy (Py.strip text))
  then raise (ValueError "Text cannot be empty")
  else
    let* n := external (ProviderError "embedding") in
    ret (embed_vector n text).

End Service.
End EmbeddingService.

(** ** Memory service (src/core/memory) *)

Module Memory.
Section Memory.
Context {E : Env} {C : Config}.

(** fragments.py [store_fragment]; [category], [tags], [custom_fields] and
    [anchor_ids] take their defaults at every call site in the core. *)
Definition store_fragment (project_id content source : string)
    (context_ids : list string) : M string :=
  if negb (Py.truthy content) || negb (Py.truthy (Py.strip content))
  then raise (ValueError "Fragment content cannot be empty")
  else
    let content :=
      if max_content_length <? Z.of_nat (String.length content)
      then Py.slice content 0 max_content_length else content in
    let* embedding := EmbeddingService.generate_embedding content in
    let* n := Storage.next_tick in
    let fragment_id := uuid4 n in
    let fragment :=
      MemoryFragment.mk fragment_id project_id content "general" [] source
                        context_ids [] [] in
    Storage.store_fragment fragment embedding.

Definition get_fragment (fragment_id : string) : M (option MemoryFragment.t) :=
  Storage.get_fragment fragment_id.

(** fragments.py [delete_fragments] *)
Definition delete_fragments (fragment_ids : list string) (project_id : string)
    : M bool :=
  try_except
    (Storage.delete_fragments fragment_ids project_id)
    (fun _ => ret false).

(** fragments.py [delete_fragments] on whatever value reaches it; the log
    line takes its [len]. *)
Definition delete_fragments_value (fragment_ids : json) (project_id : string)
    : M bool :=
  try_except
    (let* success := Storage.delete_fragments_value fragment_ids project_id in
     match Json.len fragment_ids with
     | Some _ => ret success
     | None => raise (TypeError "object has no len()")
     end)
    (fun _ => ret false).

(** contexts.py [create_context] *)
Definition create_context (project_id name description : string)
    (custom_fields : list (string * json)) : M string :=
  let* n := Storage.next_tick in
  let context_id := uuid4 n in
  let context :=
    MemoryContext.mk context_id project_id name description [] None []
                     custom_fields 0 in
  Storage.create_context context.

Definition get_context (context_id : string) : M (option MemoryContext.t) :=
  Storage.get_context context_id.

Definition get_project (project_id : string) : M (option Project.t) :=
  Storage.get_project project_id.

Definition list_contexts_by_project (project_id : string)
    : M (list MemoryContext.t) :=
  Storage.list_contexts_by_project project_id.

(** search.py [search_memory_by_vector] *)
Definition search_memory_by_vector (query_vector : list Q)
    (options : SearchOptions.t) : M (list SearchResult.t) :=
  match SearchOptions.project_id options with
  | Some p =>
      if Py.truthy p then Storage.search_fragments query_vector options
      else raise (ValueError "No project specified for vector search")
  | None => raise (ValueError "No project specified for vector search")
  end.

End Memory.
End Memory.

(** ** The generative provider *)

(** The f-string templates of the prompts and messages.  Their text holds
    no logic; each is a total function of the values interpolated. *)
Class Prompts := {
  semantic_chunking_prompt : Z -> Z -> string -> string;
  summary_prompt : string -> string;
  concepts_prompt : string -> string;
  context_description_prompt : string -> json -> string;
  fallback_description_text : string -> string;
  _build_curation_prompt_with_context :
    string -> list SearchResult.t -> list MemoryContext.t -> string;
  contextual_synthesis_prompt :
    string -> list (string * option Project.t
                    * list (string * option MemoryContext.t
                            * list SearchResult.t)) -> string;
  legacy_synthesis_prompt : string -> list SearchResult.t -> string;
  general_context_description : string
}.

Module Gemini.
Section Gemini.
Context {E : Env}.

(** [client.models.generate_content(...).text] *)
Definition generate_content (prompt : string) : M string :=
  let* n := external (ProviderError "generate_content") in
  ret (llm_text n prompt).

Definition loads (text : string) : M json :=
  fun w => (json_loads text, w).

(** [_extract_json], shared by the chunkers and the synthesizer. *)
Definition _extract_json (text : string) : string :=
  if Py.contains "```json" text then
    let start := Py.find "```json" text 0 + 7 in
    let stop := Py.find "```" text (Z.to_nat start) in
    Py.strip (Py.slice text start stop)
  else if Py.contains "```" text then
    let start := Py.find "```" text 0 + 3 in
    let stop := Py.rfind "```" text in
    Py.strip (Py.slice text start stop)
  else text.

End Gemini.
End Gemini.

(** ** Semantic chunker (src/mcp/intelligence/chunking.py) *)

Module ChunkDraft.
(** The dictionary built for a chunk by the chunker itself. *)
Record t := mk {
  content : string;
  semantic_summary : string;
  key_concepts : list string;
  chunk_type : string;
  word_count : Z
}.

Definition to_json (c : t) : json :=
  JObj [("content", JStr (content c));
        ("semantic_summary", JStr (semantic_summary c));
        ("key_concepts", JArr (List.map JStr (key_concepts c)));
        ("chunk_type", JStr (chunk_type c));
        ("word_count", JNum (inject_Z (word_count c)))].
End ChunkDraft.

Module SemanticChunker.
Section Chunker.
Context {E : Env} {C : Config} {P : Prompts}.

Definition _semantic_chunking (content : string) : M json :=
  let prompt :=
    semantic_chunking_prompt min_chunk_words max_chunk_words content in
  try_except
    (let* text := Gemini.generate_content prompt in
     let result_text := Py.strip text in
     let result_text := Gemini._extract_json result_text in
     let* result := Gemini.loads result_text in
     match Json.get result "chunks" (JArr []) with
     | None => raise (AttributeError "get")
     | Some chunks =>
         match Json.len chunks with
         | None => raise (TypeError "len")
         | Some _ => ret chunks
         end
     end)
    (fun e => raise e).

Definition _extract_summary (content : string) : M string :=
  if Py.word_count content <=? 30 then
    ret (if (100 <? String.length content)%nat
         then Py.take 100 content +:+ "..." else content)
  else
    try_except
      (let* text := Gemini.generate_content (summary_prompt content) in
       ret (Py.strip text))
      (fun _ => ret (Py.take 100 content +:+ "...")).

(** The bullet character removed by the source lies outside the modelled
    character range, so only the hyphen removal acts. *)
Definition _extract_concepts (content : string) : M (list string) :=
  try_except
    (let* text := Gemini.generate_content (concepts_prompt content) in
     let concepts_text := Py.strip text in
     let concepts :=
       List.map (fun c => Py.remove "-" (Py.strip c))
         (List.filter (fun c => Py.truthy (Py.strip c))
                      (Py.split "," concepts_text)) in
     ret (take 5 concepts))
    (fun _ =>
     let words := take 10 (Py.split_ws content) in
     ret (take 3 (List.filter (fun w => (3 <? String.length w)%nat) words))).

Definition chunk_content (content : string) : M json :=
  let word_count := Py.word_count content in
  if word_count <=? max_chunk_words then
    let* summary := _extract_summary content in
    let* concepts := _extract_concepts content in
    ret (JArr [ChunkDraft.to_json
                 (ChunkDraft.mk content summary concepts "atomic" word_count)])
  else _semantic_chunking content.

Definition fallback_chunk (current_chunk : string) : ChunkDraft.t :=
  ChunkDraft.mk (Py.strip current_chunk)
                (Py.take 50 current_chunk +:+ "...")
                [] "fallback" (Py.word_count current_chunk).

(** One pass of the [for sentence in sentences] loop; the state is
    [(chunks, current_chunk)]. *)
Definition fallback_step (st : list ChunkDraft.t * string) (sentence : string)
    : list ChunkDraft.t * string :=
  let '(chunks, current_chunk) := st in
  let test_chunk :=
    if Py.truthy current_chunk
    then current_chunk +:+ ". " +:+ sentence else sentence in
  if (max_chunk_words <? Py.word_count test_chunk) && Py.truthy current_chunk
  then (chunks ++ [fallback_chunk current_chunk], sentence)
  else (chunks, test_chunk).

Definition _fallback_chunking (content : string) : list ChunkDraft.t :=
  let sentences := Py.split ". " content in
  let '(chunks, current_chunk) := foldl fallback_step ([], "") sentences in
  if Py.truthy current_chunk
  then chunks ++ [fallback_chunk current_chunk]
  else chunks.

End Chunker.
End SemanticChunker.

(** ** Context resolver (src/mcp/intelligence/contextualization.py) *)

(** The words of the specification's matching rule. *)
Module ResolverSpec.

Definition first_char (s : string) : option ascii :=
  match s with
  | EmptyString => None
  | String a _ => Some a
  end.

Fixpoint last_char (s : string) : option ascii :=
  match s with
  | EmptyString => None
  | String a EmptyString => Some a
  | String _ s' => last_char s'
  end.

(** The character at a border of a token: whitespace, or none at all. *)
Definition blank_or_none (a : option ascii) : Prop :=
  match a with
  | Some a => Py.isspace a = true
  | None => True
  end.

(** [x] is a token of [name]: a run of characters of [name], none of them
    whitespace, that cannot be extended to either side. *)
Definition is_token (x name : string) : Prop :=
  x <> EmptyString
  /\ (forall a, In a (String.list_ascii_of_string x) -> Py.isspace a = false)
  /\ exists pre post,
       name = pre +:+ x +:+ post
       /\ blank_or_none (last_char pre)
       /\ blank_or_none (first_char post).

End ResolverSpec.

Module ContextResolver.
Section Resolver.
Context {E : Env} {C : Config} {P : Prompts}.

Definition _normalize_context_name (name : string) : string :=
  Py.strip (Py.replace "-" " " (Py.replace "_" " " (Py.lower name))).

(** [set(n.split())] *)
Definition word_set (n : string) : gset string := list_to_set (Py.split_ws n).

(** The quotient [overlap / min_words] is a float in the source; both
    operands are word counts of a name, far below the range in which the
    rounded quotient and the exact one compare differently with 0.5. *)
Definition _contexts_match (name1 name2 : string) : bool :=
  let n1 := _normalize_context_name name1 in
  let n2 := _normalize_context_name name2 in
  if String.eqb n1 n2 then true
  else if Py.contains n1 n2 || Py.contains n2 n1 then true
  else
    let words1 := word_set n1 in
    let words2 := word_set n2 in
    if bool_decide (words1 = ∅) || bool_decide (words2 = ∅) then false
    else
      let overlap := size (words1 ∩ words2) in
      let min_words := Nat.min (size words1) (size words2) in
      Qle_bool (1 # 2)
        (inject_Z (Z.of_nat overlap) / inject_Z (Z.of_nat min_words)).

Definition double_quote : ascii := ascii_of_nat 34.

(** [', '.join(concepts[:3])] on whatever sits under "key_concepts". *)
Definition join_first_three (concepts : json) : M string :=
  match concepts with
  | JArr items =>
      match Json.strings (JArr (take 3 items)) with
      | Some names => ret (Py.join ", " names)
      | None => raise (TypeError "sequence item: expected str instance")
      end
  | JStr s =>
      ret (Py.join ", "
             (List.map (fun a => String a EmptyString)
                       (String.list_ascii_of_string (Py.take 3 s))))
  | _ => raise (TypeError "not subscriptable")
  end.

Definition _generate_context_description (context_name : string)
    (chunk_data : json) : M string :=
  match chunk_data with
  | JObj fields =>
      let prompt := context_description_prompt context_name chunk_data in
      try_except
        (let* text := Gemini.generate_content prompt in
         ret (Py.remove "'" (Py.remove double_quote (Py.strip text))))
        (fun _ =>
         let concepts :=
           from_option id (JArr []) (Dict.get fields "key_concepts") in
         let* joined := join_first_three concepts in
         ret (fallback_description_text joined))
  | _ => raise (AttributeError "get")
  end.

Definition _create_new_context (context_name project_id : string)
    (chunk_data : json) : M (option string) :=
  try_except
    (let* description :=
       _generate_context_description context_name chunk_data in
     match chunk_data with
     | JObj fields =>
         let custom_fields :=
           [("created_from_chunk", JBool true);
            ("initial_concepts",
             from_option id (JArr []) (Dict.get fields "key_concepts"));
            ("creation_reasoning",
             from_option id (JStr "") (Dict.get fields "context_reasoning"));
            ("emergent", JBool true)] in
         let* context_id :=
           Memory.create_context project_id context_name description
                                 custom_fields in
         ret (Some context_id)
     | _ => raise (AttributeError "get")
     end)
    (fun _ => ret None).

(** The list [existing_contexts] is the cached list itself; appending to it
    is seen through the cache, so the updated list is handed back. *)
Definition _resolve_single_context (context_name project_id : string)
    (existing_contexts : list MemoryContext.t) (chunk_data : json)
    : M (option string * list MemoryContext.t) :=
  match List.find
          (fun ctx => _contexts_match context_name (MemoryContext.name ctx))
          existing_contexts with
  | Some ctx => ret (Some (MemoryContext.id ctx), existing_contexts)
  | None =>
      let* context_id :=
        _create_new_context context_name project_id chunk_data in
      match context_id with
      | Some cid =>
          if Py.truthy cid then
            let new_context :=
              MemoryContext.mk cid project_id context_name "" [] None [] [] 0 in
            ret (context_id, existing_contexts ++ [new_context])
          else ret (context_id, existing_contexts)
      | None => ret (context_id, existing_contexts)
      end
  end.

Definition _get_cached_contexts (project_id : string)
    (_context_cache : gmap string (list MemoryContext.t))
    : M (list MemoryContext.t * gmap string (list MemoryContext.t)) :=
  match _context_cache !! project_id with
  | Some cached => ret (cached, _context_cache)
  | None =>
      try_except
        (let* contexts := Memory.list_contexts_by_project project_id in
         ret (contexts, <[project_id := contexts]> _context_cache))
        (fun _ => ret ([], <[project_id := []]> _context_cache))
  end.

Definition resolve_contexts (context_names : list string)
    (project_id : string) (chunk_data : json)
    (_context_cache : gmap string (list MemoryContext.t))
    : M (list string * gmap string (list MemoryContext.t)) :=
  let* '(existing_contexts, _context_cache) :=
    _get_cached_contexts project_id _context_cache in
  let* '(context_ids, existing_contexts) :=
    fold_m
      (fun '(context_ids, existing_contexts) context_name =>
         let* '(context_id, existing_contexts) :=
           _resolve_single_context context_name project_id
                                   existing_contexts chunk_data in
         match context_id with
         | Some cid =>
             if Py.truthy cid
             then ret (context_ids ++ [cid], existing_contexts)
             else ret (context_ids, existing_contexts)
         | None => ret (context_ids, existing_contexts)
         end)
      context_names ([], existing_contexts) in
  ret (context_ids, <[project_id := existing_contexts]> _context_cache).

Definition clear_cache (project_id : option string)
    (_context_cache : gmap string (list MemoryContext.t))
    : gmap string (list MemoryContext.t) :=
  match project_id with
  | Some p => if Py.truthy p then delete p _context_cache else ∅
  | None => ∅
  end.

End Resolver.
End ContextResolver.

(** ** Grouped recall (src/core/memory/search.py) *)

Module Search.
Section Search.
Context {E : Env} {C : Config}.

(** The [project_ids] argument: [None], one id, or a list of ids. *)
Inductive project_ids_arg : Type :=
  | AllProjects
  | OneProject (project_id : string)
  | Projects (project_ids : list string).

Definition group_key (sr : SearchResult.t) : string :=
  match MemoryFragment.context_ids (SearchResult.fragment sr) with
  | [] => "unassigned"
  | first :: _ => first
  end.

(** One pass of the inner loop over a project's results. *)
Definition bucket (groups : list (string * list SearchResult.t))
    (sr : SearchResult.t) : list (string * list SearchResult.t) :=
  let context_id := group_key sr in
  let groups :=
    if Dict.mem groups context_id then groups
    else Dict.set groups context_id [] in
  Dict.set groups context_id
           (from_option id [] (Dict.get groups context_id) ++ [sr]).

(** What one pass of the outer loop does with a project's results. *)
Definition add_project
    (grouped_results : list (string * list (string * list SearchResult.t)))
    (p_id : string) (project_search_results : list SearchResult.t)
    : list (string * list (string * list SearchResult.t)) :=
  match project_search_results with
  | [] => grouped_results
  | _ =>
      Dict.set grouped_results p_id (foldl bucket [] project_search_results)
  end.

Definition search_project (query_embedding : list Q) (options : SearchOptions.t)
    (grouped_results : list (string * list (string * list SearchResult.t)))
    (p_id : string)
    : M (list (string * list (string * list SearchResult.t))) :=
  let current_options := SearchOptions.with_project options p_id in
  let* project_search_results :=
    Storage.search_fragments query_embedding current_options in
  ret (add_project grouped_results p_id project_search_results).

Definition resolve_targets (project_ids : project_ids_arg)
    (default_project_id : option string) : M (list string) :=
  let* target_project_ids :=
    match project_ids with
    | AllProjects =>
        let* all_projects := Storage.list_projects in
        ret (List.map Project.id all_projects)
    | OneProject p => ret [p]
    | Projects ps => ret ps
    end in
  match target_project_ids with
  | [] =>
      match default_project_id with
      | Some d =>
          if Py.truthy d then ret [d]
          else raise (ValueError "No project specified")
      | None =>
          raise (ValueError "No project specified")
      end
  | _ => ret target_project_ids
  end.

Definition search_memory (query : string) (options : SearchOptions.t)
    (project_ids : project_ids_arg) (default_project_id : option string)
    : M (list (string * list (string * list SearchResult.t))) :=
  let* target_project_ids := resolve_targets project_ids default_project_id in
  let* query_embedding := EmbeddingService.generate_embedding query in
  fold_m (search_project query_embedding options) target_project_ids [].

End Search.
End Search.

(** ** Synthesizer (src/mcp/intelligence/synthesis.py) *)

Module MemorySynthesizer.
Section Synthesizer.
Context {E : Env} {C : Config} {P : Prompts}.

(** The text of the fallback answer: the number of fragments, in decimal,
    and the query. *)
Definition fallback_synthesis_text (fragment_count : nat) (query : string)
    : string :=
  "Found " +:+ pretty fragment_count
  +:+ " relevant fragments related to '" +:+ query +:+ "'. "
  +:+ "Manual review recommended due to synthesis processing limitations.".

(** The dictionary returned when the legacy synthesis fails as well. *)
Definition fallback_response (fragment_count : nat) (query : string) : json :=
  JObj [("synthesized_response",
         JStr (fallback_synthesis_text fragment_count query));
        ("confidence", JNum (3 # 10));
        ("information_coverage", JStr "partial");
        ("gaps", JArr [JStr "synthesis processing error"]);
        ("patterns_identified", JArr []);
        ("fragments_relevance", JObj [])].

(** The body of the [try] in [synthesize_legacy]. *)
Definition legacy_attempt (prompt : string) : M json :=
  let* text := Gemini.generate_content prompt in
  let synthesis_text := Py.strip text in
  let synthesis_text := Gemini._extract_json synthesis_text in
  Gemini.loads synthesis_text.

Definition synthesize_legacy (query : string)
    (fragments : list SearchResult.t) : M json :=
  let prompt := legacy_synthesis_prompt query fragments in
  try_except
    (legacy_attempt prompt)
    (fun _ => ret (fallback_response (length fragments) query)).

(** The loop that renders the grouped results: one project lookup per
    project and one context lookup per group. *)
Definition describe_groups
    (grouped_results : list (string * list (string * list SearchResult.t)))
    : M (list (string * option Project.t
               * list (string * option MemoryContext.t
                       * list SearchResult.t))) :=
  map_m
    (fun '(project_id, contexts_data) =>
       let* project := Memory.get_project project_id in
       let* groups :=
         map_m
           (fun '(context_id, search_results_list) =>
              let* context := Memory.get_context context_id in
              ret (context_id, context, search_results_list))
           contexts_data in
       ret (project_id, project, groups))
    grouped_results.

(** [all_contexts_info]: one entry per distinct context id. *)
Definition all_contexts_info
    (grouped_results : list (string * list (string * list SearchResult.t)))
    : list (string * unit) :=
  foldl (fun info context_id => Dict.setdefault info context_id tt) []
        (List.concat (List.map (fun pd => List.map fst pd.2) grouped_results)).

(** The body of the [try] in [synthesize_contextual]. *)
Definition contextual_attempt (prompt : string)
    (grouped_results : list (string * list (string * list SearchResult.t)))
    : M json :=
  let* text := Gemini.generate_content prompt in
  let synthesis_text := Py.strip text in
  let synthesis_text := Gemini._extract_json synthesis_text in
  let* synthesis := Gemini.loads synthesis_text in
  match synthesis with
  | JObj fields =>
      let fields := Dict.set fields "synthesis_type" (JStr "contextual") in
      let fields :=
        Dict.set fields "projects_used"
                 (JNum (inject_Z (Z.of_nat (length grouped_results)))) in
      let fields :=
        Dict.set fields "contexts_used"
          (JNum (inject_Z
                   (Z.of_nat (length (all_contexts_info grouped_results))))) in
      ret (JObj fields)
  | _ => raise (TypeError "object does not support item assignment")
  end.

Definition flatten
    (grouped_results : list (string * list (string * list SearchResult.t)))
    : list SearchResult.t :=
  List.concat
    (List.map (fun project_data => List.concat (List.map snd project_data.2))
              grouped_results).

(** [memory_service] is an optional constructor argument; the middleware
    always supplies it.  Without it the first lookup raises. *)
Definition synthesize_contextual (memory_service : bool) (query : string)
    (grouped_results : list (string * list (string * list SearchResult.t)))
    : M json :=
  let* described :=
    if memory_service then describe_groups grouped_results
    else match grouped_results with
         | [] => ret []
         | _ => raise (AttributeError "NoneType has no attribute get_project")
         end in
  let prompt := contextual_synthesis_prompt query described in
  try_except
    (contextual_attempt prompt grouped_results)
    (fun _ =>
       let flat_fragments := flatten grouped_results in
       synthesize_legacy query flat_fragments).

End Synthesizer.
End MemorySynthesizer.

(** ** Ingestion curator (src/mcp/intelligence/ingestion_curator.py) *)

Module CurationResult.
Record t := mk {
  created_fragment_ids : list string;
  created_context_ids : list string;
  deleted_ids : json
}.
End CurationResult.

(** The types the response schema of the decision call asks for:
    [ids_to_delete] a list of strings, [contexts_to_create] a list of
    objects whose "name" and "description" are strings,
    [fragments_to_create] a list of objects whose "content" and
    "context_name" are strings. *)
Module DecisionSchema.





End DecisionSchema.

Module IngestionCurator.
Section Curator.
Context {E : Env} {C : Config} {P : Prompts}.

Definition _get_curation_decision (new_content : string)
    (existing_fragments : list SearchResult.t)
    (existing_contexts : list MemoryContext.t) : M (list (string * json)) :=
  let prompt :=
    _build_curation_prompt_with_context
      new_content existing_fragments existing_contexts in
  try_except
    (let* text := Gemini.generate_content prompt in
     let* decision := Gemini.loads text in
     match decision with
     | JObj fields =>
         let fields := Dict.setdefault fields "contexts_to_create" (JArr []) in
         let fields := Dict.setdefault fields "fragments_to_create" (JArr []) in
         let fields := Dict.setdefault fields "ids_to_delete" (JArr []) in
         ret fields
     | _ => raise (AttributeError "setdefault")
     end)
    (fun e => raise e).

(** Step 1 of the apply.  The log line takes the [len] of the value, and
    the value is passed on as it is; the answer of the delete is dropped. *)
Definition delete_old_fragments (ids_to_delete : json) (project_id : string)
    : M unit :=
  if Json.truthy ids_to_delete then
    match Json.len ids_to_delete with
    | None => raise (TypeError "object has no len()")
    | Some _ =>
        let* _ := Memory.delete_fragments_value ids_to_delete project_id in
        ret tt
    end
  else ret tt.

(** [{ctx.name: ctx.id for ctx in existing_contexts}] *)
Definition initial_context_map (existing_contexts : list MemoryContext.t)
    : list (string * string) :=
  foldl (fun m ctx => Dict.set m (MemoryContext.name ctx) (MemoryContext.id ctx))
        [] existing_contexts.

(** One pass of the loop of step 2; the state is
    [(context_map, created_context_ids)].  A name or description that is
    not a string is refused when the context object is built, inside the
    [try]. *)
Definition create_one_context (project_id : string)
    (st : list (string * string) * list string) (context_data : json)
    : M (list (string * string) * list string) :=
  let '(context_map, created_context_ids) := st in
  match context_data with
  | JObj fields =>
      let name := from_option id JNull (Dict.get fields "name") in
      let desc := from_option id JNull (Dict.get fields "description") in
      if Json.truthy name && Json.truthy desc then
        match name with
        | JStr name_s =>
            if negb (Dict.mem context_map name_s) then
              match desc with
              | JStr desc_s =>
                  try_except
                    (let* new_context_id :=
                       Memory.create_context project_id name_s desc_s [] in
                     ret (Dict.set context_map name_s new_context_id,
                          created_context_ids ++ [new_context_id]))
                    (fun _ => ret st)
              | _ => ret st
              end
            else ret st
        | JArr _ | JObj _ => raise (TypeError "unhashable type")
        | _ => ret st
        end
      else ret st
  | _ => raise (AttributeError "get")
  end.

Definition create_new_contexts (contexts_to_create : json)
    (project_id : string) (context_map : list (string * string))
    : M (list (string * string) * list string) :=
  if Json.truthy contexts_to_create then
    match Json.iter contexts_to_create with
    | Some items =>
        fold_m (create_one_context project_id) items (context_map, [])
    | None => raise (TypeError "object is not iterable")
    end
  else ret (context_map, []).

(** [fragments_by_context[context_id].append(new_id)] on a
    [defaultdict(list)]. *)
Definition append_to (fragments_by_context : list (string * list string))
    (context_id new_id : string) : list (string * list string) :=
  Dict.set fragments_by_context context_id
    (from_option id [] (Dict.get fragments_by_context context_id) ++ [new_id]).

(** The lookup of the target context of a fragment, creating "general"
    when the name resolves to nothing. *)
Definition target_context (project_id : string)
    (context_map : list (string * string)) (context_name : json)
    : M (list (string * string) * string) :=
  let* context_id :=
    match context_name with
    | JStr n => ret (Dict.get context_map n)
    | JArr _ | JObj _ => raise (TypeError "unhashable type")
    | _ => ret None
    end in
  if match context_id with Some cid => Py.truthy cid | None => false end
  then ret (context_map, from_option id "" context_id)
  else
    let* context_map :=
      if Dict.mem context_map "general" then ret context_map
      else
        let* general_id :=
          Memory.create_context project_id "general"
                                general_context_description [] in
        ret (Dict.set context_map "general" general_id) in
    ret (context_map, from_option id "" (Dict.get context_map "general")).

(** One pass of the loop of step 3; the state is
    [(context_map, created_fragment_ids, fragments_by_context)]. *)
Definition create_one_fragment (project_id : string)
    (st : list (string * string) * list string * list (string * list string))
    (fragment_data : json)
    : M (list (string * string) * list string * list (string * list string)) :=
  let '(context_map, created_fragment_ids, fragments_by_context) := st in
  match fragment_data with
  | JObj fields =>
      let content := from_option id JNull (Dict.get fields "content") in
      let context_name :=
        from_option id JNull (Dict.get fields "context_name") in
      if negb (Json.truthy content) then ret st
      else
        match content with
        | JStr content_s =>
            if negb (Py.truthy (Py.strip content_s))
               || negb (Json.truthy context_name)
            then ret st
            else
              let* '(context_map, context_id) :=
                target_context project_id context_map context_name in
              try_except
                (let* new_id :=
                   Memory.store_fragment project_id content_s
                                         "curated_ingestion" [context_id] in
                 ret (context_map, created_fragment_ids ++ [new_id],
                      append_to fragments_by_context context_id new_id))
                (fun _ =>
                 ret (context_map, created_fragment_ids, fragments_by_context))
        | _ => raise (AttributeError "strip")
        end
  | _ => ret st
  end.

Definition create_new_fragments (fragments_to_create : json)
    (project_id : string) (context_map : list (string * string))
    : M (list (string * string) * list string * list (string * list string)) :=
  if Json.truthy fragments_to_create then
    match Json.iter fragments_to_create with
    | Some items =>
        fold_m (create_one_fragment project_id) items (context_map, [], [])
    | None => raise (TypeError "object is not iterable")
    end
  else ret (context_map, [], []).

(** [list(set(context.fragment_ids + new_fragment_ids))]; the order in
    which a set is listed is not specified. *)
Definition merge_members (current new_fragment_ids : list string)
    : list string :=
  elements (list_to_set (current ++ new_fragment_ids) : gset string).

(** One pass of the loop of step 4. *)
Definition update_one_context (entry : string * list string) : M unit :=
  let '(context_id, new_fragment_ids) := entry in
  match new_fragment_ids with
  | [] => ret tt
  | _ =>
      try_except
        (let* context := Memory.get_context context_id in
         match context with
         | Some context =>
             let all_fragment_ids :=
               merge_members (MemoryContext.fragment_ids context)
                             new_fragment_ids in
             let* _ :=
               Storage.update_context_fragments context_id all_fragment_ids in
             ret tt
         | None => ret tt
         end)
        (fun _ => ret tt)
  end.

Definition update_contexts (fragments_by_context : list (string * list string))
    : M unit :=
  for_each fragments_by_context update_one_context.

Definition _apply_curation_decision (decision : list (string * json))
    (project_id : string) (existing_contexts : list MemoryContext.t)
    : M CurationResult.t :=
  let ids_to_delete :=
    from_option id (JArr []) (Dict.get decision "ids_to_delete") in
  let contexts_to_create :=
    from_option id (JArr []) (Dict.get decision "contexts_to_create") in
  let fragments_to_create :=
    from_option id (JArr []) (Dict.get decision "fragments_to_create") in
  let* _ := delete_old_fragments ids_to_delete project_id in
  let context_map := initial_context_map existing_contexts in
  let* '(context_map, created_context_ids) :=
    create_new_contexts contexts_to_create project_id context_map in
  let* '(_, created_fragment_ids, fragments_by_context) :=
    create_new_fragments fragments_to_create project_id context_map in
  let* _ := update_contexts fragments_by_context in
  ret (CurationResult.mk created_fragment_ids created_context_ids
                         ids_to_delete).

(** The body of the [try] of step 1 of [curate_and_chunk]: embed and
    search. *)
Definition search_relevant (content project_id : string)
    : M (list SearchResult.t) :=
  let* embedding := EmbeddingService.generate_embedding content in
  let search_options :=
    SearchOptions.mk (Some project_id) search_max_results
                     curation_search_threshold None None in
  Memory.search_memory_by_vector embedding search_options.

(** Step 1 of [curate_and_chunk]. *)
Definition find_relevant_fragments (content project_id : string)
    : M (list SearchResult.t) :=
  try_except (search_relevant content project_id) (fun _ => ret []).

(** Step 1b of [curate_and_chunk]: fetch the existing contexts. *)
Definition fetch_existing_contexts (project_id : string)
    : M (list MemoryContext.t) :=
  try_except
    (Memory.list_contexts_by_project project_id)
    (fun _ => ret []).

(** The closing log line of [curate_and_chunk] takes the [len] of the
    three entries of the result; the two lists of created ids have one. *)
Definition log_completion (result : CurationResult.t) : M unit :=
  match Json.len (CurationResult.deleted_ids result) with
  | Some _ => ret tt
  | None => raise (TypeError "object has no len()")
  end.

Definition curate_and_chunk (content project_id : string)
    : M CurationResult.t :=
  let* relevant_fragments := find_relevant_fragments content project_id in
  let* existing_contexts := fetch_existing_contexts project_id in
  let* decision :=
    _get_curation_decision content relevant_fragments existing_contexts in
  let* result :=
    _apply_curation_decision decision project_id existing_contexts in
  let* _ := log_completion result in
  ret result.

End Curator.
End IngestionCurator.

(** ** Concrete configurations and environments used in the examples *)

Module Examples.

(** The default configuration of src/config/__init__.py. *)
Definition default_config : Config := {|
  max_chunk_words := 150;
  min_chunk_words := 20;
  max_content_length := 10000;
  search_max_results := 50;
  search_similarity_threshold := 6 # 10;
  curation_search_threshold := 4 # 10
|}.

(** A configuration with one-word chunks, to keep examples short. *)
Definition tiny_chunks : Config := {|
  max_chunk_words := 1;
  min_chunk_words := 0;
  max_content_length := 10000;
  search_max_results := 50;
  search_similarity_threshold := 6 # 10;
  curation_search_threshold := 4 # 10
|}.

Definition plain_prompts : Prompts := {|
  semantic_chunking_prompt := fun _ _ content => content;
  summary_prompt := fun content => content;
  concepts_prompt := fun content => content;
  context_description_prompt := fun name _ => name;
  fallback_description_text := fun joined => joined;
  _build_curation_prompt_with_context := fun content _ _ => content;
  contextual_synthesis_prompt := fun query _ => query;
  legacy_synthesis_prompt := fun query _ => query;
  general_context_description := "general"
|}.

(** The numbers of the examples: a whole number is an [int], compared by
    SQLite as its decimal text; the examples hold no other number. *)
Definition whole_numbers (n : nat) (q : Q) : py_number :=
  if (Qden q =? 1)%positive then PyInt (Some (pretty (Qnum q)))
  else PyFloat (pretty (Qnum q) +:+ "/" +:+ pretty (Zpos (Qden q))).

(** An environment whose external calls fail exactly at the ticks for which
    [failing] holds, whose provider always answers [answer], parsed as
    [parsed], and whose vector search returns [hits]. *)
Definition env (failing : nat -> bool) (answer : string) (parsed : result json)
    (hits : list (string * Q)) : Env := {|
  fault := failing;
  llm_text := fun _ _ => answer;
  json_loads := fun _ => parsed;
  embed_vector := fun _ _ => [];
  uuid4 := fun n => String (ascii_of_nat (97 + n)) EmptyString;
  qdrant_search := fun _ _ _ => hits;
  python_number := whole_numbers
|}.

Definition empty_world : World := mkWorld [] ∅ [] ∅ ∅ 0.

End Examples.

Module RecallExample.

(** Nothing fails, and the vector search returns every point of the
    collection with similarity 1. *)
Definition E : Env := {|
  fault := fun _ => false;
  llm_text := fun _ _ => "";
  json_loads := fun _ => Ok JNull;
  embed_vector := fun _ _ => [];
  uuid4 := fun _ => "";
  qdrant_search := fun points _ _ =>
    List.map (fun kv : string * list Q => (kv.1, 1%Q)) (map_to_list points);
  python_number := Examples.whole_numbers
|}.

Definition f1 : MemoryFragment.t :=
  MemoryFragment.mk "f1" "p1" "x marks the spot" "general" [] "user"
                    ["c1"] [] [].

Definition c1 : MemoryContext.t :=
  MemoryContext.mk "c1" "p1" "maps" "" ["f1"] None [] [] 1.

(** Project "p1" holds one fragment, filed under context "c1"; project
    "p2" holds nothing. *)
Definition w : World :=
  mkWorld [Project.mk "p2" "second" ""; Project.mk "p1" "first" ""]
          {["f1" := f1]} [c1] ∅
          {["project_p1" := {["f1" := []]}; "project_p2" := ∅]} 0.

Definition options : SearchOptions.t :=
  SearchOptions.mk None 50 (6 # 10) None None.

Definition hit : SearchResult.t := SearchResult.mk f1 1 (Some c1) [].

End RecallExample.

Module CurationExample.

(** External calls fail at the ticks [failing] holds for; the provider's
    answer always parses to [decision]; the vector search returns every
    point of the collection with similarity 1; fresh ids are "id0", "id1",
    ... by tick. *)
Definition env (failing : nat -> bool) (decision : result json) : Env := {|
  fault := failing;
  llm_text := fun _ _ => "";
  json_loads := fun _ => decision;
  embed_vector := fun _ _ => [];
  uuid4 := fun n => "id" +:+ String (ascii_of_nat (48 + n)) EmptyString;
  qdrant_search := fun points _ _ =>
    List.map (fun kv : string * list Q => (kv.1, 1%Q)) (map_to_list points);
  python_number := Examples.whole_numbers
|}.

(** The decision "delete f1, create nothing". *)
Definition delete_f1 : json :=
  JObj [("fragments_to_create", JArr []); ("ids_to_delete", JArr [JStr "f1"])].

End CurationExample.

(** ** Further parts of the code base

    The modules below embed the functions around the ones above: the rest
    of the embedding cache and the embedding service, the context-aware
    chunker, the remaining memory operations, the recall middleware and the
    two entry points of the cognitive engine. *)

(** *** Cache statistics (src/core/embedding/cache.py, [get_stats]) *)

Module CacheStats.
Record t := mk {
  total_entries : nat;
  valid_entries : nat;
  expired_entries : Z;
  hit_ratio : Q;
  ttl_hours : Q
}.
End CacheStats.

Module EmbeddingCacheStats.

(** The two dictionaries of the cache hold the same keys. *)
Definition keys_agree (c : EmbeddingCache.t) : Prop :=
  dom (EmbeddingCache._cache c)
  = (dom (EmbeddingCache._timestamps c) : gset string).

Definition get_stats (c : EmbeddingCache.t) (now : Z) : CacheStats.t :=
  let valid_entries :=
    length (List.filter
              (fun kt : string * Z =>
                 bool_decide (now - kt.2 < EmbeddingCache.ttl c))
              (map_to_list (EmbeddingCache._timestamps c))) in
  let total := size (EmbeddingCache._cache c) in
  CacheStats.mk total valid_entries
    (Z.of_nat total - Z.of_nat valid_entries)
    (inject_Z (Z.of_nat valid_entries) / inject_Z (Z.of_nat (Nat.max total 1)))
    (inject_Z (EmbeddingCache.ttl c)
     / inject_Z EmbeddingCache.microseconds_per_hour).

End EmbeddingCacheStats.

(** *** Embedding service (src/core/embedding/service.py) *)

Module CachedEmbeddingService.

(** What [generate_embedding] comes to: the vector, the [ValueError] for an
    empty text, or the [RuntimeError] of the provider. *)
Inductive outcome : Type :=
  | Embedded (embedding : EmbeddingCache.vector)
  | EmptyText
  | ProviderFailed.

(** The service object as the calls change it: the cache, and how often
    the clock was read, the provider called and the batch loop slept. *)
Record state := mk {
  cache : EmbeddingCache.t;
  clock_reads : nat;
  provider_calls : nat;
  sleeps : nat
}.

Section Service.
(** What lies outside the repository: the digest, the provider's model
    name, dimension and answers ([None] when the API call fails), by call,
    and the readings of [datetime.now()], by reading. *)
Variable md5_hexdigest : string -> string.
Variable model : string.
Variable dimension : Z.
Variable provider : nat -> string -> option EmbeddingCache.vector.
Variable clock : nat -> Z.

(** [__init__]: an empty cache with the given time to live. *)
Definition init (cache_ttl_hours : Z) : state :=
  mk (EmbeddingCache.init cache_ttl_hours) 0 0 0.

(** [self.cache.get(text, self.model)]: the clock is read inside
    [_is_valid], when the key is in both dictionaries. *)
Definition cache_get (text : string) (s : state)
    : option EmbeddingCache.vector * state :=
  let key := EmbeddingCache._generate_key md5_hexdigest text model in
  let reads_clock :=
    bool_decide (is_Some (EmbeddingCache._cache (cache s) !! key))
    && bool_decide (is_Some (EmbeddingCache._timestamps (cache s) !! key)) in
  let '(cached, c) :=
    EmbeddingCache.get md5_hexdigest (cache s) text model
                       (clock (clock_reads s)) in
  (cached,
   mk c (if reads_clock then S (clock_reads s) else clock_reads s)
      (provider_calls s) (sleeps s)).

(** [self.cache.set(text, self.model, embedding)] *)
Definition cache_set (text : string) (embedding : EmbeddingCache.vector)
    (s : state) : state :=
  mk (EmbeddingCache.set md5_hexdigest (cache s) text model embedding
                         (clock (clock_reads s)))
     (S (clock_reads s)) (provider_calls s) (sleeps s).

Definition generate_embedding (text : string) (s : state)
    : outcome * state :=
  if negb (Py.truthy text) || negb (Py.truthy (Py.strip text))
  then (EmptyText, s)
  else
    let '(cached_embedding, s) := cache_get text s in
    match cached_embedding with
    | Some cached_embedding => (Embedded cached_embedding, s)
    | None =>
        let answer := provider (provider_calls s) text in
        let s := mk (cache s) (clock_reads s) (S (provider_calls s))
                    (sleeps s) in
        match answer with
        | Some embedding => (Embedded embedding, cache_set text embedding s)
        | None => (ProviderFailed, s)
        end
    end.

(** [[0.0] * self.dimension] *)
Definition zero_vector : EmbeddingCache.vector :=
  replicate (Z.to_nat dimension) 0%Q.

(** One turn of the loop of [batch_embeddings].  [i % batch_size] raises
    [ZeroDivisionError] when [batch_size] is 0; it is raised after the
    append, inside the [try], and the handler appends the zero vector. *)
Definition batch_step (batch_size : Z) (i : Z) (text : string)
    (embeddings : list EmbeddingCache.vector) (s : state)
    : list EmbeddingCache.vector * state :=
  match generate_embedding text s with
  | (Embedded embedding, s) =>
      let embeddings := embeddings ++ [embedding] in
      if 0 <? i then
        if batch_size =? 0 then (embeddings ++ [zero_vector], s)
        else if i mod batch_size =? 0
             then (embeddings,
                   mk (cache s) (clock_reads s) (provider_calls s)
                      (S (sleeps s)))
             else (embeddings, s)
      else (embeddings, s)
  | (_, s) => (embeddings ++ [zero_vector], s)
  end.

Fixpoint batch_loop (batch_size : Z) (i : Z) (texts : list string)
    (embeddings : list EmbeddingCache.vector) (s : state)
    : list EmbeddingCache.vector * state :=
  match texts with
  | [] => (embeddings, s)
  | text :: texts =>
      let '(embeddings, s) := batch_step batch_size i text embeddings s in
      batch_loop batch_size (i + 1) texts embeddings s
  end.

(** [batch_embeddings], with [batch_size] resolved from the
    configuration; the delay is a number, so that the sleep does not
    raise. *)
Definition batch_embeddings (texts : list string) (batch_size : Z)
    (s : state) : list EmbeddingCache.vector * state :=
  match texts with
  | [] => ([], s)
  | _ => batch_loop batch_size 0 texts [] s
  end.

End Service.
End CachedEmbeddingService.

(** *** Ways of describing what a computation does *)

(** The computation returns a value from every world. *)
Definition never_raises {A} (m : M A) : Prop :=
  forall w, exists a w', m w = (Ok a, w').


(** Whatever the computation does, and whether it returns or raises, the
    world it leaves is related by [R] to the one it started from. *)
Definition respects {A} (R : World -> World -> Prop) (m : M A) : Prop :=
  forall w r w', m w = (r, w') -> R w w'.

(** Every fragment whose id is not in [ids] is still there, unchanged. *)
Definition fragments_kept_except (ids : list string) (w w' : World) : Prop :=
  forall fid f,
    fid ∉ ids -> fragments w !! fid = Some f -> fragments w' !! fid = Some f.

(** Every fragment whose id is not [named] is still there, unchanged. *)
Definition fragments_kept_unless (named : string -> Prop) (w w' : World)
    : Prop :=
  forall fid f,
    ~ named fid -> fragments w !! fid = Some f -> fragments w' !! fid = Some f.

(** Every fragment found afterwards was there before or satisfies [P]. *)
Definition new_fragments_satisfy (P : MemoryFragment.t -> Prop)
    (w w' : World) : Prop :=
  forall fid f,
    fragments w' !! fid = Some f -> fragments w !! fid = Some f \/ P f.

(** Every context is still there under its id, with its project, name and
    description, and with at least the members it had. *)
Definition contexts_kept (w w' : World) : Prop :=
  forall cid c,
    Storage.find_context cid (contexts w) = Some c ->
    exists c',
      Storage.find_context cid (contexts w') = Some c'
      /\ MemoryContext.project_id c' = MemoryContext.project_id c
      /\ MemoryContext.name c' = MemoryContext.name c
      /\ MemoryContext.description c' = MemoryContext.description c
      /\ MemoryContext.fragment_ids c ⊆ MemoryContext.fragment_ids c'.

(** Nothing was removed or altered, and nothing but contexts was added:
    the contexts of [w'] are those of [w] with new rows in front. *)
Definition only_contexts_added (w w' : World) : Prop :=
  (exists new, contexts w' = new ++ contexts w)
  /\ projects w' = projects w
  /\ fragments w' = fragments w
  /\ anchors w' = anchors w
  /\ forall name points,
       collections w !! name = Some points ->
       collections w' !! name = Some points.

(** Every id in [ids] is the id of a context of the list [existing]. *)
Definition ids_are_cached (ids : list string)
    (existing : list MemoryContext.t) : Prop :=
  forall cid, cid ∈ ids -> exists c, c ∈ existing /\ MemoryContext.id c = cid.

(** [fragment_count] is the number of members, for every context. *)
Definition counts_consistent (w : World) : Prop :=
  Forall (fun c => MemoryContext.fragment_count c
                   = Z.of_nat (length (MemoryContext.fragment_ids c)))
         (contexts w).

(** *** Context-aware chunker (src/mcp/intelligence/chunking.py) *)

(** The f-string of [_context_guided_chunking]. *)
Class ChunkerPrompts := {
  context_guided_chunking_prompt : string -> list MemoryContext.t -> string
}.

Module ContextualChunker.
Section Contextual.
Context {E : Env} {C : Config} {P : Prompts} {CP : ChunkerPrompts}.

(** Three item assignments on [chunk]; only a dict takes them. *)
Definition _add_context_suggestions (chunk : json) : M json :=
  match chunk with
  | JObj fields =>
      let fields :=
        Dict.set fields "suggested_contexts" (JArr [JStr "general"]) in
      let fields :=
        Dict.set fields "context_reasoning" (JStr "Fallback categorization") in
      let fields := Dict.set fields "context_confidence" (JNum (1 # 2)) in
      ret (JObj fields)
  | _ => raise (TypeError "object does not support item assignment")
  end.

(** [[self._add_context_suggestions(chunk, ...) for chunk in basic_chunks]] *)
Definition add_suggestions_to_all (basic_chunks : json) : M json :=
  match Json.iter basic_chunks with
  | Some items =>
      let* tagged := map_m _add_context_suggestions items in
      ret (JArr tagged)
  | None => raise (TypeError "object is not iterable")
  end.

Definition _get_project_contexts (project_id : string)
    : M (list MemoryContext.t) :=
  try_except
    (Memory.list_contexts_by_project project_id)
    (fun _ => ret []).

Definition _context_guided_chunking (content : string)
    (existing_contexts : list MemoryContext.t) : M json :=
  let prompt := context_guided_chunking_prompt content existing_contexts in
  try_except
    (let* text := Gemini.generate_content prompt in
     let result_text := Py.strip text in
     let result_text := Gemini._extract_json result_text in
     let* result := Gemini.loads result_text in
     match Json.get result "fragments" (JArr []) with
     | None => raise (AttributeError "get")
     | Some fragments =>
         match Json.len fragments with
         | None => raise (TypeError "len")
         | Some _ => ret fragments
         end
     end)
    (fun _ =>
     let* basic_chunks := SemanticChunker.chunk_content content in
     add_suggestions_to_all basic_chunks).

Definition chunk_with_context_awareness (content project_id : string)
    : M json :=
  let* existing_contexts := _get_project_contexts project_id in
  match existing_contexts with
  | [] =>
      let* basic_chunks := SemanticChunker.chunk_content content in
      add_suggestions_to_all basic_chunks
  | _ => _context_guided_chunking content existing_contexts
  end.

End Contextual.
End ContextualChunker.

(** *** Context membership (src/core/memory/contexts.py) *)

Module MemoryContexts.
Section Contexts.
Context {E : Env}.

Definition add_fragment_to_context (context_id fragment_id : string)
    : M bool :=
  try_except
    (let* context := Storage.get_context context_id in
     match context with
     | None => ret false
     | Some context =>
         if negb (bool_decide
                    (fragment_id ∈ MemoryContext.fragment_ids context))
         then
           let fragment_ids :=
             MemoryContext.fragment_ids context ++ [fragment_id] in
           Storage.update_context_fragments context_id fragment_ids
         else ret true
     end)
    (fun _ => ret false).

End Contexts.
End MemoryContexts.

(** *** Similar fragments (src/core/memory/search.py) *)

Module MemorySearch.
Section MemorySearch.
Context {E : Env} {C : Config}.

(** [xs[:n]] *)
Definition list_prefix {A} (n : Z) (xs : list A) : list A :=
  if n <? 0 then take (length xs - Z.to_nat (- n)) xs
  else take (Z.to_nat n) xs.

(** The flattening loop shared by the list-returning searches. *)
Definition flatten
    (grouped_results : list (string * list (string * list SearchResult.t)))
    : list SearchResult.t :=
  List.concat
    (List.map (fun project_group => List.concat (List.map snd project_group.2))
              grouped_results).

(** [search_memory] is called without [project_ids] and without a default
    project, so every project is searched. *)
Definition find_similar_fragments (fragment_id : string) (limit : Z)
    : M (list SearchResult.t) :=
  let* fragment := Storage.get_fragment fragment_id in
  match fragment with
  | None => raise (ValueError "Fragment not found")
  | Some fragment =>
      let options :=
        SearchOptions.mk (Some (MemoryFragment.project_id fragment))
                         (limit + 1) (3 # 10) None None in
      let* grouped_results :=
        Search.search_memory (MemoryFragment.content fragment) options
                             Search.AllProjects None in
      let results := flatten grouped_results in
      let similar_results :=
        List.filter
          (fun r => negb (String.eqb
                            (MemoryFragment.id (SearchResult.fragment r))
                            fragment_id))
          results in
      ret (list_prefix limit similar_results)
  end.

End MemorySearch.
End MemorySearch.

(** *** Memory service (src/core/memory/service.py) *)

Module MemoryService.
Section Service.
Context {E : Env} {C : Config}.

(** [search_memory]; [_default_project_id] is a field of the service. *)
Definition search_memory (_default_project_id : option string)
    (query : string) (project_ids : Search.project_ids_arg)
    (options : option SearchOptions.t)
    : M (list (string * list (string * list SearchResult.t))) :=
  let options :=
    match options with
    | Some options => options
    | None =>
        SearchOptions.mk None search_max_results search_similarity_threshold
                         None None
    end in
  Search.search_memory query options project_ids _default_project_id.

End Service.
End MemoryService.

(** *** Recall middleware (src/mcp/intelligence/middleware.py) *)

Module RecallResponse.
(** The dictionaries returned by [process_recall] and [recall]. *)
Inductive t : Type :=
  (** success False, "No valid project IDs provided." *)
  | NoValidProjects
  (** success True, "No information found." *)
  | NoInformation
  (** success True, the fragments grouped by project and context *)
  | RawFragments
      (grouped_fragments :
         list (string * list (string * list MemoryFragment.t)))
  (** the synthesis dictionary with "success": True put in front *)
  | Synthesis (fields : list (string * json))
  (** success False, error [str(e)] *)
  | Failed (e : exn).
End RecallResponse.

Module IntelligentMiddleware.
Section Middleware.
Context {E : Env} {C : Config} {P : Prompts}.

Definition found_any_results
    (search_results_grouped :
       list (string * list (string * list SearchResult.t))) : bool :=
  existsb
    (fun project_results =>
       existsb (fun context_results =>
                  match context_results.2 with [] => false | _ => true end)
               project_results.2)
    search_results_grouped.

Definition raw_output
    (search_results_grouped :
       list (string * list (string * list SearchResult.t)))
    : list (string * list (string * list MemoryFragment.t)) :=
  foldl
    (fun out pc =>
       Dict.set out pc.1
         (foldl (fun ctxs cr =>
                   Dict.set ctxs cr.1 (List.map SearchResult.fragment cr.2))
                [] pc.2))
    [] search_results_grouped.

(** [{"success": True, **synthesis}] *)
Definition with_success (synthesis : json) : M (list (string * json)) :=
  match synthesis with
  | JObj fields =>
      ret (foldl (fun d kv => Dict.set d kv.1 kv.2)
                 [("success", JBool true)] fields)
  | _ => raise (TypeError "argument after ** must be a mapping")
  end.

Definition curate_and_chunk (content project_id : string)
    : M CurationResult.t :=
  IngestionCurator.curate_and_chunk content project_id.

Definition process_recall (_default_project_id : option string)
    (query : string) (project_ids : Search.project_ids_arg)
    (raw_fragments : bool) : M RecallResponse.t :=
  let* search_results_grouped :=
    MemoryService.search_memory _default_project_id query project_ids None in
  if negb (found_any_results search_results_grouped)
  then ret RecallResponse.NoInformation
  else if raw_fragments
  then ret (RecallResponse.RawFragments (raw_output search_results_grouped))
  else
    let* synthesis :=
      MemorySynthesizer.synthesize_contextual true query
                                              search_results_grouped in
    let* response := with_success synthesis in
    ret (RecallResponse.Synthesis response).

End Middleware.
End IntelligentMiddleware.

(** *** Cognitive engine (src/mcp/server/cognitive_engine.py) *)

Module RememberResponse.
Inductive t : Type :=
  (** success False, "Invalid format for project_id" *)
  | InvalidProjectId (project_id : string)
  (** success False, "Project with ID ... not found." *)
  | ProjectNotFound (project_id : string)
  (** success True, with the two counts of the message and the details *)
  | Ingested (created deleted : nat) (details : CurationResult.t)
  (** success False, error [str(e)] *)
  | Failed (e : exn).

Definition success (r : t) : bool :=
  match r with Ingested _ _ _ => true | _ => false end.
End RememberResponse.

Module CognitiveEngine.
Section Engine.
Context {E : Env} {C : Config} {P : Prompts}.

(** [uuid.UUID(s)] accepts [s]; the parser belongs to the standard
    library. *)
Variable uuid_parses : string -> bool.

Definition _is_valid_uuid (uuid_string : string) : bool :=
  uuid_parses uuid_string.

(** The [try] block of [remember]. *)
Definition remember_attempt (content project_id : string)
    : M RememberResponse.t :=
  if negb (_is_valid_uuid project_id)
  then ret (RememberResponse.InvalidProjectId project_id)
  else
    let* project := Memory.get_project project_id in
    match project with
    | None => ret (RememberResponse.ProjectNotFound project_id)
    | Some _ =>
        let* result :=
          IntelligentMiddleware.curate_and_chunk content project_id in
        let created :=
          (length (CurationResult.created_fragment_ids result)
           + length (CurationResult.created_context_ids result))%nat in
        match Json.len (CurationResult.deleted_ids result) with
        | Some deleted =>
            ret (RememberResponse.Ingested created deleted result)
        | None => raise (TypeError "object has no len()")
        end
    end.

(** [is_ready] is what [self.server.is_ready()] answers. *)
Definition remember (is_ready : bool) (content project_id : string)
    : M RememberResponse.t :=
  if negb is_ready then raise (RuntimeError "Services not ready")
  else
    try_except
      (remember_attempt content project_id)
      (fun e => ret (RememberResponse.Failed e)).

(** The [try] block of [recall]. *)
Definition recall_attempt (_default_project_id : option string)
    (query : string) (project_ids : Search.project_ids_arg)
    (raw_fragments : bool) : M RecallResponse.t :=
  let ids_to_check :=
    match project_ids with
    | Search.AllProjects => None
    | Search.OneProject p => if Py.truthy p then Some [p] else None
    | Search.Projects [] => None
    | Search.Projects ps => Some ps
    end in
  match ids_to_check with
  | None =>
      IntelligentMiddleware.process_recall _default_project_id query
                                           Search.AllProjects raw_fragments
  | Some ids_to_check =>
      let* all_projects := Storage.list_projects in
      let valid_id_set : gset string :=
        list_to_set (List.map Project.id all_projects) in
      let validated_project_ids :=
        List.filter (fun pid => bool_decide (pid ∈ valid_id_set))
                    ids_to_check in
      match validated_project_ids with
      | [] => ret RecallResponse.NoValidProjects
      | _ =>
          IntelligentMiddleware.process_recall _default_project_id query
            (Search.Projects validated_project_ids) raw_fragments
      end
  end.

Definition recall (is_ready : bool) (_default_project_id : option string)
    (query : string) (project_ids : Search.project_ids_arg)
    (raw_fragments : bool) : M RecallResponse.t :=
  if negb is_ready then raise (RuntimeError "Services not ready")
  else
    try_except
      (recall_attempt _default_project_id query project_ids raw_fragments)
      (fun e => ret (RecallResponse.Failed e)).

End Engine.
End CognitiveEngine.

(** The fragment ids that a value names when it is passed on as the ids
    to delete: the texts that SQLite compares with the [id] column for the
    items of the value.  A string names itself. *)
Definition names_fragment {E : Env} (ids_to_delete : json)
    (fragment_id : string) : Prop :=
  exists items item n,
    Json.iter ids_to_delete = Some items
    /\ item ∈ items
    /\ Storage.bind_parameter n item = Some (Some fragment_id).

(** A fragment as the curation stores it: in the project, from the
    source "curated_ingestion", in the default category, filed under
    exactly one context, with content that is not blank. *)
Definition curated (project_id : string) (f : MemoryFragment.t) : Prop :=
  MemoryFragment.project_id f = project_id
  /\ MemoryFragment.source f = "curated_ingestion"
  /\ MemoryFragment.category f = "general"
  /\ (exists context_id, MemoryFragment.context_ids f = [context_id])
  /\ Py.truthy (Py.strip (MemoryFragment.content f)) = true.

(** The context table is well formed: ids are unique and every
    [fragment_count] is the number of members. *)
Definition contexts_well_formed (w : World) : Prop :=
  NoDup (List.map MemoryContext.id (contexts w)) /\ counts_consistent w.

(** Well-formedness of the context table carries over from [w] to [w']. *)
Definition keeps_well_formed (w w' : World) : Prop :=
  contexts_well_formed w -> contexts_well_formed w'.

(** The ids in [created] are distinct and each names a stored fragment,
    curated for the project. *)
Definition created_fragments_stored (project_id : string)
    (created : list string) (w : World) : Prop :=
  NoDup created
  /\ forall fid, fid ∈ created ->
       exists f, fragments w !! fid = Some f
                 /\ MemoryFragment.id f = fid /\ curated project_id f.

(** The ids in [created] are distinct and each names a stored context of
    the project. *)
Definition created_contexts_stored (project_id : string)
    (created : list string) (w : World) : Prop :=
  NoDup created
  /\ forall cid, cid ∈ created ->
       exists c, Storage.find_context cid (contexts w) = Some c
                 /\ MemoryContext.project_id c = project_id.

(** The content kept by [store_fragment]: cut at [max_content_length]. *)
Definition stored_content {C : Config} (content : string) : string :=
  if max_content_length <? Z.of_nat (String.length content)
  then Py.slice content 0 max_content_length else content.

(** The row written by [store_fragment] under the id [fragment_id]. *)
Definition stored_fragment {C : Config}
    (project_id content source : string) (context_ids : list string)
    (fragment_id : string) : MemoryFragment.t :=
  MemoryFragment.mk fragment_id project_id (stored_content content) "general"
                    [] source context_ids [] [].

(** The dictionary of the atomic chunk of [content] once
    [_add_context_suggestions] has added its three entries. *)
Definition tagged_atomic_chunk (content summary : string)
    (concepts : list string) : json :=
  JObj [("content", JStr content);
        ("semantic_summary", JStr summary);
        ("key_concepts", JArr (List.map JStr concepts));
        ("chunk_type", JStr "atomic");
        ("word_count", JNum (inject_Z (Py.word_count content)));
        ("suggested_contexts", JArr [JStr "general"]);
        ("context_reasoning", JStr "Fallback categorization");
        ("context_confidence", JNum (1 # 2))].

(** A search result whose fragment is a row of the fragment table, as
    [_row_to_fragment] reads it, and whose context, when it has one, is the
    row of the fragment's first context id. *)
Definition is_stored_hit (w : World) (sr : SearchResult.t) : Prop :=
  (exists fragment_id row,
     fragments w !! fragment_id = Some row
     /\ SearchResult.fragment sr = Storage._row_to_fragment row)
  /\ match SearchResult.context sr with
     | Some context =>
         exists first rest,
           MemoryFragment.context_ids (SearchResult.fragment sr)
           = first :: rest
           /\ Storage.find_context first (contexts w) = Some context
     | None => True
     end.

(** *** Further examples *)

Module MoreExamples.

Definition plain_chunker_prompts : ChunkerPrompts := {|
  context_guided_chunking_prompt := fun content _ => content
|}.

(** The decision "delete zz, create the context notes, file one fragment
    under it". *)
Definition file_a_note : json :=
  JObj [("ids_to_delete", JArr [JStr "zz"]);
        ("contexts_to_create",
         JArr [JObj [("name", JStr "notes");
                     ("description", JStr "Loose notes")]]);
        ("fragments_to_create",
         JArr [JObj [("content", JStr "buy milk");
                     ("context_name", JStr "notes")]])].

(** Nothing fails and every answer of the provider parses to
    [file_a_note]. *)
Definition note_env : Env :=
  CurationExample.env (fun _ => false) (Ok file_a_note).

(** The decision "delete f1 and 3, create nothing": its [ids_to_delete]
    is not a list of strings. *)
Definition delete_f1_and_3 : json :=
  JObj [("ids_to_delete", JArr [JStr "f1"; JNum 3]);
        ("fragments_to_create", JArr [])].


Definition mixed_env : Env :=
  CurationExample.env (fun _ => false) (Ok delete_f1_and_3).

Definition f2 : MemoryFragment.t :=
  MemoryFragment.mk "f2" "p1" "here be dragons" "" [] "" ["c1"] [] [].

(** The fragment "f2" as [_row_to_fragment] reads it. *)
Definition f2_as_read : MemoryFragment.t :=
  MemoryFragment.mk "f2" "p1" "here be dragons" "general" [] "user" ["c1"]
                    [] [].

(** Project "p1" holds the one fragment "f2". *)
Definition one_blank_row : World :=
  mkWorld [Project.mk "p2" "second" ""; Project.mk "p1" "first" ""]
          {["f2" := f2]} [RecallExample.c1] ∅
          {["project_p1" := {["f2" := []]}; "project_p2" := ∅]} 0.

Definition hit_f2 : SearchResult.t :=
  SearchResult.mk f2_as_read 1 (Some RecallExample.c1) [].

(** [RecallExample.w] with a second fragment, stored with an empty
    category and an empty source. *)
Definition two_fragments : World :=
  mkWorld [Project.mk "p2" "second" ""; Project.mk "p1" "first" ""]
          {["f1" := RecallExample.f1; "f2" := f2]} [RecallExample.c1] ∅
          {["project_p1" := {["f1" := []; "f2" := []]}; "project_p2" := ∅]}
          0.

End MoreExamples.
(** * Properties *)

(** ** Embedding cache *)

Section CacheProperties.
Variable md5_hexdigest : string -> string.

Abbreviation get := (EmbeddingCache.get md5_hexdigest).
Abbreviation set := (EmbeddingCache.set md5_hexdigest).
Abbreviation key := (EmbeddingCache._generate_key md5_hexdigest).

Lemma cache_get_fresh c text model v stored now :
  now - stored < EmbeddingCache.ttl c ->
  get (set c text model v stored) text model now
  = (Some v, set c text model v stored).
Proof.
  intros Hage. unfold EmbeddingCache.get, EmbeddingCache.set,
    EmbeddingCache._is_valid; simpl.
  rewrite !lookup_insert_eq.
  rewrite !bool_decide_eq_true_2 by (eauto || lia).
  reflexivity.
Qed.

Lemma cache_get_expired c text model v stamp now :
  EmbeddingCache._cache c !! key text model = Some v ->
  EmbeddingCache._timestamps c !! key text model = Some stamp ->
  EmbeddingCache.ttl c <= now - stamp ->
  get c text model now = (None, EmbeddingCache._remove c (key text model)).
Proof.
  intros Hv Hs Hage. unfold EmbeddingCache.get, EmbeddingCache._is_valid.
  rewrite Hv, Hs.
  rewrite (bool_decide_eq_true_2 (is_Some (Some v))) by eauto.
  rewrite bool_decide_eq_false_2 by lia.
  reflexivity.
Qed.

Lemma cache_get_keeps_others c text model now k :
  k <> key text model ->
  EmbeddingCache._cache (get c text model now).2 !! k
  = EmbeddingCache._cache c !! k
  /\ EmbeddingCache._timestamps (get c text model now).2 !! k
     = EmbeddingCache._timestamps c !! k.
Proof.
  intros Hk. unfold EmbeddingCache.get.
  repeat case_match; simpl; rewrite ?lookup_delete_ne by congruence; auto.
Qed.

(** C8.  Storing a vector and reading it back before the time-to-live has
    elapsed returns that vector and leaves the cache as it was; reading an
    entry whose age has reached the time-to-live returns nothing and drops
    both the value and the timestamp of that entry; and neither [set] nor
    [get] ever removes or alters the entry of another key, so nothing is
    evicted for reasons of size. *)
Theorem cache_roundtrip_and_expiry :
  forall (c : EmbeddingCache.t) (text model : string)
         (v : EmbeddingCache.vector) (stored now : Z),
    (now - stored < EmbeddingCache.ttl c ->
     get (set c text model v stored) text model now
     = (Some v, set c text model v stored))
    /\ (forall old stamp,
          EmbeddingCache._cache c !! key text model = Some old ->
          EmbeddingCache._timestamps c !! key text model = Some stamp ->
          EmbeddingCache.ttl c <= now - stamp ->
          exists c',
            get c text model now = (None, c')
            /\ EmbeddingCache._cache c' !! key text model = None
            /\ EmbeddingCache._timestamps c' !! key text model = None)
    /\ (forall k,
          k <> key text model ->
          EmbeddingCache._cache (set c text model v stored) !! k
          = EmbeddingCache._cache c !! k
          /\ EmbeddingCache._timestamps (set c text model v stored) !! k
             = EmbeddingCache._timestamps c !! k
          /\ EmbeddingCache._cache (get c text model now).2 !! k
             = EmbeddingCache._cache c !! k
          /\ EmbeddingCache._timestamps (get c text model now).2 !! k
             = EmbeddingCache._timestamps c !! k).
Proof.
  intros c text model v stored now. split; [|split].
  - apply cache_get_fresh.
  - intros old stamp Hv Hs Hage.
    exists (EmbeddingCache._remove c (key text model)). split.
    + eapply cache_get_expired; eauto.
    + simpl. split; apply lookup_delete_eq.
  - intros k Hk. simpl. rewrite !lookup_insert_ne by congruence.
    split; [reflexivity|]. split; [reflexivity|].
    apply cache_get_keeps_others; assumption.
Qed.

End CacheProperties.

(** A day-long cache holding one entry stored at time 0, read a full day
    later: a fresh [set] at that instant is read back, while the old entry
    has expired and is dropped. *)
Lemma cache_roundtrip_and_expiry_witness :
  let c := EmbeddingCache.set id (EmbeddingCache.init 24) "hello" "m" [1 # 2] 0 in
  let day := 24 * EmbeddingCache.microseconds_per_hour in
  EmbeddingCache.get id (EmbeddingCache.set id c "hello" "m" [3 # 4] day)
                     "hello" "m" day
  = (Some [3 # 4], EmbeddingCache.set id c "hello" "m" [3 # 4] day)
  /\ exists c',
       EmbeddingCache.get id c "hello" "m" day = (None, c')
       /\ EmbeddingCache._cache c' !! EmbeddingCache._generate_key id "hello" "m"
          = None
       /\ EmbeddingCache._timestamps c'
            !! EmbeddingCache._generate_key id "hello" "m" = None.
Proof.
  intros c day.
  destruct (cache_roundtrip_and_expiry id c "hello" "m" [3 # 4] day day)
    as [Hfresh [Hexpired _]].
  split.
  - apply Hfresh. reflexivity.
  - apply (Hexpired [1 # 2] 0).
    + reflexivity.
    + reflexivity.
    + discriminate.
Defined.

(** ** Python strings: splitting, joining and stripping *)

#[local] Arguments String.append : simpl nomatch.

Section PyLemmas.

Lemma app_nil_r_str (s : string) : s +:+ "" = s.
Proof. induction s as [|a s IH]; simpl; [reflexivity | by rewrite IH]. Qed.

Lemma app_assoc_str (a b c : string) : (a +:+ b) +:+ c = a +:+ (b +:+ c).
Proof. induction a as [|x a IH]; simpl; [reflexivity | by rewrite IH]. Qed.

Lemma prefix_spec (p s : string) :
  String.prefix p s = true <-> exists r, s = p +:+ r.
Proof.
  revert s. induction p as [|a p IH]; intros s.
  - destruct s; simpl; split; eauto.
  - destruct s as [|b s]; simpl.
    + split; [discriminate | intros [r Hr]; discriminate].
    + destruct (ascii_dec a b) as [->|Hne].
      * rewrite IH. split; intros [r Hr]; exists r; congruence.
      * split; [discriminate | intros [r Hr]; congruence].
Qed.

Lemma drop_app_length (p r : string) : Py.drop (String.length p) (p +:+ r) = r.
Proof. induction p as [|a p IH]; simpl; [by destruct r | exact IH]. Qed.

Lemma split_from_nonempty sep k s : Py.split_from sep k s <> [].
Proof.
  revert k. induction s as [|a s IH]; intros k; [discriminate|].
  cbn [Py.split_from]. destruct k; [|apply IH].
  destruct (String.prefix sep (String a s)); [discriminate|].
  destruct (Py.split_from sep 0 s); discriminate.
Qed.

Lemma join_cons sep x xs :
  xs <> [] -> Py.join sep (x :: xs) = x +:+ sep +:+ Py.join sep xs.
Proof. destruct xs; [congruence | reflexivity]. Qed.

Lemma join_split_from sep k s :
  sep <> "" -> Py.join sep (Py.split_from sep k s) = Py.drop k s.
Proof.
  intros Hsep. revert k. induction s as [|a s IH]; intros k.
  - by destruct k.
  - destruct k as [|k]; [|simpl; apply IH].
    cbn [Py.split_from Py.drop].
    destruct (String.prefix sep (String a s)) eqn:Hp.
    + rewrite join_cons by apply split_from_nonempty.
      rewrite IH. apply prefix_spec in Hp as [r Hr].
      destruct sep as [|b sep]; [congruence|].
      simpl in Hr. injection Hr as -> ->.
      simpl. rewrite Nat.sub_0_r, drop_app_length. reflexivity.
    + specialize (IH 0%nat).
      destruct (Py.split_from sep 0 s) as [|w ws] eqn:Hs.
      { by apply split_from_nonempty in Hs. }
      destruct ws as [|w' ws]; simpl in *; by rewrite IH.
Qed.

(** [sep.join(s.split(sep)) == s] *)
Lemma join_split sep s : sep <> "" -> Py.join sep (Py.split sep s) = s.
Proof. intros Hsep. unfold Py.split. by rewrite join_split_from. Qed.

Lemma join_snoc sep xs x :
  xs <> [] -> Py.join sep (xs ++ [x]) = Py.join sep xs +:+ sep +:+ x.
Proof.
  induction xs as [|y ys IH]; [congruence|]. intros _.
  destruct ys as [|z ys]; [reflexivity|].
  change ((y :: z :: ys) ++ [x]) with (y :: ((z :: ys) ++ [x])).
  rewrite join_cons by (simpl; discriminate).
  rewrite IH by discriminate.
  rewrite (join_cons sep y (z :: ys)) by discriminate.
  by rewrite !app_assoc_str.
Qed.

Lemma lstrip_app a b : a <> "" -> Py.lstrip a = a -> Py.lstrip (a +:+ b) = a +:+ b.
Proof.
  destruct a as [|x a]; [congruence|]. intros _ H. simpl in *.
  destruct (Py.isspace x); [|reflexivity].
  exfalso. assert (Hlen : forall s, (String.length (Py.lstrip s) <= String.length s)%nat).
  { induction s as [|y s IHs]; simpl; [lia|]. destruct (Py.isspace y); simpl; lia. }
  specialize (Hlen a). rewrite H in Hlen. simpl in Hlen. lia.
Qed.

Lemma rstrip_app a b : b <> "" -> Py.rstrip b = b -> Py.rstrip (a +:+ b) = a +:+ b.
Proof.
  intros Hb H. induction a as [|x a IH]; simpl; [exact H|].
  rewrite IH. destruct (a +:+ b) eqn:Hab; [|reflexivity].
  destruct a; simpl in Hab; congruence.
Qed.

Lemma lstrip_idem s : Py.lstrip (Py.lstrip s) = Py.lstrip s.
Proof.
  induction s as [|a s IH]; simpl; [reflexivity|].
  destruct (Py.isspace a) eqn:Ha; [exact IH|]. simpl. by rewrite Ha.
Qed.

End PyLemmas.

Section PyWords.

Lemma split_ws_unfold a s :
  Py.split_ws (String a s)
  = if Py.isspace a then Py.split_ws s
    else match s with
         | EmptyString => [String a EmptyString]
         | String b _ =>
             if Py.isspace b then String a EmptyString :: Py.split_ws s
             else match Py.split_ws s with
                  | w :: ws => String a w :: ws
                  | [] => [String a EmptyString]
                  end
         end.
Proof. reflexivity. Qed.

Lemma split_ws_lstrip s : Py.split_ws (Py.lstrip s) = Py.split_ws s.
Proof.
  induction s as [|a s IH]; [reflexivity|].
  cbn [Py.lstrip Py.split_ws]. destruct (Py.isspace a) eqn:Ha; [exact IH|].
  cbn [Py.split_ws]. by rewrite Ha.
Qed.

Lemma rstrip_head a s :
  Py.rstrip (String a s) = ""
  \/ exists r, Py.rstrip (String a s) = String a r.
Proof.
  cbn [Py.rstrip]. destruct (Py.rstrip s); [|eauto].
  destruct (Py.isspace a); eauto.
Qed.

Lemma rstrip_empty_spaces s :
  Py.rstrip s = "" ->
  Py.split_ws s = [] /\ match s with String b _ => Py.isspace b = true | _ => True end.
Proof.
  induction s as [|a s IH]; [done|].
  cbn [Py.rstrip]. destruct (Py.rstrip s) eqn:Hr; [|discriminate].
  destruct (Py.isspace a) eqn:Ha; [|discriminate]. intros _.
  cbn [Py.split_ws]. rewrite Ha. split; [by apply IH | reflexivity].
Qed.

Lemma split_ws_rstrip s : Py.split_ws (Py.rstrip s) = Py.split_ws s.
Proof.
  induction s as [|a s IH]; [reflexivity|].
  cbn [Py.rstrip]. destruct (Py.rstrip s) as [|b r] eqn:Hr.
  - apply rstrip_empty_spaces in Hr as [Hw Hs].
    destruct (Py.isspace a) eqn:Ha; cbn [Py.split_ws]; rewrite Ha.
    + by rewrite Hw.
    + destruct s as [|c s]; [reflexivity|]. by rewrite Hs, Hw.
  - destruct s as [|c s]; [discriminate|].
    destruct (rstrip_head c s) as [He|[r' He]]; rewrite He in Hr; [discriminate|].
    injection Hr as -> ->.
    rewrite (split_ws_unfold a (String b r)), (split_ws_unfold a (String b s)).
    rewrite IH. reflexivity.
Qed.

(** Stripping a string does not change its words. *)
Lemma word_count_strip s : Py.word_count (Py.strip s) = Py.word_count s.
Proof.
  unfold Py.word_count, Py.strip. by rewrite split_ws_rstrip, split_ws_lstrip.
Qed.

End PyWords.

(** ** Semantic chunker *)

Section ChunkerProperties.
Context {C : Config}.

Abbreviation tidy := Py.tidy.

Ltac nonempty_list :=
  let H := fresh in
  intros H; apply (f_equal length) in H;
  rewrite ?length_app in H; simpl in H; lia.

Lemma tidy_strip s : tidy s -> Py.strip s = s.
Proof. intros (_ & Hl & Hr). unfold Py.strip. by rewrite Hl. Qed.

Lemma tidy_truthy s : tidy s -> Py.truthy s = true.
Proof. intros (Hne & _). by destruct s. Qed.

Lemma tidy_extend cur s : tidy cur -> tidy s -> tidy (cur +:+ ". " +:+ s).
Proof.
  intros (Hc & Hcl & Hcr) (Hs & Hsl & Hsr). split; [|split].
  - destruct cur; [congruence | discriminate].
  - by apply lstrip_app.
  - change (cur +:+ ". " +:+ s) with (cur +:+ (". " +:+ s)).
    rewrite <- app_assoc_str. by apply rstrip_app.
Qed.

Lemma join_app_congr sep (A A' B : list string) :
  A <> [] -> A' <> [] -> Py.join sep A = Py.join sep A' ->
  Py.join sep (A ++ B) = Py.join sep (A' ++ B).
Proof.
  intros HA HA' Heq. induction B as [|b B IH] using rev_ind.
  - by rewrite !app_nil_r.
  - rewrite !app_assoc.
    rewrite !join_snoc
      by (intros [? _]%app_eq_nil; contradiction).
    by rewrite IH.
Qed.

Lemma fallback_step_unfold chunks cur s :
  SemanticChunker.fallback_step (chunks, cur) s
  = if Py.truthy cur
    then if max_chunk_words <? Py.word_count (cur +:+ ". " +:+ s)
         then (chunks ++ [SemanticChunker.fallback_chunk cur], s)
         else (chunks, cur +:+ ". " +:+ s)
    else (chunks, s).
Proof.
  unfold SemanticChunker.fallback_step. destruct (Py.truthy cur).
  - by rewrite andb_true_r.
  - by rewrite andb_false_r.
Qed.

Lemma fallback_fold_join sentences :
  forall chunks cur,
    Forall (fun s => tidy s) sentences -> tidy cur ->
    tidy (foldl SemanticChunker.fallback_step (chunks, cur) sentences).2
    /\ Py.join ". "
         (List.map ChunkDraft.content
            (foldl SemanticChunker.fallback_step (chunks, cur) sentences).1
          ++ [(foldl SemanticChunker.fallback_step (chunks, cur) sentences).2])
       = Py.join ". " ((List.map ChunkDraft.content chunks ++ [cur]) ++ sentences).
Proof.
  induction sentences as [|s rest IH]; intros chunks cur Hs Hcur.
  - simpl. by rewrite app_nil_r.
  - apply Forall_cons in Hs as [Hs Hrest]. cbn [foldl].
    rewrite fallback_step_unfold, (tidy_truthy cur Hcur).
    destruct (max_chunk_words <? Py.word_count (cur +:+ ". " +:+ s)).
    + destruct (IH (chunks ++ [SemanticChunker.fallback_chunk cur]) s Hrest Hs)
        as [Ht Hj].
      split; [exact Ht|]. rewrite Hj.
      rewrite List.map_app. simpl. rewrite (tidy_strip cur Hcur).
      by rewrite <- !app_assoc.
    + destruct (IH chunks (cur +:+ ". " +:+ s) Hrest (tidy_extend _ _ Hcur Hs))
        as [Ht Hj].
      split; [exact Ht|]. rewrite Hj.
      change (s :: rest) with ([s] ++ rest). rewrite (app_assoc _ [s] rest).
      apply join_app_congr.
      * nonempty_list.
      * nonempty_list.
      * destruct (List.map ChunkDraft.content chunks) as [|c cs] eqn:Hm.
        { reflexivity. }
        rewrite (join_snoc _ ((c :: cs) ++ [cur])) by (simpl; discriminate).
        rewrite !join_snoc by discriminate.
        by rewrite !app_assoc_str.
Qed.

Lemma fallback_fold_words (all rest : list string) :
  forall chunks cur,
    rest ⊆ all ->
    Forall (fun c =>
      ChunkDraft.word_count c <= max_chunk_words
      \/ exists s, s ∈ all /\ ChunkDraft.content c = Py.strip s) chunks ->
    (cur = "" \/ Py.word_count cur <= max_chunk_words \/ cur ∈ all) ->
    Forall (fun c =>
      ChunkDraft.word_count c <= max_chunk_words
      \/ exists s, s ∈ all /\ ChunkDraft.content c = Py.strip s)
      (foldl SemanticChunker.fallback_step (chunks, cur) rest).1
    /\ ((foldl SemanticChunker.fallback_step (chunks, cur) rest).2 = ""
        \/ Py.word_count (foldl SemanticChunker.fallback_step (chunks, cur) rest).2
           <= max_chunk_words
        \/ (foldl SemanticChunker.fallback_step (chunks, cur) rest).2 ∈ all).
Proof.
  induction rest as [|s rest IH]; intros chunks cur Hsub Hchunks Hcur.
  - simpl. auto.
  - assert (Hs : s ∈ all) by (apply Hsub; left).
    assert (Hrest : rest ⊆ all) by (intros x Hx; apply Hsub; by right).
    cbn [foldl]. rewrite fallback_step_unfold.
    destruct (Py.truthy cur) eqn:Htr.
    + destruct (max_chunk_words <? Py.word_count (cur +:+ ". " +:+ s)) eqn:Hw.
      * apply IH; [done| |auto].
        apply Forall_app. split; [done|]. constructor; [|done]. simpl.
        destruct Hcur as [->|[Hle|Hin]]; [discriminate|auto|eauto].
      * apply IH; [done|done|]. right; left. lia.
    + apply IH; auto.
Qed.

(** The chunks of the fallback splitter record the word count of their own
    content. *)
Lemma fallback_fold_counts (rest : list string) :
  forall chunks cur,
    Forall (fun c =>
      ChunkDraft.word_count c = Py.word_count (ChunkDraft.content c)) chunks ->
    Forall (fun c =>
      ChunkDraft.word_count c = Py.word_count (ChunkDraft.content c))
      (foldl SemanticChunker.fallback_step (chunks, cur) rest).1.
Proof.
  induction rest as [|s rest IH]; intros chunks cur Hchunks; [done|].
  cbn [foldl]. rewrite fallback_step_unfold.
  repeat case_match; apply IH; try done.
  apply Forall_app. split; [done|]. constructor; [|done].
  simpl. by rewrite word_count_strip.
Qed.

(** C5, as the code has it.  When every sentence of the text (the pieces
    between the separators ". ") is non-empty and has no leading or
    trailing whitespace, the chunks of the fallback splitter joined with
    ". " give the text back exactly.  For every text, each chunk records
    the word count of its own content, and a chunk's word count exceeds
    [max_chunk_words] only when the chunk is one single sentence. *)
Theorem fallback_chunking_reconstructs_tidy_text (content : string) :
  (Forall Py.tidy (Py.split ". " content) ->
   Py.join ". "
     (List.map ChunkDraft.content (SemanticChunker._fallback_chunking content))
   = content)
  /\ (forall c,
        c ∈ SemanticChunker._fallback_chunking content ->
        ChunkDraft.word_count c = Py.word_count (ChunkDraft.content c)
        /\ (ChunkDraft.word_count c <= max_chunk_words
            \/ exists s, s ∈ Py.split ". " content
                         /\ ChunkDraft.content c = Py.strip s)).
Proof.
  unfold SemanticChunker._fallback_chunking. split.
  - intros Hs. pose proof (join_split ". " content ltac:(discriminate)) as Hj.
    destruct (Py.split ". " content) as [|s1 rest] eqn:Hsp.
    { by apply split_from_nonempty in Hsp. }
    apply Forall_cons in Hs as [Hs1 Hrest].
    cbn [foldl]. rewrite fallback_step_unfold. cbn [Py.truthy].
    destruct (fallback_fold_join rest [] s1 Hrest Hs1) as [Ht Hjoin].
    destruct (foldl SemanticChunker.fallback_step ([], s1) rest)
      as [chunks cur] eqn:Hf.
    simpl in Ht, Hjoin. rewrite (tidy_truthy cur Ht).
    rewrite List.map_app. simpl. rewrite (tidy_strip cur Ht).
    by rewrite Hjoin.
  - intros c Hc.
    pose proof (fallback_fold_words (Py.split ". " content)
                  (Py.split ". " content) [] "" ltac:(done)
                  ltac:(constructor) ltac:(by left)) as [Hgood Hcur].
    pose proof (fallback_fold_counts (Py.split ". " content) [] ""
                  ltac:(constructor)) as Hcount.
    destruct (foldl SemanticChunker.fallback_step ([], "")
                (Py.split ". " content)) as [chunks cur] eqn:Hf.
    simpl in Hgood, Hcur, Hcount.
    rewrite Forall_forall in Hgood, Hcount.
    destruct (Py.truthy cur) eqn:Htr.
    + apply elem_of_app in Hc as [Hc|Hc].
      * split; [by apply Hcount | by apply Hgood].
      * apply list_elem_of_singleton in Hc as ->. simpl.
        split; [by rewrite word_count_strip|].
        destruct Hcur as [->|[Hle|Hin]]; [discriminate|auto|eauto].
    + split; [by apply Hcount | by apply Hgood].
Qed.

End ChunkerProperties.

(** With one-word chunks, the text "a. b c. d" is split at its sentences
    and joined back exactly; its middle chunk is a single sentence of two
    words. *)
Lemma fallback_chunking_reconstructs_tidy_text_witness :
  Py.join ". "
    (List.map ChunkDraft.content
       (SemanticChunker._fallback_chunking (C := Examples.tiny_chunks)
          "a. b c. d"))
  = "a. b c. d"
  /\ (ChunkDraft.word_count (SemanticChunker.fallback_chunk "b c")
      <= @max_chunk_words Examples.tiny_chunks
      \/ exists s, s ∈ Py.split ". " "a. b c. d"
                   /\ ChunkDraft.content (SemanticChunker.fallback_chunk "b c")
                      = Py.strip s).
Proof.
  destruct (fallback_chunking_reconstructs_tidy_text
              (C := Examples.tiny_chunks) "a. b c. d") as [Hjoin Hwords].
  split.
  - apply Hjoin.
    repeat (constructor; [split; [discriminate | split; reflexivity]|]).
    constructor.
  - apply (Hwords (SemanticChunker.fallback_chunk "b c")).
    apply list_elem_of_further, list_elem_of_here.
Defined.

(** C5, as stated, fails on the code: with one-word chunks the text
    " a b. c" has more than one word, its chunks joined with ". " give
    "a b. c" (the leading blank is gone), and its first chunk, which is not
    the last one, has two words. *)
Lemma fallback_chunking_counterexample :
  let content := " a b. c" in
  let chunks :=
    SemanticChunker._fallback_chunking (C := Examples.tiny_chunks) content in
  @max_chunk_words Examples.tiny_chunks < Py.word_count content
  /\ Py.join ". " (List.map ChunkDraft.content chunks) <> content
  /\ ~ (forall (i : nat) c,
          chunks !! i = Some c -> (S i < length chunks)%nat ->
          ChunkDraft.word_count c <= @max_chunk_words Examples.tiny_chunks).
Proof.
  split; [reflexivity|]. split; [discriminate|].
  intros H.
  specialize (H 0%nat (SemanticChunker.fallback_chunk " a b") eq_refl).
  vm_compute in H. apply H; [constructor; constructor | reflexivity].
Qed.

Section ChunkContentProperties.
Context {E : Env} {C : Config} {P : Prompts}.

(** C4: what the code does.  For a text longer than [max_chunk_words],
    [chunk_content] hands the text to the provider, and a provider error or
    a response that does not parse is re-raised to the caller; the
    sentence-accumulation splitter is not called. *)
Theorem chunk_content_reraises_provider_failure (content : string) (w : World) :
  max_chunk_words < Py.word_count content ->
  (fault (tick w) = true ->
   SemanticChunker.chunk_content content w
   = (Raise (ProviderError "generate_content"), set_tick w (S (tick w))))
  /\ (forall e,
        fault (tick w) = false ->
        json_loads
          (Gemini._extract_json
             (Py.strip
                (llm_text (tick w)
                   (semantic_chunking_prompt min_chunk_words max_chunk_words
                                             content))))
        = Raise e ->
        SemanticChunker.chunk_content content w
        = (Raise e, set_tick w (S (tick w)))).
Proof.
  intros Hlong. unfold SemanticChunker.chunk_content.
  replace (Py.word_count content <=? max_chunk_words) with false
    by (symmetry; apply Z.leb_gt; lia).
  cbv [SemanticChunker._semantic_chunking try_except bind
       Gemini.generate_content external Gemini.loads ret raise].
  split.
  - intros Hf. by rewrite Hf.
  - intros e Hf He. by rewrite Hf, He.
Qed.

End ChunkContentProperties.

(** With one-word chunks and a provider that is down, chunking the text
    "a b c" raises, although the fallback splitter returns a chunk for it. *)
Lemma chunk_content_reraises_provider_failure_witness :
  let E := Examples.env (fun _ => true) "" (Ok JNull) [] in
  SemanticChunker.chunk_content (E := E) (C := Examples.tiny_chunks)
    (P := Examples.plain_prompts) "a b c" Examples.empty_world
  = (Raise (ProviderError "generate_content"),
     set_tick Examples.empty_world 1)
  /\ List.map ChunkDraft.content
       (SemanticChunker._fallback_chunking (C := Examples.tiny_chunks) "a b c")
     = ["a b c"].
Proof.
  intros E. split; [|reflexivity].
  destruct (chunk_content_reraises_provider_failure
              (E := E) (C := Examples.tiny_chunks)
              (P := Examples.plain_prompts) "a b c" Examples.empty_world)
    as [Hdown _]; [reflexivity|].
  apply Hdown. reflexivity.
Defined.

(** ** Context resolver *)

Section ContainsLemmas.

Lemma prefix_nil s : String.prefix "" s = true.
Proof. by destruct s. Qed.

(** [sub in s] holds exactly when [s] is [sub] with something around it. *)
Lemma contains_spec sub s :
  Py.contains sub s = true <-> exists pre post, s = pre +:+ sub +:+ post.
Proof.
  induction s as [|a s IH].
  - cbn [Py.contains]. rewrite orb_false_r, prefix_spec. split.
    + intros [r Hr]. exists "", r. exact Hr.
    + intros (pre & post & H). destruct pre; [eauto|discriminate].
  - cbn [Py.contains]. rewrite orb_true_iff, prefix_spec, IH. split.
    + intros [[r Hr]|(pre & post & H)].
      * exists "", r. exact Hr.
      * exists (String a pre), post. simpl. by rewrite H.
    + intros (pre & post & H). destruct pre as [|b pre].
      * left. eauto.
      * right. simpl in H. injection H as -> H. eauto.
Qed.

Lemma contains_nil s : Py.contains "" s = true.
Proof. destruct s; reflexivity. Qed.

Lemma lstrip_head s :
  Py.lstrip s = ""
  \/ exists a r, Py.lstrip s = String a r /\ Py.isspace a = false.
Proof.
  induction s as [|a s IH]; [by left|].
  cbn [Py.lstrip]. destruct (Py.isspace a) eqn:Ha; [exact IH|eauto].
Qed.

Lemma strip_head s :
  Py.strip s = ""
  \/ exists a r, Py.strip s = String a r /\ Py.isspace a = false.
Proof.
  unfold Py.strip. destruct (lstrip_head s) as [->|(a & r & -> & Ha)].
  - by left.
  - right. cbn [Py.rstrip]. destruct (Py.rstrip r); [|eauto].
    rewrite Ha. eauto.
Qed.

Lemma split_ws_head a s : Py.isspace a = false -> Py.split_ws (String a s) <> [].
Proof.
  intros Ha. rewrite split_ws_unfold, Ha.
  destruct s as [|b s]; [discriminate|].
  destruct (Py.isspace b); [discriminate|].
  destruct (Py.split_ws (String b s)); discriminate.
Qed.

(** A stripped string without words is empty. *)
Lemma strip_no_words s : Py.split_ws (Py.strip s) = [] -> Py.strip s = "".
Proof.
  destruct (strip_head s) as [->|(a & r & -> & Ha)]; [done|].
  intros H. by apply split_ws_head in H.
Qed.

End ContainsLemmas.

(** ** The words of a name are its tokens *)

Section Tokens.

Abbreviation no_space x :=
  (forall a, In a (String.list_ascii_of_string x) -> Py.isspace a = false).

Lemma last_char_app u v :
  ResolverSpec.last_char (u +:+ v)
  = match v with
    | EmptyString => ResolverSpec.last_char u
    | _ => ResolverSpec.last_char v
    end.
Proof.
  induction u as [|a u IH]; [by destruct v|].
  cbn [String.append ResolverSpec.last_char]. rewrite IH.
  destruct u as [|b u]; destruct v as [|c v]; reflexivity.
Qed.

Lemma last_char_cons a u :
  ResolverSpec.last_char (String a u)
  = match u with
    | EmptyString => Some a
    | _ => ResolverSpec.last_char u
    end.
Proof. by destruct u. Qed.

(** The first word: the longest run without whitespace at the head. *)
Lemma split_ws_first_word a s :
  Py.isspace a = false ->
  exists w rest,
    String a s = String a w +:+ rest
    /\ no_space (String a w)
    /\ ResolverSpec.blank_or_none (ResolverSpec.first_char rest)
    /\ Py.split_ws (String a s) = String a w :: Py.split_ws rest.
Proof.
  revert a. induction s as [|b s IH]; intros a Ha.
  - exists "", "". split; [reflexivity|].
    split; [intros c [<-|[]]; exact Ha|]. split; [exact I|].
    by rewrite split_ws_unfold, Ha.
  - destruct (Py.isspace b) eqn:Hb.
    + exists "", (String b s). split; [reflexivity|]. split.
      { intros c [<-|[]]. exact Ha. }
      split; [exact Hb|].
      rewrite split_ws_unfold, Ha, Hb. reflexivity.
    + destruct (IH b Hb) as (w & rest & Heq & Hw & Hrest & Hsplit).
      exists (String b w), rest. split; [simpl in *; congruence|]. split.
      { intros c [<-|Hc]; [exact Ha|by apply Hw]. }
      split; [exact Hrest|].
      rewrite split_ws_unfold, Ha, Hb, Hsplit. reflexivity.
Qed.

(** Two runs without whitespace that head the same string and end at a
    blank or at the end are the same run. *)
Lemma first_word_unique u v r1 r2 :
  u +:+ r1 = v +:+ r2 -> no_space u -> no_space v ->
  ResolverSpec.blank_or_none (ResolverSpec.first_char r1) ->
  ResolverSpec.blank_or_none (ResolverSpec.first_char r2) ->
  u = v.
Proof.
  revert v. induction u as [|c u IH]; intros v Heq Hu Hv H1 H2.
  - destruct v as [|d v]; [reflexivity|]. simpl in Heq. subst r1.
    simpl in H1. rewrite (Hv d) in H1; [discriminate|by left].
  - destruct v as [|d v].
    + simpl in Heq. subst r2. simpl in H2.
      rewrite (Hu c) in H2; [discriminate|by left].
    + simpl in Heq. injection Heq as <- Heq. f_equal.
      apply (IH v Heq); [| |exact H1|exact H2].
      * intros a Ha. apply Hu. by right.
      * intros a Ha. apply Hv. by right.
Qed.

(** A prefix that ends in a blank reaches beyond a run without
    whitespace. *)
Lemma blank_prefix_passes_word u r pre t :
  u +:+ r = pre +:+ t -> no_space u -> pre <> "" ->
  ResolverSpec.blank_or_none (ResolverSpec.last_char pre) ->
  exists pre', pre = u +:+ pre' /\ r = pre' +:+ t /\ pre' <> "".
Proof.
  revert pre. induction u as [|c u IH]; intros pre Heq Hu Hne Hlast.
  - by exists pre.
  - destruct pre as [|d pre]; [done|]. simpl in Heq. injection Heq as <- Heq.
    destruct pre as [|e pre].
    + simpl in Hlast. rewrite (Hu c) in Hlast; [discriminate|by left].
    + destruct (IH (String e pre) Heq) as (pre' & Hpre & Hr & Hne');
        [intros a Ha; apply Hu; by right|done|exact Hlast|].
      exists pre'. split; [simpl; by rewrite Hpre|done].
Qed.

Lemma is_token_skip_blank a s x :
  Py.isspace a = true ->
  ResolverSpec.is_token x (String a s) <-> ResolverSpec.is_token x s.
Proof.
  intros Ha. split.
  - intros (Hne & Hx & pre & post & Heq & Hpre & Hpost).
    split; [exact Hne|]. split; [exact Hx|].
    destruct pre as [|p pre].
    + destruct x as [|c x]; [done|]. simpl in Heq. injection Heq as -> _.
      rewrite (Hx c) in Ha; [discriminate|by left].
    + simpl in Heq. injection Heq as _ Heq. exists pre, post.
      split; [exact Heq|]. split; [|exact Hpost].
      rewrite last_char_cons in Hpre. by destruct pre.
  - intros (Hne & Hx & pre & post & Heq & Hpre & Hpost).
    split; [exact Hne|]. split; [exact Hx|].
    exists (String a pre), post. split; [simpl; by rewrite Heq|].
    split; [|exact Hpost]. rewrite last_char_cons. by destruct pre.
Qed.

Lemma is_token_first_word u rest x :
  u <> "" -> no_space u ->
  ResolverSpec.blank_or_none (ResolverSpec.first_char rest) ->
  ResolverSpec.is_token x (u +:+ rest)
  <-> x = u \/ ResolverSpec.is_token x rest.
Proof.
  intros Hu Hns Hrest. split.
  - intros (Hne & Hx & pre & post & Heq & Hpre & Hpost).
    destruct (decide (pre = "")) as [->|Hpne].
    + left. symmetry. by apply (first_word_unique u x rest post).
    + right.
      destruct (blank_prefix_passes_word u rest pre (x +:+ post) Heq Hns
                  Hpne Hpre) as (pre' & -> & Hr & Hne').
      split; [exact Hne|]. split; [exact Hx|]. exists pre', post.
      split; [exact Hr|]. split; [|exact Hpost].
      rewrite last_char_app in Hpre. by destruct pre'.
  - intros [->|(Hne & Hx & pre & post & Heq & Hpre & Hpost)].
    + split; [exact Hu|]. split; [exact Hns|]. by exists "", rest.
    + split; [exact Hne|]. split; [exact Hx|].
      exists (u +:+ pre), post. split; [by rewrite app_assoc_str, Heq|].
      split; [|exact Hpost]. rewrite last_char_app.
      destruct pre as [|p pre]; [|exact Hpre].
      destruct x as [|c x]; [done|]. simpl in Heq. subst rest.
      simpl in Hrest. rewrite (Hx c) in Hrest; [discriminate|by left].
Qed.

Lemma length_app_string u v :
  String.length (u +:+ v) = (String.length u + String.length v)%nat.
Proof. induction u as [|a u IH]; simpl; [reflexivity|by rewrite IH]. Qed.

(** [s.split()] lists the tokens of [s]. *)
Lemma split_ws_tokens s x :
  x ∈ Py.split_ws s <-> ResolverSpec.is_token x s.
Proof.
  remember (String.length s) as n eqn:Hn.
  revert s Hn x. induction (lt_wf n) as [n _ IH]. intros s -> x.
  destruct s as [|a s].
  - split; [by intros ?%elem_of_nil|].
    intros (Hne & _ & pre & post & Heq & _).
    destruct pre; [|discriminate]. destruct x; [done|discriminate].
  - destruct (Py.isspace a) eqn:Ha.
    + rewrite split_ws_unfold, Ha, (is_token_skip_blank a s x Ha).
      apply (IH (String.length s)); [simpl; lia|reflexivity].
    + destruct (split_ws_first_word a s Ha)
        as (w & rest & Heq & Hw & Hrest & Hsplit).
      rewrite Hsplit, Heq, is_token_first_word by done.
      rewrite elem_of_cons.
      assert (Hlen : (String.length rest < String.length (String a s))%nat).
      { rewrite Heq, length_app_string. simpl. lia. }
      by rewrite (IH (String.length rest) Hlen rest eq_refl x).
Qed.

End Tokens.

Section ResolverProperties.
Context {E : Env} {C : Config} {P : Prompts}.

Lemma word_set_empty n :
  ContextResolver.word_set n = ∅ -> Py.split_ws n = [].
Proof.
  unfold ContextResolver.word_set. destruct (Py.split_ws n) as [|x l]; [done|].
  intros H. assert (Hx : x ∈ (list_to_set (x :: l) : gset string))
    by (apply elem_of_list_to_set; left).
  rewrite H in Hx. by apply not_elem_of_empty in Hx.
Qed.

Lemma normalized_no_words name :
  ContextResolver.word_set (ContextResolver._normalize_context_name name) = ∅ ->
  ContextResolver._normalize_context_name name = "".
Proof.
  intros H%word_set_empty. by apply strip_no_words.
Qed.

(** The rule by which two names match. *)
Lemma contexts_match_spec name1 name2 :
  let n1 := ContextResolver._normalize_context_name name1 in
  let n2 := ContextResolver._normalize_context_name name2 in
  let words1 := ContextResolver.word_set n1 in
  let words2 := ContextResolver.word_set n2 in
  ContextResolver._contexts_match name1 name2 = true
  <-> n1 = n2
      \/ (exists pre post, n2 = pre +:+ n1 +:+ post)
      \/ (exists pre post, n1 = pre +:+ n2 +:+ post)
      \/ (1 # 2 <= inject_Z (Z.of_nat (size (words1 ∩ words2)))
                   / inject_Z (Z.of_nat (Nat.min (size words1) (size words2))))%Q.
Proof.
  intros n1 n2 words1 words2. unfold ContextResolver._contexts_match.
  fold n1 n2. fold words1 words2.
  destruct (String.eqb_spec n1 n2) as [Heq|Hne]; [by split; auto|].
  destruct (Py.contains n1 n2) eqn:H12.
  { apply contains_spec in H12. simpl. by split; auto. }
  destruct (Py.contains n2 n1) eqn:H21.
  { apply contains_spec in H21. simpl. by split; auto. }
  simpl.
  assert (Hw1 : words1 <> ∅).
  { intros Hw. apply normalized_no_words in Hw. fold n1 in Hw.
    by rewrite Hw, contains_nil in H12. }
  assert (Hw2 : words2 <> ∅).
  { intros Hw. apply normalized_no_words in Hw. fold n2 in Hw.
    by rewrite Hw, contains_nil in H21. }
  rewrite !bool_decide_eq_false_2 by done. simpl.
  rewrite Qle_bool_iff. split; [auto|].
  intros [?|[Hc|[Hc|?]]]; [done| | |done].
  - apply contains_spec in Hc. congruence.
  - apply contains_spec in Hc. congruence.
Qed.

Lemma find_first {A} (f : A -> bool) pre x post :
  Forall (fun y => f y = false) pre -> f x = true ->
  List.find f (pre ++ x :: post) = Some x.
Proof.
  induction 1 as [|y pre Hy _ IH]; intros Hx; simpl.
  - by rewrite Hx.
  - rewrite Hy. by apply IH.
Qed.

Lemma resolve_single_existing name project_id pre ctx post chunk_data w :
  Forall (fun c => ContextResolver._contexts_match name (MemoryContext.name c)
                   = false) pre ->
  ContextResolver._contexts_match name (MemoryContext.name ctx) = true ->
  ContextResolver._resolve_single_context name project_id
    (pre ++ ctx :: post) chunk_data w
  = (Ok (Some (MemoryContext.id ctx), pre ++ ctx :: post), w).
Proof.
  intros Hpre Hctx. unfold ContextResolver._resolve_single_context.
  by rewrite (find_first
                (fun c => ContextResolver._contexts_match name
                            (MemoryContext.name c)) pre ctx post Hpre Hctx).
Qed.

Lemma get_cached_contexts_reads project_id cache w r w' :
  ContextResolver._get_cached_contexts project_id cache w = (r, w') ->
  contexts w' = contexts w /\ fragments w' = fragments w.
Proof.
  unfold ContextResolver._get_cached_contexts.
  destruct (cache !! project_id).
  - cbv [ret]. by intros [= _ <-].
  - cbv [try_except bind ret raise Memory.list_contexts_by_project
         Storage.list_contexts_by_project sqlite external get_world].
    destruct (fault (tick w)); by intros [= _ <-].
Qed.

(** C6.  Two names match exactly when, after normalisation (lower case,
    underscore and hyphen to blank, trimmed), they are equal, one contains
    the other, or the tokens they share, divided by the smaller of their
    numbers of distinct tokens, come to at least one half; the tokens of a
    normalised name are its maximal runs of characters that are not
    whitespace.  Resolving a name returns the id of the first context of
    the cached list whose name matches, leaving the list, the contexts and
    the fragments of the store as they were.  "Project Planning" matches
    "project_planning"; "auth login" matches "login flow", by the one
    token of two they share, and does not match "billing". *)
Theorem resolver_returns_first_match :
  (forall name1 name2,
     let n1 := ContextResolver._normalize_context_name name1 in
     let n2 := ContextResolver._normalize_context_name name2 in
     let words1 := ContextResolver.word_set n1 in
     let words2 := ContextResolver.word_set n2 in
     (n1 = Py.strip (Py.replace "-" " " (Py.replace "_" " " (Py.lower name1))))
     /\ (forall x, x ∈ words1 <-> ResolverSpec.is_token x n1)
     /\ (forall x, x ∈ words2 <-> ResolverSpec.is_token x n2)
     /\ (ContextResolver._contexts_match name1 name2 = true
         <-> n1 = n2
             \/ (exists pre post, n2 = pre +:+ n1 +:+ post)
             \/ (exists pre post, n1 = pre +:+ n2 +:+ post)
             \/ (1 # 2 <= inject_Z (Z.of_nat (size (words1 ∩ words2)))
                          / inject_Z (Z.of_nat (Nat.min (size words1)
                                                        (size words2))))%Q))
  /\ (forall name project_id chunk_data cache w pre ctx post cache' w',
        ContextResolver._get_cached_contexts project_id cache w
        = (Ok (pre ++ ctx :: post, cache'), w') ->
        Forall (fun c => ContextResolver._contexts_match
                           name (MemoryContext.name c) = false) pre ->
        ContextResolver._contexts_match name (MemoryContext.name ctx) = true ->
        Py.truthy (MemoryContext.id ctx) = true ->
        ContextResolver.resolve_contexts [name] project_id chunk_data cache w
        = (Ok ([MemoryContext.id ctx],
               <[project_id := pre ++ ctx :: post]> cache'), w')
        /\ contexts w' = contexts w
        /\ fragments w' = fragments w)
  /\ ContextResolver._contexts_match "Project Planning" "project_planning"
     = true
  /\ ContextResolver._contexts_match "auth login" "login flow" = true
  /\ ContextResolver._contexts_match "auth login" "billing" = false.
Proof.
  split; [|split; [|split; [|split]]].
  - intros name1 name2 n1 n2 words1 words2. split; [reflexivity|].
    split; [|split].
    + intros x. unfold words1, ContextResolver.word_set.
      rewrite elem_of_list_to_set. apply split_ws_tokens.
    + intros x. unfold words2, ContextResolver.word_set.
      rewrite elem_of_list_to_set. apply split_ws_tokens.
    + apply contexts_match_spec.
  - intros name project_id chunk_data cache w pre ctx post cache' w'
      Hget Hpre Hctx Hid.
    split; [|by eapply get_cached_contexts_reads].
    unfold ContextResolver.resolve_contexts.
    cbv [bind]. rewrite Hget. cbn [fold_m]. cbv [bind].
    rewrite (resolve_single_existing name project_id pre ctx post chunk_data
               w' Hpre Hctx).
    by rewrite Hid.
  - reflexivity.
  - vm_compute. reflexivity.
  - vm_compute. reflexivity.
Qed.

End ResolverProperties.

(** Two resolutions.  In a project whose only context "c1" is named
    "project_planning", the name "Project Planning" resolves to "c1".  In a
    project holding, in this order, "billing", "login flow" and
    "auth login", the name "auth login" resolves to the context named
    "login flow": it is the first that matches, by the token "login".  In
    both cases the store holds the contexts it held. *)
Lemma resolver_returns_first_match_witness :
  let E := Examples.env (fun _ => false) "" (Ok JNull) [] in
  let ctx :=
    MemoryContext.mk "c1" "p" "project_planning" "" [] None [] [] 0 in
  let w := mkWorld [] ∅ [ctx] ∅ ∅ 0 in
  let billing := MemoryContext.mk "k0" "q" "billing" "" [] None [] [] 0 in
  let flow := MemoryContext.mk "k1" "q" "login flow" "" [] None [] [] 0 in
  let auth := MemoryContext.mk "k2" "q" "auth login" "" [] None [] [] 0 in
  let v := mkWorld [] ∅ [billing; flow; auth] ∅ ∅ 0 in
  (ContextResolver.resolve_contexts (E := E) (P := Examples.plain_prompts)
     ["Project Planning"] "p" (JObj []) ∅ w
   = (Ok (["c1"], <["p" := [ctx]]> (<["p" := [ctx]]> ∅)), set_tick w 1)
   /\ contexts (set_tick w 1) = [ctx])
  /\ (ContextResolver.resolve_contexts (E := E) (P := Examples.plain_prompts)
        ["auth login"] "q" (JObj []) ∅ v
      = (Ok (["k1"],
             <["q" := [billing; flow; auth]]>
               (<["q" := [billing; flow; auth]]> ∅)), set_tick v 1)
      /\ contexts (set_tick v 1) = [billing; flow; auth]).
Proof.
  intros E ctx w billing flow auth v.
  destruct (@resolver_returns_first_match E Examples.plain_prompts)
    as (_ & Hresolve & Hexample & Htokens & Hnone).
  split.
  - destruct (Hresolve "Project Planning" "p" (JObj []) ∅ w [] ctx []
                (<["p" := [ctx]]> ∅) (set_tick w 1)) as (Hr & Hc & _).
    + reflexivity.
    + constructor.
    + exact Hexample.
    + reflexivity.
    + split; [exact Hr | exact Hc].
  - destruct (Hresolve "auth login" "q" (JObj []) ∅ v [billing] flow [auth]
                (<["q" := [billing; flow; auth]]> ∅) (set_tick v 1))
      as (Hr & Hc & _).
    + reflexivity.
    + constructor; [exact Hnone|constructor].
    + exact Htokens.
    + reflexivity.
    + split; [exact Hr | exact Hc].
Defined.

(** ** Dictionaries *)

Section DictLemmas.
Context {V : Type}.
Implicit Types (d : list (string * V)) (k : string) (v : V).

Lemma dict_get_set_eq d k v : Dict.get (Dict.set d k v) k = Some v.
Proof.
  induction d as [|[k' x] d IH]; simpl.
  - by rewrite String.eqb_refl.
  - destruct (String.eqb_spec k' k) as [->|Hne]; simpl.
    + by rewrite String.eqb_refl.
    + by destruct (String.eqb_spec k' k).
Qed.

Lemma dict_get_set_ne d k k' v :
  k <> k' -> Dict.get (Dict.set d k v) k' = Dict.get d k'.
Proof.
  intros Hne. induction d as [|[k0 x] d IH]; simpl.
  - by destruct (String.eqb_spec k k').
  - destruct (String.eqb_spec k0 k) as [->|Hk]; simpl.
    + by destruct (String.eqb_spec k k').
    + by rewrite IH.
Qed.


End DictLemmas.

(** ** Grouped recall *)

Section SearchProperties.
Context {E : Env}.

Lemma bucket_get (m : list (string * list SearchResult.t)) sr c :
  Dict.get (Search.bucket m sr) c
  = if String.eqb (Search.group_key sr) c
    then Some (from_option id [] (Dict.get m c) ++ [sr])
    else Dict.get m c.
Proof.
  unfold Search.bucket, Dict.mem.
  destruct (String.eqb_spec (Search.group_key sr) c) as [<-|Hne].
  - rewrite dict_get_set_eq.
    destruct (Dict.get m (Search.group_key sr)) eqn:Hg; [by rewrite Hg|].
    by rewrite dict_get_set_eq.
  - rewrite dict_get_set_ne by done.
    destruct (Dict.get m (Search.group_key sr)); [done|].
    by rewrite dict_get_set_ne.
Qed.

Lemma buckets_get rs :
  forall (m : list (string * list SearchResult.t)) c,
    Dict.get (foldl Search.bucket m rs) c
    = match Dict.get m c,
            List.filter (fun sr => String.eqb (Search.group_key sr) c) rs with
      | None, [] => None
      | o, l => Some (from_option id [] o ++ l)
      end.
Proof.
  induction rs as [|sr rs IH]; intros m c.
  - simpl. destruct (Dict.get m c); simpl; [by rewrite app_nil_r | done].
  - cbn [foldl List.filter]. rewrite IH, bucket_get.
    destruct (String.eqb (Search.group_key sr) c).
    + destruct (Dict.get m c); simpl; by rewrite <- ?app_assoc.
    + reflexivity.
Qed.

(** The groups of one project: under each key, the project's results with
    that key, in the order of the search; no key without results. *)
Lemma project_groups rs c :
  Dict.get (foldl Search.bucket [] rs) c
  = match List.filter (fun sr => String.eqb (Search.group_key sr) c) rs with
    | [] => None
    | l => Some l
    end.
Proof. rewrite buckets_get. simpl. by destruct (List.filter _ rs). Qed.

Lemma add_project_get G p rs q :
  Dict.get (Search.add_project G p rs) q
  = if String.eqb p q
    then match rs with
         | [] => Dict.get G q
         | _ => Some (foldl Search.bucket [] rs)
         end
    else Dict.get G q.
Proof.
  unfold Search.add_project.
  destruct (String.eqb_spec p q) as [->|Hne]; destruct rs; try done.
  - by rewrite dict_get_set_eq.
  - by rewrite dict_get_set_ne.
Qed.

Lemma grouped_get (th : list (string * list SearchResult.t)) :
  forall G0 q,
    let G := foldl (fun g pr => Search.add_project g pr.1 pr.2) G0 th in
    (Dict.get G q = Dict.get G0 q /\ forall rs, (q, rs) ∈ th -> rs = [])
    \/ (exists rs, (q, rs) ∈ th /\ rs <> []
                   /\ Dict.get G q = Some (foldl Search.bucket [] rs)).
Proof.
  induction th as [|[p rs0] th IH]; intros G0 q; simpl.
  - left. split; [done|]. by intros rs ?%elem_of_nil.
  - destruct (IH (Search.add_project G0 p rs0) q) as [[Hget Hall]|(rs & Hin & Hne & Hget)].
    + rewrite add_project_get in Hget.
      destruct (String.eqb_spec p q) as [->|Hpq].
      * destruct rs0 as [|sr rs0].
        -- left. split; [done|].
           intros rs [[= ->]|Hin]%elem_of_cons; [done|by apply Hall].
        -- right. exists (sr :: rs0). split; [left|]. by split.
      * left. split; [done|].
        intros rs [[= ? ?]|Hin]%elem_of_cons; [done|by apply Hall].
    + right. exists rs. split; [by right|]. by split.
Qed.

Lemma search_loop emb options targets :
  forall G0 w G w',
    fold_m (Search.search_project emb options) targets G0 w = (Ok G, w') ->
    exists hits,
      map_m (fun p => Storage.search_fragments
                        emb (SearchOptions.with_project options p))
            targets w = (Ok hits, w')
      /\ G = foldl (fun g pr => Search.add_project g pr.1 pr.2) G0
                   (zip targets hits).
Proof.
  induction targets as [|p targets IH]; intros G0 w G w'.
  - cbv [fold_m map_m ret]. intros [= <- <-]. by exists [].
  - cbn [fold_m map_m]. unfold Search.search_project at 1.
    cbv [bind ret].
    destruct (Storage.search_fragments emb
                (SearchOptions.with_project options p) w) as [[rs|e] w1];
      [|discriminate].
    intros H. apply IH in H as (hits & Hm & ->).
    exists (rs :: hits). by rewrite Hm.
Qed.

Lemma dict_get_None {V} (d : list (string * V)) k :
  Dict.get d k = None <-> k ∉ d.*1.
Proof.
  induction d as [|[k0 x] d IH]; simpl.
  - split; [intros _ ?%elem_of_nil; done | done].
  - destruct (String.eqb_spec k0 k) as [->|Hne].
    + split; [done|]. intros H. exfalso. apply H. left.
    + rewrite IH. split.
      * intros H [->|Hin]%elem_of_cons; done.
      * intros H Hin. apply H. by right.
Qed.

(** C7.  In the result of a recall, the entry of a project holds, under
    each key, exactly the results of that project's search whose
    fragment has that key as its first context id ("unassigned" for a
    fragment without contexts), in the order of the search; a key under
    which no result falls has no entry, and a project whose search
    returned nothing has no entry either. *)
Theorem recall_groups_by_project_and_first_context :
  forall query options project_ids default_project_id w G w',
    Search.search_memory query options project_ids default_project_id w
    = (Ok G, w') ->
    exists targets w0 emb w1 hits,
      Search.resolve_targets project_ids default_project_id w
      = (Ok targets, w0)
      /\ EmbeddingService.generate_embedding query w0 = (Ok emb, w1)
      /\ map_m (fun p => Storage.search_fragments
                           emb (SearchOptions.with_project options p))
               targets w1 = (Ok hits, w')
      /\ forall p,
           ((p ∉ G.*1) /\ forall rs, (p, rs) ∈ zip targets hits -> rs = [])
           \/ (exists rs groups,
                 (p, rs) ∈ zip targets hits /\ rs <> []
                 /\ Dict.get G p = Some groups
                 /\ (forall sr, sr ∈ rs ->
                       Search.group_key sr
                       = match MemoryFragment.context_ids
                                 (SearchResult.fragment sr) with
                         | [] => "unassigned"
                         | first :: _ => first
                         end)
                 /\ forall c,
                      Dict.get groups c
                      = match List.filter
                                (fun sr => String.eqb (Search.group_key sr) c)
                                rs with
                        | [] => None
                        | l => Some l
                        end).
Proof.
  intros query options project_ids default_project_id w G w'.
  unfold Search.search_memory. cbv [bind].
  destruct (Search.resolve_targets project_ids default_project_id w)
    as [[targets|e] w0] eqn:Htargets; [|discriminate].
  destruct (EmbeddingService.generate_embedding query w0)
    as [[emb|e] w1] eqn:Hemb; [|discriminate].
  intros Hloop. apply search_loop in Hloop as (hits & Hhits & ->).
  exists targets, w0, emb, w1, hits.
  split; [done|]. split; [done|]. split; [done|].
  intros p. destruct (grouped_get (zip targets hits) [] p)
    as [[Hget Hall]|(rs & Hin & Hne & Hget)].
  - left. split; [|done]. by apply dict_get_None.
  - right. exists rs, (foldl Search.bucket [] rs).
    repeat split; try done. intros c. apply project_groups.
Qed.

End SearchProperties.

(** A recall over projects "p1" and "p2" where only "p1" has a hit: the
    result has the one entry "p1", holding the hit under its context "c1",
    and no entry for "p2". *)
Lemma recall_groups_by_project_and_first_context_witness :
  exists w',
    Search.search_memory (E := RecallExample.E) "x" RecallExample.options
      (Search.Projects ["p1"; "p2"]) None RecallExample.w
    = (Ok [("p1", [("c1", [RecallExample.hit])])], w')
    /\ exists hits : list (list SearchResult.t),
         forall p,
           ((p ∉ ["p1"]) /\ forall rs, (p, rs) ∈ zip ["p1"; "p2"] hits -> rs = [])
           \/ (exists rs groups,
                 (p, rs) ∈ zip ["p1"; "p2"] hits /\ rs <> []
                 /\ Dict.get [("p1", [("c1", [RecallExample.hit])])] p
                    = Some groups).
Proof.
  eexists. split; [vm_compute; reflexivity|].
  destruct (recall_groups_by_project_and_first_context
              (E := RecallExample.E) "x" RecallExample.options
              (Search.Projects ["p1"; "p2"]) None RecallExample.w
              _ _ eq_refl)
    as (targets & w0 & emb & w1 & hits & Ht & _ & _ & Hall).
  vm_compute in Ht. injection Ht as <- _.
  exists hits. intros p. destruct (Hall p) as [Hno|(rs & groups & H1 & H2 & H3 & _)].
  - left. exact Hno.
  - right. exists rs, groups. repeat split; assumption.
Defined.

(** ** Synthesizer *)

Section SynthesisProperties.
Context {E : Env} {C : Config} {P : Prompts}.

(** A comprehension over calls that do not raise does not raise. *)
Lemma map_m_total {A B} (f : A -> M B) xs :
  (forall x w, exists y w', f x w = (Ok y, w')) ->
  forall w, exists ys w', map_m f xs w = (Ok ys, w').
Proof.
  intros Hf. induction xs as [|x xs IH]; intros w.
  - by exists [], w.
  - cbn [map_m]. cbv [bind ret].
    destruct (Hf x w) as (y & w1 & ->).
    destruct (IH w1) as (ys & w2 & ->). by exists (y :: ys), w2.
Qed.

Lemma get_project_total project_id w :
  exists r w', Memory.get_project project_id w = (Ok r, w').
Proof.
  cbv [Memory.get_project Storage.get_project try_except bind ret sqlite
       external get_world].
  destruct (fault (tick w)); eauto.
Qed.

Lemma get_context_total context_id w :
  exists r w', Memory.get_context context_id w = (Ok r, w').
Proof.
  cbv [Memory.get_context Storage.get_context try_except bind ret sqlite
       external get_world].
  destruct (fault (tick w)); eauto.
Qed.

Lemma describe_groups_total grouped_results w :
  exists described w',
    MemorySynthesizer.describe_groups grouped_results w = (Ok described, w').
Proof.
  unfold MemorySynthesizer.describe_groups. apply map_m_total.
  intros [project_id contexts_data] w0. cbv [bind ret].
  destruct (get_project_total project_id w0) as (project & w1 & ->).
  destruct (map_m_total
              (fun '(context_id, search_results_list) =>
                 let* context := Memory.get_context context_id in
                 ret (context_id, context, search_results_list))
              contexts_data) with (w := w1) as (groups & w2 & Hg).
  { intros [context_id srs] w3. cbv [bind ret].
    destruct (get_context_total context_id w3) as (c & w4 & ->). eauto. }
  cbv [bind ret] in Hg. rewrite Hg. eauto.
Qed.

Lemma synthesize_legacy_total query fragments w :
  exists j w', MemorySynthesizer.synthesize_legacy query fragments w = (Ok j, w').
Proof.
  cbv [MemorySynthesizer.synthesize_legacy try_except ret].
  destruct (MemorySynthesizer.legacy_attempt _ w) as [[j|e] w']; eauto.
Qed.







End SynthesisProperties.


(** ** Reading the store *)

Section Reads.
Context {E : Env}.

Lemma store_preserved_refl w : store_preserved w w.
Proof. by repeat split. Qed.

Lemma store_preserved_trans w1 w2 w3 :
  store_preserved w1 w2 -> store_preserved w2 w3 -> store_preserved w1 w3.
Proof.
  intros (Hp & Hf & Hc & Ha & Hcol) (Hp' & Hf' & Hc' & Ha' & Hcol').
  repeat split; try congruence. intros name points H. by apply Hcol', Hcol.
Qed.

Lemma store_preserved_tick w n : store_preserved w (set_tick w n).
Proof. by repeat split. Qed.

Lemma reads_ret {A} (a : A) : reads (ret a).
Proof. intros w r w' [= _ <-]. apply store_preserved_refl. Qed.

Lemma reads_raise {A} e : reads (raise (A := A) e).
Proof. intros w r w' [= _ <-]. apply store_preserved_refl. Qed.

Lemma reads_get_world : reads get_world.
Proof. intros w r w' [= _ <-]. apply store_preserved_refl. Qed.

Lemma reads_bind {A B} (m : M A) (k : A -> M B) :
  reads m -> (forall a, reads (k a)) -> reads (bind m k).
Proof.
  intros Hm Hk w r w'. unfold bind.
  destruct (m w) as [[a|e] w1] eqn:H1.
  - intros H2. eapply store_preserved_trans; [by eapply Hm | by eapply Hk].
  - intros [= _ <-]. by eapply Hm.
Qed.

Lemma reads_try_except {A} (m : M A) (h : exn -> M A) :
  reads m -> (forall e, reads (h e)) -> reads (try_except m h).
Proof.
  intros Hm Hh w r w'. unfold try_except.
  destruct (m w) as [[a|e] w1] eqn:H1.
  - intros [= _ <-]. by eapply Hm.
  - intros H2. eapply store_preserved_trans; [by eapply Hm | by eapply Hh].
Qed.

Lemma reads_external e : reads (external e).
Proof.
  intros w r w'. unfold external.
  destruct (fault (tick w)); intros [= _ <-]; apply store_preserved_tick.
Qed.

Lemma reads_map_m {A B} (f : A -> M B) xs :
  (forall x, reads (f x)) -> reads (map_m f xs).
Proof.
  intros Hf. induction xs as [|x xs IH]; cbn [map_m].
  - apply reads_ret.
  - apply reads_bind; [apply Hf|]. intros y.
    apply reads_bind; [apply IH|]. intros ys. apply reads_ret.
Qed.

Lemma reads_if {A} (b : bool) (m1 m2 : M A) :
  reads m1 -> reads m2 -> reads (if b then m1 else m2).
Proof. by destruct b. Qed.

End Reads.

Ltac reads_step :=
  first
    [ apply reads_ret | apply reads_raise | apply reads_get_world
    | apply reads_external
    | apply reads_bind; [|intros ?]
    | apply reads_try_except; [|intros ?]
    | apply reads_map_m; intros ?
    | apply reads_if ].

Section StorageReads.
Context {E : Env}.

Lemma reads_get_or_create_collection project_id :
  reads (Storage.get_or_create_collection project_id).
Proof.
  unfold Storage.get_or_create_collection, Storage.has_collection, qdrant.
  generalize ("project_" +:+ Py.replace "-" "_" project_id). intros name0.
  apply reads_bind; [|intros ?; apply reads_ret].
  apply reads_try_except.
  - repeat reads_step.
  - intros _. apply reads_bind; [apply reads_external|]. intros _.
    intros w r w'. cbv [bind get_world ret raise modify].
    destruct (collections w !! name0) eqn:Hc.
    + rewrite bool_decide_eq_true_2 by eauto.
      intros [= _ <-]. apply store_preserved_refl.
    + rewrite bool_decide_eq_false_2 by (by intros [? ?]).
      intros [= _ <-]. repeat split; try done.
      intros name points Hn. simpl.
      rewrite lookup_insert_ne; [done|]. intros ->. congruence.
Qed.

Lemma reads_get_fragment fragment_id : reads (Storage.get_fragment fragment_id).
Proof. unfold Storage.get_fragment, sqlite. repeat reads_step. Qed.

Lemma reads_get_context context_id : reads (Storage.get_context context_id).
Proof. unfold Storage.get_context, sqlite. repeat reads_step. Qed.

Lemma reads_get_anchor anchor_id : reads (Storage.get_anchor anchor_id).
Proof. unfold Storage.get_anchor, sqlite. repeat reads_step. Qed.

Lemma reads_list_contexts project_id :
  reads (Storage.list_contexts_by_project project_id).
Proof. unfold Storage.list_contexts_by_project, sqlite. repeat reads_step. Qed.

Lemma reads_semantic_search emb options :
  reads (Storage.semantic_search emb options).
Proof.
  unfold Storage.semantic_search, qdrant.
  destruct (SearchOptions.project_id options); [|apply reads_raise].
  apply reads_if; [apply reads_raise|].
  apply reads_bind; [apply reads_get_or_create_collection|]. intros ?.
  repeat reads_step.
Qed.

Lemma reads_search_hit hit : reads (Storage.search_hit hit).
Proof.
  destruct hit as [fragment_id similarity]. unfold Storage.search_hit.
  apply reads_bind; [apply reads_get_fragment|]. intros [fragment|].
  - apply reads_bind.
    + destruct (MemoryFragment.context_ids fragment);
        [apply reads_ret | apply reads_get_context].
    + intros ?. apply reads_bind; [|intros ?; apply reads_ret].
      apply reads_map_m. intros ?. apply reads_get_anchor.
  - apply reads_ret.
Qed.

Lemma reads_search_fragments emb options :
  reads (Storage.search_fragments emb options).
Proof.
  unfold Storage.search_fragments.
  apply reads_bind; [apply reads_semantic_search|]. intros ?.
  apply reads_bind; [|intros ?; apply reads_ret].
  apply reads_map_m. intros ?. apply reads_search_hit.
Qed.

End StorageReads.

(** ** Ingestion curator: the steps before the decision is applied *)

Section CuratorSteps.
Context {E : Env} {C : Config} {P : Prompts}.

Lemma reads_generate_embedding text :
  reads (EmbeddingService.generate_embedding text).
Proof. unfold EmbeddingService.generate_embedding. repeat reads_step. Qed.

Lemma reads_search_relevant content project_id :
  reads (IngestionCurator.search_relevant content project_id).
Proof.
  unfold IngestionCurator.search_relevant, Memory.search_memory_by_vector.
  apply reads_bind; [apply reads_generate_embedding|]. intros ?. simpl.
  apply reads_if; [apply reads_search_fragments | apply reads_raise].
Qed.

Lemma reads_find_relevant_fragments content project_id :
  reads (IngestionCurator.find_relevant_fragments content project_id).
Proof.
  apply reads_try_except; [apply reads_search_relevant|].
  intros ?. apply reads_ret.
Qed.

Lemma reads_fetch_existing_contexts project_id :
  reads (IngestionCurator.fetch_existing_contexts project_id).
Proof.
  apply reads_try_except; [apply reads_list_contexts|].
  intros ?. apply reads_ret.
Qed.

Lemma reads_get_curation_decision content relevant existing :
  reads (IngestionCurator._get_curation_decision content relevant existing).
Proof.
  unfold IngestionCurator._get_curation_decision, Gemini.generate_content.
  apply reads_try_except; [|intros ?; apply reads_raise].
  apply reads_bind; [repeat reads_step|]. intros text.
  apply reads_bind.
  - intros w r w'. unfold Gemini.loads. intros [= _ <-].
    apply store_preserved_refl.
  - intros [| | | | |fields]; first [apply reads_raise | apply reads_ret].
Qed.

(** A [try] whose handler returns a value returns a value. *)
Lemma try_except_total {A} (m : M A) (h : exn -> M A) :
  (forall e w, exists a w', h e w = (Ok a, w')) ->
  forall w, exists a w', try_except m h w = (Ok a, w').
Proof.
  intros Hh w. unfold try_except. destruct (m w) as [[a|e] w1]; eauto.
Qed.

Lemma find_relevant_fragments_total content project_id w :
  exists relevant w1,
    IngestionCurator.find_relevant_fragments content project_id w
    = (Ok relevant, w1).
Proof. apply try_except_total. intros e w0. by exists [], w0. Qed.

Lemma fetch_existing_contexts_total project_id w :
  exists existing w1,
    IngestionCurator.fetch_existing_contexts project_id w = (Ok existing, w1).
Proof. apply try_except_total. intros e w0. by exists [], w0. Qed.


(** When the decision call raises: the provider call failed, its answer
    did not parse, or the parsed value is not an object. *)
Lemma get_curation_decision_raises content relevant existing w :
  let text :=
    llm_text (tick w)
      (_build_curation_prompt_with_context content relevant existing) in
  fault (tick w) = true
  \/ (exists e, json_loads text = Raise e)
  \/ (exists j, json_loads text = Ok j /\ forall fields, j <> JObj fields) ->
  exists e,
    IngestionCurator._get_curation_decision content relevant existing w
    = (Raise e, set_tick w (S (tick w))).
Proof.
  intros text H.
  cbv [IngestionCurator._get_curation_decision Gemini.generate_content
       Gemini.loads try_except bind ret raise external].
  destruct (fault (tick w)); [eauto|]. fold text.
  destruct H as [H|[[e He]|(j & Hj & Hobj)]]; [done| |].
  - rewrite He. eauto.
  - rewrite Hj. destruct j; eauto. by destruct (Hobj fields).
Qed.

(** The decision call checks no schema: an answer that parses to an object
    is returned, with the three keys filled in where they are missing. *)
Lemma get_curation_decision_object content relevant existing w fields :
  fault (tick w) = false ->
  json_loads
    (llm_text (tick w)
       (_build_curation_prompt_with_context content relevant existing))
  = Ok (JObj fields) ->
  IngestionCurator._get_curation_decision content relevant existing w
  = (Ok (Dict.setdefault
           (Dict.setdefault
              (Dict.setdefault fields "contexts_to_create" (JArr []))
              "fragments_to_create" (JArr []))
           "ids_to_delete" (JArr [])),
     set_tick w (S (tick w))).
Proof.
  intros Hf Hj.
  cbv [IngestionCurator._get_curation_decision Gemini.generate_content
       Gemini.loads try_except bind ret raise external].
  by rewrite Hf, Hj.
Qed.

(** C1, as the code has it.  The two steps before the decision return a
    value and only read the store.  When the decision call then raises,
    the whole call raises the same exception, and the store is as it was
    when the call began: no fragment and no context has been created or
    deleted.  The decision call raises when the provider call fails, when
    its answer does not parse, and when the parsed value is not an object.
    An answer that parses to an object is not refused, whatever it holds:
    the decision is that object, with an empty list under each of the
    three keys it lacks. *)
Theorem curation_decision_failure_is_fatal :
  forall content project_id w,
    exists relevant w1 existing w2,
      IngestionCurator.find_relevant_fragments content project_id w
      = (Ok relevant, w1)
      /\ IngestionCurator.fetch_existing_contexts project_id w1
         = (Ok existing, w2)
      /\ store_preserved w w2
      /\ (forall e w3,
            IngestionCurator._get_curation_decision content relevant existing w2
            = (Raise e, w3) ->
            IngestionCurator.curate_and_chunk content project_id w
            = (Raise e, w3)
            /\ store_preserved w w3)
      /\ (let text :=
            llm_text (tick w2)
              (_build_curation_prompt_with_context
                 content relevant existing) in
          fault (tick w2) = true
          \/ (exists e, json_loads text = Raise e)
          \/ (exists j, json_loads text = Ok j
                        /\ forall fields, j <> JObj fields) ->
          exists e w3,
            IngestionCurator._get_curation_decision
              content relevant existing w2 = (Raise e, w3))
      /\ (forall fields,
            fault (tick w2) = false ->
            json_loads
              (llm_text (tick w2)
                 (_build_curation_prompt_with_context
                    content relevant existing)) = Ok (JObj fields) ->
            IngestionCurator._get_curation_decision
              content relevant existing w2
            = (Ok (Dict.setdefault
                     (Dict.setdefault
                        (Dict.setdefault fields "contexts_to_create"
                                         (JArr []))
                        "fragments_to_create" (JArr []))
                     "ids_to_delete" (JArr [])),
               set_tick w2 (S (tick w2)))).
Proof.
  intros content project_id w.
  destruct (find_relevant_fragments_total content project_id w)
    as (relevant & w1 & H1).
  destruct (fetch_existing_contexts_total project_id w1)
    as (existing & w2 & H2).
  exists relevant, w1, existing, w2.
  assert (Hp : store_preserved w w2).
  { eapply store_preserved_trans.
    - by eapply reads_find_relevant_fragments.
    - by eapply reads_fetch_existing_contexts. }
  split; [done|]. split; [done|]. split; [done|]. split; [|split].
  - intros e w3 Hd. split.
    + unfold IngestionCurator.curate_and_chunk. cbv [bind].
      by rewrite H1, H2, Hd.
    + eapply store_preserved_trans; [exact Hp|].
      by eapply reads_get_curation_decision.
  - intros text H.
    destruct (get_curation_decision_raises content relevant existing w2 H)
      as [e He].
    eauto.
  - intros fields Hf Hj. by apply get_curation_decision_object.
Qed.

End CuratorSteps.

(** With every external call failing, a curation of project "p1" raises
    the provider's error at the decision, three ticks in, and the store
    still holds what it held. *)
Lemma curation_decision_failure_is_fatal_witness :
  let E := CurationExample.env (fun _ => true) (Ok JNull) in
  IngestionCurator.curate_and_chunk
    (E := E) (C := Examples.default_config) (P := Examples.plain_prompts)
    "x" "p1" RecallExample.w
  = (Raise (ProviderError "generate_content"), set_tick RecallExample.w 3)
  /\ store_preserved RecallExample.w (set_tick RecallExample.w 3).
Proof.
  intros E.
  destruct (curation_decision_failure_is_fatal
              (E := E) (C := Examples.default_config)
              (P := Examples.plain_prompts) "x" "p1" RecallExample.w)
    as (relevant & w1 & existing & w2 & H1 & H2 & _ & Hfatal & _).
  vm_compute in H1. injection H1 as <- <-.
  vm_compute in H2. injection H2 as <- <-.
  apply Hfatal. reflexivity.
Defined.

(** C1, as stated, fails on the code.  Nothing fails outside, and the
    provider's answer is an object that violates the schema: the content
    of its one fragment is the number 5.  The decision call returns it;
    the apply deletes the fragment "f1" that the answer names and then
    raises on the content, so the caller sees a failure after the store
    has changed.  And the empty object, which lacks the two required keys,
    is not refused either: the call returns the result of an empty
    decision. *)
Lemma curation_schema_violation_counterexample :
  let w := RecallExample.w in
  (let E :=
     CurationExample.env (fun _ => false)
       (Ok (JObj [("ids_to_delete", JArr [JStr "f1"]);
                  ("fragments_to_create",
                   JArr [JObj [("content", JNum 5);
                               ("context_name", JStr "maps")]])])) in
   exists w',
     fragments w !! "f1" = Some RecallExample.f1
     /\ IngestionCurator.curate_and_chunk
          (E := E) (C := Examples.default_config)
          (P := Examples.plain_prompts) "x" "p1" w
        = (Raise (AttributeError "strip"), w')
     /\ fragments w' !! "f1" = None)
  /\ (let E := CurationExample.env (fun _ => false) (Ok (JObj [])) in
      exists w',
        IngestionCurator.curate_and_chunk
          (E := E) (C := Examples.default_config)
          (P := Examples.plain_prompts) "x" "p1" w
        = (Ok (CurationResult.mk [] [] (JArr [])), w')).
Proof.
  split.
  - eexists. split; [reflexivity|]. split; vm_compute; reflexivity.
  - eexists. vm_compute. reflexivity.
Qed.

(** ** Ingestion curator: applying the decision *)

Section ContextRows.

Lemma find_context_update_same cid members rows :
  Storage.find_context cid (Storage.update_rows cid members rows)
  = Storage.set_members members <$> Storage.find_context cid rows.
Proof.
  unfold Storage.find_context, Storage.update_rows.
  induction rows as [|c rows IH]; [reflexivity|]. simpl.
  destruct (String.eqb_spec (MemoryContext.id c) cid) as [Heq|Hne]; simpl.
  - by rewrite Heq, String.eqb_refl.
  - destruct (String.eqb_spec (MemoryContext.id c) cid); [done|]. exact IH.
Qed.

Lemma find_context_update_other cid cid' members rows :
  cid' <> cid ->
  Storage.find_context cid (Storage.update_rows cid' members rows)
  = Storage.find_context cid rows.
Proof.
  intros Hne. unfold Storage.find_context, Storage.update_rows.
  induction rows as [|c rows IH]; [reflexivity|]. simpl.
  destruct (String.eqb_spec (MemoryContext.id c) cid') as [Heq|Hne']; simpl.
  - destruct (String.eqb_spec (MemoryContext.id c) cid); [congruence|].
    exact IH.
  - destruct (String.eqb_spec (MemoryContext.id c) cid); [done|]. exact IH.
Qed.

(** The merged membership lists every id once, and holds exactly the ids
    already filed and the new ones. *)
Lemma merge_members_spec current new :
  NoDup (IngestionCurator.merge_members current new)
  /\ (forall x, x ∈ IngestionCurator.merge_members current new
                <-> x ∈ current \/ x ∈ new)
  /\ IngestionCurator.merge_members current new
     ≡ₚ remove_dups (current ++ new).
Proof.
  unfold IngestionCurator.merge_members.
  assert (Hel : forall x,
            x ∈ elements (list_to_set (current ++ new) : gset string)
            <-> x ∈ current \/ x ∈ new).
  { intros x. by rewrite elem_of_elements, elem_of_list_to_set, elem_of_app. }
  split; [apply NoDup_elements|]. split; [exact Hel|].
  apply NoDup_Permutation; [apply NoDup_elements | apply NoDup_remove_dups|].
  intros x. by rewrite Hel, elem_of_remove_dups, elem_of_app.
Qed.

End ContextRows.

Section ApplyProperties.
Context {E : Env} {C : Config} {P : Prompts}.

(** What one pass of step 4 does: it returns, leaves the fragments alone,
    and either writes nothing or writes the merge of the fetched
    membership with the new ids. *)
Lemma update_one_context_spec cid new w :
  exists w',
    IngestionCurator.update_one_context (cid, new) w = (Ok tt, w')
    /\ fragments w' = fragments w
    /\ (contexts w' = contexts w
        \/ exists ctx,
             new <> []
             /\ Storage.find_context cid (contexts w) = Some ctx
             /\ contexts w'
                = Storage.update_rows cid
                    (IngestionCurator.merge_members
                       (MemoryContext.fragment_ids ctx) new)
                    (contexts w))
    /\ (new <> [] -> fault (tick w) = false -> fault (S (tick w)) = false ->
        forall ctx,
          Storage.find_context cid (contexts w) = Some ctx ->
          contexts w'
          = Storage.update_rows cid
              (IngestionCurator.merge_members
                 (MemoryContext.fragment_ids ctx) new)
              (contexts w)).
Proof.
  destruct new as [|n new].
  { exists w. simpl. split; [done|]. split; [done|]. split; [by left|done]. }
  cbv [IngestionCurator.update_one_context Memory.get_context
       Storage.get_context Storage.update_context_fragments
       try_except bind ret sqlite external get_world modify].
  destruct (fault (tick w)) eqn:Hf1.
  { eexists. split; [reflexivity|]. split; [done|]. split; [by left|done]. }
  destruct (Storage.find_context cid (contexts w)) as [ctx|] eqn:Hfind.
  2: { change (contexts (set_tick w (S (tick w)))) with (contexts w).
       rewrite Hfind.
       eexists. split; [reflexivity|]. split; [done|]. split; [by left|done]. }
  change (contexts (set_tick w (S (tick w)))) with (contexts w).
  rewrite Hfind.
  change (tick (set_tick w (S (tick w)))) with (S (tick w)).
  destruct (fault (S (tick w))) eqn:Hf2.
  { eexists. split; [reflexivity|]. split; [done|]. split; [by left|done]. }
  eexists. split; [reflexivity|]. split; [done|]. split.
  - right. exists ctx. by repeat split.
  - intros _ _ _ ctx' [= <-]. reflexivity.
Qed.








(** C10.  Whenever the apply returns a result, its [deleted_ids] is the
    decision's [ids_to_delete] as it stands; the batch delete of the
    memory layer never raises, and reports [False] with nothing deleted
    when the storage call fails; and the result of a curation is the
    result of the apply of its decision. *)
Theorem deleted_ids_echo_the_decision :
  forall project_id w,
    (forall decision existing r w',
       IngestionCurator._apply_curation_decision decision project_id existing w
       = (Ok r, w') ->
       CurationResult.deleted_ids r
       = from_option id (JArr []) (Dict.get decision "ids_to_delete"))
    /\ (forall ids, exists deleted w',
          Memory.delete_fragments ids project_id w = (Ok deleted, w'))
    /\ (forall ids,
          ids <> [] -> fault (tick w) = true ->
          Memory.delete_fragments ids project_id w
          = (Ok false, set_tick w (S (tick w))))
    /\ (forall content r w',
          IngestionCurator.curate_and_chunk content project_id w = (Ok r, w') ->
          exists relevant existing w2 decision w3,
            IngestionCurator._get_curation_decision
              content relevant existing w2 = (Ok decision, w3)
            /\ CurationResult.deleted_ids r
               = from_option id (JArr []) (Dict.get decision "ids_to_delete")).
Proof.
  intros project_id w.
  assert (Hecho : forall decision existing w0 r w',
            IngestionCurator._apply_curation_decision
              decision project_id existing w0 = (Ok r, w') ->
            CurationResult.deleted_ids r
            = from_option id (JArr []) (Dict.get decision "ids_to_delete")).
  { intros decision existing w0 r w'.
    unfold IngestionCurator._apply_curation_decision. cbv [bind ret].
    destruct (IngestionCurator.delete_old_fragments _ _ w0)
      as [[[]|e] w1]; [|discriminate].
    destruct (IngestionCurator.create_new_contexts _ _ _ w1)
      as [[[cm cc]|e] w2]; [|discriminate].
    destruct (IngestionCurator.create_new_fragments _ _ _ w2)
      as [[[[cm' cf] fbc]|e] w3]; [|discriminate].
    destruct (IngestionCurator.update_contexts fbc w3)
      as [[[]|e] w4]; [|discriminate].
    by intros [= <- _]. }
  split; [intros; by eapply Hecho|]. split; [|split].
  - intros ids. apply try_except_total. intros e w0. by exists false, w0.
  - intros ids Hids Hf.
    cbv [Memory.delete_fragments Storage.delete_fragments].
    destruct ids as [|i ids]; [done|].
    cbv [try_except bind ret sqlite external]. by rewrite Hf.
  - intros content r w'.
    unfold IngestionCurator.curate_and_chunk. cbv [bind].
    destruct (IngestionCurator.find_relevant_fragments _ _ w)
      as [[relevant|e] w1]; [|discriminate].
    destruct (IngestionCurator.fetch_existing_contexts _ w1)
      as [[existing|e] w2]; [|discriminate].
    destruct (IngestionCurator._get_curation_decision _ _ _ w2)
      as [[decision|e] w3] eqn:Hd; [|discriminate].
    destruct (IngestionCurator._apply_curation_decision _ _ _ w3)
      as [[result|e] w4] eqn:Happly; [|discriminate].
    unfold IngestionCurator.log_completion.
    destruct (Json.len _); cbv [ret raise]; [|discriminate].
    intros [= <- <-]. exists relevant, existing, w2, decision, w3.
    split; [done|]. by eapply Hecho.
Qed.

End ApplyProperties.


(** The decision asks to delete "f1", and the storage call of the batch
    delete fails: the delete reports [False], "f1" is still in the store,
    and the result lists "f1" under [deleted_ids]. *)
Lemma deleted_ids_echo_the_decision_witness :
  let E := CurationExample.env (fun n => Nat.eqb n 0)
                               (Ok CurationExample.delete_f1) in
  let decision :=
    [("fragments_to_create", JArr []); ("ids_to_delete", JArr [JStr "f1"])] in
  let w := RecallExample.w in
  IngestionCurator._apply_curation_decision
    (E := E) (C := Examples.default_config) (P := Examples.plain_prompts)
    decision "p1" [RecallExample.c1] w
  = (Ok (CurationResult.mk [] [] (JArr [JStr "f1"])), set_tick w 1)
  /\ CurationResult.deleted_ids (CurationResult.mk [] [] (JArr [JStr "f1"]))
     = JArr [JStr "f1"]
  /\ Memory.delete_fragments (E := E) ["f1"] "p1" w
     = (Ok false, set_tick w 1)
  /\ fragments (set_tick w 1) !! "f1" = Some RecallExample.f1.
Proof.
  intros E decision w.
  assert (Hrun : IngestionCurator._apply_curation_decision
                   (E := E) (C := Examples.default_config)
                   (P := Examples.plain_prompts)
                   decision "p1" [RecallExample.c1] w
                 = (Ok (CurationResult.mk [] [] (JArr [JStr "f1"])),
                    set_tick w 1))
    by (vm_compute; reflexivity).
  destruct (deleted_ids_echo_the_decision
              (E := E) (C := Examples.default_config)
              (P := Examples.plain_prompts) "p1" w)
    as (Hecho & _ & Hfalse & _).
  split; [exact Hrun|]. split; [exact (Hecho _ _ _ _ Hrun)|].
  split; [apply Hfalse; [discriminate|reflexivity]|].
  reflexivity.
Defined.

(** * Further properties *)

(** ** Embedding cache: hits, cleanup and statistics *)

Section CacheMore.
Variable md5_hexdigest : string -> string.

Lemma expired_keys_spec c now k :
  k ∈ EmbeddingCache.expired_keys c now
  <-> exists stamp,
        EmbeddingCache._timestamps c !! k = Some stamp
        /\ EmbeddingCache.ttl c <= now - stamp.
Proof.
  unfold EmbeddingCache.expired_keys. rewrite list_elem_of_fmap. split.
  - intros ([k' stamp] & -> & Hin). apply list_elem_of_In, filter_In in Hin.
    destruct Hin as [Hin Hexp]. apply list_elem_of_In, elem_of_map_to_list in Hin.
    exists stamp. split; [exact Hin|]. by apply bool_decide_eq_true_1 in Hexp.
  - intros (stamp & Hk & Hexp). exists (k, stamp). split; [reflexivity|].
    apply list_elem_of_In, filter_In. split.
    + by apply list_elem_of_In, elem_of_map_to_list.
    + by apply bool_decide_eq_true_2.
Qed.

Lemma expired_keys_NoDup c now : NoDup (EmbeddingCache.expired_keys c now).
Proof.
  unfold EmbeddingCache.expired_keys.
  pose proof (NoDup_fst_map_to_list (EmbeddingCache._timestamps c)) as Hnd.
  induction (map_to_list (EmbeddingCache._timestamps c)) as [|[k s] l IH].
  - constructor.
  - simpl in Hnd. apply NoDup_cons in Hnd as [Hk Hnd]. simpl.
    destruct (bool_decide _); [|by apply IH]. simpl. apply NoDup_cons.
    split; [|by apply IH]. intros Hin. apply Hk.
    apply list_elem_of_fmap in Hin as (x & -> & Hx).
    apply list_elem_of_In, filter_In in Hx as [Hx _].
    apply list_elem_of_fmap. exists x. split; [reflexivity|].
    by apply list_elem_of_In.
Qed.

Lemma remove_all_timestamps c keys k :
  EmbeddingCache._timestamps (foldl EmbeddingCache._remove c keys) !! k
  = if decide (k ∈ keys) then None else EmbeddingCache._timestamps c !! k.
Proof.
  revert c. induction keys as [|x keys IH]; intros c.
  - rewrite decide_False by apply not_elem_of_nil. reflexivity.
  - cbn [foldl]. rewrite IH. simpl. destruct (decide (k ∈ keys)) as [Hin|Hin].
    + rewrite decide_True by (by right). reflexivity.
    + destruct (decide (k = x)) as [->|Hne].
      * rewrite decide_True by left. apply lookup_delete_eq.
      * rewrite decide_False by (by intros [?|?]%elem_of_cons).
        by apply lookup_delete_ne.
Qed.

Lemma remove_all_cache c keys k :
  EmbeddingCache._cache (foldl EmbeddingCache._remove c keys) !! k
  = if decide (k ∈ keys) then None else EmbeddingCache._cache c !! k.
Proof.
  revert c. induction keys as [|x keys IH]; intros c.
  - rewrite decide_False by apply not_elem_of_nil. reflexivity.
  - cbn [foldl]. rewrite IH. simpl. destruct (decide (k ∈ keys)) as [Hin|Hin].
    + rewrite decide_True by (by right). reflexivity.
    + destruct (decide (k = x)) as [->|Hne].
      * rewrite decide_True by left. apply lookup_delete_eq.
      * rewrite decide_False by (by intros [?|?]%elem_of_cons).
        by apply lookup_delete_ne.
Qed.

Lemma remove_all_ttl c keys :
  EmbeddingCache.ttl (foldl EmbeddingCache._remove c keys)
  = EmbeddingCache.ttl c.
Proof.
  revert c. induction keys as [|x keys IH]; intros c; [done|].
  cbn [foldl]. by rewrite IH.
Qed.

Lemma remove_all_size c keys :
  NoDup keys ->
  (forall k, k ∈ keys -> is_Some (EmbeddingCache._timestamps c !! k)) ->
  (size (EmbeddingCache._timestamps (foldl EmbeddingCache._remove c keys))
   + length keys)%nat
  = size (EmbeddingCache._timestamps c).
Proof.
  revert c. induction keys as [|x keys IH]; intros c Hnd Hall; simpl.
  - lia.
  - apply NoDup_cons in Hnd as [Hx Hnd].
    rewrite Nat.add_succ_r, IH; [|exact Hnd|].
    + simpl. destruct (Hall x) as [s Hs]; [left|].
      rewrite map_size_delete, Hs.
      assert (size (EmbeddingCache._timestamps c) <> 0%nat); [|lia].
      intros H0. apply map_size_empty_inv in H0. rewrite H0 in Hs.
      by rewrite lookup_empty in Hs.
    + intros k Hk. simpl. rewrite lookup_delete_ne.
      * apply Hall. by right.
      * intros ->. contradiction.
Qed.

(** X1.  A cache hit is sound: whatever vector [get] returns is the one
    stored under the key of that text and model, its timestamp is younger
    than the time-to-live, and the hit leaves the cache as it was. *)
Theorem cache_hit_is_a_fresh_entry :
  forall (c c' : EmbeddingCache.t) (text model : string) (now : Z)
         (v : EmbeddingCache.vector),
    EmbeddingCache.get md5_hexdigest c text model now = (Some v, c') ->
    c' = c
    /\ EmbeddingCache._cache c
         !! EmbeddingCache._generate_key md5_hexdigest text model = Some v
    /\ exists stamp,
         EmbeddingCache._timestamps c
           !! EmbeddingCache._generate_key md5_hexdigest text model
         = Some stamp
         /\ now - stamp < EmbeddingCache.ttl c.
Proof.
  intros c c' text model now v. unfold EmbeddingCache.get.
  destruct (bool_decide (is_Some _)) eqn:Hin; simpl.
  - unfold EmbeddingCache._is_valid.
    destruct (EmbeddingCache._timestamps c !! _) as [stamp|] eqn:Hs.
    + destruct (bool_decide (now - stamp < _)) eqn:Hage.
      * intros [= Hv <-]. split; [reflexivity|]. split; [exact Hv|].
        exists stamp. split; [reflexivity|]. by apply bool_decide_eq_true in Hage.
      * discriminate.
    + discriminate.
  - discriminate.
Qed.

(** X2.  [cleanup_expired] removes exactly the entries whose age has
    reached the time-to-live: such an entry loses its timestamp and its
    vector, an entry younger than that keeps both, the time-to-live is
    unchanged, and the number returned is the number of timestamps that
    disappeared. *)
Theorem cleanup_expired_removes_exactly_the_expired :
  forall (c : EmbeddingCache.t) (now : Z),
    let n := (EmbeddingCache.cleanup_expired c now).1 in
    let c' := (EmbeddingCache.cleanup_expired c now).2 in
    (forall k stamp,
       EmbeddingCache._timestamps c !! k = Some stamp ->
       EmbeddingCache.ttl c <= now - stamp ->
       EmbeddingCache._timestamps c' !! k = None
       /\ EmbeddingCache._cache c' !! k = None)
    /\ (forall k stamp,
          EmbeddingCache._timestamps c !! k = Some stamp ->
          now - stamp < EmbeddingCache.ttl c ->
          EmbeddingCache._timestamps c' !! k = Some stamp
          /\ EmbeddingCache._cache c' !! k = EmbeddingCache._cache c !! k)
    /\ EmbeddingCache.ttl c' = EmbeddingCache.ttl c
    /\ (size (EmbeddingCache._timestamps c') + n)%nat
       = size (EmbeddingCache._timestamps c).
Proof.
  intros c now n c'. subst n c'. unfold EmbeddingCache.cleanup_expired.
  cbn [fst snd]. repeat split.
  - rewrite remove_all_timestamps. rewrite decide_True; [done|].
    apply expired_keys_spec. eauto.
  - rewrite remove_all_cache. rewrite decide_True; [done|].
    apply expired_keys_spec. eauto.
  - rewrite remove_all_timestamps. rewrite decide_False; [done|].
    intros (s & Hs & Hexp)%expired_keys_spec. simplify_eq. lia.
  - rewrite remove_all_cache. rewrite decide_False; [done|].
    intros (s & Hs & Hexp)%expired_keys_spec. simplify_eq. lia.
  - apply remove_all_ttl.
  - apply remove_all_size; [apply expired_keys_NoDup|].
    intros k (s & Hs & _)%expired_keys_spec. eauto.
Qed.

Lemma keys_agree_remove c k :
  EmbeddingCacheStats.keys_agree c ->
  EmbeddingCacheStats.keys_agree (EmbeddingCache._remove c k).
Proof.
  unfold EmbeddingCacheStats.keys_agree. intros H. simpl.
  by rewrite !dom_delete_L, H.
Qed.

Lemma keys_agree_remove_all c keys :
  EmbeddingCacheStats.keys_agree c ->
  EmbeddingCacheStats.keys_agree (foldl EmbeddingCache._remove c keys).
Proof.
  revert c. induction keys as [|x keys IH]; intros c H; [exact H|].
  cbn [foldl]. by apply IH, keys_agree_remove.
Qed.

(** X3.  The cache keeps its two dictionaries on the same keys: a new
    cache does, and [set], [get], [_remove], [clear] and [cleanup_expired]
    all preserve it. *)
Theorem cache_dictionaries_share_their_keys :
  forall (c : EmbeddingCache.t) (text model key : string)
         (v : EmbeddingCache.vector) (now ttl_hours : Z),
    EmbeddingCacheStats.keys_agree (EmbeddingCache.init ttl_hours)
    /\ EmbeddingCacheStats.keys_agree (EmbeddingCache.clear c)
    /\ (EmbeddingCacheStats.keys_agree c ->
        EmbeddingCacheStats.keys_agree
          (EmbeddingCache.set md5_hexdigest c text model v now)
        /\ EmbeddingCacheStats.keys_agree
             (EmbeddingCache.get md5_hexdigest c text model now).2
        /\ EmbeddingCacheStats.keys_agree (EmbeddingCache._remove c key)
        /\ EmbeddingCacheStats.keys_agree
             (EmbeddingCache.cleanup_expired c now).2).
Proof.
  intros c text model key v now ttl_hours.
  split; [|split].
  - unfold EmbeddingCacheStats.keys_agree. simpl. by rewrite !dom_empty_L.
  - unfold EmbeddingCacheStats.keys_agree. simpl. by rewrite !dom_empty_L.
  - intros H. split; [|split; [|split]].
    + unfold EmbeddingCacheStats.keys_agree in *. simpl.
      by rewrite !dom_insert_L, H.
    + unfold EmbeddingCache.get. repeat case_match; simpl;
        solve [apply H | by apply keys_agree_remove].
    + by apply keys_agree_remove.
    + by apply keys_agree_remove_all.
Qed.

Lemma filter_all_true {A} (f : A -> bool) (l : list A) :
  (forall x, In x l -> f x = true) -> List.filter f l = l.
Proof.
  induction l as [|x l IH]; intros H; simpl; [done|].
  rewrite (H x) by (by left). f_equal. apply IH. intros y Hy. apply H.
  by right.
Qed.

(** X4.  Right after [cleanup_expired], on a cache whose dictionaries
    share their keys, [get_stats] taken at the same instant reports no
    expired entry: every entry counts as valid. *)
Theorem stats_after_cleanup_show_no_expired_entry :
  forall (c : EmbeddingCache.t) (now : Z),
    EmbeddingCacheStats.keys_agree c ->
    let stats :=
      EmbeddingCacheStats.get_stats (EmbeddingCache.cleanup_expired c now).2
                                    now in
    CacheStats.expired_entries stats = 0
    /\ CacheStats.valid_entries stats = CacheStats.total_entries stats.
Proof.
  intros c now Hagree stats. subst stats.
  pose proof (keys_agree_remove_all c (EmbeddingCache.expired_keys c now)
                Hagree) as Hagree'.
  change (foldl EmbeddingCache._remove c (EmbeddingCache.expired_keys c now))
    with (EmbeddingCache.cleanup_expired c now).2 in Hagree'.
  set (c' := (EmbeddingCache.cleanup_expired c now).2) in *.
  assert (Hvalid : length (List.filter
              (fun kt : string * Z =>
                 bool_decide (now - kt.2 < EmbeddingCache.ttl c'))
              (map_to_list (EmbeddingCache._timestamps c')))
            = size (EmbeddingCache._cache c')).
  { rewrite filter_all_true.
    - rewrite length_map_to_list.
      rewrite <- !(size_dom (D := gset string)). by rewrite Hagree'.
    - intros [k stamp] Hin.
      apply list_elem_of_In, elem_of_map_to_list in Hin.
      apply bool_decide_eq_true_2. subst c'. simpl in *.
      rewrite remove_all_ttl. rewrite remove_all_timestamps in Hin.
      destruct (decide _) as [|Hnot]; [discriminate|].
      destruct (Z_lt_dec (now - stamp) (EmbeddingCache.ttl c)); [done|].
      exfalso. apply Hnot. apply expired_keys_spec. exists stamp.
      split; [done|lia]. }
  unfold EmbeddingCacheStats.get_stats. cbn [CacheStats.expired_entries
    CacheStats.valid_entries CacheStats.total_entries].
  rewrite Hvalid. split; [lia|reflexivity].
Qed.

End CacheMore.

(** A day-long cache holding "old" (stored at time 0) and "new" (stored
    a day later), looked at at that later instant. *)
Lemma cache_hit_is_a_fresh_entry_witness :
  let day := 24 * EmbeddingCache.microseconds_per_hour in
  let c :=
    EmbeddingCache.set id
      (EmbeddingCache.set id (EmbeddingCache.init 24) "old" "m" [1 # 2] 0)
      "new" "m" [3 # 4] day in
  EmbeddingCache.get id c "new" "m" day = (Some [3 # 4], c)
  /\ EmbeddingCache._cache c !! EmbeddingCache._generate_key id "new" "m"
     = Some [3 # 4].
Proof.
  intros day c.
  assert (H : EmbeddingCache.get id c "new" "m" day = (Some [3 # 4], c))
    by reflexivity.
  split; [exact H|].
  exact (proj1 (proj2 (cache_hit_is_a_fresh_entry id c c "new" "m" day
                         [3 # 4] H))).
Defined.

Lemma cleanup_expired_removes_exactly_the_expired_witness :
  let day := 24 * EmbeddingCache.microseconds_per_hour in
  let c :=
    EmbeddingCache.set id
      (EmbeddingCache.set id (EmbeddingCache.init 24) "old" "m" [1 # 2] 0)
      "new" "m" [3 # 4] day in
  let c' := (EmbeddingCache.cleanup_expired c day).2 in
  EmbeddingCache._cache c' !! EmbeddingCache._generate_key id "old" "m" = None
  /\ EmbeddingCache._cache c' !! EmbeddingCache._generate_key id "new" "m"
     = Some [3 # 4].
Proof.
  intros day c c'.
  destruct (cleanup_expired_removes_exactly_the_expired c day)
    as (Hexpired & Hfresh & _).
  split.
  - apply (Hexpired _ 0); [reflexivity|discriminate].
  - destruct (Hfresh (EmbeddingCache._generate_key id "new" "m") day)
      as [_ Hv]; [reflexivity|reflexivity|].
    exact Hv.
Defined.

Lemma cache_dictionaries_share_their_keys_witness :
  let c := EmbeddingCache.set id (EmbeddingCache.init 24) "old" "m" [1 # 2] 0 in
  EmbeddingCacheStats.keys_agree c
  /\ EmbeddingCacheStats.keys_agree (EmbeddingCache.get id c "old" "m" 1).2.
Proof.
  intros c.
  assert (H : EmbeddingCacheStats.keys_agree c) by (vm_compute; reflexivity).
  split; [exact H|].
  destruct (cache_dictionaries_share_their_keys id c "old" "m" "k" [] 1 24)
    as (_ & _ & Hstep).
  exact (proj1 (proj2 (Hstep H))).
Defined.

Lemma stats_after_cleanup_show_no_expired_entry_witness :
  let day := 24 * EmbeddingCache.microseconds_per_hour in
  let c :=
    EmbeddingCache.set id
      (EmbeddingCache.set id (EmbeddingCache.init 24) "old" "m" [1 # 2] 0)
      "new" "m" [3 # 4] day in
  EmbeddingCacheStats.keys_agree c
  /\ CacheStats.expired_entries
       (EmbeddingCacheStats.get_stats (EmbeddingCache.cleanup_expired c day).2
                                      day) = 0.
Proof.
  intros day c.
  assert (H : EmbeddingCacheStats.keys_agree c) by (vm_compute; reflexivity).
  split; [exact H|].
  exact (proj1 (stats_after_cleanup_show_no_expired_entry c day H)).
Defined.

(** ** Computations that never raise *)

Section NeverRaises.
Context {E : Env}.

Lemma never_raises_ret {A} (a : A) : never_raises (ret a).
Proof. intros w. by exists a, w. Qed.

Lemma never_raises_get_world : never_raises get_world.
Proof. intros w. by exists w, w. Qed.

Lemma never_raises_bind {A B} (m : M A) (k : A -> M B) :
  never_raises m -> (forall a, never_raises (k a)) -> never_raises (bind m k).
Proof.
  intros Hm Hk w. destruct (Hm w) as (a & w1 & H1).
  destruct (Hk a w1) as (b & w2 & H2). exists b, w2.
  unfold bind. by rewrite H1.
Qed.

Lemma never_raises_try_except {A} (m : M A) (h : exn -> M A) :
  (forall e, never_raises (h e)) -> never_raises (try_except m h).
Proof.
  intros Hh w. unfold try_except. destruct (m w) as [[a|e] w1]; [eauto|].
  apply Hh.
Qed.

Lemma never_raises_if {A} (b : bool) (m1 m2 : M A) :
  never_raises m1 -> never_raises m2 -> never_raises (if b then m1 else m2).
Proof. by destruct b. Qed.

Lemma never_raises_map_m {A B} (f : A -> M B) xs :
  (forall x, never_raises (f x)) -> never_raises (map_m f xs).
Proof.
  intros Hf. induction xs as [|x xs IH]; cbn [map_m].
  - apply never_raises_ret.
  - apply never_raises_bind; [apply Hf|]. intros y.
    apply never_raises_bind; [apply IH|]. intros ys. apply never_raises_ret.
Qed.

Lemma never_raises_fold_m {A S} (body : S -> A -> M S) xs s :
  (forall s x, never_raises (body s x)) -> never_raises (fold_m body xs s).
Proof.
  intros Hb. revert s. induction xs as [|x xs IH]; intros s; cbn [fold_m].
  - apply never_raises_ret.
  - apply never_raises_bind; [apply Hb|]. intros s'. apply IH.
Qed.


Lemma never_raises_next_tick : never_raises Storage.next_tick.
Proof. intros w. by eexists _, _. Qed.

End NeverRaises.

Ltac never_raises_step :=
  first
    [ apply never_raises_ret | apply never_raises_get_world
    | apply never_raises_next_tick
    | apply never_raises_try_except; intros ?
    | apply never_raises_bind; [|intros ?]
    | apply never_raises_map_m; intros ?
    | apply never_raises_if ].

(** ** Computations that respect a relation between worlds *)

Section Respects.
Context {E : Env}.
Variable R : World -> World -> Prop.
Hypothesis R_refl : forall w, R w w.
Hypothesis R_trans : forall w1 w2 w3, R w1 w2 -> R w2 w3 -> R w1 w3.

Lemma respects_ret {A} (a : A) : respects R (ret a).
Proof. intros w r w' [= _ <-]. apply R_refl. Qed.

Lemma respects_raise {A} e : respects R (raise (A := A) e).
Proof. intros w r w' [= _ <-]. apply R_refl. Qed.

Lemma respects_bind {A B} (m : M A) (k : A -> M B) :
  respects R m -> (forall a, respects R (k a)) -> respects R (bind m k).
Proof.
  intros Hm Hk w r w'. unfold bind.
  destruct (m w) as [[a|e] w1] eqn:H1.
  - intros H2. eapply R_trans; [by eapply Hm | by eapply Hk].
  - intros [= _ <-]. by eapply Hm.
Qed.

Lemma respects_try_except {A} (m : M A) (h : exn -> M A) :
  respects R m -> (forall e, respects R (h e)) -> respects R (try_except m h).
Proof.
  intros Hm Hh w r w'. unfold try_except.
  destruct (m w) as [[a|e] w1] eqn:H1.
  - intros [= _ <-]. by eapply Hm.
  - intros H2. eapply R_trans; [by eapply Hm | by eapply Hh].
Qed.

Lemma respects_if {A} (b : bool) (m1 m2 : M A) :
  respects R m1 -> respects R m2 -> respects R (if b then m1 else m2).
Proof. by destruct b. Qed.

Lemma respects_map_m {A B} (f : A -> M B) xs :
  (forall x, respects R (f x)) -> respects R (map_m f xs).
Proof.
  intros Hf. induction xs as [|x xs IH]; cbn [map_m].
  - apply respects_ret.
  - apply respects_bind; [apply Hf|]. intros y.
    apply respects_bind; [apply IH|]. intros ys. apply respects_ret.
Qed.

Lemma respects_fold_m {A S} (body : S -> A -> M S) xs s :
  (forall s x, respects R (body s x)) -> respects R (fold_m body xs s).
Proof.
  intros Hb. revert s. induction xs as [|x xs IH]; intros s; cbn [fold_m].
  - apply respects_ret.
  - apply respects_bind; [apply Hb|]. intros s'. apply IH.
Qed.

Lemma respects_for_each {A} (body : A -> M unit) xs :
  (forall x, respects R (body x)) -> respects R (for_each xs body).
Proof.
  intros Hb. induction xs as [|x xs IH]; cbn [for_each].
  - apply respects_ret.
  - apply respects_bind; [apply Hb|]. intros _. apply IH.
Qed.

(** A relation that holds between a world and any world with the same
    tables holds across every computation that only reads the store. *)
Hypothesis R_preserved : forall w w', store_preserved w w' -> R w w'.

Lemma respects_reads {A} (m : M A) : reads m -> respects R m.
Proof. intros Hm w r w' H. by eapply R_preserved, Hm. Qed.

Lemma respects_next_tick : respects R Storage.next_tick.
Proof.
  intros w r w' [= _ <-]. apply R_preserved, store_preserved_tick.
Qed.

End Respects.

Lemma reads_respects {E : Env} {A} (m : M A) :
  respects store_preserved m <-> reads m.
Proof. reflexivity. Qed.

(** ** Unwrapping a fenced answer *)

Section ExtractJson.

Abbreviation backtick := "`"%char.

Lemma length_app_str (a b : string) :
  String.length (a +:+ b) = (String.length a + String.length b)%nat.
Proof. induction a as [|x a IH]; simpl; [done|by rewrite IH]. Qed.

Lemma substring_skip (p r : string) n :
  String.substring (String.length p) n (p +:+ r) = String.substring 0 n r.
Proof. induction p as [|a p IH]; simpl; [done|exact IH]. Qed.

Lemma substring_prefix (b r : string) :
  String.substring 0 (String.length b) (b +:+ r) = b.
Proof.
  induction b as [|a b IH]; simpl; [by destruct r|by rewrite IH].
Qed.

Lemma no_backtick_cons a s :
  Py.contains "`" (String a s) = false ->
  a <> backtick /\ Py.contains "`" s = false.
Proof.
  cbn [Py.contains]. intros [H1 H2]%orb_false_iff. split; [|exact H2].
  intros ->. simpl in H1. by destruct s.
Qed.

Lemma prefix_backtick_cons sub a s :
  a <> backtick -> String.prefix (String backtick sub) (String a s) = false.
Proof.
  intros Ha. cbn [String.prefix].
  destruct (ascii_dec backtick a) as [Heq|]; [|reflexivity].
  by rewrite Heq in Ha.
Qed.

(** A search for something that starts with a backtick passes over a
    stretch without backticks. *)
Lemma find_at_skip sub pre rest i :
  Py.contains "`" pre = false ->
  Py.find_at (String backtick sub) (pre +:+ rest) i
  = Py.find_at (String backtick sub) rest (i + String.length pre).
Proof.
  revert i. induction pre as [|a pre IH]; intros i Hpre.
  - simpl. by rewrite Nat.add_0_r.
  - apply no_backtick_cons in Hpre as [Ha Hpre].
    change (String a pre +:+ rest) with (String a (pre +:+ rest)).
    cbn [Py.find_at]. rewrite prefix_backtick_cons by exact Ha.
    rewrite IH by exact Hpre. f_equal. simpl. lia.
Qed.

Lemma find_at_here sub rest i :
  Py.find_at sub (sub +:+ rest) i = Some i.
Proof.
  assert (H : String.prefix sub (sub +:+ rest) = true)
    by (apply prefix_spec; eauto).
  destruct (sub +:+ rest); cbn [Py.find_at]; by rewrite H.
Qed.

Lemma find_at_none sub s i :
  Py.contains "`" s = false -> Py.find_at (String backtick sub) s i = None.
Proof.
  revert i. induction s as [|a s IH]; intros i Hs.
  - reflexivity.
  - apply no_backtick_cons in Hs as [Ha Hs]. cbn [Py.find_at].
    rewrite prefix_backtick_cons by exact Ha. by apply IH.
Qed.

Lemma contains_weaken (a b s : string) :
  Py.contains (a +:+ b) s = true -> Py.contains a s = true.
Proof.
  rewrite !contains_spec. intros (pre & post & ->).
  exists pre, (b +:+ post). by rewrite app_assoc_str.
Qed.

Lemma slice_middle (p b r : string) :
  Py.slice (p +:+ b +:+ r) (Z.of_nat (String.length p))
           (Z.of_nat (String.length p + String.length b)) = b.
Proof.
  unfold Py.slice. rewrite !length_app_str.
  rewrite (proj2 (Z.ltb_ge _ _)) by lia.
  rewrite (proj2 (Z.ltb_ge _ _)) by lia.
  rewrite !Z.min_l by lia. rewrite Nat2Z.id.
  replace (Z.to_nat _) with (String.length b) by lia.
  by rewrite substring_skip, substring_prefix.
Qed.

Lemma extract_json_fenced pre body post :
  Py.contains "`" pre = false ->
  Py.contains "`" body = false ->
  Gemini._extract_json (pre +:+ "```json" +:+ body +:+ "```" +:+ post)
  = Py.strip body.
Proof.
  intros Hpre Hbody. unfold Gemini._extract_json.
  set (text := pre +:+ "```json" +:+ body +:+ "```" +:+ post).
  assert (Hc : Py.contains "```json" text = true)
    by (apply contains_spec; eauto).
  rewrite Hc.
  assert (Hstart : Py.find "```json" text 0 = Z.of_nat (String.length pre)).
  { unfold Py.find. cbn [Py.drop Nat.ltb Nat.leb]. subst text.
    rewrite (find_at_skip "``json" pre _ 0 Hpre).
    by rewrite (find_at_here "```json"). }
  rewrite Hstart.
  replace (Z.to_nat (Z.of_nat (String.length pre) + 7))
    with (String.length (pre +:+ "```json"))
    by (rewrite length_app_str; simpl; lia).
  assert (Hstop : Py.find "```" text (String.length (pre +:+ "```json"))
                  = Z.of_nat (String.length (pre +:+ "```json")
                              + String.length body)).
  { unfold Py.find. subst text.
    rewrite <- (app_assoc_str pre "```json").
    rewrite drop_app_length.
    rewrite (proj2 (Nat.ltb_ge _ _)) by (rewrite !length_app_str; lia).
    rewrite (find_at_skip "``" body _ _ Hbody).
    by rewrite (find_at_here "```"). }
  rewrite Hstop. f_equal.
  replace (Z.of_nat (String.length pre) + 7)
    with (Z.of_nat (String.length (pre +:+ "```json")))
    by (rewrite length_app_str; simpl; lia).
  subst text. rewrite <- (app_assoc_str pre "```json").
  apply slice_middle.
Qed.

Lemma extract_json_plain text :
  Py.contains "```" text = false -> Gemini._extract_json text = text.
Proof.
  intros H. unfold Gemini._extract_json. rewrite H.
  destruct (Py.contains "```json" text) eqn:Hj; [|reflexivity].
  apply (contains_weaken "```" "json") in Hj. congruence.
Qed.

Lemma no_backtick_snoc body a :
  Py.contains "`" body = false -> a <> backtick ->
  Py.contains "`" (body +:+ String a "") = false.
Proof.
  intros Hbody Ha. induction body as [|b body IH].
  - cbn [String.append Py.contains String.prefix].
    destruct (ascii_dec backtick a) as [Heq|]; [|reflexivity].
    by rewrite Heq in Ha.
  - apply no_backtick_cons in Hbody as [Hb Hbody].
    change (String b body +:+ String a "")
      with (String b (body +:+ String a "")).
    cbn [Py.contains]. rewrite IH by exact Hbody.
    rewrite orb_false_r. cbn [String.prefix].
    destruct (ascii_dec backtick b) as [Heq|]; [|reflexivity].
    by rewrite Heq in Hb.
Qed.

Lemma slice_drop_last (p b : string) a :
  Py.slice (p +:+ b +:+ String a "") (Z.of_nat (String.length p)) (-1) = b.
Proof.
  unfold Py.slice. rewrite !length_app_str. cbn [String.length].
  rewrite (proj2 (Z.ltb_ge _ _)) by lia.
  rewrite (proj2 (Z.ltb_lt (-1) 0)) by lia.
  rewrite Z.min_l, Z.max_l by lia. rewrite Nat2Z.id.
  replace (Z.to_nat _) with (String.length b) by lia.
  by rewrite substring_skip, substring_prefix.
Qed.

Lemma extract_json_unterminated pre body a :
  Py.contains "`" pre = false ->
  Py.contains "`" body = false ->
  a <> backtick ->
  Gemini._extract_json (pre +:+ "```json" +:+ body +:+ String a "")
  = Py.strip body.
Proof.
  intros Hpre Hbody Ha. unfold Gemini._extract_json.
  set (text := pre +:+ "```json" +:+ body +:+ String a "").
  assert (Hc : Py.contains "```json" text = true)
    by (apply contains_spec; eauto).
  rewrite Hc.
  assert (Hstart : Py.find "```json" text 0 = Z.of_nat (String.length pre)).
  { unfold Py.find. cbn [Py.drop Nat.ltb Nat.leb]. subst text.
    rewrite (find_at_skip "``json" pre _ 0 Hpre).
    by rewrite (find_at_here "```json"). }
  rewrite Hstart.
  replace (Z.to_nat (Z.of_nat (String.length pre) + 7))
    with (String.length (pre +:+ "```json"))
    by (rewrite length_app_str; simpl; lia).
  assert (Hstop : Py.find "```" text (String.length (pre +:+ "```json"))
                  = -1).
  { unfold Py.find. subst text.
    rewrite <- (app_assoc_str pre "```json").
    rewrite drop_app_length.
    rewrite (find_at_none "``") by (by apply no_backtick_snoc).
    by destruct (_ <? _)%nat. }
  rewrite Hstop. f_equal.
  replace (Z.of_nat (String.length pre) + 7)
    with (Z.of_nat (String.length (pre +:+ "```json")))
    by (rewrite length_app_str; simpl; lia).
  subst text. rewrite <- (app_assoc_str pre "```json").
  apply slice_drop_last.
Qed.

(** X7.  [_extract_json] unwraps a fenced answer: when no backtick occurs
    before the opening fence or inside the block, the text between the
    json fence and the next fence comes back, stripped, whatever follows
    the closing fence; a text without any fence comes back unchanged; and
    when the closing fence is missing, the last character of the text is
    lost with it. *)
Theorem extract_json_unwraps_the_fenced_block :
  forall (pre body post text : string) (a : ascii),
    (Py.contains "`" pre = false ->
     Py.contains "`" body = false ->
     Gemini._extract_json (pre +:+ "```json" +:+ body +:+ "```" +:+ post)
     = Py.strip body)
    /\ (Py.contains "```" text = false -> Gemini._extract_json text = text)
    /\ (Py.contains "`" pre = false ->
        Py.contains "`" body = false ->
        a <> "`"%char ->
        Gemini._extract_json (pre +:+ "```json" +:+ body +:+ String a "")
        = Py.strip body).
Proof.
  intros pre body post text a. split; [|split].
  - apply extract_json_fenced.
  - apply extract_json_plain.
  - apply extract_json_unterminated.
Qed.

End ExtractJson.

Lemma extract_json_unwraps_the_fenced_block_witness :
  Gemini._extract_json "Here: ```json {} ``` done" = "{}"
  /\ Gemini._extract_json "{}" = "{}"
  /\ Gemini._extract_json "```json {}" = "{".
Proof.
  destruct (extract_json_unwraps_the_fenced_block
              "Here: " " {} " " done" "{}" "}") as (H1 & H2 & _).
  destruct (extract_json_unwraps_the_fenced_block
              "" " {" "" "{}" "}") as (_ & _ & H3).
  split; [|split].
  - apply H1; reflexivity.
  - apply H2; reflexivity.
  - apply H3; [reflexivity|reflexivity|discriminate].
Defined.

(** ** Semantic chunker: the atomic path and the helpers around it *)

Section ChunkerMore.
Context {E : Env} {C : Config} {P : Prompts}.

Lemma reads_generate_content prompt : reads (Gemini.generate_content prompt).
Proof. unfold Gemini.generate_content. repeat reads_step. Qed.

Lemma reads_loads text : reads (Gemini.loads text).
Proof. intros w r w' [= _ <-]. apply store_preserved_refl. Qed.

Lemma reads_extract_summary content :
  reads (SemanticChunker._extract_summary content).
Proof.
  unfold SemanticChunker._extract_summary.
  apply reads_if; [apply reads_ret|].
  apply reads_try_except; [|intros ?; apply reads_ret].
  apply reads_bind; [apply reads_generate_content|]. intros ?. apply reads_ret.
Qed.

Lemma reads_extract_concepts content :
  reads (SemanticChunker._extract_concepts content).
Proof.
  unfold SemanticChunker._extract_concepts.
  apply reads_try_except; [|intros ?; apply reads_ret].
  apply reads_bind; [apply reads_generate_content|]. intros ?. apply reads_ret.
Qed.

Lemma extract_summary_never_raises content :
  never_raises (SemanticChunker._extract_summary content).
Proof.
  unfold SemanticChunker._extract_summary.
  apply never_raises_if; repeat never_raises_step.
Qed.

Lemma extract_concepts_spec content w :
  exists concepts w',
    SemanticChunker._extract_concepts content w = (Ok concepts, w')
    /\ (length concepts <= 5)%nat
    /\ (fault (tick w) = true ->
        (length concepts <= 3)%nat
        /\ forall c, c ∈ concepts ->
             c ∈ take 10 (Py.split_ws content) /\ (3 < String.length c)%nat).
Proof.
  cbv [SemanticChunker._extract_concepts try_except bind ret
       Gemini.generate_content external].
  destruct (fault (tick w)) eqn:Hf.
  - eexists _, _. split; [reflexivity|]. split.
    + rewrite length_take. lia.
    + intros _. split; [rewrite length_take; lia|].
      intros c Hc. apply elem_of_take in Hc as (i & Hc & _).
      apply list_elem_of_lookup_2, list_elem_of_In, filter_In in Hc.
      destruct Hc as [Hin Hlen]. split; [by apply list_elem_of_In|].
      by apply Nat.ltb_lt in Hlen.
  - eexists _, _. split; [reflexivity|]. split; [|discriminate].
    rewrite length_take. lia.
Qed.

Lemma chunk_content_short (content : string) (w : World) :
  Py.word_count content <= max_chunk_words ->
  exists summary concepts w',
    SemanticChunker.chunk_content content w
    = (Ok (JArr [ChunkDraft.to_json
                   (ChunkDraft.mk content summary concepts "atomic"
                                  (Py.word_count content))]), w')
    /\ store_preserved w w'
    /\ (length concepts <= 5)%nat
    /\ (Py.word_count content <= 30 ->
        (String.length content <= 100)%nat -> summary = content).
Proof.
  intros Hshort.
  destruct (extract_summary_never_raises content w) as (summary & w1 & Hs).
  destruct (extract_concepts_spec content w1) as (concepts & w2 & Hc & Hlen & _).
  exists summary, concepts, w2.
  unfold SemanticChunker.chunk_content.
  rewrite (proj2 (Z.leb_le _ _) Hshort).
  cbv [bind]. rewrite Hs, Hc. cbv [ret]. split; [reflexivity|]. split.
  - eapply store_preserved_trans.
    + eapply reads_extract_summary, Hs.
    + eapply reads_extract_concepts, Hc.
  - split; [exact Hlen|]. intros H30 H100.
    unfold SemanticChunker._extract_summary in Hs.
    rewrite (proj2 (Z.leb_le _ _) H30) in Hs.
    rewrite (proj2 (Nat.ltb_ge _ _) H100) in Hs. by injection Hs as <- _.
Qed.

(** X5.  Content of at most [max_chunk_words] words is never split and
    never lost: [chunk_content] returns, whatever the provider does,
    exactly one chunk of type "atomic" whose content is the input and whose
    word count is the input's, with at most five key concepts; nothing is
    written to the store; and content of at most thirty words and a
    hundred characters is its own summary. *)
Theorem short_content_is_one_atomic_chunk :
  forall (content : string) (w : World),
    Py.word_count content <= max_chunk_words ->
    exists summary concepts w',
      SemanticChunker.chunk_content content w
      = (Ok (JArr [ChunkDraft.to_json
                     (ChunkDraft.mk content summary concepts "atomic"
                                    (Py.word_count content))]), w')
      /\ store_preserved w w'
      /\ (length concepts <= 5)%nat
      /\ (Py.word_count content <= 30 ->
          (String.length content <= 100)%nat -> summary = content).
Proof. intros content w. apply chunk_content_short. Qed.

(** X6.  [_extract_concepts] never raises and returns at most five
    concepts; when the provider call fails it returns at most three, each
    one of the first ten words of the content and longer than three
    characters. *)
Theorem extract_concepts_never_raises_and_is_bounded :
  forall (content : string) (w : World),
    exists concepts w',
      SemanticChunker._extract_concepts content w = (Ok concepts, w')
      /\ (length concepts <= 5)%nat
      /\ (fault (tick w) = true ->
          (length concepts <= 3)%nat
          /\ forall c, c ∈ concepts ->
               c ∈ take 10 (Py.split_ws content)
               /\ (3 < String.length c)%nat).
Proof. apply extract_concepts_spec. Qed.

End ChunkerMore.

Lemma short_content_is_one_atomic_chunk_witness :
  let E := Examples.env (fun _ => true) "" (Ok JNull) [] in
  @SemanticChunker.chunk_content E Examples.default_config
    Examples.plain_prompts "pay the invoice on Monday" Examples.empty_world
  = (Ok (JArr [ChunkDraft.to_json
                 (ChunkDraft.mk "pay the invoice on Monday"
                    "pay the invoice on Monday" ["invoice"; "Monday"]
                    "atomic" 5)]),
     set_tick Examples.empty_world 1).
Proof.
  intros E.
  destruct (@short_content_is_one_atomic_chunk E Examples.default_config
              Examples.plain_prompts "pay the invoice on Monday"
              Examples.empty_world)
    as (summary & concepts & w' & Hrun & _); [vm_compute; discriminate|].
  vm_compute. reflexivity.
Defined.

Lemma extract_concepts_never_raises_and_is_bounded_witness :
  let E := Examples.env (fun _ => true) "" (Ok JNull) [] in
  exists w',
    @SemanticChunker._extract_concepts E Examples.plain_prompts
      "pay the invoice on Monday" Examples.empty_world
    = (Ok ["invoice"; "Monday"], w').
Proof.
  intros E.
  destruct (@extract_concepts_never_raises_and_is_bounded E
              Examples.plain_prompts "pay the invoice on Monday"
              Examples.empty_world)
    as (concepts & w' & Hrun & _).
  exists w'. rewrite Hrun. vm_compute in Hrun. by injection Hrun as <- _.
Defined.

(** ** Context-aware chunker *)

Section ContextualChunkerProperties.
Context {E : Env} {C : Config} {P : Prompts} {CP : ChunkerPrompts}.

Lemma reads_get_project_contexts project_id :
  reads (ContextualChunker._get_project_contexts project_id).
Proof.
  apply reads_try_except; [apply reads_list_contexts|].
  intros ?. apply reads_ret.
Qed.

Lemma get_project_contexts_spec project_id w :
  exists w',
    ContextualChunker._get_project_contexts project_id w
    = (Ok (if fault (tick w) then []
           else List.filter
                  (fun c => String.eqb (MemoryContext.project_id c) project_id)
                  (contexts w)), w').
Proof.
  cbv [ContextualChunker._get_project_contexts Memory.list_contexts_by_project
       Storage.list_contexts_by_project try_except bind ret sqlite external
       get_world].
  destruct (fault (tick w)); eauto.
Qed.

Lemma basic_then_tagged_short content w :
  Py.word_count content <= max_chunk_words ->
  exists summary concepts w',
    (let* basic_chunks := SemanticChunker.chunk_content content in
     ContextualChunker.add_suggestions_to_all basic_chunks) w
    = (Ok (JArr [tagged_atomic_chunk content summary concepts]), w')
    /\ store_preserved w w'.
Proof.
  intros Hshort.
  destruct (chunk_content_short content w Hshort)
    as (summary & concepts & w' & Hrun & Hkeep & _).
  exists summary, concepts, w'. split; [|exact Hkeep].
  cbv [bind]. rewrite Hrun. reflexivity.
Qed.

Lemma reads_guided_attempt content existing :
  reads
    (let* text :=
       Gemini.generate_content
         (context_guided_chunking_prompt content existing) in
     let result_text := Py.strip text in
     let result_text := Gemini._extract_json result_text in
     let* result := Gemini.loads result_text in
     match Json.get result "fragments" (JArr []) with
     | None => raise (AttributeError "get")
     | Some fragments =>
         match Json.len fragments with
         | None => raise (TypeError "len")
         | Some _ => ret fragments
         end
     end).
Proof.
  apply reads_bind; [apply reads_generate_content|]. intros text.
  apply reads_bind; [apply reads_loads|]. intros result.
  destruct (Json.get result "fragments" (JArr [])) as [fragments|];
    [|apply reads_raise].
  destruct (Json.len fragments); [apply reads_ret|apply reads_raise].
Qed.

(** X8.  Context-aware chunking of content of at most [max_chunk_words]
    words never raises and writes nothing.  When the project has no
    context, or the listing of its contexts fails, or the provider call of
    the guided chunking fails, the result is the one atomic chunk of the
    content, filed under "general" with confidence one half. *)
Theorem context_aware_chunking_of_short_content :
  forall (content project_id : string) (w : World),
    Py.word_count content <= max_chunk_words ->
    exists chunks w',
      ContextualChunker.chunk_with_context_awareness content project_id w
      = (Ok chunks, w')
      /\ store_preserved w w'
      /\ (fault (tick w) = true
          \/ List.filter
               (fun c => String.eqb (MemoryContext.project_id c) project_id)
               (contexts w) = []
          \/ fault (S (tick w)) = true ->
          exists summary concepts,
            chunks = JArr [tagged_atomic_chunk content summary concepts]).
Proof.
  intros content project_id w Hshort.
  unfold ContextualChunker.chunk_with_context_awareness.
  destruct (get_project_contexts_spec project_id w) as (w1 & Hctx).
  assert (Hkeep1 : store_preserved w w1)
    by (eapply reads_get_project_contexts, Hctx).
  assert (Htick : tick w1 = S (tick w)).
  { revert Hctx.
    cbv [ContextualChunker._get_project_contexts
         Memory.list_contexts_by_project Storage.list_contexts_by_project
         try_except bind ret sqlite external get_world].
    destruct (fault (tick w)); by intros [= <-]. }
  cbv [bind]. rewrite Hctx.
  set (existing := if fault (tick w) then [] else _).
  destruct existing as [|c0 rest] eqn:Hex.
  - destruct (basic_then_tagged_short content w1 Hshort)
      as (summary & concepts & w' & Hrun & Hkeep).
    cbv [bind] in Hrun. eexists _, w'. split; [exact Hrun|].
    split; [by eapply store_preserved_trans|]. eauto.
  - unfold ContextualChunker._context_guided_chunking.
    set (attempt := bind _ _).
    unfold try_except.
    destruct (attempt w1) as [[fragments|e] w2] eqn:Hatt.
    + exists fragments, w2. split; [reflexivity|]. split.
      * eapply store_preserved_trans; [exact Hkeep1|].
        eapply reads_guided_attempt, Hatt.
      * intros [Hf|[Hnone|Hf]].
        -- subst existing. by rewrite Hf in Hex.
        -- subst existing. rewrite Hnone in Hex. by destruct (fault _).
        -- exfalso. revert Hatt. subst attempt.
           cbv [bind Gemini.generate_content external].
           by rewrite Htick, Hf.
    + destruct (basic_then_tagged_short content w2 Hshort)
        as (summary & concepts & w' & Hrun & Hkeep).
      eexists _, w'. split; [exact Hrun|]. split.
      * eapply store_preserved_trans; [exact Hkeep1|].
        eapply store_preserved_trans; [|exact Hkeep].
        eapply reads_guided_attempt, Hatt.
      * eauto.
Qed.

End ContextualChunkerProperties.

Lemma context_aware_chunking_of_short_content_witness :
  let E := Examples.env (fun _ => true) "" (Ok JNull) [] in
  exists w',
    @ContextualChunker.chunk_with_context_awareness E Examples.default_config
      Examples.plain_prompts MoreExamples.plain_chunker_prompts
      "pay the invoice on Monday" "p1" Examples.empty_world
    = (Ok (JArr [tagged_atomic_chunk "pay the invoice on Monday"
                   "pay the invoice on Monday" ["invoice"; "Monday"]]), w').
Proof.
  intros E.
  destruct (@context_aware_chunking_of_short_content E
              Examples.default_config Examples.plain_prompts
              MoreExamples.plain_chunker_prompts
              "pay the invoice on Monday" "p1" Examples.empty_world)
    as (chunks & w' & Hrun & _); [vm_compute; discriminate|].
  exists w'. rewrite Hrun. vm_compute in Hrun. by injection Hrun as <- _.
Defined.

(** ** Context resolver: matching, creation and the cache *)

Section ResolverMore.
Context {E : Env} {C : Config} {P : Prompts}.

Lemma contexts_match_refl name :
  ContextResolver._contexts_match name name = true.
Proof.
  unfold ContextResolver._contexts_match. by rewrite String.eqb_refl.
Qed.

Lemma contexts_match_sym name1 name2 :
  ContextResolver._contexts_match name1 name2
  = ContextResolver._contexts_match name2 name1.
Proof.
  unfold ContextResolver._contexts_match.
  rewrite (String.eqb_sym (ContextResolver._normalize_context_name name2)).
  rewrite (orb_comm (Py.contains (ContextResolver._normalize_context_name name2) _)).
  rewrite (orb_comm (bool_decide (ContextResolver.word_set
             (ContextResolver._normalize_context_name name2) = ∅))).
  rewrite (comm_L (∩) (ContextResolver.word_set
             (ContextResolver._normalize_context_name name2))).
  by rewrite (Nat.min_comm (size (ContextResolver.word_set
             (ContextResolver._normalize_context_name name2)))).
Qed.

(** X9.  Name matching is reflexive and symmetric: a name always matches
    itself, and whether two names match does not depend on which of them
    is the new name and which the existing one. *)
Theorem contexts_match_is_reflexive_and_symmetric :
  forall name1 name2 : string,
    ContextResolver._contexts_match name1 name1 = true
    /\ ContextResolver._contexts_match name1 name2
       = ContextResolver._contexts_match name2 name1.
Proof.
  intros name1 name2. split; [apply contexts_match_refl|].
  apply contexts_match_sym.
Qed.

Lemma only_contexts_added_refl w : only_contexts_added w w.
Proof. split; [by exists []|]. by repeat split. Qed.

Lemma only_contexts_added_trans w1 w2 w3 :
  only_contexts_added w1 w2 -> only_contexts_added w2 w3 ->
  only_contexts_added w1 w3.
Proof.
  intros ([n1 H1] & Hp & Hf & Ha & Hc) ([n2 H2] & Hp' & Hf' & Ha' & Hc').
  split; [|repeat split; try congruence].
  - exists (n2 ++ n1). by rewrite H2, H1, app_assoc.
  - intros name points H. by apply Hc', Hc.
Qed.

Lemma only_contexts_added_preserved w w' :
  store_preserved w w' -> only_contexts_added w w'.
Proof.
  intros (Hp & Hf & Hc & Ha & Hcol). split; [by exists []|]. by repeat split.
Qed.

Lemma reads_generate_context_description name chunk_data :
  reads (ContextResolver._generate_context_description name chunk_data).
Proof.
  unfold ContextResolver._generate_context_description.
  destruct chunk_data; try apply reads_raise.
  apply reads_try_except.
  - apply reads_bind; [apply reads_generate_content|]. intros ?.
    apply reads_ret.
  - intros _. apply reads_bind; [|intros ?; apply reads_ret].
    unfold ContextResolver.join_first_three.
    repeat case_match; first [apply reads_ret | apply reads_raise].
Qed.

(** What creating a context does to the store. *)
Lemma memory_create_context_spec project_id name description custom_fields
    w r w' :
  Memory.create_context project_id name description custom_fields w = (r, w') ->
  (exists e, r = Raise e /\ store_preserved w w')
  \/ (exists cid,
        r = Ok cid
        /\ Storage.find_context cid (contexts w) = None
        /\ contexts w'
           = MemoryContext.mk cid project_id name description [] None []
                              custom_fields 0 :: contexts w
        /\ projects w' = projects w
        /\ fragments w' = fragments w
        /\ anchors w' = anchors w
        /\ collections w' = collections w).
Proof.
  cbv [Memory.create_context Storage.next_tick Storage.create_context bind
       try_except sqlite external get_world modify ret raise]. simpl.
  destruct (fault (S (tick w))); simpl.
  - intros [= <- <-]. left. eexists. split; [reflexivity|]. by repeat split.
  - destruct (Storage.find_context (uuid4 (tick w)) (contexts w)) eqn:Hfind;
      simpl.
    + intros [= <- <-]. left. eexists. split; [reflexivity|].
      by repeat split.
    + intros [= <- <-]. right. exists (uuid4 (tick w)). by repeat split.
Qed.

Lemma create_new_context_spec name project_id chunk_data w r w' :
  ContextResolver._create_new_context name project_id chunk_data w = (r, w') ->
  (r = Ok None /\ store_preserved w w')
  \/ (exists cid description custom_fields,
        r = Ok (Some cid)
        /\ Storage.find_context cid (contexts w) = None
        /\ contexts w'
           = MemoryContext.mk cid project_id name description [] None []
                              custom_fields 0 :: contexts w
        /\ projects w' = projects w
        /\ fragments w' = fragments w
        /\ anchors w' = anchors w
        /\ forall cname points,
             collections w !! cname = Some points ->
             collections w' !! cname = Some points).
Proof.
  unfold ContextResolver._create_new_context, try_except, bind.
  destruct (ContextResolver._generate_context_description name chunk_data w)
    as [[description|e] w1] eqn:Hdesc.
  - pose proof (reads_generate_context_description _ _ _ _ _ Hdesc)
      as (Hp & Hf & Hc & Ha & Hcol).
    destruct chunk_data;
      try (cbv [raise ret]; intros [= <- <-]; left; by repeat split).
    destruct (Memory.create_context _ _ _ _ w1) as [[cid|e] w2] eqn:Hcreate.
    + apply memory_create_context_spec in Hcreate
        as [(e & [=] & _)|(cid' & [= <-] & Hfresh & Hc2 & Hp2 & Hf2 & Ha2 & Hcol2)].
      cbv [ret]. intros [= <- <-]. right. eexists cid, _, _.
      split; [reflexivity|]. rewrite Hc in Hfresh, Hc2.
      split; [exact Hfresh|]. split; [exact Hc2|].
      repeat split; try congruence.
      intros cname points H. rewrite Hcol2. by apply Hcol.
    + apply memory_create_context_spec in Hcreate
        as [(e' & _ & Hkeep)|(cid' & [=] & _)].
      cbv [ret]. intros [= <- <-]. left. split; [reflexivity|].
      eapply store_preserved_trans; [|exact Hkeep]. by repeat split.
  - cbv [ret]. intros [= <- <-]. left. split; [reflexivity|].
    eapply reads_generate_context_description, Hdesc.
Qed.

(** The outcome of resolving one name against the cached list. *)
Lemma resolve_single_spec name project_id existing chunk_data w :
  exists r existing' w',
    ContextResolver._resolve_single_context name project_id existing
                                            chunk_data w
    = (Ok (r, existing'), w')
    /\ only_contexts_added w w'
    /\ ((exists ctx,
           List.find (fun c => ContextResolver._contexts_match
                                 name (MemoryContext.name c)) existing
           = Some ctx
           /\ r = Some (MemoryContext.id ctx)
           /\ existing' = existing /\ w' = w)
        \/ (List.find (fun c => ContextResolver._contexts_match
                                  name (MemoryContext.name c)) existing
            = None
            /\ ((r = None /\ existing' = existing
                 /\ contexts w' = contexts w)
                \/ (exists cid description custom_fields,
                      r = Some cid
                      /\ existing'
                         = (if Py.truthy cid
                            then existing
                                 ++ [MemoryContext.mk cid project_id name ""
                                       [] None [] [] 0]
                            else existing)
                      /\ Storage.find_context cid (contexts w) = None
                      /\ contexts w'
                         = MemoryContext.mk cid project_id name description
                             [] None [] custom_fields 0 :: contexts w)))).
Proof.
  unfold ContextResolver._resolve_single_context.
  destruct (List.find _ existing) as [ctx|] eqn:Hfind.
  - exists (Some (MemoryContext.id ctx)), existing, w.
    split; [reflexivity|]. split; [apply only_contexts_added_refl|].
    left. by exists ctx.
  - unfold bind.
    destruct (ContextResolver._create_new_context name project_id
                chunk_data w) as [r w'] eqn:Hcreate.
    apply create_new_context_spec in Hcreate
      as [[-> Hkeep]|(cid & description & custom_fields & -> & Hfresh & Hc
                      & Hp & Hf & Ha & Hcol)].
    + exists None, existing, w'. split; [reflexivity|].
      split; [by apply only_contexts_added_preserved|].
      right. split; [reflexivity|]. left.
      by destruct Hkeep as (_ & _ & -> & _).
    + exists (Some cid),
        (if Py.truthy cid
         then existing
              ++ [MemoryContext.mk cid project_id name "" [] None [] [] 0]
         else existing), w'. split.
      * destruct (Py.truthy cid) eqn:Hcid; reflexivity.
      * split.
        -- split; [by eexists [_]|]. by repeat split.
        -- right. split; [reflexivity|]. right.
           by exists cid, description, custom_fields.
Qed.

Lemma resolve_fold_spec {A}
    (body : list string * list MemoryContext.t -> A
            -> M (list string * list MemoryContext.t)) names :
  (forall ids ex name w,
     exists ids' ex' w',
       body (ids, ex) name w = (Ok (ids', ex'), w')
       /\ (length ids' <= S (length ids))%nat
       /\ only_contexts_added w w'
       /\ (ids_are_cached ids ex -> ids_are_cached ids' ex')) ->
  forall ids0 ex0 w,
    exists ids ex w',
      fold_m body names (ids0, ex0) w = (Ok (ids, ex), w')
      /\ (length ids <= length ids0 + length names)%nat
      /\ only_contexts_added w w'
      /\ (ids_are_cached ids0 ex0 -> ids_are_cached ids ex).
Proof.
  intros Hbody. induction names as [|name names IH]; intros ids0 ex0 w.
  - exists ids0, ex0, w. split; [reflexivity|]. split; [simpl; lia|].
    split; [apply only_contexts_added_refl|auto].
  - destruct (Hbody ids0 ex0 name w) as (ids1 & ex1 & w1 & H1 & Hl1 & Ha1 & Hi1).
    destruct (IH ids1 ex1 w1) as (ids & ex & w' & H2 & Hl2 & Ha2 & Hi2).
    exists ids, ex, w'. cbn [fold_m]. unfold bind. rewrite H1.
    split; [exact H2|]. split; [simpl; lia|].
    split; [by eapply only_contexts_added_trans|auto].
Qed.

Lemma ids_are_cached_snoc ids existing cid c :
  ids_are_cached ids existing -> MemoryContext.id c = cid ->
  ids_are_cached (ids ++ [cid]) (existing ++ [c]).
Proof.
  intros H Hc x [Hx|Hx%list_elem_of_singleton]%elem_of_app.
  - destruct (H x Hx) as (c' & Hin & Hid). exists c'. split; [|exact Hid].
    apply elem_of_app. by left.
  - subst x. exists c. split; [|exact Hc]. apply elem_of_app. right.
    by apply list_elem_of_singleton.
Qed.

Lemma find_some_elem {A} (f : A -> bool) l x :
  List.find f l = Some x -> x ∈ l /\ f x = true.
Proof.
  intros H. apply find_some in H as [Hin Hf]. split; [|exact Hf].
  by apply list_elem_of_In.
Qed.

Lemma find_none_forall {A} (f : A -> bool) l :
  List.find f l = None -> Forall (fun y => f y = false) l.
Proof.
  intros H. apply Forall_forall. intros x Hx.
  apply (find_none f l H). by apply list_elem_of_In.
Qed.

(** X10.  Resolving a batch of names never raises.  It returns at most
    one id per name; nothing is deleted or altered in the store, the only
    additions being new contexts; every id returned is the id of a context
    of the list cached for the project afterwards; and the cache entries of
    the other projects are left alone. *)
Theorem resolve_contexts_never_raises :
  forall (context_names : list string) (project_id : string)
         (chunk_data : json) (cache : gmap string (list MemoryContext.t))
         (w : World),
    exists ids cache' w',
      ContextResolver.resolve_contexts context_names project_id chunk_data
                                       cache w
      = (Ok (ids, cache'), w')
      /\ (length ids <= length context_names)%nat
      /\ only_contexts_added w w'
      /\ (exists existing,
            cache' !! project_id = Some existing
            /\ ids_are_cached ids existing)
      /\ forall p, p <> project_id -> cache' !! p = cache !! p.
Proof.
  intros names project_id chunk_data cache w.
  unfold ContextResolver.resolve_contexts.
  assert (Hget : exists ex0 cache1 w1,
            ContextResolver._get_cached_contexts project_id cache w
            = (Ok (ex0, cache1), w1)
            /\ store_preserved w w1
            /\ forall p, p <> project_id -> cache1 !! p = cache !! p).
  { unfold ContextResolver._get_cached_contexts.
    destruct (cache !! project_id) as [cached|] eqn:Hc.
    - exists cached, cache, w. split; [reflexivity|].
      split; [apply store_preserved_refl|done].
    - cbv [try_except bind ret Memory.list_contexts_by_project
           Storage.list_contexts_by_project sqlite external get_world].
      destruct (fault (tick w)); eexists _, _, _;
        (split; [reflexivity|]);
        (split; [apply store_preserved_tick|]);
        intros p Hp; by rewrite lookup_insert_ne. }
  destruct Hget as (ex0 & cache1 & w1 & Hget & Hkeep & Hother).
  unfold bind at 1. rewrite Hget. cbv beta iota.
  match goal with |- context [fold_m ?b _ _] => set (body := b) end.
  destruct (resolve_fold_spec body names) with (ids0 := @nil string)
    (ex0 := ex0) (w := w1) as (ids & ex & w' & Hfold & Hlen & Hadd & Hinv).
  { intros ids1 ex1 name w2. subst body. cbv beta iota.
    destruct (resolve_single_spec name project_id ex1 chunk_data w2)
      as (r & ex' & w3 & Hrun & Hadd & Hcases).
    unfold bind. rewrite Hrun.
    destruct Hcases as [(ctx & Hfind & -> & -> & ->)
                       |(Hfind & [(-> & -> & _)
                                 |(cid & d & cf & -> & -> & _ & _)])].
    - apply find_some_elem in Hfind as [Hin _].
      destruct (Py.truthy (MemoryContext.id ctx)); eexists _, _, _;
        (split; [reflexivity|]).
      + split; [rewrite length_app; simpl; lia|]. split; [exact Hadd|].
        intros Hi x [Hx|Hx%list_elem_of_singleton]%elem_of_app; [by apply Hi|].
        subst x. by exists ctx.
      + split; [lia|]. split; [exact Hadd|]. auto.
    - eexists _, _, _. split; [reflexivity|]. split; [lia|].
      split; [exact Hadd|]. auto.
    - destruct (Py.truthy cid); eexists _, _, _; (split; [reflexivity|]).
      + split; [rewrite length_app; simpl; lia|]. split; [exact Hadd|].
        intros Hi. by apply ids_are_cached_snoc.
      + split; [lia|]. split; [exact Hadd|]. auto. }
  unfold bind. rewrite Hfold. cbv [ret].
  exists ids, (<[project_id := ex]> cache1), w'.
  split; [reflexivity|]. split; [simpl in Hlen; lia|]. split.
  - eapply only_contexts_added_trans; [|exact Hadd].
    by apply only_contexts_added_preserved.
  - split.
    + exists ex. split; [apply lookup_insert_eq|]. apply Hinv.
      intros x Hx. by apply elem_of_nil in Hx.
    + intros p Hp. rewrite lookup_insert_ne by congruence. by apply Hother.
Qed.

(** X11.  Resolving one name adds at most one context to the store.  When
    no cached context matches and a context is created, the new row is the
    only change to the store, it carries the name, the project and an id
    the store did not hold, it has no member yet, and it is appended to the
    cached list, so that the same name resolved again in the batch gets the
    same id and creates nothing. *)
Theorem unmatched_name_creates_one_context_and_caches_it :
  forall (name project_id : string) (existing : list MemoryContext.t)
         (chunk_data : json) (w : World),
    (forall r w',
       ContextResolver._resolve_single_context name project_id existing
                                               chunk_data w
       = (r, w') ->
       contexts w' = contexts w \/ exists c, contexts w' = c :: contexts w)
    /\ (forall cid existing' w',
          ContextResolver._resolve_single_context name project_id existing
                                                  chunk_data w
          = (Ok (Some cid, existing'), w') ->
          List.find (fun c => ContextResolver._contexts_match
                                name (MemoryContext.name c)) existing
          = None ->
          Py.truthy cid = true ->
          (exists description custom_fields,
             contexts w'
             = MemoryContext.mk cid project_id name description [] None []
                                custom_fields 0 :: contexts w)
          /\ fragments w' = fragments w
          /\ Storage.find_context cid (contexts w) = None
          /\ existing'
             = existing ++ [MemoryContext.mk cid project_id name "" [] None
                                             [] [] 0]
          /\ forall chunk_data2 w2,
               ContextResolver._resolve_single_context name project_id
                 existing' chunk_data2 w2
               = (Ok (Some cid, existing'), w2)).
Proof.
  intros name project_id existing chunk_data w.
  destruct (resolve_single_spec name project_id existing chunk_data w)
    as (r0 & ex0 & w0 & Hrun & Hadd & Hcases).
  split.
  - intros r w' Hrun'. rewrite Hrun in Hrun'.
    injection Hrun' as _ <-.
    destruct Hcases as [(ctx & _ & _ & _ & ->)
                       |(_ & [(_ & _ & Hc)|(cid & d & cf & _ & _ & _ & Hc)])];
      eauto.
  - intros cid existing' w' Hrun' Hnone Hcid. rewrite Hrun in Hrun'.
    injection Hrun' as -> -> ->.
    destruct Hcases as [(ctx & Hfind & _)
                       |(_ & [([=] & _)
                             |(cid' & d & cf & [= <-] & Hex & Hfresh & Hc)])];
      [congruence|].
    rewrite Hcid in Hex. split; [by exists d, cf|].
    split; [by destruct Hadd as (_ & _ & Hf & _)|].
    split; [exact Hfresh|]. split; [exact Hex|].
    intros chunk_data2 w2. subst existing'.
    pose proof (resolve_single_existing name project_id existing
                  (MemoryContext.mk cid project_id name "" [] None [] [] 0)
                  [] chunk_data2 w2) as Hagain.
    apply Hagain.
    + by apply find_none_forall.
    + apply contexts_match_refl.
Qed.

End ResolverMore.

(** In an empty project the name "billing" matches nothing: one context
    is created under the fresh id "b" and cached, and "billing" then
    resolves to "b" against the cached list without touching the store. *)
Lemma unmatched_name_creates_one_context_and_caches_it_witness :
  let E := Examples.env (fun _ => false) "about bills" (Ok JNull) [] in
  let new := MemoryContext.mk "b" "p" "billing" "" [] None [] [] 0 in
  @ContextResolver._resolve_single_context E Examples.plain_prompts
    "billing" "p" [new] (JObj []) Examples.empty_world
  = (Ok (Some "b", [new]), Examples.empty_world).
Proof.
  intros E new.
  destruct (@unmatched_name_creates_one_context_and_caches_it E
              Examples.plain_prompts "billing" "p" [] (JObj [])
              Examples.empty_world) as [_ Hcreated].
  edestruct (Hcreated "b") as (_ & _ & _ & _ & Hagain);
    [vm_compute; reflexivity | reflexivity | reflexivity |].
  apply Hagain.
Defined.

Lemma resolve_contexts_never_raises_witness :
  let E := Examples.env (fun _ => false) "about bills" (Ok JNull) [] in
  exists cache' w',
    @ContextResolver.resolve_contexts E Examples.plain_prompts
      ["billing"; "Billing"] "p" (JObj []) ∅ Examples.empty_world
    = (Ok (["c"; "c"], cache'), w').
Proof.
  intros E.
  destruct (@resolve_contexts_never_raises E Examples.plain_prompts
              ["billing"; "Billing"] "p" (JObj []) ∅ Examples.empty_world)
    as (ids & cache' & w' & Hrun & _).
  exists cache', w'. rewrite Hrun. vm_compute in Hrun.
  by injection Hrun as <- _ _.
Defined.

(** ** Grouped recall: what a search keeps and what it refuses *)

Section SearchMore.
Context {E : Env} {C : Config}.

Lemma reads_list_projects : reads Storage.list_projects.
Proof. unfold Storage.list_projects, sqlite. repeat reads_step. Qed.

Lemma reads_resolve_targets project_ids default_project_id :
  reads (Search.resolve_targets project_ids default_project_id).
Proof.
  unfold Search.resolve_targets. apply reads_bind.
  - destruct project_ids; [|apply reads_ret..].
    apply reads_bind; [apply reads_list_projects|]. intros ?. apply reads_ret.
  - intros [|p ps]; [|apply reads_ret].
    destruct default_project_id as [d|]; [|apply reads_raise].
    destruct (Py.truthy d); [apply reads_ret|apply reads_raise].
Qed.

Lemma reads_fold_m {A S} (body : S -> A -> M S) xs s :
  (forall s x, reads (body s x)) -> reads (fold_m body xs s).
Proof.
  intros Hb. revert s. induction xs as [|x xs IH]; intros s; cbn [fold_m].
  - apply reads_ret.
  - apply reads_bind; [apply Hb|]. intros s'. apply IH.
Qed.

Lemma reads_search_memory query options project_ids default_project_id :
  reads (Search.search_memory query options project_ids default_project_id).
Proof.
  unfold Search.search_memory.
  apply reads_bind; [apply reads_resolve_targets|]. intros targets.
  apply reads_bind; [apply reads_generate_embedding|]. intros emb.
  apply reads_fold_m. intros G p. unfold Search.search_project.
  apply reads_bind; [apply reads_search_fragments|]. intros ?.
  apply reads_ret.
Qed.

(** X12.  A search without a target is refused before anything is
    embedded: when the list of project ids is empty, or no id is given and
    the project table is empty or cannot be listed, and there is no default
    project either, [search_memory] raises ValueError, the store is
    untouched, and at most the one listing call has been made. *)
Theorem search_without_target_is_refused :
  forall (query : string) (options : SearchOptions.t)
         (project_ids : Search.project_ids_arg)
         (default_project_id : option string) (w : World),
    project_ids = Search.Projects []
    \/ (project_ids = Search.AllProjects
        /\ (fault (tick w) = true \/ projects w = [])) ->
    default_project_id = None \/ default_project_id = Some "" ->
    exists w',
      Search.search_memory query options project_ids default_project_id w
      = (Raise (ValueError "No project specified"), w')
      /\ store_preserved w w'
      /\ (tick w' <= S (tick w))%nat.
Proof.
  intros query options project_ids default_project_id w Hnone Hdefault.
  assert (Hrun : exists w',
            Search.resolve_targets project_ids default_project_id w
            = (Raise (ValueError "No project specified"), w')
            /\ (tick w' <= S (tick w))%nat).
  { destruct Hnone as [->|[-> Hempty]].
    - exists w. split; [|lia].
      destruct Hdefault as [->| ->]; reflexivity.
    - exists (set_tick w (S (tick w))). split; [|simpl; lia].
      cbv [Search.resolve_targets Storage.list_projects bind try_except ret
           raise sqlite external get_world].
      destruct Hempty as [Hf|Hp].
      + rewrite Hf. destruct Hdefault as [->| ->]; reflexivity.
      + destruct (fault (tick w)); simpl; rewrite ?Hp; simpl;
          destruct Hdefault as [->| ->]; reflexivity. }
  destruct Hrun as (w' & Hrun & Htick). exists w'.
  split; [|split; [|exact Htick]].
  - unfold Search.search_memory, bind. by rewrite Hrun.
  - eapply reads_resolve_targets, Hrun.
Qed.

(** *** Grouping loses nothing *)

Lemma dict_set_absent {V} (d : list (string * V)) k v :
  Dict.get d k = None -> Dict.set d k v = d ++ [(k, v)].
Proof.
  induction d as [|[k0 x] d IH]; simpl; [done|].
  destruct (String.eqb_spec k0 k); [done|]. intros H. by rewrite IH.
Qed.

Lemma dict_set_present_concat {A} (d : list (string * list A)) k old extra :
  Dict.get d k = Some old ->
  concat (Dict.set d k (old ++ extra)).*2 ≡ₚ concat d.*2 ++ extra.
Proof.
  induction d as [|[k0 x] d IH]; simpl; [done|].
  destruct (String.eqb_spec k0 k) as [->|Hne].
  - intros [= ->]. simpl. rewrite <- !app_assoc.
    apply Permutation_app_head, Permutation_app_comm.
  - intros H. simpl. rewrite IH by done. by rewrite app_assoc.
Qed.

Lemma bucket_concat (m : list (string * list SearchResult.t)) sr :
  concat (Search.bucket m sr).*2 ≡ₚ concat m.*2 ++ [sr].
Proof.
  unfold Search.bucket, Dict.mem.
  destruct (Dict.get m (Search.group_key sr)) as [old|] eqn:Hget.
  - rewrite Hget. simpl. by apply dict_set_present_concat.
  - rewrite dict_get_set_eq. simpl.
    rewrite (dict_set_absent m _ [] Hget).
    rewrite (dict_set_present_concat _ _ [] [sr]).
    + rewrite fmap_app, concat_app. simpl. by rewrite app_nil_r.
    + rewrite <- (dict_set_absent m _ [] Hget). apply dict_get_set_eq.
Qed.

Lemma buckets_concat rs (m : list (string * list SearchResult.t)) :
  concat (foldl Search.bucket m rs).*2 ≡ₚ concat m.*2 ++ rs.
Proof.
  revert m. induction rs as [|sr rs IH]; intros m; cbn [foldl].
  - by rewrite app_nil_r.
  - rewrite IH, bucket_concat. by rewrite <- app_assoc.
Qed.

Lemma flatten_app G1 G2 :
  MemorySynthesizer.flatten (G1 ++ G2)
  = MemorySynthesizer.flatten G1 ++ MemorySynthesizer.flatten G2.
Proof.
  unfold MemorySynthesizer.flatten. by rewrite List.map_app, concat_app.
Qed.

Lemma add_project_flatten G p rs :
  Dict.get G p = None ->
  MemorySynthesizer.flatten (Search.add_project G p rs)
  ≡ₚ MemorySynthesizer.flatten G ++ rs.
Proof.
  intros Hnew. unfold Search.add_project. destruct rs as [|sr rs].
  - by rewrite app_nil_r.
  - rewrite (dict_set_absent G p _ Hnew), flatten_app.
    apply Permutation_app_head. unfold MemorySynthesizer.flatten. simpl.
    rewrite app_nil_r.
    change (List.map snd ?l) with (l.*2).
    rewrite (buckets_concat (sr :: rs) []). done.
Qed.

Lemma add_project_keys G p rs q :
  Dict.get (Search.add_project G p rs) q = None ->
  Dict.get G q = None.
Proof.
  rewrite add_project_get. destruct (String.eqb_spec p q) as [->|Hne]; [|done].
  by destruct rs.
Qed.

Lemma add_project_key_other G p rs q :
  p <> q -> Dict.get G q = None ->
  Dict.get (Search.add_project G p rs) q = None.
Proof.
  intros Hne Hq. rewrite add_project_get.
  by destruct (String.eqb_spec p q).
Qed.

Lemma grouped_flatten (th : list (string * list SearchResult.t)) :
  forall G0,
    NoDup th.*1 ->
    (forall p, p ∈ th.*1 -> Dict.get G0 p = None) ->
    MemorySynthesizer.flatten
      (foldl (fun g pr => Search.add_project g pr.1 pr.2) G0 th)
    ≡ₚ MemorySynthesizer.flatten G0 ++ concat th.*2.
Proof.
  induction th as [|[p rs] th IH]; intros G0 Hnd Hnew; simpl.
  - by rewrite app_nil_r.
  - simpl in Hnd. apply NoDup_cons in Hnd as [Hp Hnd].
    rewrite IH.
    + rewrite add_project_flatten by (apply Hnew; left).
      by rewrite <- app_assoc.
    + exact Hnd.
    + intros q Hq. apply add_project_key_other.
      * intros ->. contradiction.
      * apply Hnew. by right.
Qed.

Lemma map_m_length {A B} (f : A -> M B) xs :
  forall w ys w', map_m f xs w = (Ok ys, w') -> length ys = length xs.
Proof.
  induction xs as [|x xs IH]; intros w ys w'.
  - cbv [map_m ret]. by intros [= <- _].
  - cbn [map_m]. cbv [bind ret].
    destruct (f x w) as [[y|e] w1]; [|discriminate].
    destruct (map_m f xs w1) as [[ys'|e] w2] eqn:Hrest; [|discriminate].
    intros [= <- _]. simpl. f_equal. by eapply IH.
Qed.

(** X13.  A recall over distinct projects loses no hit and repeats none:
    the grouped result, flattened, is a rearrangement of the hits that the
    per-project searches returned. *)
Theorem recall_keeps_every_hit_once :
  forall (query : string) (options : SearchOptions.t)
         (project_ids : Search.project_ids_arg)
         (default_project_id : option string) (w w' : World) G,
    Search.search_memory query options project_ids default_project_id w
    = (Ok G, w') ->
    exists targets w0 emb w1 hits,
      Search.resolve_targets project_ids default_project_id w
      = (Ok targets, w0)
      /\ EmbeddingService.generate_embedding query w0 = (Ok emb, w1)
      /\ map_m (fun p => Storage.search_fragments
                           emb (SearchOptions.with_project options p))
               targets w1 = (Ok hits, w')
      /\ (NoDup targets -> MemorySynthesizer.flatten G ≡ₚ concat hits).
Proof.
  intros query options project_ids default_project_id w w' G.
  unfold Search.search_memory. cbv [bind].
  destruct (Search.resolve_targets project_ids default_project_id w)
    as [[targets|e] w0] eqn:Htargets; [|discriminate].
  destruct (EmbeddingService.generate_embedding query w0)
    as [[emb|e] w1] eqn:Hemb; [|discriminate].
  intros Hloop. apply search_loop in Hloop as (hits & Hhits & ->).
  exists targets, w0, emb, w1, hits. repeat split; try done.
  intros Hnd. pose proof (map_m_length _ _ _ _ _ Hhits) as Hlen.
  rewrite grouped_flatten.
  - simpl. by rewrite snd_zip by lia.
  - by rewrite fst_zip by lia.
  - done.
Qed.

End SearchMore.

Lemma search_without_target_is_refused_witness :
  exists w',
    Search.search_memory (E := RecallExample.E)
      "x" RecallExample.options (Search.Projects []) None RecallExample.w
    = (Raise (ValueError "No project specified"), w')
    /\ store_preserved RecallExample.w w'.
Proof.
  destruct (@search_without_target_is_refused RecallExample.E
              "x" RecallExample.options
              (Search.Projects []) None RecallExample.w)
    as (w' & Hrun & Hkeep & _); [by left | by left |].
  exists w'. by split.
Defined.

Lemma recall_keeps_every_hit_once_witness :
  exists hits : list (list SearchResult.t),
    MemorySynthesizer.flatten [("p1", [("c1", [RecallExample.hit])])]
    ≡ₚ concat hits.
Proof.
  destruct (@recall_keeps_every_hit_once RecallExample.E
              "x" RecallExample.options
              (Search.Projects ["p1"; "p2"]) None RecallExample.w
              (set_tick RecallExample.w 7)
              [("p1", [("c1", [RecallExample.hit])])])
    as (targets & w0 & emb & w1 & hits & Htargets & _ & _ & Hperm).
  - vm_compute. reflexivity.
  - exists hits. apply Hperm. vm_compute in Htargets.
    injection Htargets as <- _. apply NoDup_ListNoDup.
    repeat constructor; simpl; intuition discriminate.
Defined.

(** ** What the writes of the storage layer do *)

Section StoreSpecs.
Context {E : Env} {C : Config}.

Lemma storage_store_fragment_spec fragment embedding w r w' :
  Storage.store_fragment fragment embedding w = (r, w') ->
  let fid := MemoryFragment.id fragment in
  projects w' = projects w /\ contexts w' = contexts w
  /\ anchors w' = anchors w
  /\ (fragments w' = fragments w
      \/ (fragments w !! fid = None
          /\ fragments w' = <[fid := fragment]> (fragments w)))
  /\ forall x, r = Ok x ->
       x = fid /\ fragments w !! fid = None
       /\ fragments w' = <[fid := fragment]> (fragments w).
Proof.
  cbv [Storage.store_fragment try_except bind sqlite qdrant external
       get_world modify ret raise]. cbn [tick set_tick].
  destruct (fault (tick w)); cbn.
  { intros [= <- <-]. repeat split; auto; congruence. }
  destruct (fragments w !! MemoryFragment.id fragment) eqn:Hold; cbn.
  { intros [= <- <-]. repeat split; auto; congruence. }
  match goal with
  | |- context [Storage.get_or_create_collection ?p ?w0] =>
      destruct (Storage.get_or_create_collection p w0) as [[cn|e] w1] eqn:Hcol
  end;
    apply reads_get_or_create_collection in Hcol as (Hp & Hf & Hc & Ha & _);
    cbn in Hp, Hf, Hc, Ha.
  - destruct (fault (tick w1)); cbn; intros [= <- <-]; cbn;
      rewrite ?Hp, ?Hf, ?Hc, ?Ha.
    + repeat split; auto; congruence.
    + repeat split; auto; congruence.
  - intros [= <- <-]. rewrite ?Hp, ?Hf, ?Hc, ?Ha.
    repeat split; auto; congruence.
Qed.

Lemma generate_embedding_not_blank text w emb w' :
  EmbeddingService.generate_embedding text w = (Ok emb, w') ->
  Py.truthy (Py.strip text) = true.
Proof.
  unfold EmbeddingService.generate_embedding.
  destruct (negb (Py.truthy text) || negb (Py.truthy (Py.strip text)))
    eqn:Hblank; [cbv [raise]; discriminate|].
  intros _. apply orb_false_iff in Hblank as [_ Hstrip].
  by apply negb_false_iff in Hstrip.
Qed.

Lemma memory_store_fragment_spec project_id content source context_ids
    w r w' :
  Memory.store_fragment project_id content source context_ids w = (r, w') ->
  projects w' = projects w /\ contexts w' = contexts w
  /\ anchors w' = anchors w
  /\ (fragments w' = fragments w
      \/ exists fid,
           fragments w !! fid = None
           /\ Py.truthy (Py.strip (stored_content content)) = true
           /\ fragments w'
              = <[fid := stored_fragment project_id content source
                                         context_ids fid]> (fragments w))
  /\ forall x, r = Ok x ->
       fragments w !! x = None
       /\ Py.truthy (Py.strip (stored_content content)) = true
       /\ fragments w'
          = <[x := stored_fragment project_id content source context_ids x]>
              (fragments w).
Proof.
  unfold Memory.store_fragment.
  destruct (negb (Py.truthy content) || negb (Py.truthy (Py.strip content)))
    eqn:Hblank.
  { cbv [raise]. intros [= <- <-]. repeat split; auto; congruence. }
  fold (stored_content content). unfold bind.
  destruct (EmbeddingService.generate_embedding _ w) as [[emb|e] w1] eqn:Hemb.
  - pose proof (generate_embedding_not_blank _ _ _ _ Hemb) as Hstrip.
    apply reads_generate_embedding in Hemb as (Hp & Hf & Hc & Ha & _).
    cbv [Storage.next_tick].
    match goal with
    | |- Storage.store_fragment ?f ?e ?w0 = _ -> _ =>
        intros Hstore;
        apply (storage_store_fragment_spec f e w0) in Hstore
          as (Hp2 & Hc2 & Ha2 & Hf2 & Hok)
    end.
    cbn in Hp2, Hc2, Ha2, Hf2, Hok. rewrite Hf in Hf2, Hok.
    split; [congruence|]. split; [congruence|]. split; [congruence|]. split.
    + destruct Hf2 as [Hsame|[Hnew Hins]]; [by left|].
      right. exists (uuid4 (tick w1)). by repeat split.
    + intros x Hx. destruct (Hok x Hx) as (-> & Hnew & Hins).
      by repeat split.
  - apply reads_generate_embedding in Hemb as (Hp & Hf & Hc & Ha & _).
    intros [= <- <-]. repeat split; auto; congruence.
Qed.

Lemma lookup_delete_rows ids (fs : gmap string MemoryFragment.t) fid :
  Storage.delete_rows ids fs !! fid
  = if decide (fid ∈ ids) then None else fs !! fid.
Proof.
  unfold Storage.delete_rows. induction ids as [|x ids IH]; cbn [foldr].
  - rewrite decide_False by apply not_elem_of_nil. reflexivity.
  - destruct (decide (fid = x)) as [->|Hne].
    + rewrite lookup_delete_eq, decide_True by left. reflexivity.
    + rewrite lookup_delete_ne by congruence. rewrite IH.
      destruct (decide (fid ∈ ids)) as [Hin|Hin].
      * rewrite decide_True by (by right). reflexivity.
      * rewrite decide_False by (by intros [?|?]%elem_of_cons). reflexivity.
Qed.

Lemma storage_delete_fragments_spec ids project_id w r w' :
  Storage.delete_fragments ids project_id w = (r, w') ->
  projects w' = projects w /\ contexts w' = contexts w
  /\ anchors w' = anchors w
  /\ (fragments w' = fragments w
      \/ fragments w' = Storage.delete_rows ids (fragments w))
  /\ exists b, r = Ok b.
Proof.
  unfold Storage.delete_fragments. destruct ids as [|i ids].
  { cbv [ret]. intros [= <- <-]. repeat split; eauto. }
  cbv [try_except bind sqlite qdrant external get_world modify ret raise].
  cbn [tick set_tick].
  destruct (fault (tick w)); cbn.
  { intros [= <- <-]. repeat split; eauto. }
  match goal with
  | |- context [Storage.get_or_create_collection ?p ?w0] =>
      destruct (Storage.get_or_create_collection p w0) as [[cn|e] w1] eqn:Hcol
  end;
    apply reads_get_or_create_collection in Hcol as (Hp & Hf & Hc & Ha & _);
    cbn in Hp, Hf, Hc, Ha.
  - destruct (fault (tick w1)); cbn; intros [= <- <-]; cbn;
      rewrite ?Hp, ?Hf, ?Hc, ?Ha; repeat split; eauto.
  - intros [= <- <-]. rewrite ?Hp, ?Hf, ?Hc, ?Ha. repeat split; eauto.
Qed.

Lemma memory_delete_fragments_spec ids project_id w r w' :
  Memory.delete_fragments ids project_id w = (r, w') ->
  projects w' = projects w /\ contexts w' = contexts w
  /\ anchors w' = anchors w
  /\ (fragments w' = fragments w
      \/ fragments w' = Storage.delete_rows ids (fragments w))
  /\ exists b, r = Ok b.
Proof.
  unfold Memory.delete_fragments, try_except.
  destruct (Storage.delete_fragments ids project_id w) as [[b|e] w1] eqn:Hrun;
    apply storage_delete_fragments_spec in Hrun
      as (Hp & Hc & Ha & Hf & b' & Hb).
  - intros [= <- <-]. repeat split; eauto.
  - discriminate.
Qed.

Lemma bind_parameter_strings n ids :
  mapM (Storage.bind_parameter n) (JStr <$> ids) = Some (Some <$> ids).
Proof.
  induction ids as [|i ids IH]; [reflexivity|].
  cbn [fmap list_fmap mapM]. cbn [fmap list_fmap] in IH.
  cbn [Storage.bind_parameter mbind option_bind]. by rewrite IH.
Qed.

Lemma omap_id_Some {A} (xs : list A) : omap id (Some <$> xs) = xs.
Proof.
  induction xs as [|x xs IH]; [reflexivity|].
  cbn. cbn in IH. by rewrite IH.
Qed.

Lemma point_ids_strings n ids :
  Storage.point_ids n (JArr (JStr <$> ids)) = Some ids.
Proof.
  unfold Storage.point_ids.
  assert (Hmap : mapM (fun item =>
                   match item with
                   | JStr s => Some (Some s)
                   | JNum q =>
                       match python_number n q with
                       | PyInt _ => Some None
                       | PyFloat _ => None
                       end
                   | _ => None
                   end) (JStr <$> ids) = Some (Some <$> ids)).
  { induction ids as [|i ids IH]; [reflexivity|].
    cbn [fmap list_fmap mapM]. cbn [fmap list_fmap] in IH.
    cbn [mbind option_bind]. by rewrite IH. }
  rewrite Hmap. cbn [fmap option_fmap option_map]. by rewrite omap_id_Some.
Qed.

(** On a list of strings the two readings of [delete_fragments] agree. *)
Lemma storage_delete_fragments_value_strings ids project_id w :
  Storage.delete_fragments_value (JArr (JStr <$> ids)) project_id w
  = Storage.delete_fragments ids project_id w.
Proof.
  unfold Storage.delete_fragments_value, Storage.delete_fragments.
  destruct ids as [|i ids]; [reflexivity|].
  change (negb (Json.truthy (JArr (JStr <$> i :: ids)))) with false.
  cbv iota. cbv [try_except bind sqlite external].
  destruct (fault (tick w)); [reflexivity|].
  cbn [Json.iter]. rewrite bind_parameter_strings, omap_id_Some.
  rewrite point_ids_strings. reflexivity.
Qed.

Lemma memory_delete_fragments_value_strings ids project_id w :
  Memory.delete_fragments_value (JArr (JStr <$> ids)) project_id w
  = Memory.delete_fragments ids project_id w.
Proof.
  unfold Memory.delete_fragments_value, Memory.delete_fragments.
  cbv [try_except bind]. rewrite storage_delete_fragments_value_strings.
  by destruct (Storage.delete_fragments ids project_id w) as [[b|e] w1].
Qed.

Lemma mapM_bound_item {A B} (f : A -> option (option B)) (items : list A)
    (texts : list (option B)) (y : B) :
  mapM f items = Some texts -> y ∈ omap id texts ->
  exists item, item ∈ items /\ f item = Some (Some y).
Proof.
  intros Hmap Hy. apply mapM_Some in Hmap.
  apply list_elem_of_omap in Hy as (t & Ht & Hid). cbn in Hid. subst t.
  induction Hmap as [|x t items texts Hx _ IH].
  - by apply elem_of_nil in Ht.
  - apply elem_of_cons in Ht as [<-|Ht].
    + exists x. split; [left|done].
    + destruct (IH Ht) as (item & Hin & Hitem).
      exists item. split; [by right|done].
Qed.

(** What [delete_fragments] does with whatever value reaches it: the only
    rows that can go are those whose id is the text bound for an item of
    the value. *)
Lemma storage_delete_fragments_value_spec v project_id w r w' :
  Storage.delete_fragments_value v project_id w = (r, w') ->
  projects w' = projects w /\ contexts w' = contexts w
  /\ anchors w' = anchors w
  /\ (fragments w' = fragments w
      \/ exists items texts,
           Json.iter v = Some items
           /\ mapM (Storage.bind_parameter (tick w)) items = Some texts
           /\ fragments w'
              = Storage.delete_rows (omap id texts) (fragments w))
  /\ exists b, r = Ok b.
Proof.
  unfold Storage.delete_fragments_value.
  destruct (negb (Json.truthy v)).
  { cbv [ret]. intros [= <- <-]. repeat split; eauto. }
  cbv [try_except bind sqlite external].
  destruct (fault (tick w)); cbn [raise ret].
  { cbv [raise ret]. intros [= <- <-]. repeat split; eauto. }
  cbv [ret]. cbn [tick set_tick].
  destruct (Json.iter v) as [items|] eqn:Hiter.
  2:{ cbv [raise]. intros [= <- <-]. repeat split; eauto. }
  destruct (mapM (Storage.bind_parameter (tick w)) items) as [texts|] eqn:Hmap.
  2:{ destruct v; cbv [raise]; intros [= <- <-]; repeat split; eauto. }
  destruct v; try discriminate Hiter;
    try (cbv [raise]; intros [= <- <-]; repeat split; eauto; fail);
    match goal with
    | |- context [Storage.point_ids ?n ?v] =>
        generalize (Storage.point_ids n v)
    end; intros points;
    cbv [bind get_world modify qdrant external ret raise];
    cbn [tick set_tick fragments set_fragments];
    match goal with
    | |- context [Storage.get_or_create_collection ?p ?w0] =>
        destruct (Storage.get_or_create_collection p w0)
          as [[cn|e] w1] eqn:Hcol
    end;
    apply reads_get_or_create_collection in Hcol as (Hp & Hf & Hc & Ha & _);
    cbn in Hp, Hf, Hc, Ha;
    try (destruct (fault (tick w1)); [|destruct points]); cbn;
    intros [= <- <-]; cbn; rewrite ?Hp, ?Hf, ?Hc, ?Ha;
    repeat split; eauto 10.
Qed.

Lemma memory_delete_fragments_value_spec v project_id w r w' :
  Memory.delete_fragments_value v project_id w = (r, w') ->
  projects w' = projects w /\ contexts w' = contexts w
  /\ anchors w' = anchors w
  /\ (fragments w' = fragments w
      \/ exists items texts,
           Json.iter v = Some items
           /\ mapM (Storage.bind_parameter (tick w)) items = Some texts
           /\ fragments w'
              = Storage.delete_rows (omap id texts) (fragments w))
  /\ exists b, r = Ok b.
Proof.
  unfold Memory.delete_fragments_value. cbv [try_except bind].
  destruct (Storage.delete_fragments_value v project_id w)
    as [[b|e] w1] eqn:Hrun;
    apply storage_delete_fragments_value_spec in Hrun
      as (Hp & Hc & Ha & Hf & b' & Hb).
  - destruct (Json.len v); cbv [ret raise]; intros [= <- <-];
      repeat split; eauto.
  - discriminate.
Qed.

(** A fragment that the value does not name survives the delete. *)
Lemma memory_delete_fragments_value_kept v project_id w r w' :
  Memory.delete_fragments_value v project_id w = (r, w') ->
  fragments_kept_unless (names_fragment v) w w'.
Proof.
  intros Hrun fid f Hnot Hf.
  apply memory_delete_fragments_value_spec in Hrun
    as (_ & _ & _ & [->|(items & texts & Hiter & Hmap & ->)] & _); [done|].
  rewrite lookup_delete_rows.
  destruct (decide (fid ∈ omap id texts)) as [Hin|_]; [|done].
  destruct Hnot.
  destruct (mapM_bound_item _ _ _ _ Hmap Hin) as (item & Hitem & Hbind).
  by exists items, item, (tick w).
Qed.

Lemma update_context_fragments_spec context_id fragment_ids w r w' :
  Storage.update_context_fragments context_id fragment_ids w = (r, w') ->
  projects w' = projects w /\ fragments w' = fragments w
  /\ anchors w' = anchors w /\ collections w' = collections w
  /\ (contexts w' = contexts w
      \/ contexts w'
         = Storage.update_rows context_id fragment_ids (contexts w))
  /\ (r = Ok true ->
      is_Some (Storage.find_context context_id (contexts w))
      /\ contexts w'
         = Storage.update_rows context_id fragment_ids (contexts w))
  /\ exists b, r = Ok b.
Proof.
  cbv [Storage.update_context_fragments try_except bind sqlite external
       get_world modify ret raise]. cbn [tick set_tick].
  destruct (fault (tick w)); cbn; intros [= <- <-]; cbn.
  - repeat split; eauto; congruence.
  - repeat split; eauto.
    match goal with
    | H : Ok _ = Ok true |- _ =>
        injection H as H; by apply bool_decide_eq_true in H
    end.
Qed.

End StoreSpecs.

(** ** The curation pipeline respects what its writes respect

    A relation between worlds that is reflexive and transitive, holds
    across reads, and holds across each of the four writes of the apply
    step, holds across the whole of [curate_and_chunk], whichever way the
    call ends. *)

Section CuratorRespects.
Context {E : Env} {C : Config} {P : Prompts}.
Variable R : World -> World -> Prop.
Hypothesis R_refl : forall w, R w w.
Hypothesis R_trans : forall w1 w2 w3, R w1 w2 -> R w2 w3 -> R w1 w3.
Hypothesis R_preserved : forall w w', store_preserved w w' -> R w w'.
Variable project_id : string.
Hypothesis R_create_context :
  forall name description,
    respects R (Memory.create_context project_id name description []).
Hypothesis R_store_fragment :
  forall content context_id,
    respects R (Memory.store_fragment project_id content "curated_ingestion"
                                      [context_id]).
Hypothesis R_update_one_context :
  forall entry, respects R (IngestionCurator.update_one_context entry).

Local Ltac step :=
  first
    [ apply (respects_ret R R_refl)
    | apply (respects_raise R R_refl)
    | apply R_create_context
    | apply R_store_fragment
    | apply R_update_one_context
    | apply (respects_bind R R_trans); [|intros ?]
    | apply (respects_try_except R R_trans); [|intros ?]
    | apply respects_if ].

Lemma respects_create_one_context st context_data :
  respects R (IngestionCurator.create_one_context project_id st context_data).
Proof.
  destruct st as [context_map created].
  unfold IngestionCurator.create_one_context.
  repeat first [step | case_match].
Qed.

Lemma respects_create_new_contexts contexts_to_create context_map :
  respects R (IngestionCurator.create_new_contexts contexts_to_create
                project_id context_map).
Proof.
  unfold IngestionCurator.create_new_contexts.
  repeat case_match; try step.
  apply (respects_fold_m R R_refl R_trans). intros st x.
  apply respects_create_one_context.
Qed.

Lemma respects_target_context context_map context_name :
  respects R (IngestionCurator.target_context project_id context_map
                                              context_name).
Proof.
  unfold IngestionCurator.target_context.
  apply (respects_bind R R_trans).
  - destruct context_name; step.
  - intros context_id. repeat first [step | case_match].
Qed.

Lemma respects_create_one_fragment st fragment_data :
  respects R (IngestionCurator.create_one_fragment project_id st
                                                   fragment_data).
Proof.
  destruct st as [[context_map created] fbc].
  unfold IngestionCurator.create_one_fragment.
  repeat first [ apply respects_target_context
               | apply (respects_bind R R_trans); [|intros [? ?]]
               | step | case_match ].
Qed.

Lemma respects_create_new_fragments fragments_to_create context_map :
  respects R (IngestionCurator.create_new_fragments fragments_to_create
                project_id context_map).
Proof.
  unfold IngestionCurator.create_new_fragments.
  repeat case_match; try step.
  apply (respects_fold_m R R_refl R_trans). intros st x.
  apply respects_create_one_fragment.
Qed.

Lemma respects_update_contexts fbc :
  respects R (IngestionCurator.update_contexts fbc).
Proof.
  apply (respects_for_each R R_refl R_trans). intros entry.
  apply R_update_one_context.
Qed.

Lemma respects_apply_curation_decision decision existing_contexts :
  respects R
    (IngestionCurator.delete_old_fragments
       (from_option id (JArr []) (Dict.get decision "ids_to_delete"))
       project_id) ->
  respects R
    (IngestionCurator._apply_curation_decision decision project_id
                                               existing_contexts).
Proof.
  intros Hdelete. unfold IngestionCurator._apply_curation_decision.
  apply (respects_bind R R_trans); [exact Hdelete|]. intros _.
  apply (respects_bind R R_trans); [apply respects_create_new_contexts|].
  intros [context_map created_context_ids].
  apply (respects_bind R R_trans); [apply respects_create_new_fragments|].
  intros [[context_map' created_fragment_ids] fbc].
  apply (respects_bind R R_trans); [apply respects_update_contexts|].
  intros _. step.
Qed.

Lemma respects_curate_and_chunk content :
  (forall ids_to_delete,
     respects R (IngestionCurator.delete_old_fragments ids_to_delete
                                                       project_id)) ->
  respects R (IngestionCurator.curate_and_chunk content project_id).
Proof.
  intros Hdelete. unfold IngestionCurator.curate_and_chunk.
  apply (respects_bind R R_trans).
  { apply (respects_reads R R_preserved), reads_find_relevant_fragments. }
  intros relevant. apply (respects_bind R R_trans).
  { apply (respects_reads R R_preserved), reads_fetch_existing_contexts. }
  intros existing. apply (respects_bind R R_trans).
  { apply (respects_reads R R_preserved), reads_get_curation_decision. }
  intros decision. apply (respects_bind R R_trans).
  { apply respects_apply_curation_decision, Hdelete. }
  intros result. apply (respects_bind R R_trans); [|intros _; step].
  unfold IngestionCurator.log_completion. case_match; step.
Qed.

End CuratorRespects.

(** ** Ingestion curator: what a curation can and cannot change *)

Section CuratorMore.
Context {E : Env} {C : Config} {P : Prompts}.

(** *** Fragments outside the decision *)

Lemma kept_except_refl ids w : fragments_kept_except ids w w.
Proof. by intros fid f _ H. Qed.

Lemma kept_except_trans ids w1 w2 w3 :
  fragments_kept_except ids w1 w2 -> fragments_kept_except ids w2 w3 ->
  fragments_kept_except ids w1 w3.
Proof. intros H1 H2 fid f Hid H. by apply H2, H1. Qed.

Lemma kept_except_same ids w w' :
  fragments w' = fragments w -> fragments_kept_except ids w w'.
Proof. intros Heq fid f _ H. by rewrite Heq. Qed.

Lemma kept_except_preserved ids w w' :
  store_preserved w w' -> fragments_kept_except ids w w'.
Proof. intros (_ & Hf & _). by apply kept_except_same. Qed.

Lemma kept_except_create_context ids project_id name description cf :
  respects (fragments_kept_except ids)
           (Memory.create_context project_id name description cf).
Proof.
  intros w r w' Hrun. apply memory_create_context_spec in Hrun
    as [(e & _ & Hkeep)|(cid & _ & _ & _ & _ & Hf & _)].
  - by apply kept_except_preserved.
  - by apply kept_except_same.
Qed.

Lemma kept_except_store_fragment ids project_id content source context_ids :
  respects (fragments_kept_except ids)
           (Memory.store_fragment project_id content source context_ids).
Proof.
  intros w r w' Hrun. apply memory_store_fragment_spec in Hrun
    as (_ & _ & _ & [Hf|(fid & Hnew & _ & Hf)] & _).
  - by apply kept_except_same.
  - intros fid0 f _ H. rewrite Hf, lookup_insert_ne; [done|].
    intros ->. congruence.
Qed.

Lemma kept_except_update_one_context ids entry :
  respects (fragments_kept_except ids)
           (IngestionCurator.update_one_context entry).
Proof.
  destruct entry as [cid new]. intros w r w' Hrun.
  destruct (update_one_context_spec cid new w) as (w1 & H1 & Hf & _).
  rewrite H1 in Hrun. injection Hrun as _ <-. by apply kept_except_same.
Qed.

Lemma kept_unless_refl named w : fragments_kept_unless named w w.
Proof. by intros fid f _ H. Qed.

Lemma kept_unless_trans named w1 w2 w3 :
  fragments_kept_unless named w1 w2 -> fragments_kept_unless named w2 w3 ->
  fragments_kept_unless named w1 w3.
Proof. intros H1 H2 fid f Hid H. by apply H2, H1. Qed.

Lemma kept_unless_none named w w' :
  fragments_kept_except [] w w' -> fragments_kept_unless named w w'.
Proof. intros Hkept fid f _ H. apply Hkept; [apply not_elem_of_nil|done]. Qed.

Lemma kept_unless_delete_old ids_to_delete project_id :
  respects (fragments_kept_unless (names_fragment ids_to_delete))
           (IngestionCurator.delete_old_fragments ids_to_delete project_id).
Proof.
  unfold IngestionCurator.delete_old_fragments.
  destruct (Json.truthy ids_to_delete);
    [|apply respects_ret, kept_unless_refl].
  destruct (Json.len ids_to_delete);
    [|apply respects_raise, kept_unless_refl].
  intros w r w'. unfold bind.
  destruct (Memory.delete_fragments_value ids_to_delete project_id w)
    as [r1 w1] eqn:Hdel.
  pose proof (memory_delete_fragments_value_kept _ _ _ _ _ Hdel) as Hkept.
  apply memory_delete_fragments_value_spec in Hdel as (_ & _ & _ & _ & b & ->).
  cbv [ret]. by intros [= _ <-].
Qed.

Lemma names_fragment_strings ids fid :
  names_fragment (JArr (JStr <$> ids)) fid <-> fid ∈ ids.
Proof.
  split.
  - intros (items & item & n & [= <-] & Hin & Hbind).
    apply list_elem_of_fmap in Hin as (i & -> & Hi).
    cbn in Hbind. by injection Hbind as <-.
  - intros Hin. exists (JStr <$> ids), (JStr fid), 0%nat.
    split; [reflexivity|]. split; [|reflexivity].
    apply list_elem_of_fmap. by exists fid.
Qed.

Lemma names_fragment_item ids_to_delete fid :
  names_fragment ids_to_delete fid ->
  exists items item,
    Json.iter ids_to_delete = Some items /\ item ∈ items
    /\ match item with
       | JStr s => fid = s
       | JBool b => fid = if b then "1" else "0"
       | JNum _ => True
       | JNull | JArr _ | JObj _ => False
       end.
Proof.
  intros (items & item & n & Hiter & Hin & Hbind).
  exists items, item. split; [done|]. split; [done|].
  destruct item; cbn in Hbind; try done; congruence.
Qed.

Lemma apply_result_deleted_ids decision project_id existing w result w' :
  IngestionCurator._apply_curation_decision decision project_id existing w
  = (Ok result, w') ->
  CurationResult.deleted_ids result
  = from_option id (JArr []) (Dict.get decision "ids_to_delete").
Proof.
  unfold IngestionCurator._apply_curation_decision. cbv [bind ret].
  repeat (case_match; try discriminate). by intros [= <- _].
Qed.

Lemma apply_kept_unless decision project_id existing w r w' :
  IngestionCurator._apply_curation_decision decision project_id existing w
  = (r, w') ->
  fragments_kept_unless
    (names_fragment (from_option id (JArr [])
                       (Dict.get decision "ids_to_delete"))) w w'.
Proof.
  intros Hrun.
  eapply (respects_apply_curation_decision
            (fragments_kept_unless _) (kept_unless_refl _)
            (kept_unless_trans _)); [..|exact Hrun].
  - intros name description w2 r2 w3 H2.
    by eapply kept_unless_none, kept_except_create_context.
  - intros content context_id w2 r2 w3 H2.
    by eapply kept_unless_none, kept_except_store_fragment.
  - intros entry w2 r2 w3 H2.
    by eapply kept_unless_none, kept_except_update_one_context.
  - apply kept_unless_delete_old.
Qed.

Lemma log_completion_world result w r w' :
  IngestionCurator.log_completion result w = (r, w') -> w' = w.
Proof.
  unfold IngestionCurator.log_completion.
  destruct (Json.len _); cbv [ret raise]; congruence.
Qed.

Lemma curate_kept_unless content project_id w w' result :
  IngestionCurator.curate_and_chunk content project_id w = (Ok result, w') ->
  fragments_kept_unless
    (names_fragment (CurationResult.deleted_ids result)) w w'.
Proof.
  unfold IngestionCurator.curate_and_chunk, bind.
  destruct (IngestionCurator.find_relevant_fragments content project_id w)
    as [[relevant|e] w1] eqn:H1; [|discriminate].
  destruct (IngestionCurator.fetch_existing_contexts project_id w1)
    as [[existing|e] w2] eqn:H2; [|discriminate].
  destruct (IngestionCurator._get_curation_decision content relevant existing
              w2) as [[decision|e] w3] eqn:H3; [|discriminate].
  destruct (IngestionCurator._apply_curation_decision decision project_id
              existing w3) as [[applied|e] w4] eqn:H4; [|discriminate].
  destruct (IngestionCurator.log_completion applied w4)
    as [[u|e] w5] eqn:H5; [|discriminate].
  cbv [ret]. intros [= <- <-].
  apply log_completion_world in H5 as ->.
  apply reads_find_relevant_fragments in H1.
  apply reads_fetch_existing_contexts in H2.
  apply reads_get_curation_decision in H3.
  rewrite (apply_result_deleted_ids _ _ _ _ _ _ H4).
  eapply kept_unless_trans; [|by eapply apply_kept_unless].
  apply kept_unless_none, kept_except_preserved.
  eapply store_preserved_trans; [exact H1|].
  eapply store_preserved_trans; [exact H2|exact H3].
Qed.

(** X14.  A curation deletes no fragment but those its decision names.
    The value of [ids_to_delete] is passed to the store unchecked, and a
    fragment id is named by it when it is the text SQLite compares with
    the id column for one of the items of the value: a string item names
    itself, [true] and [false] name "1" and "0", a number names its text,
    and null, a list or an object names nothing; a list of strings names
    exactly its members.  Every fragment whose id is not named by
    [ids_to_delete] is still in the store, unchanged, when the apply step
    ends, whether it returns or raises; and after a call of
    [curate_and_chunk] that returns, every fragment whose id is not named
    by the reported [deleted_ids] is still there, unchanged. *)
Theorem curation_deletes_only_the_named_fragments :
  forall (project_id : string) (w w' : World),
    (forall decision existing r,
       IngestionCurator._apply_curation_decision decision project_id
                                                 existing w = (r, w') ->
       forall fid f,
         ~ names_fragment (from_option id (JArr [])
                             (Dict.get decision "ids_to_delete")) fid ->
         fragments w !! fid = Some f -> fragments w' !! fid = Some f)
    /\ (forall content result,
          IngestionCurator.curate_and_chunk content project_id w
          = (Ok result, w') ->
          forall fid f,
            ~ names_fragment (CurationResult.deleted_ids result) fid ->
            fragments w !! fid = Some f -> fragments w' !! fid = Some f)
    /\ (forall ids fid,
          names_fragment (JArr (JStr <$> ids)) fid <-> fid ∈ ids)
    /\ (forall ids_to_delete fid,
          names_fragment ids_to_delete fid ->
          exists items item,
            Json.iter ids_to_delete = Some items /\ item ∈ items
            /\ match item with
               | JStr s => fid = s
               | JBool b => fid = if b then "1" else "0"
               | JNum _ => True
               | JNull | JArr _ | JObj _ => False
               end).
Proof.
  intros project_id w w'.
  split; [intros decision existing r Hrun; by eapply apply_kept_unless|].
  split; [|split; [apply names_fragment_strings|apply names_fragment_item]].
  intros content result Hrun. by eapply curate_kept_unless.
Qed.

(** *** Contexts are never lost *)

Lemma contexts_kept_refl w : contexts_kept w w.
Proof. intros cid c H. exists c. by repeat split. Qed.

Lemma contexts_kept_trans w1 w2 w3 :
  contexts_kept w1 w2 -> contexts_kept w2 w3 -> contexts_kept w1 w3.
Proof.
  intros H1 H2 cid c H.
  destruct (H1 cid c H) as (c1 & Hc1 & Hp1 & Hn1 & Hd1 & Hm1).
  destruct (H2 cid c1 Hc1) as (c2 & Hc2 & Hp2 & Hn2 & Hd2 & Hm2).
  exists c2. repeat split; try congruence. by etrans.
Qed.

Lemma contexts_kept_same w w' :
  contexts w' = contexts w -> contexts_kept w w'.
Proof. intros Heq cid c H. exists c. rewrite Heq. by repeat split. Qed.

Lemma contexts_kept_preserved w w' :
  store_preserved w w' -> contexts_kept w w'.
Proof. intros (_ & _ & Hc & _). by apply contexts_kept_same. Qed.

Lemma find_context_cons_fresh cid c new rows :
  Storage.find_context (MemoryContext.id new) rows = None ->
  Storage.find_context cid rows = Some c ->
  Storage.find_context cid (new :: rows) = Some c.
Proof.
  intros Hfresh Hfind. unfold Storage.find_context in *. simpl.
  destruct (String.eqb_spec (MemoryContext.id new) cid) as [Heq|]; [|done].
  rewrite Heq in Hfresh. congruence.
Qed.

Lemma contexts_kept_create_context project_id name description cf :
  respects contexts_kept
           (Memory.create_context project_id name description cf).
Proof.
  intros w r w' Hrun. apply memory_create_context_spec in Hrun
    as [(e & _ & Hkeep)|(cid & _ & Hfresh & Hc & _)].
  - by apply contexts_kept_preserved.
  - intros cid0 c H. exists c. rewrite Hc. split; [|by repeat split].
    by apply find_context_cons_fresh.
Qed.

Lemma contexts_kept_store_fragment project_id content source context_ids :
  respects contexts_kept
           (Memory.store_fragment project_id content source context_ids).
Proof.
  intros w r w' Hrun. apply memory_store_fragment_spec in Hrun
    as (_ & Hc & _). by apply contexts_kept_same.
Qed.

Lemma contexts_kept_update_one_context entry :
  respects contexts_kept (IngestionCurator.update_one_context entry).
Proof.
  destruct entry as [cid new]. intros w r w' Hrun.
  destruct (update_one_context_spec cid new w) as (w1 & H1 & _ & Hc & _).
  rewrite H1 in Hrun. injection Hrun as _ <-.
  destruct Hc as [Hc|(ctx & _ & Hfind & Hc)]; [by apply contexts_kept_same|].
  intros cid0 c H. rewrite Hc.
  destruct (decide (cid0 = cid)) as [->|Hne].
  - rewrite find_context_update_same, Hfind. simpl. eexists.
    split; [reflexivity|]. assert (c = ctx) as -> by congruence.
    repeat split; try done. intros x Hx.
    apply (proj1 (proj2 (merge_members_spec _ _))). by left.
  - rewrite find_context_update_other by done. exists c. by repeat split.
Qed.

Lemma contexts_kept_delete_old ids_to_delete project_id :
  respects contexts_kept
           (IngestionCurator.delete_old_fragments ids_to_delete project_id).
Proof.
  unfold IngestionCurator.delete_old_fragments.
  destruct (Json.truthy ids_to_delete);
    [|apply respects_ret, contexts_kept_refl].
  destruct (Json.len ids_to_delete);
    [|apply respects_raise, contexts_kept_refl].
  intros w r w'. unfold bind.
  destruct (Memory.delete_fragments_value ids_to_delete project_id w)
    as [r1 w1] eqn:Hdel.
  apply memory_delete_fragments_value_spec in Hdel
    as (_ & Hc & _ & _ & b & ->).
  cbv [ret]. intros [= _ <-]. by apply contexts_kept_same.
Qed.

Lemma curate_contexts_kept content project_id w w' r :
  IngestionCurator.curate_and_chunk content project_id w = (r, w') ->
  contexts_kept w w'.
Proof.
  intros Hrun.
  eapply (respects_curate_and_chunk contexts_kept contexts_kept_refl
            contexts_kept_trans contexts_kept_preserved);
    [..|exact Hrun].
  - intros. apply contexts_kept_create_context.
  - intros. apply contexts_kept_store_fragment.
  - intros. apply contexts_kept_update_one_context.
  - intros. apply contexts_kept_delete_old.
Qed.

(** X15.  A curation never loses a context: whichever way
    [curate_and_chunk] ends, every context that was in the store is still
    there under its id, in the same project, with the same name and
    description, and with every member it had; memberships only grow. *)
Theorem curation_keeps_every_context_and_member :
  forall (content project_id : string) (w w' : World) r,
    IngestionCurator.curate_and_chunk content project_id w = (r, w') ->
    contexts_kept w w'.
Proof. intros content project_id w w' r. apply curate_contexts_kept. Qed.

(** *** The context table stays well formed *)

Lemma find_context_None_id cid rows :
  Storage.find_context cid rows = None ->
  cid ∉ List.map MemoryContext.id rows.
Proof.
  unfold Storage.find_context. induction rows as [|c rows IH]; simpl.
  - intros _ H. by apply elem_of_nil in H.
  - destruct (String.eqb_spec (MemoryContext.id c) cid) as [|Hne];
      [discriminate|].
    intros H [Heq|Hin]%elem_of_cons; [congruence|]. by apply IH.
Qed.

Lemma update_rows_ids cid members rows :
  List.map MemoryContext.id (Storage.update_rows cid members rows)
  = List.map MemoryContext.id rows.
Proof.
  unfold Storage.update_rows. rewrite List.map_map. apply List.map_ext.
  intros c. by destruct (String.eqb _ _).
Qed.

Lemma update_rows_counts cid members rows :
  Forall (fun c => MemoryContext.fragment_count c
                   = Z.of_nat (length (MemoryContext.fragment_ids c))) rows ->
  Forall (fun c => MemoryContext.fragment_count c
                   = Z.of_nat (length (MemoryContext.fragment_ids c)))
         (Storage.update_rows cid members rows).
Proof.
  unfold Storage.update_rows. intros H. apply Forall_fmap.
  eapply Forall_impl; [exact H|]. intros c Hc. simpl.
  by destruct (String.eqb _ _).
Qed.

Lemma well_formed_same w w' :
  contexts w' = contexts w -> keeps_well_formed w w'.
Proof.
  intros Heq. unfold keeps_well_formed, contexts_well_formed,
    counts_consistent. by rewrite Heq.
Qed.

Lemma well_formed_create_context project_id name description cf :
  respects keeps_well_formed
           (Memory.create_context project_id name description cf).
Proof.
  intros w r w' Hrun. apply memory_create_context_spec in Hrun
    as [(e & _ & (_ & _ & Hc & _))|(cid & _ & Hfresh & Hc & _)].
  - by apply well_formed_same.
  - intros [Hnd Hcount]. unfold contexts_well_formed, counts_consistent.
    rewrite Hc. split.
    + simpl. apply NoDup_cons. split; [|exact Hnd].
      by apply find_context_None_id.
    + by constructor.
Qed.

Lemma well_formed_update_one_context entry :
  respects keeps_well_formed (IngestionCurator.update_one_context entry).
Proof.
  destruct entry as [cid new]. intros w r w' Hrun.
  destruct (update_one_context_spec cid new w) as (w1 & H1 & _ & Hc & _).
  rewrite H1 in Hrun. injection Hrun as _ <-.
  destruct Hc as [Hc|(ctx & _ & _ & Hc)]; [by apply well_formed_same|].
  intros [Hnd Hcount]. unfold contexts_well_formed, counts_consistent.
  rewrite Hc. split; [by rewrite update_rows_ids|].
  by apply update_rows_counts.
Qed.

(** X16.  A curation keeps the context table well formed: if the ids
    of the contexts are unique and every [fragment_count] equals the
    number of members before [curate_and_chunk], the same holds
    afterwards, whichever way the call ends. *)
Theorem curation_keeps_the_context_table_well_formed :
  forall (content project_id : string) (w w' : World) r,
    IngestionCurator.curate_and_chunk content project_id w = (r, w') ->
    contexts_well_formed w ->
    contexts_well_formed w'.
Proof.
  intros content project_id w w' r Hrun.
  assert (Hsame : forall w1 w2, store_preserved w1 w2 ->
                                keeps_well_formed w1 w2).
  { intros w1 w2 (_ & _ & Hc & _). by apply well_formed_same. }
  eapply (respects_curate_and_chunk keeps_well_formed);
    [..|exact Hrun].
  - by intros w0 H.
  - intros w1 w2 w3 H12 H23 H. by apply H23, H12.
  - exact Hsame.
  - intros. apply well_formed_create_context.
  - intros name cid w1 r1 w2 H1.
    apply memory_store_fragment_spec in H1 as (_ & Hc & _).
    by apply well_formed_same.
  - intros. apply well_formed_update_one_context.
  - intros ids w1 r1 w2 H1.
    apply (contexts_kept_delete_old ids project_id) in H1 as Hkept.
    apply well_formed_same.
    revert H1. unfold IngestionCurator.delete_old_fragments.
    repeat case_match; cbv [ret raise bind]; try by intros [= _ <-].
    destruct (Memory.delete_fragments_value _ _ w1) as [r2 w3] eqn:Hdel.
    apply memory_delete_fragments_value_spec in Hdel
      as (_ & Hc & _ & _ & b & ->).
    by intros [= _ <-].
Qed.

(** *** The ids a curation reports *)

Lemma fold_m_invariant_world {A S} (J : S -> World -> Prop)
    (body : S -> A -> M S) xs :
  (forall s x w s' w', body s x w = (Ok s', w') -> J s w -> J s' w') ->
  forall s w s' w', fold_m body xs s w = (Ok s', w') -> J s w -> J s' w'.
Proof.
  intros Hbody. induction xs as [|x xs IH]; intros s w s' w'.
  - cbv [fold_m ret]. by intros [= <- <-].
  - cbn [fold_m]. cbv [bind].
    destruct (body s x w) as [[s1|e] w1] eqn:H1; [|discriminate].
    intros H2 Hs. eapply IH; [exact H2|]. by eapply Hbody.
Qed.

Lemma created_contexts_kept project_id created w w' :
  contexts_kept w w' ->
  created_contexts_stored project_id created w ->
  created_contexts_stored project_id created w'.
Proof.
  intros Hkept [Hnd Hall]. split; [exact Hnd|]. intros cid Hcid.
  destruct (Hall cid Hcid) as (c & Hfind & Hp).
  destruct (Hkept cid c Hfind) as (c' & Hfind' & Hp' & _).
  exists c'. split; [exact Hfind'|congruence].
Qed.

Lemma create_one_context_created project_id st context_data w st' w' :
  IngestionCurator.create_one_context project_id st context_data w
  = (Ok st', w') ->
  created_contexts_stored project_id st.2 w ->
  created_contexts_stored project_id st'.2 w'.
Proof.
  destruct st as [context_map created].
  unfold IngestionCurator.create_one_context.
  repeat (case_match; try (cbv [ret raise]; intros [= <- <-]; done);
          try (cbv [raise]; discriminate)).
  unfold try_except, bind.
  destruct (Memory.create_context _ _ _ _ w) as [r1 w1] eqn:Hcreate.
  apply memory_create_context_spec in Hcreate
    as [(e & -> & Hkeep)|(cid & -> & Hfresh & Hc & _)].
  - cbv [ret]. intros [= <- <-]. simpl.
    apply created_contexts_kept. by apply contexts_kept_preserved.
  - cbv [ret]. intros [= <- <-]. simpl. intros [Hnd Hall]. split.
    + apply NoDup_app. split; [exact Hnd|]. split; [|apply NoDup_singleton].
      intros x Hx Heq%list_elem_of_singleton. subst x.
      destruct (Hall cid Hx) as (c & Hfind & _). congruence.
    + intros x [Hx|Heq%list_elem_of_singleton]%elem_of_app; [|subst x].
      * destruct (Hall x Hx) as (c & Hfind & Hp). exists c.
        split; [|exact Hp]. rewrite Hc. by apply find_context_cons_fresh.
      * eexists. rewrite Hc. unfold Storage.find_context. simpl.
        rewrite String.eqb_refl. by split.
Qed.

Lemma created_fragments_same project_id created w w' :
  fragments w' = fragments w ->
  created_fragments_stored project_id created w ->
  created_fragments_stored project_id created w'.
Proof. intros Heq. unfold created_fragments_stored. by rewrite Heq. Qed.

Lemma created_fragments_kept project_id created w w' :
  fragments_kept_except [] w w' ->
  created_fragments_stored project_id created w ->
  created_fragments_stored project_id created w'.
Proof.
  intros Hkept [Hnd Hall]. split; [exact Hnd|]. intros fid Hfid.
  destruct (Hall fid Hfid) as (f & Hf & Hrest). exists f.
  split; [|exact Hrest]. apply Hkept; [apply not_elem_of_nil|exact Hf].
Qed.

Lemma kept_except_target_context project_id context_map context_name :
  respects (fragments_kept_except [])
           (IngestionCurator.target_context project_id context_map
                                            context_name).
Proof.
  apply (respects_target_context _ (kept_except_refl _)
           (kept_except_trans _)).
  intros. apply kept_except_create_context.
Qed.

Lemma create_one_fragment_created project_id st fragment_data w st' w' :
  IngestionCurator.create_one_fragment project_id st fragment_data w
  = (Ok st', w') ->
  created_fragments_stored project_id st.1.2 w ->
  created_fragments_stored project_id st'.1.2 w'.
Proof.
  destruct st as [[context_map created] fbc].
  unfold IngestionCurator.create_one_fragment.
  destruct fragment_data as [| | | | |fields];
    try (cbv [ret]; by intros [= <- <-]).
  destruct (negb (Json.truthy _)); [cbv [ret]; by intros [= <- <-]|].
  destruct (from_option id JNull (Dict.get fields "content"))
    as [| | |content_s| |]; try (cbv [raise]; discriminate).
  destruct (negb (Py.truthy (Py.strip content_s)) || negb (Json.truthy _));
    [cbv [ret]; by intros [= <- <-]|].
  cbv [bind try_except ret].
  destruct (IngestionCurator.target_context _ _ _ w)
    as [[[cm cid]|e] w1] eqn:Htarget; [|discriminate].
  apply kept_except_target_context in Htarget.
  destruct (Memory.store_fragment _ _ _ _ w1) as [[new_id|e] w2] eqn:Hstore.
  - apply memory_store_fragment_spec in Hstore as (_ & _ & _ & _ & Hok).
    destruct (Hok new_id eq_refl) as (Hnew & Hcontent & Hins).
    intros [= <- <-] Hcreated. simpl.
    apply (created_fragments_kept _ _ _ _ Htarget) in Hcreated
      as [Hnd Hall].
    split.
    + apply NoDup_app. split; [exact Hnd|]. split; [|apply NoDup_singleton].
      intros x Hx Heq%list_elem_of_singleton. subst x.
      destruct (Hall new_id Hx) as (f & Hf & _). congruence.
    + intros x [Hx|Heq%list_elem_of_singleton]%elem_of_app; [|subst x].
      * destruct (Hall x Hx) as (f & Hf & Hrest). exists f.
        split; [|exact Hrest]. rewrite Hins, lookup_insert_ne; [done|].
        intros ->. congruence.
      * eexists. rewrite Hins, lookup_insert_eq. split; [reflexivity|].
        split; [reflexivity|]. repeat split; try done. by eexists.
  - intros [= <- <-] Hcreated. simpl.
    apply (created_fragments_kept _ _ _ _ Htarget) in Hcreated.
    revert Hcreated. apply created_fragments_kept.
    by eapply kept_except_store_fragment.
Qed.

Lemma curate_created_rows content project_id w w' result :
  IngestionCurator.curate_and_chunk content project_id w = (Ok result, w') ->
  created_fragments_stored
    project_id (CurationResult.created_fragment_ids result) w'
  /\ created_contexts_stored
       project_id (CurationResult.created_context_ids result) w'.
Proof.
  revert w w' result. intros w w' result.
  unfold IngestionCurator.curate_and_chunk, bind.
  destruct (IngestionCurator.find_relevant_fragments content project_id w)
    as [[relevant|e] w1]; [|discriminate].
  destruct (IngestionCurator.fetch_existing_contexts project_id w1)
    as [[existing|e] w2]; [|discriminate].
  destruct (IngestionCurator._get_curation_decision content relevant existing
              w2) as [[decision|e] w3]; [|discriminate].
  unfold IngestionCurator._apply_curation_decision, bind.
  destruct (IngestionCurator.delete_old_fragments _ _ w3)
    as [[u4|e] w4]; [|discriminate].
  destruct (IngestionCurator.create_new_contexts _ _ _ w4)
    as [[[cm cctx]|e] w5] eqn:Hctx; [|discriminate].
  destruct (IngestionCurator.create_new_fragments _ _ _ w5)
    as [[[[cm' cfrag] fbc]|e] w6] eqn:Hfrag; [|discriminate].
  destruct (IngestionCurator.update_contexts fbc w6)
    as [[u7|e] w7] eqn:Hupd; [|discriminate].
  cbv [ret]. unfold IngestionCurator.log_completion.
  destruct (Json.len _); [|discriminate].
  cbv [ret]. intros [= <- <-]. simpl.
  assert (Hc5 : created_contexts_stored project_id cctx w5).
  { revert Hctx. unfold IngestionCurator.create_new_contexts.
    assert (Hempty : created_contexts_stored project_id [] w4).
    { split; [constructor|]. intros cid Hcid. by apply elem_of_nil in Hcid. }
    repeat case_match; cbv [ret raise]; try discriminate;
      try (by intros [= _ <- <-]).
    intros Hfold.
    apply (fold_m_invariant_world
             (fun st w => created_contexts_stored project_id st.2 w) _ _
             (create_one_context_created project_id) _ _ _ _ Hfold).
    exact Hempty. }
  assert (Hf6 : created_fragments_stored project_id cfrag w6).
  { revert Hfrag. unfold IngestionCurator.create_new_fragments.
    assert (Hempty : created_fragments_stored project_id [] w5).
    { split; [constructor|]. intros fid Hfid. by apply elem_of_nil in Hfid. }
    repeat case_match; cbv [ret raise]; try discriminate;
      try (by intros [= _ <- _ <-]).
    intros Hfold.
    apply (fold_m_invariant_world
             (fun st w => created_fragments_stored project_id st.1.2 w) _ _
             (create_one_fragment_created project_id) _ _ _ _ Hfold).
    exact Hempty. }
  split.
  - revert Hf6. apply created_fragments_kept.
    eapply (respects_update_contexts (fragments_kept_except [])
              (kept_except_refl _) (kept_except_trans _)); [|exact Hupd].
    intros. apply kept_except_update_one_context.
  - revert Hc5. apply created_contexts_kept.
    eapply contexts_kept_trans.
    + eapply (respects_create_new_fragments contexts_kept contexts_kept_refl
                contexts_kept_trans); [..|exact Hfrag].
      * intros. apply contexts_kept_create_context.
      * intros. apply contexts_kept_store_fragment.
    + eapply (respects_update_contexts contexts_kept contexts_kept_refl
                contexts_kept_trans); [|exact Hupd].
      intros. apply contexts_kept_update_one_context.
Qed.

(** X17.  The ids a curation reports name rows it stored: after a call
    of [curate_and_chunk] that returns, the ids in [created_fragment_ids]
    are distinct and each names a fragment in the store, in the project,
    from the source "curated_ingestion", filed under exactly one context
    and with content that is not blank; the ids in [created_context_ids]
    are distinct and each names a context in the store, in the project. *)
Theorem curation_reports_rows_it_stored :
  forall (content project_id : string) (w w' : World) result,
    IngestionCurator.curate_and_chunk content project_id w
    = (Ok result, w') ->
    created_fragments_stored
      project_id (CurationResult.created_fragment_ids result) w'
    /\ created_contexts_stored
         project_id (CurationResult.created_context_ids result) w'.
Proof. intros content project_id w w' result. apply curate_created_rows. Qed.

End CuratorMore.

(** The curation of "x" in project "p1", whose decision deletes "f1" and
    3: the fragment "f1" is gone and the fragment "f2" is still there. *)
Lemma curation_deletes_only_the_named_fragments_witness :
  let w' :=
    (IngestionCurator.curate_and_chunk
       (E := MoreExamples.mixed_env) (C := Examples.default_config)
       (P := Examples.plain_prompts) "x" "p1" MoreExamples.two_fragments).2 in
  fragments MoreExamples.two_fragments !! "f1" = Some RecallExample.f1
  /\ fragments w' !! "f1" = None
  /\ fragments w' !! "f2" = Some MoreExamples.f2.
Proof.
  intros w'. split; [reflexivity|]. split; [vm_compute; reflexivity|].
  subst w'.
  destruct (IngestionCurator.curate_and_chunk _ _ _) as [r w'] eqn:Hrun.
  pose proof (f_equal fst Hrun) as Hr. vm_compute in Hr. subst r.
  destruct (curation_deletes_only_the_named_fragments
              (E := MoreExamples.mixed_env) (C := Examples.default_config)
              (P := Examples.plain_prompts) "p1" MoreExamples.two_fragments w')
    as (_ & Hkept & _).
  apply (Hkept _ _ Hrun).
  - intros (items & item & n & Hiter & Hin & Hbind).
    injection Hiter as <-.
    apply elem_of_cons in Hin as [->|Hin]; [discriminate Hbind|].
    apply list_elem_of_singleton in Hin as ->. vm_compute in Hbind.
    discriminate Hbind.
  - reflexivity.
Defined.

Lemma curation_keeps_every_context_and_member_witness :
  exists c',
    Storage.find_context "c1"
      (contexts
         (IngestionCurator.curate_and_chunk
            (E := MoreExamples.note_env) (C := Examples.default_config)
            (P := Examples.plain_prompts) "buy milk" "p1" RecallExample.w).2)
    = Some c'
    /\ MemoryContext.name c' = "maps"
    /\ ["f1"] ⊆ MemoryContext.fragment_ids c'.
Proof.
  destruct (IngestionCurator.curate_and_chunk _ _ _) as [r w'] eqn:Hrun.
  destruct (curation_keeps_every_context_and_member
              (E := MoreExamples.note_env) (C := Examples.default_config)
              (P := Examples.plain_prompts) "buy milk" "p1" RecallExample.w
              w' r Hrun "c1" RecallExample.c1)
    as (c' & Hfind & _ & Hname & _ & Hmembers); [reflexivity|].
  exists c'. by repeat split.
Defined.

Lemma curation_keeps_the_context_table_well_formed_witness :
  contexts_well_formed RecallExample.w
  /\ contexts_well_formed
       (IngestionCurator.curate_and_chunk
          (E := MoreExamples.note_env) (C := Examples.default_config)
          (P := Examples.plain_prompts) "buy milk" "p1" RecallExample.w).2.
Proof.
  assert (H : contexts_well_formed RecallExample.w).
  { split.
    - apply NoDup_singleton.
    - by repeat constructor. }
  split; [exact H|].
  destruct (IngestionCurator.curate_and_chunk _ _ _) as [r w'] eqn:Hrun.
  exact (curation_keeps_the_context_table_well_formed
           (E := MoreExamples.note_env) (C := Examples.default_config)
           (P := Examples.plain_prompts) "buy milk" "p1" RecallExample.w
           w' r Hrun H).
Defined.

Lemma curation_reports_rows_it_stored_witness :
  exists result w',
    IngestionCurator.curate_and_chunk
      (E := MoreExamples.note_env) (C := Examples.default_config)
      (P := Examples.plain_prompts) "buy milk" "p1" RecallExample.w
    = (Ok result, w')
    /\ length (CurationResult.created_fragment_ids result) = 1%nat
    /\ created_fragments_stored
         "p1" (CurationResult.created_fragment_ids result) w'.
Proof.
  destruct (IngestionCurator.curate_and_chunk _ _ _) as [r w'] eqn:Hrun.
  pose proof (f_equal fst Hrun) as Hr. vm_compute in Hr. subst r.
  eexists _, w'. split; [reflexivity|]. split; [reflexivity|].
  exact (proj1 (curation_reports_rows_it_stored
                  (E := MoreExamples.note_env) (C := Examples.default_config)
                  (P := Examples.plain_prompts) "buy milk" "p1"
                  RecallExample.w w' _ Hrun)).
Defined.

(** ** Memory operations: storing, deleting, filing and comparing *)

Section MemoryOps.
Context {E : Env} {C : Config}.

Lemma get_or_create_collection_name project_id w cn w' :
  Storage.get_or_create_collection project_id w = (Ok cn, w') ->
  cn = "project_" +:+ Py.replace "-" "_" project_id.
Proof.
  unfold Storage.get_or_create_collection, bind.
  destruct (try_except _ _ w) as [[u|e] w1]; [|discriminate].
  cbv [ret]. by intros [= <- _].
Qed.

Lemma storage_store_fragment_vector fragment embedding w x w' :
  Storage.store_fragment fragment embedding w = (Ok x, w') ->
  exists points,
    collections w'
      !! ("project_" +:+ Py.replace "-" "_" (MemoryFragment.project_id fragment))
    = Some points
    /\ points !! MemoryFragment.id fragment = Some embedding.
Proof.
  cbv [Storage.store_fragment try_except bind sqlite qdrant external
       get_world modify ret raise]. cbn [tick set_tick].
  destruct (fault (tick w)); cbn; [discriminate|].
  destruct (fragments w !! MemoryFragment.id fragment); cbn; [discriminate|].
  match goal with
  | |- context [Storage.get_or_create_collection ?p ?w0] =>
      destruct (Storage.get_or_create_collection p w0) as [[cn|e] w1] eqn:Hcol
  end; [|discriminate].
  apply get_or_create_collection_name in Hcol as ->.
  destruct (fault (tick w1)); cbn; [discriminate|].
  intros [= _ <-]. cbn. eexists. rewrite lookup_insert_eq.
  split; [reflexivity|]. apply lookup_insert_eq.
Qed.

Lemma length_substring_0 k s :
  String.length (String.substring 0 k s) = Nat.min k (String.length s).
Proof.
  revert k. induction s as [|a s IH]; intros [|k]; simpl; try done.
  by rewrite IH.
Qed.

Lemma stored_content_length content :
  0 <= max_content_length ->
  Z.of_nat (String.length (stored_content content)) <= max_content_length.
Proof.
  intros Hmax. unfold stored_content.
  destruct (Z.ltb_spec max_content_length
              (Z.of_nat (String.length content))) as [Hlong|Hshort]; [|lia].
  unfold Py.slice. rewrite (proj2 (Z.ltb_ge 0 0)) by lia.
  rewrite (proj2 (Z.ltb_ge max_content_length 0)) by lia.
  rewrite Z.min_l by lia. rewrite Z.min_l by lia.
  change (Z.to_nat 0) with 0%nat. rewrite Z.sub_0_r, length_substring_0.
  lia.
Qed.

(** X18.  Storing a fragment.  Blank content is refused with ValueError
    before anything is touched.  When [store_fragment] returns an id, the
    id was not in use, the row written under it holds the project, the
    source and the context ids given and the content cut to
    [max_content_length] (never longer than that limit), the vector is in
    the project's collection under the same id, no other row or table
    changed, and reading the id back returns that row (for a source that
    is not empty; the reader takes an empty source for "user"). *)
Theorem store_fragment_stores_what_it_returns :
  forall (project_id content source : string) (context_ids : list string)
         (w : World),
    (Py.truthy (Py.strip content) = false ->
     Memory.store_fragment project_id content source context_ids w
     = (Raise (ValueError "Fragment content cannot be empty"), w))
    /\ forall fid w',
         Memory.store_fragment project_id content source context_ids w
         = (Ok fid, w') ->
         let row :=
           stored_fragment project_id content source context_ids fid in
         fragments w !! fid = None
         /\ fragments w' = <[fid := row]> (fragments w)
         /\ (0 <= max_content_length ->
             Z.of_nat (String.length (MemoryFragment.content row))
             <= max_content_length)
         /\ (exists points,
               collections w'
                 !! ("project_" +:+ Py.replace "-" "_" project_id)
               = Some points
               /\ is_Some (points !! fid))
         /\ projects w' = projects w /\ contexts w' = contexts w
         /\ anchors w' = anchors w
         /\ (Py.truthy source = true -> fault (tick w') = false ->
             exists w'',
               Memory.get_fragment fid w' = (Ok (Some row), w'')).
Proof.
  intros project_id content source context_ids w. split.
  - intros Hblank. unfold Memory.store_fragment. rewrite Hblank.
    by rewrite orb_true_r.
  - intros fid w' Hrun row.
    pose proof (memory_store_fragment_spec _ _ _ _ _ _ _ Hrun)
      as (Hp & Hc & Ha & _ & Hok).
    destruct (Hok fid eq_refl) as (Hnew & _ & Hins).
    split; [exact Hnew|]. split; [exact Hins|].
    split; [apply stored_content_length|]. split.
    + revert Hrun. unfold Memory.store_fragment.
      destruct (negb _ || negb _); [cbv [raise]; discriminate|].
      unfold bind.
      destruct (EmbeddingService.generate_embedding _ w) as [[emb|e] w1];
        [|discriminate].
      cbv [Storage.next_tick]. intros Hstore.
      pose proof (storage_store_fragment_vector _ _ _ _ _ Hstore)
        as (points & Hcol & Hpoint).
      cbn in Hcol, Hpoint. exists points. split; [exact Hcol|].
      apply storage_store_fragment_spec in Hstore as (_ & _ & _ & _ & Hid).
      destruct (Hid fid eq_refl) as (-> & _). cbn. eauto.
    + repeat split; try done. intros Hsource Hfault.
      cbv [Memory.get_fragment Storage.get_fragment try_except bind sqlite
           external get_world ret].
      rewrite Hfault. cbn. rewrite Hins, lookup_insert_eq.
      cbn [fmap option_fmap option_map]. unfold Storage._row_to_fragment.
      subst row. cbn [stored_fragment MemoryFragment.source
                      MemoryFragment.category MemoryFragment.id
                      MemoryFragment.project_id MemoryFragment.content
                      MemoryFragment.tags MemoryFragment.context_ids
                      MemoryFragment.anchor_ids MemoryFragment.custom_fields
                      Py.truthy].
      rewrite Hsource. eauto.
Qed.

Lemma lookup_foldr_delete {V} (ids : list string) (m : gmap string V) fid :
  fid ∈ ids -> foldr delete m ids !! fid = None.
Proof.
  induction ids as [|x l IH]; [by intros ?%elem_of_nil|].
  intros Hfid. cbn [foldr]. destruct (decide (fid = x)) as [->|Hne].
  - apply lookup_delete_eq.
  - rewrite lookup_delete_ne by congruence. apply IH.
    by apply elem_of_cons in Hfid as [?|?].
Qed.

Lemma delete_fragments_done ids project_id w w' :
  Storage.delete_fragments ids project_id w = (Ok true, w') ->
  forall fid, fid ∈ ids ->
    fragments w' !! fid = None
    /\ forall points,
         collections w' !! ("project_" +:+ Py.replace "-" "_" project_id)
         = Some points ->
         points !! fid = None.
Proof.
  unfold Storage.delete_fragments. destruct ids as [|i ids].
  { intros _ fid Hfid. by apply elem_of_nil in Hfid. }
  cbv [try_except bind sqlite qdrant external get_world modify ret raise].
  cbn [tick set_tick].
  destruct (fault (tick w)); cbn; [discriminate|].
  match goal with
  | |- context [Storage.get_or_create_collection ?p ?w0] =>
      destruct (Storage.get_or_create_collection p w0) as [[cn|e] w1] eqn:Hcol
  end; [|discriminate].
  pose proof (get_or_create_collection_name _ _ _ _ Hcol) as ->.
  apply reads_get_or_create_collection in Hcol as (_ & Hf & _).
  cbn in Hf.
  destruct (fault (tick w1)); cbn; [discriminate|].
  intros [= _ <-] fid Hfid. cbn. split.
  - rewrite Hf. by apply (lookup_foldr_delete (i :: ids)).
  - rewrite lookup_insert_eq. intros points [= <-].
    by apply (lookup_foldr_delete (i :: ids)).
Qed.

Lemma delete_fragments_sqlite_step ids project_id w r w' :
  Storage.delete_fragments ids project_id w = (r, w') ->
  ids <> [] -> fault (tick w) = false ->
  fragments w' = Storage.delete_rows ids (fragments w).
Proof.
  unfold Storage.delete_fragments. destruct ids as [|i ids]; [done|].
  intros Hrun _ Hfault. revert Hrun.
  cbv [try_except bind sqlite qdrant external get_world modify ret raise].
  cbn [tick set_tick]. rewrite Hfault. cbn.
  match goal with
  | |- context [Storage.get_or_create_collection ?p ?w0] =>
      destruct (Storage.get_or_create_collection p w0) as [[cn|e] w1] eqn:Hcol
  end; apply reads_get_or_create_collection in Hcol as (_ & Hf & _);
    cbn in Hf.
  - destruct (fault (tick w1)); cbn; by intros [= _ <-].
  - by intros [= _ <-].
Qed.

(** X19.  Deleting fragments.  [delete_fragments] never raises; it
    touches no fragment outside the list and leaves the contexts as they
    are, so the membership lists keep the deleted ids.  When it answers
    True, every listed id is gone from the table and from the project's
    collection.  The rows are deleted as soon as the first statement
    succeeds: a False answer, as after a failure of the vector store, does
    not mean that nothing was deleted. *)
Theorem delete_fragments_removes_the_listed_rows :
  forall (fragment_ids : list string) (project_id : string) (w w' : World) r,
    Storage.delete_fragments fragment_ids project_id w = (r, w') ->
    (exists answer, r = Ok answer)
    /\ fragments_kept_except fragment_ids w w'
    /\ contexts w' = contexts w
    /\ (r = Ok true ->
        forall fid, fid ∈ fragment_ids ->
          fragments w' !! fid = None
          /\ forall points,
               collections w'
                 !! ("project_" +:+ Py.replace "-" "_" project_id)
               = Some points ->
               points !! fid = None)
    /\ (fragment_ids <> [] -> fault (tick w) = false ->
        forall fid, fid ∈ fragment_ids -> fragments w' !! fid = None).
Proof.
  intros ids project_id w w' r Hrun.
  pose proof (storage_delete_fragments_spec _ _ _ _ _ Hrun)
    as (_ & Hc & _ & Hf & Hok).
  split; [exact Hok|]. split.
  - destruct Hf as [Hf|Hf]; [by apply kept_except_same|].
    intros fid f Hid H. rewrite Hf, lookup_delete_rows.
    by rewrite decide_False.
  - split; [exact Hc|]. split.
    + intros ->. exact (delete_fragments_done _ _ _ _ Hrun).
    + intros Hne Hfault fid Hfid.
      rewrite (delete_fragments_sqlite_step _ _ _ _ _ Hrun Hne Hfault).
      rewrite lookup_delete_rows. by rewrite decide_True.
Qed.

(** X20.  Filing a fragment under a context.  [add_fragment_to_context]
    never raises and changes no fragment and no other context.  When it
    answers True the fragment is a member of the context afterwards, and
    the membership list is the old one, or the old one with the fragment
    appended when it was not a member; a fragment is never listed twice by
    it, and adding a member again writes nothing. *)
Theorem add_fragment_to_context_files_once :
  forall (context_id fragment_id : string) (w : World),
    exists answer w',
      MemoryContexts.add_fragment_to_context context_id fragment_id w
      = (Ok answer, w')
      /\ fragments w' = fragments w
      /\ (forall other, other <> context_id ->
            Storage.find_context other (contexts w')
            = Storage.find_context other (contexts w))
      /\ (answer = true ->
          exists c c',
            Storage.find_context context_id (contexts w) = Some c
            /\ Storage.find_context context_id (contexts w') = Some c'
            /\ MemoryContext.name c' = MemoryContext.name c
            /\ fragment_id ∈ MemoryContext.fragment_ids c'
            /\ (if bool_decide (fragment_id ∈ MemoryContext.fragment_ids c)
                then contexts w' = contexts w
                else MemoryContext.fragment_ids c'
                     = MemoryContext.fragment_ids c ++ [fragment_id])).
Proof.
  intros context_id fragment_id w.
  unfold MemoryContexts.add_fragment_to_context, try_except, bind.
  destruct (Storage.get_context context_id w) as [r1 w1] eqn:Hget.
  assert (Hget' : (r1 = Ok None \/ r1 = Ok (Storage.find_context context_id
                                                (contexts w)))
                  /\ projects w1 = projects w /\ fragments w1 = fragments w
                  /\ contexts w1 = contexts w).
  { revert Hget.
    cbv [Storage.get_context try_except bind sqlite external get_world ret].
    destruct (fault (tick w)); intros [= <- <-]; cbn; auto. }
  destruct Hget' as (Hr1 & _ & Hf1 & Hc1).
  assert (Hnone : exists (answer : bool) (w' : World),
            (Ok false, w1) = (Ok answer, w')
            /\ fragments w' = fragments w
            /\ (forall other, other <> context_id ->
                  Storage.find_context other (contexts w')
                  = Storage.find_context other (contexts w))
            /\ (answer = true ->
                exists c c',
                  Storage.find_context context_id (contexts w) = Some c
                  /\ Storage.find_context context_id (contexts w') = Some c'
                  /\ MemoryContext.name c' = MemoryContext.name c
                  /\ fragment_id ∈ MemoryContext.fragment_ids c'
                  /\ (if bool_decide
                           (fragment_id ∈ MemoryContext.fragment_ids c)
                      then contexts w' = contexts w
                      else MemoryContext.fragment_ids c'
                           = MemoryContext.fragment_ids c ++ [fragment_id]))).
  { exists false, w1. split; [reflexivity|]. split; [exact Hf1|].
    split; [by intros; rewrite Hc1|discriminate]. }
  destruct Hr1 as [->| ->]; [exact Hnone|].
  destruct (Storage.find_context context_id (contexts w)) as [c|] eqn:Hfind;
    [|exact Hnone].
  cbv [ret]. destruct (bool_decide (fragment_id ∈ _)) eqn:Hmember; cbn.
  - exists true, w1. split; [reflexivity|]. split; [exact Hf1|].
    split; [by intros; rewrite Hc1|]. intros _. exists c, c.
    rewrite Hc1, Hfind, Hmember. repeat split; try done.
    by apply bool_decide_eq_true in Hmember.
  - destruct (Storage.update_context_fragments context_id _ w1)
      as [r2 w2] eqn:Hupd.
    apply update_context_fragments_spec in Hupd
      as (_ & Hf2 & _ & _ & Hc2 & Htrue & b & ->).
    exists b, w2. split; [reflexivity|]. rewrite Hf2, Hc1 in *.
    split; [exact Hf1|]. split.
    + intros other Hother. destruct Hc2 as [->| ->]; [done|].
      by apply find_context_update_other.
    + intros ->. destruct (Htrue eq_refl) as [_ Hrows].
      exists c. eexists. rewrite Hrows, find_context_update_same, Hfind.
      cbn. split; [reflexivity|]. split; [reflexivity|].
      split; [reflexivity|]. rewrite Hmember. split; [|reflexivity].
      apply elem_of_app. right. by apply list_elem_of_singleton.
Qed.

Lemma list_prefix_elem {A} (n : Z) (xs : list A) x :
  x ∈ MemorySearch.list_prefix n xs -> x ∈ xs.
Proof.
  unfold MemorySearch.list_prefix.
  destruct (n <? 0); intros (i & Hx & _)%elem_of_take;
    by eapply list_elem_of_lookup_2.
Qed.

Lemma list_prefix_length {A} (n : Z) (xs : list A) :
  0 <= n -> Z.of_nat (length (MemorySearch.list_prefix n xs)) <= n.
Proof.
  intros Hn. unfold MemorySearch.list_prefix.
  rewrite (proj2 (Z.ltb_ge n 0)) by lia. rewrite length_take. lia.
Qed.

(** X21.  Looking for similar fragments.  [find_similar_fragments] only
    reads the store: no row of the project, fragment, context and anchor
    tables and no stored vector changes (its search may create the
    collection of a project that has none).  When the reference fragment
    is missing, or cannot be read, it raises ValueError.  What it returns
    never contains the reference fragment itself and, for a limit that is
    not negative, never holds more results than the limit. *)
Theorem find_similar_fragments_excludes_the_reference :
  forall (fragment_id : string) (limit : Z) (w : World),
    (fault (tick w) = true \/ fragments w !! fragment_id = None ->
     exists w',
       MemorySearch.find_similar_fragments fragment_id limit w
       = (Raise (ValueError "Fragment not found"), w')
       /\ store_preserved w w')
    /\ forall results w',
         MemorySearch.find_similar_fragments fragment_id limit w
         = (Ok results, w') ->
         store_preserved w w'
         /\ (forall r, r ∈ results ->
               MemoryFragment.id (SearchResult.fragment r) <> fragment_id)
         /\ (0 <= limit -> Z.of_nat (length results) <= limit).
Proof.
  intros fragment_id limit w.
  unfold MemorySearch.find_similar_fragments, bind.
  destruct (Storage.get_fragment fragment_id w) as [r1 w1] eqn:Hget.
  pose proof (reads_get_fragment _ _ _ _ Hget) as Hkeep1.
  assert (Hr1 : r1 = Ok (if fault (tick w) then None
                         else Storage._row_to_fragment
                                <$> fragments w !! fragment_id)).
  { revert Hget.
    cbv [Storage.get_fragment try_except bind sqlite external get_world ret].
    by destruct (fault (tick w)); intros [= <- _]. }
  subst r1. split.
  - intros Hmissing.
    assert ((if fault (tick w) then None
             else Storage._row_to_fragment <$> fragments w !! fragment_id)
            = None) as ->.
    { destruct Hmissing as [->| ->]; [done|by destruct (fault _)]. }
    by exists w1.
  - intros results w'.
    destruct (if fault (tick w) then None
              else Storage._row_to_fragment <$> fragments w !! fragment_id)
      as [fragment|]; [|cbv [raise]; discriminate].
    destruct (Search.search_memory _ _ _ _ w1) as [[grouped|e] w2] eqn:Hsearch;
      [|discriminate].
    apply reads_search_memory in Hsearch.
    cbv [ret]. intros [= <- <-]. split.
    + by eapply store_preserved_trans.
    + split; [|apply list_prefix_length].
      intros r Hr%list_prefix_elem.
      apply list_elem_of_In, filter_In in Hr as [_ Hr].
      apply negb_true_iff in Hr. by apply String.eqb_neq in Hr.
Qed.

End MemoryOps.

Lemma store_fragment_stores_what_it_returns_witness :
  Memory.store_fragment (E := MoreExamples.note_env)
    (C := Examples.default_config) "p1" "  " "user" [] RecallExample.w
  = (Raise (ValueError "Fragment content cannot be empty"), RecallExample.w)
  /\ exists fid w',
       Memory.store_fragment (E := MoreExamples.note_env)
         (C := Examples.default_config) "p1" "buy milk" "user" ["c1"]
         RecallExample.w
       = (Ok fid, w')
       /\ fragments w' !! fid
          = Some (stored_fragment (C := Examples.default_config)
                    "p1" "buy milk" "user" ["c1"] fid).
Proof.
  split.
  - apply (store_fragment_stores_what_it_returns
             (E := MoreExamples.note_env) (C := Examples.default_config)).
    reflexivity.
  - destruct (Memory.store_fragment (E := MoreExamples.note_env)
                (C := Examples.default_config) "p1" "buy milk" "user" ["c1"]
                RecallExample.w) as [r w'] eqn:Hrun.
    pose proof (f_equal fst Hrun) as Hr. vm_compute in Hr. subst r.
    eexists _, w'. split; [reflexivity|].
    destruct (store_fragment_stores_what_it_returns
                (E := MoreExamples.note_env) (C := Examples.default_config)
                "p1" "buy milk" "user" ["c1"] RecallExample.w) as [_ Hok].
    destruct (Hok _ _ Hrun) as (_ & Hins & _).
    rewrite Hins. apply lookup_insert_eq.
Defined.

Lemma delete_fragments_removes_the_listed_rows_witness :
  exists w',
    Storage.delete_fragments (E := RecallExample.E) ["f1"] "p1" RecallExample.w
    = (Ok true, w')
    /\ fragments w' !! "f1" = None
    /\ contexts w' = [RecallExample.c1].
Proof.
  destruct (Storage.delete_fragments (E := RecallExample.E) ["f1"] "p1"
              RecallExample.w) as [r w'] eqn:Hrun.
  pose proof (f_equal fst Hrun) as Hr. vm_compute in Hr. subst r.
  exists w'. split; [reflexivity|].
  destruct (delete_fragments_removes_the_listed_rows
              (E := RecallExample.E) ["f1"] "p1" RecallExample.w w' _ Hrun)
    as (_ & _ & Hc & Hgone & _).
  split; [|exact Hc].
  apply (Hgone eq_refl "f1"). apply list_elem_of_singleton. reflexivity.
Defined.

Lemma add_fragment_to_context_files_once_witness :
  exists w' c',
    MemoryContexts.add_fragment_to_context (E := RecallExample.E)
      "c1" "f2" RecallExample.w
    = (Ok true, w')
    /\ Storage.find_context "c1" (contexts w') = Some c'
    /\ MemoryContext.fragment_ids c' = ["f1"; "f2"].
Proof.
  destruct (add_fragment_to_context_files_once
              (E := RecallExample.E) "c1" "f2" RecallExample.w)
    as (answer & w' & Hrun & _ & _ & Htrue).
  pose proof (f_equal fst Hrun) as Hr. vm_compute in Hr.
  injection Hr as <-.
  destruct (Htrue eq_refl) as (c & c' & Hc & Hc' & _ & _ & Hmembers).
  vm_compute in Hc. injection Hc as <-.
  exists w', c'. split; [exact Hrun|]. split; [exact Hc'|].
  exact Hmembers.
Defined.

Lemma find_similar_fragments_excludes_the_reference_witness :
  exists w',
    MemorySearch.find_similar_fragments (E := RecallExample.E)
      "f1" 5 RecallExample.w
    = (Ok [], w')
    /\ store_preserved RecallExample.w w'.
Proof.
  destruct (MemorySearch.find_similar_fragments (E := RecallExample.E)
              "f1" 5 RecallExample.w) as [r w'] eqn:Hrun.
  pose proof (f_equal fst Hrun) as Hr. vm_compute in Hr. subst r.
  exists w'. split; [reflexivity|].
  destruct (find_similar_fragments_excludes_the_reference
              (E := RecallExample.E) "f1" 5 RecallExample.w) as [_ Hok].
  exact (proj1 (Hok _ _ Hrun)).
Defined.

(** ** Recall middleware and cognitive engine *)

Section Engine.
Context {E : Env} {C : Config} {P : Prompts}.

Lemma reads_get_project project_id : reads (Storage.get_project project_id).
Proof. unfold Storage.get_project, sqlite. repeat reads_step. Qed.

Lemma reads_describe_groups grouped_results :
  reads (MemorySynthesizer.describe_groups grouped_results).
Proof.
  unfold MemorySynthesizer.describe_groups. apply reads_map_m.
  intros [project_id contexts_data].
  apply reads_bind; [apply reads_get_project|]. intros project.
  apply reads_bind; [|intros ?; apply reads_ret].
  apply reads_map_m. intros [context_id srs].
  apply reads_bind; [apply reads_get_context|]. intros ?. apply reads_ret.
Qed.

Lemma reads_legacy_attempt prompt :
  reads (MemorySynthesizer.legacy_attempt prompt).
Proof.
  unfold MemorySynthesizer.legacy_attempt.
  apply reads_bind; [apply reads_generate_content|]. intros ?.
  apply reads_loads.
Qed.

Lemma reads_synthesize_legacy query fragments :
  reads (MemorySynthesizer.synthesize_legacy query fragments).
Proof.
  unfold MemorySynthesizer.synthesize_legacy.
  apply reads_try_except; [apply reads_legacy_attempt|].
  intros ?. apply reads_ret.
Qed.

Lemma reads_contextual_attempt prompt grouped_results :
  reads (MemorySynthesizer.contextual_attempt prompt grouped_results).
Proof.
  unfold MemorySynthesizer.contextual_attempt.
  apply reads_bind; [apply reads_generate_content|]. intros ?.
  apply reads_bind; [apply reads_loads|]. intros synthesis.
  destruct synthesis; first [apply reads_ret | apply reads_raise].
Qed.

Lemma reads_synthesize_contextual query grouped_results :
  reads (MemorySynthesizer.synthesize_contextual true query grouped_results).
Proof.
  unfold MemorySynthesizer.synthesize_contextual.
  apply reads_bind; [apply reads_describe_groups|]. intros described.
  apply reads_try_except; [apply reads_contextual_attempt|].
  intros ?. apply reads_synthesize_legacy.
Qed.

Lemma reads_service_search_memory default query project_ids options :
  reads (MemoryService.search_memory default query project_ids options).
Proof. unfold MemoryService.search_memory. apply reads_search_memory. Qed.

Lemma reads_process_recall default query project_ids raw :
  reads (IntelligentMiddleware.process_recall default query project_ids raw).
Proof.
  unfold IntelligentMiddleware.process_recall.
  apply reads_bind; [apply reads_service_search_memory|]. intros G.
  apply reads_if; [apply reads_ret|].
  apply reads_if; [apply reads_ret|].
  apply reads_bind; [apply reads_synthesize_contextual|]. intros synthesis.
  apply reads_bind; [|intros ?; apply reads_ret].
  unfold IntelligentMiddleware.with_success.
  destruct synthesis; first [apply reads_ret | apply reads_raise].
Qed.

(** *** The groups of a search result are never empty *)

Lemma dict_set_Forall {V} (Q : string * V -> Prop) d k v :
  Forall Q d -> Q (k, v) -> Forall Q (Dict.set d k v).
Proof.
  intros Hd Hkv. induction Hd as [|[k0 x] d Hx Hd IH]; simpl.
  - by constructor.
  - destruct (String.eqb_spec k0 k) as [->|Hne]; constructor; auto.
Qed.

Lemma dict_get_elem {V} (d : list (string * V)) k v :
  Dict.get d k = Some v -> (k, v) ∈ d.
Proof.
  induction d as [|[k0 x] d IH]; simpl; [discriminate|].
  destruct (String.eqb_spec k0 k) as [->|Hne].
  - intros [= ->]. left.
  - intros H. right. by apply IH.
Qed.

Lemma buckets_found sr rs :
  existsb (fun cr : string * list SearchResult.t =>
             match cr.2 with [] => false | _ => true end)
          (foldl Search.bucket [] (sr :: rs)) = true.
Proof.
  apply existsb_exists.
  pose proof (project_groups (sr :: rs) (Search.group_key sr)) as Hget.
  cbn [List.filter] in Hget. rewrite String.eqb_refl in Hget.
  apply dict_get_elem, list_elem_of_In in Hget.
  eexists. split; [exact Hget|]. reflexivity.
Qed.

Lemma add_project_found G p rs :
  Forall (fun pg : string * list (string * list SearchResult.t) =>
            existsb (fun cr => match cr.2 with [] => false | _ => true end)
                    pg.2 = true) G ->
  Forall (fun pg : string * list (string * list SearchResult.t) =>
            existsb (fun cr => match cr.2 with [] => false | _ => true end)
                    pg.2 = true) (Search.add_project G p rs).
Proof.
  intros HG. unfold Search.add_project. destruct rs as [|sr rs]; [done|].
  apply dict_set_Forall; [exact HG|]. apply buckets_found.
Qed.

Lemma search_memory_found query options project_ids default w G w' :
  Search.search_memory query options project_ids default w = (Ok G, w') ->
  IntelligentMiddleware.found_any_results G
  = match G with [] => false | _ => true end.
Proof.
  unfold Search.search_memory. cbv [bind].
  destruct (Search.resolve_targets project_ids default w)
    as [[targets|e] w0]; [|discriminate].
  destruct (EmbeddingService.generate_embedding query w0)
    as [[emb|e] w1]; [|discriminate].
  intros Hloop. apply search_loop in Hloop as (hits & _ & ->).
  assert (Hall : Forall
            (fun pg : string * list (string * list SearchResult.t) =>
               existsb (fun cr => match cr.2 with [] => false | _ => true end)
                       pg.2 = true)
            (foldl (fun g pr => Search.add_project g pr.1 pr.2) []
                   (zip targets hits))).
  { generalize (zip targets hits).
    assert (H0 : Forall
              (fun pg : string * list (string * list SearchResult.t) =>
                 existsb
                   (fun cr => match cr.2 with [] => false | _ => true end)
                   pg.2 = true) []) by constructor.
    revert H0. generalize (@nil (string * list (string * list SearchResult.t))).
    intros G0 H0 l. revert G0 H0.
    induction l as [|[p rs] l IH]; intros G0 H0; [exact H0|].
    cbn [foldl]. apply IH. by apply add_project_found. }
  destruct Hall as [|pg G Hpg _]; [reflexivity|].
  unfold IntelligentMiddleware.found_any_results. cbn [existsb].
  by rewrite Hpg.
Qed.


(** X23.  What [recall] does to the caller and to the store.  When the
    services are not ready it raises RuntimeError("Services not ready")
    with nothing done.  When they are ready it returns a response and
    never raises: an exception of the body becomes the failure response
    that carries it.  A recall changes no row of the project, fragment,
    context and anchor tables and no stored vector: every collection is
    still there with the points it had (a search may have created the
    collection of a project that had none).  When project ids are given
    of which none is in the project table, or the table cannot be listed,
    the response is "No valid project IDs provided." after that one
    listing call, without any search. *)
Theorem recall_answers_and_keeps_every_row :
  forall (default : option string) (query : string)
         (project_ids : Search.project_ids_arg) (raw_fragments : bool)
         (w : World),
    CognitiveEngine.recall false default query project_ids raw_fragments w
    = (Raise (RuntimeError "Services not ready"), w)
    /\ exists response w',
         CognitiveEngine.recall true default query project_ids raw_fragments w
         = (Ok response, w')
         /\ (forall e w1,
               CognitiveEngine.recall_attempt default query project_ids
                                              raw_fragments w
               = (Raise e, w1) ->
               response = RecallResponse.Failed e /\ w' = w1)
         /\ projects w' = projects w
         /\ fragments w' = fragments w
         /\ contexts w' = contexts w
         /\ anchors w' = anchors w
         /\ (forall name points,
               collections w !! name = Some points ->
               collections w' !! name = Some points)
         /\ forall ids,
              (project_ids = Search.Projects ids /\ ids <> []
               \/ project_ids = Search.OneProject (hd "" ids)
                  /\ ids = [hd "" ids] /\ hd "" ids <> "") ->
              (fault (tick w) = true
               \/ forall id, id ∈ ids ->
                    id ∉ List.map Project.id (projects w)) ->
              response = RecallResponse.NoValidProjects
              /\ tick w' = S (tick w).
Proof.
  intros default query project_ids raw w. split; [reflexivity|].
  unfold CognitiveEngine.recall. cbn [negb].
  unfold bind, try_except.
  destruct (CognitiveEngine.recall_attempt default query project_ids raw w)
    as [r w'] eqn:Hrun.
  assert (Hreads : store_preserved w w').
  { revert Hrun. unfold CognitiveEngine.recall_attempt.
    set (ids_to_check := match project_ids with
                         | Search.AllProjects => None
                         | _ => _ end).
    destruct ids_to_check as [ids|].
    - apply reads_bind; [apply reads_list_projects|]. intros all_projects.
      destruct (List.filter _ ids);
        [apply reads_ret|apply reads_process_recall].
    - apply reads_process_recall. }
  exists (match r with Ok a => a | Raise e => RecallResponse.Failed e end), w'.
  split; [by destruct r|].
  split; [by intros e w1 [= -> ->]|].
  destruct Hreads as (Hkp & Hkf & Hkc & Hka & Hkcol).
  do 5 (split; [assumption|]).
  intros ids Hids Hinvalid.
  assert (Hcheck : CognitiveEngine.recall_attempt default query project_ids
                     raw w
                   = (let* all_projects := Storage.list_projects in
                      let valid_id_set : gset string :=
                        list_to_set (List.map Project.id all_projects) in
                      let validated_project_ids :=
                        List.filter
                          (fun pid => bool_decide (pid ∈ valid_id_set)) ids in
                      match validated_project_ids with
                      | [] => ret RecallResponse.NoValidProjects
                      | _ =>
                          IntelligentMiddleware.process_recall default query
                            (Search.Projects validated_project_ids) raw
                      end) w).
  { unfold CognitiveEngine.recall_attempt.
    destruct Hids as [[-> Hne]|(-> & Hone & Hne)].
    - destruct ids; [done|reflexivity].
    - rewrite <- Hone. destruct (hd "" ids); [done|reflexivity]. }
  rewrite Hcheck in Hrun. revert Hrun.
  assert (Hlist : exists ps,
            Storage.list_projects w = (Ok ps, set_tick w (S (tick w)))
            /\ (fault (tick w) = true \/ ps = projects w)
            /\ (fault (tick w) = true -> ps = [])).
  { cbv [bind Storage.list_projects try_except sqlite external get_world ret].
    destruct (fault (tick w)); cbn; eexists; repeat split; auto; congruence. }
  destruct Hlist as (ps & Hlist & Hps & Hfault).
  unfold bind. rewrite Hlist. cbv zeta.
  assert (Hnone : List.filter
            (fun pid => bool_decide
               (pid ∈ (list_to_set (List.map Project.id ps) : gset string)))
            ids = []).
  { clear Hids Hcheck.
    induction ids as [|i ids IH] in Hinvalid |- *; [reflexivity|]. simpl.
    rewrite bool_decide_eq_false_2.
    - apply IH. destruct Hinvalid as [?|Hall]; [by left|right].
      intros id Hid. apply Hall. by right.
    - rewrite elem_of_list_to_set.
      destruct Hinvalid as [Hf|Hall].
      + rewrite (Hfault Hf). apply not_elem_of_nil.
      + destruct Hps as [Hf| ->]; [rewrite (Hfault Hf); apply not_elem_of_nil|].
        apply Hall. left. }
  rewrite Hnone. by intros [= <- <-].
Qed.

(** *** Ingestion through the engine *)

Lemma memory_get_project_spec project_id w :
  exists project,
    Memory.get_project project_id w = (Ok project, set_tick w (S (tick w)))
    /\ (fault (tick w) = true -> project = None)
    /\ (project_id ∉ List.map Project.id (projects w) -> project = None).
Proof.
  cbv [Memory.get_project Storage.get_project bind try_except sqlite external
       get_world ret].
  destruct (fault (tick w)); cbn; eexists; repeat split; auto; try congruence.
  intros Hnot. destruct (List.find _ _) as [p|] eqn:Hfind; [|reflexivity].
  apply find_some in Hfind as [Hin Heq]. apply String.eqb_eq in Heq.
  exfalso. apply Hnot. rewrite <- Heq. apply list_elem_of_In, in_map, Hin.
Qed.

(** X24.  What [remember] answers can be relied on.  When the services
    are not ready it raises RuntimeError("Services not ready") with
    nothing done.  When they are ready it returns a response and never
    raises, and no context of the store is lost.  A project id that is
    not a UUID is refused with the world untouched; a project that is not
    in the project table, or whose lookup fails, is reported as not found
    after that one lookup, with no row or stored vector changed.  A
    success response counts the fragments and contexts the curation
    created and the items of [deleted_ids], every created fragment and
    context is in the store, and every fragment whose id is not named by
    [deleted_ids] is still there unchanged; the value names the texts
    SQLite compares with the id column for its items, which for a list of
    strings are exactly its members. *)
Theorem remember_answers_and_reports_faithfully :
  forall (uuid_parses : string -> bool) (content project_id : string)
         (w : World),
    CognitiveEngine.remember uuid_parses false content project_id w
    = (Raise (RuntimeError "Services not ready"), w)
    /\ (forall ids fid,
          names_fragment (JArr (JStr <$> ids)) fid <-> fid ∈ ids)
    /\ exists response w',
         CognitiveEngine.remember uuid_parses true content project_id w
         = (Ok response, w')
         /\ contexts_kept w w'
         /\ (uuid_parses project_id = false ->
             response = RememberResponse.InvalidProjectId project_id
             /\ w' = w)
         /\ (uuid_parses project_id = true ->
             fault (tick w) = true
             \/ project_id ∉ List.map Project.id (projects w) ->
             response = RememberResponse.ProjectNotFound project_id
             /\ store_preserved w w' /\ tick w' = S (tick w))
         /\ (forall created deleted details,
               response = RememberResponse.Ingested created deleted details ->
               created
               = (length (CurationResult.created_fragment_ids details)
                  + length (CurationResult.created_context_ids details))%nat
               /\ Json.len (CurationResult.deleted_ids details) = Some deleted
               /\ created_fragments_stored
                    project_id (CurationResult.created_fragment_ids details)
                    w'
               /\ created_contexts_stored
                    project_id (CurationResult.created_context_ids details)
                    w'
               /\ forall fid f,
                    ~ names_fragment (CurationResult.deleted_ids details)
                                     fid ->
                    fragments w !! fid = Some f ->
                    fragments w' !! fid = Some f).
Proof.
  intros uuid_parses content project_id w. split; [reflexivity|].
  split; [apply names_fragment_strings|].
  unfold CognitiveEngine.remember, CognitiveEngine.remember_attempt,
    CognitiveEngine._is_valid_uuid.
  cbn [negb]. unfold bind at 1. unfold try_except.
  destruct (uuid_parses project_id) eqn:Huuid; cbn [negb].
  2:{ exists (RememberResponse.InvalidProjectId project_id), w.
      split; [reflexivity|]. split; [apply contexts_kept_refl|].
      repeat split; auto; congruence. }
  destruct (memory_get_project_spec project_id w)
    as (project & Hget & Hfault & Habsent).
  assert (Hkeep : store_preserved w (set_tick w (S (tick w))))
    by apply store_preserved_tick.
  unfold bind at 1. rewrite Hget.
  destruct project as [project|].
  2:{ exists (RememberResponse.ProjectNotFound project_id),
        (set_tick w (S (tick w))).
      split; [reflexivity|].
      split; [by apply contexts_kept_preserved|].
      repeat split; auto; congruence. }
  unfold IntelligentMiddleware.curate_and_chunk, bind.
  destruct (IngestionCurator.curate_and_chunk content project_id
              (set_tick w (S (tick w)))) as [[result|e] w'] eqn:Hrun.
  2:{ exists (RememberResponse.Failed e), w'. split; [reflexivity|].
      split.
      { eapply contexts_kept_trans; [by apply contexts_kept_preserved|].
        by eapply curate_contexts_kept. }
      split; [congruence|]. split; [|congruence].
      intros _ [Hf|Hnot];
        [by specialize (Hfault Hf)|by specialize (Habsent Hnot)]. }
  assert (Hctx : contexts_kept w w').
  { eapply contexts_kept_trans; [by apply contexts_kept_preserved|].
    by eapply curate_contexts_kept. }
  destruct (Json.len (CurationResult.deleted_ids result)) as [deleted|]
    eqn:Hlen.
  2:{ eexists (RememberResponse.Failed _), w'. split; [reflexivity|].
      split; [exact Hctx|]. split; [congruence|]. split; [|congruence].
      intros _ [Hf|Hnot];
        [by specialize (Hfault Hf)|by specialize (Habsent Hnot)]. }
  eexists (RememberResponse.Ingested _ deleted result), w'.
  split; [reflexivity|]. split; [exact Hctx|]. split; [congruence|].
  split.
  { intros _ [Hf|Hnot];
      [by specialize (Hfault Hf)|by specialize (Habsent Hnot)]. }
  intros created deleted' details [= <- <- <-].
  destruct (curate_created_rows _ _ _ _ _ Hrun) as [Hfrag Hcreated].
  repeat split; auto; try apply Hfrag; try apply Hcreated.
  change (fragments_kept_unless
            (names_fragment (CurationResult.deleted_ids result)) w w').
  eapply kept_unless_trans;
    [by apply kept_unless_none, kept_except_preserved|].
  by eapply curate_kept_unless.
Qed.

End Engine.


(** A recall that names only the unknown project "p9", with the services
    ready and not ready. *)
Lemma recall_answers_and_keeps_every_row_witness :
  (exists w',
     CognitiveEngine.recall
       (E := RecallExample.E) (C := Examples.default_config)
       (P := Examples.plain_prompts)
       true None "x" (Search.Projects ["p9"]) false RecallExample.w
     = (Ok RecallResponse.NoValidProjects, w')
     /\ fragments w' = fragments RecallExample.w)
  /\ CognitiveEngine.recall
       (E := RecallExample.E) (C := Examples.default_config)
       (P := Examples.plain_prompts)
       false None "x" (Search.Projects ["p9"]) false RecallExample.w
     = (Raise (RuntimeError "Services not ready"), RecallExample.w).
Proof.
  destruct (recall_answers_and_keeps_every_row
              (E := RecallExample.E) (C := Examples.default_config)
              (P := Examples.plain_prompts)
              None "x" (Search.Projects ["p9"]) false RecallExample.w)
    as (Hnot_ready & response & w' & Hrun & _ & _ & Hfragments & _ & _ & _
        & Hinvalid).
  split; [|exact Hnot_ready].
  destruct (Hinvalid ["p9"]) as [-> _].
  - left. split; [reflexivity|discriminate].
  - right. intros id Hid. vm_compute. intros Hin.
    apply list_elem_of_singleton in Hid. subst id.
    by repeat (apply elem_of_cons in Hin as [Hin|Hin];
               [discriminate|]); apply elem_of_nil in Hin.
  - exists w'. by split.
Defined.

(** Remembering "x" in project "p1" when the decision deletes "f1" and 3:
    the response counts two deleted items, "f1" is gone and "f2" is
    kept. *)
Lemma remember_answers_and_reports_faithfully_witness :
  exists details w',
    CognitiveEngine.remember
      (E := MoreExamples.mixed_env) (C := Examples.default_config)
      (P := Examples.plain_prompts)
      (fun _ => true) true "x" "p1" MoreExamples.two_fragments
    = (Ok (RememberResponse.Ingested 0 2 details), w')
    /\ fragments w' !! "f1" = None
    /\ fragments w' !! "f2" = Some MoreExamples.f2.
Proof.
  destruct (remember_answers_and_reports_faithfully
              (E := MoreExamples.mixed_env) (C := Examples.default_config)
              (P := Examples.plain_prompts)
              (fun _ => true) "x" "p1" MoreExamples.two_fragments)
    as (_ & _ & response & w' & Hrun & _ & _ & _ & Hingested).
  pose proof (f_equal fst Hrun) as Hr. cbn [fst] in Hr. vm_compute in Hr.
  injection Hr as Hr. subst response.
  assert (Hgone :
    fragments
      (CognitiveEngine.remember
         (E := MoreExamples.mixed_env) (C := Examples.default_config)
         (P := Examples.plain_prompts)
         (fun _ => true) true "x" "p1" MoreExamples.two_fragments).2
      !! "f1" = None) by (vm_compute; reflexivity).
  rewrite Hrun in Hgone.
  eexists _, w'. split; [exact Hrun|]. split; [exact Hgone|].
  destruct (Hingested _ _ _ eq_refl) as (_ & _ & _ & _ & Hkept).
  apply Hkept; [|reflexivity].
  intros (items & item & n & Hiter & Hin & Hbind).
  injection Hiter as <-.
  apply elem_of_cons in Hin as [->|Hin]; [discriminate Hbind|].
  apply list_elem_of_singleton in Hin as ->. vm_compute in Hbind.
  discriminate Hbind.
Defined.

(** ** What a synthesis response carries *)

(** A dictionary updated with the items of another holds, under each key,
    the last value the other binds it to, and its own value for the keys
    the other does not bind. *)
Lemma dict_update_get {V} (init fields : list (string * V)) k :
  Dict.get (foldl (fun d kv => Dict.set d kv.1 kv.2) init fields) k
  = match Dict.get (rev fields) k with
    | Some v => Some v
    | None => Dict.get init k
    end.
Proof.
  induction fields as [|[k0 v0] fields IH] using rev_ind; [reflexivity|].
  rewrite foldl_app, rev_app_distr. cbn [foldl rev app Dict.get fst snd].
  destruct (String.eqb_spec k0 k) as [->|Hne].
  - apply dict_get_set_eq.
  - by rewrite dict_get_set_ne.
Qed.

Lemma setdefault_keys (d : list (string * unit)) k :
  (Dict.setdefault d k tt).*1
  = if bool_decide (k ∈ d.*1) then d.*1 else d.*1 ++ [k].
Proof.
  unfold Dict.setdefault, Dict.mem.
  destruct (Dict.get d k) as [v|] eqn:Hget.
  - rewrite bool_decide_eq_true_2; [reflexivity|].
    destruct (decide (k ∈ d.*1)) as [|Hnot]; [done|].
    apply dict_get_None in Hnot. congruence.
  - rewrite bool_decide_eq_false_2 by by apply dict_get_None.
    rewrite dict_set_absent by done. by rewrite fmap_app.
Qed.

Lemma setdefault_fold_keys ids :
  forall d : list (string * unit),
    NoDup d.*1 ->
    NoDup (foldl (fun info cid => Dict.setdefault info cid tt) d ids).*1
    /\ (list_to_set
          (foldl (fun info cid => Dict.setdefault info cid tt) d ids).*1
        : gset string)
       = list_to_set d.*1 ∪ list_to_set ids.
Proof.
  induction ids as [|i ids IH]; intros d Hd; cbn [foldl].
  - split; [exact Hd|]. by rewrite list_to_set_nil, (right_id_L ∅ (∪)).
  - assert (Hstep : NoDup (Dict.setdefault d i tt).*1
                    /\ (list_to_set (Dict.setdefault d i tt).*1 : gset string)
                       = list_to_set d.*1 ∪ {[i]}).
    { rewrite setdefault_keys. case_bool_decide as Hin.
      - split; [exact Hd|].
        symmetry. rewrite (comm_L (∪)). apply subseteq_union_1_L.
        by apply singleton_subseteq_l, elem_of_list_to_set.
      - split.
        + apply NoDup_app. split; [exact Hd|]. split.
          * intros x Hx ->%list_elem_of_singleton. done.
          * apply NoDup_singleton.
        + rewrite list_to_set_app_L. cbn [list_to_set].
          by rewrite (right_id_L ∅ (∪)). }
    destruct Hstep as [Hnd Hset].
    destruct (IH _ Hnd) as [Hnd' Hset']. split; [exact Hnd'|].
    rewrite Hset', Hset. cbn [list_to_set]. by rewrite (assoc_L (∪)).
Qed.

Lemma all_contexts_info_length grouped_results :
  length (MemorySynthesizer.all_contexts_info grouped_results)
  = size (list_to_set
            (List.concat
               (List.map (fun pd : string * list (string * list SearchResult.t)
                          => List.map fst pd.2) grouped_results))
          : gset string).
Proof.
  unfold MemorySynthesizer.all_contexts_info.
  destruct (setdefault_fold_keys
              (List.concat
                 (List.map (fun pd : string * list (string * list SearchResult.t)
                            => List.map fst pd.2) grouped_results))
              [] (NoDup_nil_2)) as [Hnd Hset].
  rewrite <- (length_fmap fst).
  rewrite <- (size_list_to_set (C := gset string)) by exact Hnd.
  rewrite Hset. cbn [fmap list_fmap list_to_set].
  by rewrite (left_id_L ∅ (∪)).
Qed.

Section SynthesisMore.
Context {E : Env} {C : Config} {P : Prompts}.

(** X25.  A contextual synthesis that succeeds is the provider's answer
    with three tags put on it: its type is "contextual", [projects_used]
    is the number of projects in the grouping, and [contexts_used] is the
    number of distinct context ids in it, a context that appears under
    several projects being counted once.  Every other key holds what the
    provider's answer held. *)
Theorem contextual_synthesis_is_the_tagged_answer :
  forall (prompt : string)
         (grouped_results : list (string * list (string * list SearchResult.t)))
         (w w' : World) (synthesis : json),
    MemorySynthesizer.contextual_attempt prompt grouped_results w
    = (Ok synthesis, w') ->
    exists text answer fields,
      Gemini.generate_content prompt w = (Ok text, w')
      /\ json_loads (Gemini._extract_json (Py.strip text)) = Ok (JObj answer)
      /\ synthesis = JObj fields
      /\ Dict.get fields "synthesis_type" = Some (JStr "contextual")
      /\ Dict.get fields "projects_used"
         = Some (JNum (inject_Z (Z.of_nat (length grouped_results))))
      /\ Dict.get fields "contexts_used"
         = Some (JNum (inject_Z (Z.of_nat
              (size (list_to_set
                       (List.concat
                          (List.map
                             (fun pd : string
                                       * list (string * list SearchResult.t)
                              => List.map fst pd.2) grouped_results))
                     : gset string)))))
      /\ forall k,
           k <> "synthesis_type" -> k <> "projects_used" ->
           k <> "contexts_used" ->
           Dict.get fields k = Dict.get answer k.
Proof.
  intros prompt grouped_results w w' synthesis.
  unfold MemorySynthesizer.contextual_attempt, bind.
  destruct (Gemini.generate_content prompt w) as [[text|e] w1]; [|discriminate].
  unfold Gemini.loads.
  destruct (json_loads _) as [[| | | | |answer]|e] eqn:Hloads;
    try discriminate.
  cbv [ret]. intros [= <- <-].
  eexists text, answer, _. split; [reflexivity|]. split; [exact Hloads|].
  split; [reflexivity|].
  rewrite <- all_contexts_info_length.
  split; [|split; [|split]].
  - rewrite !dict_get_set_ne by discriminate. apply dict_get_set_eq.
  - rewrite dict_get_set_ne by discriminate. apply dict_get_set_eq.
  - apply dict_get_set_eq.
  - intros k H1 H2 H3. by rewrite !dict_get_set_ne.
Qed.

(** X26.  What a recall that found hits answers when a synthesis is asked
    for.  The synthesizer always returns a value.  When that value is a
    dictionary the response is that dictionary with "success": True put in
    front: every key keeps the synthesis's value, so a "success" key of the
    synthesis overrides the flag, which is True only when the synthesis has
    no such key.  When the value is not a dictionary the merge raises
    TypeError.  The world is as the synthesizer left it. *)
Theorem recall_synthesis_response_is_the_synthesis :
  forall (default : option string) (query : string)
         (project_ids : Search.project_ids_arg) (w w1 : World) G,
    MemoryService.search_memory default query project_ids None w
    = (Ok G, w1) ->
    G <> [] ->
    exists synthesis w',
      MemorySynthesizer.synthesize_contextual true query G w1
      = (Ok synthesis, w')
      /\ match synthesis with
         | JObj fields =>
             exists response,
               IntelligentMiddleware.process_recall default query project_ids
                                                    false w
               = (Ok (RecallResponse.Synthesis response), w')
               /\ forall k,
                    Dict.get response k
                    = match Dict.get (rev fields) k with
                      | Some v => Some v
                      | None => if String.eqb k "success"
                                then Some (JBool true) else None
                      end
         | _ =>
             IntelligentMiddleware.process_recall default query project_ids
                                                  false w
             = (Raise (TypeError "argument after ** must be a mapping"), w')
         end.
Proof.
  intros default query project_ids w w1 G Hsearch HG.
  pose proof (search_memory_found _ _ _ _ _ _ _ Hsearch) as Hfound.
  assert (Htotal : exists synthesis w',
            MemorySynthesizer.synthesize_contextual true query G w1
            = (Ok synthesis, w')).
  { unfold MemorySynthesizer.synthesize_contextual. cbv [bind try_except].
    destruct (describe_groups_total G w1) as (d & w2 & ->).
    destruct (MemorySynthesizer.contextual_attempt _ _ w2) as [[j|e] w3];
      [eauto|].
    apply synthesize_legacy_total. }
  destruct Htotal as (synthesis & w' & Hsyn). exists synthesis, w'.
  split; [exact Hsyn|].
  unfold IntelligentMiddleware.process_recall, bind.
  rewrite Hsearch, Hfound. destruct G as [|pg G]; [done|]. cbn [negb].
  rewrite Hsyn. unfold IntelligentMiddleware.with_success.
  destruct synthesis as [| | | | |fields]; try reflexivity.
  eexists. split; [reflexivity|]. intros k. rewrite dict_update_get.
  cbn [Dict.get]. by rewrite String.eqb_sym.
Qed.

End SynthesisMore.

Lemma contextual_synthesis_is_the_tagged_answer_witness :
  exists fields w',
    MemorySynthesizer.contextual_attempt
      (E := MoreExamples.note_env)
      "q" [("p1", [("c1", [RecallExample.hit])])] RecallExample.w
    = (Ok (JObj fields), w')
    /\ Dict.get fields "synthesis_type" = Some (JStr "contextual").
Proof.
  destruct (MemorySynthesizer.contextual_attempt
              (E := MoreExamples.note_env)
              "q" [("p1", [("c1", [RecallExample.hit])])] RecallExample.w)
    as [r w'] eqn:Hrun.
  pose proof (f_equal fst Hrun) as Hr. vm_compute in Hr. subst r.
  destruct (contextual_synthesis_is_the_tagged_answer
              (E := MoreExamples.note_env) _ _ _ _ _ Hrun)
    as (text & answer & fields & _ & _ & Heq & Htype & _).
  exists fields, w'. split; [by rewrite Heq|exact Htype].
Defined.

Lemma recall_synthesis_response_is_the_synthesis_witness :
  exists response w',
    IntelligentMiddleware.process_recall
      (E := MoreExamples.note_env) (C := Examples.default_config)
      (P := Examples.plain_prompts)
      None "x" (Search.Projects ["p1"]) false RecallExample.w
    = (Ok (RecallResponse.Synthesis response), w')
    /\ Dict.get response "success" = Some (JBool true).
Proof.
  eassert (Hsearch : MemoryService.search_memory
                       (E := MoreExamples.note_env)
                       (C := Examples.default_config)
                       None "x" (Search.Projects ["p1"]) None RecallExample.w
                     = (Ok (_ :: _), _)) by (vm_compute; reflexivity).
  destruct (recall_synthesis_response_is_the_synthesis
              (E := MoreExamples.note_env) (C := Examples.default_config)
              (P := Examples.plain_prompts)
              None "x" (Search.Projects ["p1"]) RecallExample.w _ _ Hsearch)
    as (synthesis & w' & Hsyn & Hresponse); [discriminate|].
  pose proof (f_equal fst Hsyn) as Hs. cbn [fst] in Hs. vm_compute in Hs.
  injection Hs as Hs. subst synthesis.
  destruct Hresponse as (response & Hrun & Hkeys).
  exists response, w'. split; [exact Hrun|]. rewrite Hkeys. reflexivity.
Defined.

(** ** The embedding service and its cache *)

Section EmbeddingServiceProperties.
Variable md5_hexdigest : string -> string.
Variable model : string.
Variable dimension : Z.
Variable clock : nat -> Z.

Abbreviation key_of text :=
  (EmbeddingCache._generate_key md5_hexdigest text model).
Abbreviation generate provider :=
  (CachedEmbeddingService.generate_embedding md5_hexdigest model provider
                                             clock).

(** A call for a text whose key is in both dictionaries of the cache. *)
Lemma generate_embedding_cached provider text s e stamp :
  negb (Py.truthy text) || negb (Py.truthy (Py.strip text)) = false ->
  EmbeddingCache._cache (CachedEmbeddingService.cache s) !! key_of text
  = Some e ->
  EmbeddingCache._timestamps (CachedEmbeddingService.cache s) !! key_of text
  = Some stamp ->
  generate provider text s
  = if bool_decide
         (clock (CachedEmbeddingService.clock_reads s) - stamp
          < EmbeddingCache.ttl (CachedEmbeddingService.cache s))
    then (CachedEmbeddingService.Embedded e,
          CachedEmbeddingService.mk
            (CachedEmbeddingService.cache s)
            (S (CachedEmbeddingService.clock_reads s))
            (CachedEmbeddingService.provider_calls s)
            (CachedEmbeddingService.sleeps s))
    else
      let s1 :=
        CachedEmbeddingService.mk
          (EmbeddingCache._remove (CachedEmbeddingService.cache s)
                                  (key_of text))
          (S (CachedEmbeddingService.clock_reads s))
          (S (CachedEmbeddingService.provider_calls s))
          (CachedEmbeddingService.sleeps s) in
      match provider (CachedEmbeddingService.provider_calls s) text with
      | Some e' =>
          (CachedEmbeddingService.Embedded e',
           CachedEmbeddingService.cache_set md5_hexdigest model clock text e'
                                            s1)
      | None => (CachedEmbeddingService.ProviderFailed, s1)
      end.
Proof.
  intros Hblank Hc Ht.
  unfold CachedEmbeddingService.generate_embedding,
    CachedEmbeddingService.cache_get, EmbeddingCache.get,
    EmbeddingCache._is_valid.
  rewrite Hblank, Hc, Ht.
  rewrite !bool_decide_eq_true_2 by eauto. cbn [andb].
  case_bool_decide; [reflexivity|]. cbn.
  by destruct (provider _ text).
Qed.

(** An embedding that was returned is in the cache, with a time stamp. *)
Lemma generate_embedding_caches provider text s e s1 :
  generate provider text s = (CachedEmbeddingService.Embedded e, s1) ->
  negb (Py.truthy text) || negb (Py.truthy (Py.strip text)) = false
  /\ EmbeddingCache._cache (CachedEmbeddingService.cache s1) !! key_of text
     = Some e
  /\ is_Some (EmbeddingCache._timestamps (CachedEmbeddingService.cache s1)
              !! key_of text).
Proof.
  unfold CachedEmbeddingService.generate_embedding,
    CachedEmbeddingService.cache_get, EmbeddingCache.get,
    EmbeddingCache._is_valid.
  destruct (negb (Py.truthy text) || negb (Py.truthy (Py.strip text)));
    [discriminate|].
  destruct (EmbeddingCache._cache _ !! key_of text) as [v|] eqn:Hv.
  - rewrite bool_decide_eq_true_2 by eauto. cbn [andb].
    destruct (EmbeddingCache._timestamps _ !! key_of text) as [stamp|] eqn:Ht.
    + case_bool_decide as Hage; cbn.
      * intros [= <- <-]. cbn. rewrite Hv, Ht. eauto.
      * destruct (provider _ text) as [e'|]; [|discriminate].
        intros [= <- <-]. cbn. rewrite !lookup_insert_eq. eauto.
    + cbn. destruct (provider _ text) as [e'|]; [|discriminate].
      intros [= <- <-]. cbn. rewrite !lookup_insert_eq. eauto.
  - rewrite bool_decide_eq_false_2 by (by intros [? ?]). cbn.
    destruct (provider _ text) as [e'|]; [|discriminate].
    intros [= <- <-]. cbn. rewrite !lookup_insert_eq. eauto.
Qed.

(** X27.  An embedding is served from the cache while it is fresh.  After
    a call of [generate_embedding] that returned an embedding, the
    embedding is in the cache under the text's key, with a time stamp.  A
    second call for the text, made while the entry is younger than the
    time to live, returns the same embedding without calling the provider,
    whatever the provider would answer, and changes nothing but the count
    of clock readings.  Made once the entry has reached the time to live,
    it calls the provider once and answers with what the provider
    answers. *)
Theorem fresh_embedding_is_served_from_the_cache :
  forall (provider : nat -> string -> option EmbeddingCache.vector)
         (text : string) (s s1 : CachedEmbeddingService.state)
         (e : EmbeddingCache.vector),
    generate provider text s = (CachedEmbeddingService.Embedded e, s1) ->
    exists stamp,
      EmbeddingCache._cache (CachedEmbeddingService.cache s1) !! key_of text
      = Some e
      /\ EmbeddingCache._timestamps (CachedEmbeddingService.cache s1)
         !! key_of text = Some stamp
      /\ (clock (CachedEmbeddingService.clock_reads s1) - stamp
          < EmbeddingCache.ttl (CachedEmbeddingService.cache s1) ->
          forall provider',
            generate provider' text s1
            = (CachedEmbeddingService.Embedded e,
               CachedEmbeddingService.mk
                 (CachedEmbeddingService.cache s1)
                 (S (CachedEmbeddingService.clock_reads s1))
                 (CachedEmbeddingService.provider_calls s1)
                 (CachedEmbeddingService.sleeps s1)))
      /\ (EmbeddingCache.ttl (CachedEmbeddingService.cache s1)
          <= clock (CachedEmbeddingService.clock_reads s1) - stamp ->
          forall provider',
            exists s2,
              generate provider' text s1
              = (match provider' (CachedEmbeddingService.provider_calls s1)
                                 text with
                 | Some e' => CachedEmbeddingService.Embedded e'
                 | None => CachedEmbeddingService.ProviderFailed
                 end, s2)
              /\ CachedEmbeddingService.provider_calls s2
                 = S (CachedEmbeddingService.provider_calls s1)).
Proof.
  intros provider text s s1 e Hrun.
  apply generate_embedding_caches in Hrun as (Hblank & Hc & [stamp Ht]).
  exists stamp. split; [exact Hc|]. split; [exact Ht|]. split.
  - intros Hfresh provider'.
    rewrite (generate_embedding_cached provider' text s1 e stamp) by done.
    by rewrite bool_decide_eq_true_2.
  - intros Hold provider'.
    rewrite (generate_embedding_cached provider' text s1 e stamp) by done.
    rewrite bool_decide_eq_false_2 by lia. cbv zeta.
    destruct (provider' _ text); eexists; split; reflexivity.
Qed.

Abbreviation batch_step provider :=
  (CachedEmbeddingService.batch_step md5_hexdigest model dimension provider
                                     clock).
Abbreviation batch_loop provider :=
  (CachedEmbeddingService.batch_loop md5_hexdigest model dimension provider
                                     clock).
Abbreviation zero := (CachedEmbeddingService.zero_vector dimension).

Lemma generate_embedding_blank provider text s :
  negb (Py.truthy text) || negb (Py.truthy (Py.strip text)) = true ->
  generate provider text s = (CachedEmbeddingService.EmptyText, s).
Proof.
  intros H. unfold CachedEmbeddingService.generate_embedding. by rewrite H.
Qed.

Lemma generate_embedding_succeeds provider text s :
  (forall n t, is_Some (provider n t)) ->
  negb (Py.truthy text) || negb (Py.truthy (Py.strip text)) = false ->
  exists e s1, generate provider text s
               = (CachedEmbeddingService.Embedded e, s1).
Proof.
  intros Hp Hblank. unfold CachedEmbeddingService.generate_embedding.
  rewrite Hblank.
  destruct (CachedEmbeddingService.cache_get _ _ _ _ _) as [[cached|] s0];
    [eauto|].
  destruct (Hp (CachedEmbeddingService.provider_calls s0) text) as [e ->].
  eauto.
Qed.

(** One turn appends one vector when [batch_size] is not 0: the zero
    vector for a blank text. *)
Lemma batch_step_one provider batch_size i text embeddings s :
  batch_size <> 0 ->
  exists v,
    (batch_step provider batch_size i text embeddings s).1
    = embeddings ++ [v]
    /\ (negb (Py.truthy text) || negb (Py.truthy (Py.strip text)) = true ->
        v = zero).
Proof.
  intros Hbs. unfold CachedEmbeddingService.batch_step.
  destruct (negb (Py.truthy text) || negb (Py.truthy (Py.strip text)))
    eqn:Hblank.
  - rewrite generate_embedding_blank by done. by exists zero.
  - destruct (generate provider text s) as [[e| |] s1].
    + exists e. split; [|done].
      destruct (0 <? i); [|reflexivity].
      rewrite (proj2 (Z.eqb_neq _ _) Hbs).
      by destruct (i mod batch_size =? 0).
    + by exists zero.
    + by exists zero.
Qed.

Lemma batch_loop_one_each provider batch_size texts :
  batch_size <> 0 ->
  forall i embeddings s,
    exists vs,
      (batch_loop provider batch_size i texts embeddings s).1
      = embeddings ++ vs
      /\ length vs = length texts
      /\ forall (j : nat) text,
           texts !! j = Some text ->
           negb (Py.truthy text) || negb (Py.truthy (Py.strip text)) = true ->
           vs !! j = Some zero.
Proof.
  intros Hbs. induction texts as [|text texts IH]; intros i embeddings s.
  - exists []. cbn. rewrite app_nil_r. repeat split; auto. intros j t.
    by rewrite lookup_nil.
  - cbn [CachedEmbeddingService.batch_loop].
    destruct (batch_step_one provider batch_size i text embeddings s Hbs)
      as (v & Hstep & Hv).
    destruct (batch_step provider batch_size i text embeddings s)
      as [embeddings1 s1]. cbn [fst] in Hstep. subst embeddings1.
    destruct (IH (i + 1) (embeddings ++ [v]) s1) as (vs & Hrun & Hlen & Hvs).
    exists (v :: vs). rewrite Hrun, <- app_assoc. split; [reflexivity|].
    split; [cbn; by rewrite Hlen|].
    intros [|j] t; cbn.
    + intros [= ->] Hblank. by rewrite Hv.
    + apply Hvs.
Qed.

(** The vector a turn appends for a text: the embedding, or the zero
    vector when [generate_embedding] raises. *)
Abbreviation vector_or_zero result :=
  (match result with
   | CachedEmbeddingService.Embedded embedding => embedding
   | _ => zero
   end).

(** The state a turn at index [i] leaves: that of [generate_embedding],
    after a sleep when an embedding came back at a later multiple of
    [batch_size]. *)
Abbreviation after_turn provider batch_size i text s :=
  (match generate provider text s with
   | (CachedEmbeddingService.Embedded _, s1) =>
       if (0 <? i) && (i mod batch_size =? 0)
       then CachedEmbeddingService.mk
              (CachedEmbeddingService.cache s1)
              (CachedEmbeddingService.clock_reads s1)
              (CachedEmbeddingService.provider_calls s1)
              (S (CachedEmbeddingService.sleeps s1))
       else s1
   | (_, s1) => s1
   end).

Lemma batch_step_turn provider batch_size i text embeddings s :
  batch_size <> 0 ->
  batch_step provider batch_size i text embeddings s
  = (embeddings ++ [vector_or_zero (generate provider text s).1],
     after_turn provider batch_size i text s).
Proof.
  intros Hbs. unfold CachedEmbeddingService.batch_step.
  destruct (generate provider text s) as [[e| |] s1]; cbn [fst];
    try reflexivity.
  destruct (0 <? i); [|reflexivity]. cbn [andb].
  rewrite (proj2 (Z.eqb_neq _ _) Hbs).
  by destruct (i mod batch_size =? 0).
Qed.

Lemma batch_loop_turns provider batch_size texts :
  batch_size <> 0 ->
  forall i embeddings s,
    exists vs states,
      (batch_loop provider batch_size i texts embeddings s).1
      = embeddings ++ vs
      /\ length vs = length texts
      /\ length states = length texts
      /\ (forall s0, states !! 0%nat = Some s0 -> s0 = s)
      /\ forall (j : nat) text sj,
           texts !! j = Some text -> states !! j = Some sj ->
           vs !! j = Some (vector_or_zero (generate provider text sj).1)
           /\ forall sj',
                states !! S j = Some sj' ->
                sj' = after_turn provider batch_size (i + Z.of_nat j) text sj.
Proof.
  intros Hbs. induction texts as [|text texts IH]; intros i embeddings s.
  - exists [], []. rewrite app_nil_r. repeat split; auto.
    + intros s0. by rewrite lookup_nil.
    + revert H. by rewrite lookup_nil.
    + revert H. by rewrite lookup_nil.
  - cbn [CachedEmbeddingService.batch_loop].
    rewrite (batch_step_turn provider batch_size i text embeddings s Hbs).
    destruct (IH (i + 1)
                 (embeddings
                    ++ [vector_or_zero (generate provider text s).1])
                 (after_turn provider batch_size i text s))
      as (vs & states & Hrun & Hlen & Hslen & Hhead & Hturns).
    exists (vector_or_zero (generate provider text s).1 :: vs), (s :: states).
    rewrite Hrun, <- app_assoc. split; [reflexivity|].
    split; [cbn; by rewrite Hlen|]. split; [cbn; by rewrite Hslen|].
    split; [by intros s0 [= <-]|].
    intros [|j] t sj; cbn [lookup list_lookup].
    + intros [= <-] [= <-]. split; [reflexivity|].
      intros sj' Hsj'. rewrite Z.add_0_r. by apply Hhead.
    + intros Ht Hsj. destruct (Hturns j t sj Ht Hsj) as [Hv Hnext].
      split; [exact Hv|]. intros sj' Hsj'.
      replace (i + Z.of_nat (S j)) with (i + 1 + Z.of_nat j) by lia.
      by apply Hnext.
Qed.

(** With [batch_size] 0 a turn appends one or two vectors; at a positive
    index it appends two when the embedding is generated. *)
Lemma batch_step_zero provider i text embeddings s :
  (length embeddings + 1
   <= length (batch_step provider 0 i text embeddings s).1
   <= length embeddings + (if (0 <? i)%Z then 2 else 1))%nat
  /\ ((forall n t, is_Some (provider n t)) ->
      negb (Py.truthy text) || negb (Py.truthy (Py.strip text)) = false ->
      length (batch_step provider 0 i text embeddings s).1
      = (length embeddings + (if (0 <? i)%Z then 2 else 1))%nat).
Proof.
  unfold CachedEmbeddingService.batch_step. split.
  - destruct (generate provider text s) as [[e| |] s1];
      destruct (0 <? i); cbn; rewrite ?length_app; cbn; lia.
  - intros Hp Hblank.
    destruct (generate_embedding_succeeds provider text s Hp Hblank)
      as (e & s1 & ->).
    destruct (0 <? i); cbn; rewrite ?length_app; cbn; lia.
Qed.

Lemma batch_loop_zero provider texts :
  forall i embeddings s,
    0 < i ->
    (length embeddings + length texts
     <= length (batch_loop provider 0 i texts embeddings s).1
     <= length embeddings + 2 * length texts)%nat
    /\ ((forall n t, is_Some (provider n t)) ->
        Forall (fun text =>
                  negb (Py.truthy text) || negb (Py.truthy (Py.strip text))
                  = false) texts ->
        length (batch_loop provider 0 i texts embeddings s).1
        = (length embeddings + 2 * length texts)%nat).
Proof.
  induction texts as [|text texts IH]; intros i embeddings s Hi.
  - cbn. split; [lia|]. intros _ _. lia.
  - cbn [CachedEmbeddingService.batch_loop].
    destruct (batch_step_zero provider i text embeddings s) as [Hb He].
    destruct (batch_step provider 0 i text embeddings s)
      as [embeddings1 s1]. cbn [fst] in Hb, He.
    rewrite (proj2 (Z.ltb_lt 0 i) Hi) in Hb, He.
    destruct (IH (i + 1) embeddings1 s1 ltac:(lia)) as [Hb' He'].
    change (length (text :: texts)) with (S (length texts)).
    split; [lia|].
    intros Hp Hall. apply Forall_cons in Hall as [Hblank Hall].
    rewrite (He' Hp Hall), (He Hp Hblank). lia.
Qed.

(** X28.  What [batch_embeddings] returns.  With a batch size other than
    0 it returns one vector per text, in order: the vector at each
    position is the embedding that [generate_embedding] gives for the text
    at that position, in the state of the service that the texts before it
    left, or the zero vector when that call raises; the vector of a blank
    text is the zero vector.  The first text is embedded in the state the
    call started in, and each turn leaves the state of its
    [generate_embedding], after one more sleep when an embedding came back
    at a position that is a multiple of the batch size other than the
    first.  With a batch size of 0 the division raised at every later text
    lands in the handler after the embedding is appended, so a zero vector
    follows it: the result holds at least as many vectors as there are
    texts and at most twice as many less one, and exactly that many when
    no text is blank and the provider always answers. *)
Theorem batch_embeddings_one_vector_per_text_unless_batch_size_is_zero :
  forall (provider : nat -> string -> option EmbeddingCache.vector)
         (texts : list string) (batch_size : Z)
         (s : CachedEmbeddingService.state),
    let embeddings :=
      (CachedEmbeddingService.batch_embeddings
         md5_hexdigest model dimension provider clock texts batch_size s).1 in
    (batch_size <> 0 ->
     length embeddings = length texts
     /\ (forall (j : nat) text,
           texts !! j = Some text ->
           negb (Py.truthy text) || negb (Py.truthy (Py.strip text)) = true ->
           embeddings !! j = Some zero)
     /\ exists states : list CachedEmbeddingService.state,
          length states = length texts
          /\ (forall s0, states !! 0%nat = Some s0 -> s0 = s)
          /\ forall (j : nat) text sj,
               texts !! j = Some text -> states !! j = Some sj ->
               embeddings !! j
               = Some (match (generate provider text sj).1 with
                       | CachedEmbeddingService.Embedded embedding =>
                           embedding
                       | _ => zero
                       end)
               /\ forall sj',
                    states !! S j = Some sj' ->
                    sj'
                    = match generate provider text sj with
                      | (CachedEmbeddingService.Embedded _, s1) =>
                          if (0 <? Z.of_nat j)
                             && (Z.of_nat j mod batch_size =? 0)
                          then CachedEmbeddingService.mk
                                 (CachedEmbeddingService.cache s1)
                                 (CachedEmbeddingService.clock_reads s1)
                                 (CachedEmbeddingService.provider_calls s1)
                                 (S (CachedEmbeddingService.sleeps s1))
                          else s1
                      | (_, s1) => s1
                      end)
    /\ (batch_size = 0 ->
        (length texts <= length embeddings <= 2 * length texts - 1)%nat
        /\ ((forall n t, is_Some (provider n t)) ->
            Forall (fun text =>
                      negb (Py.truthy text)
                      || negb (Py.truthy (Py.strip text)) = false) texts ->
            length embeddings = (2 * length texts - 1)%nat)).
Proof.
  intros provider texts batch_size s embeddings. subst embeddings.
  unfold CachedEmbeddingService.batch_embeddings. split.
  - intros Hbs.
    destruct (batch_loop_one_each provider batch_size texts Hbs 0 [] s)
      as (vs & Hrun & Hlen & Hvs).
    destruct (batch_loop_turns provider batch_size texts Hbs 0 [] s)
      as (vs' & states & Hrun' & _ & Hslen & Hhead & Hturns).
    assert (vs' = vs) as ->
      by (rewrite Hrun in Hrun'; cbn [app] in Hrun'; congruence).
    destruct texts as [|text texts].
    + cbn. split; [reflexivity|]. split.
      { intros j t. by rewrite lookup_nil. }
      exists []. split; [reflexivity|]. split.
      { intros s0. by rewrite lookup_nil. }
      intros j t sj. by rewrite lookup_nil.
    + rewrite Hrun. cbn [app]. split; [exact Hlen|]. split; [exact Hvs|].
      exists states. split; [exact Hslen|]. split; [exact Hhead|].
      intros j t sj Ht Hsj. destruct (Hturns j t sj Ht Hsj) as [Hv Hnext].
      split; [exact Hv|]. intros sj' Hsj'.
      rewrite (Hnext sj' Hsj'). by rewrite Z.add_0_l.
  - intros ->. destruct texts as [|text texts].
    + cbn. split; [lia|]. intros _ _. reflexivity.
    + cbn [CachedEmbeddingService.batch_loop].
      destruct (batch_step_zero provider 0 text [] s) as [Hb He].
      destruct (batch_step provider 0 0 text [] s) as [embeddings1 s1].
      cbn [fst length] in Hb, He. change (0 <? 0) with false in Hb, He.
      destruct (batch_loop_zero provider texts (0 + 1) embeddings1 s1
                  ltac:(lia)) as [Hb' He'].
      cbv iota in Hb, He.
      change (length (text :: texts)) with (S (length texts)).
      split; [lia|].
      intros Hp Hall. apply Forall_cons in Hall as [Hblank Hall].
      rewrite (He' Hp Hall), (He Hp Hblank). lia.
Qed.

End EmbeddingServiceProperties.

(** A text embedded at midnight is served from a day-long cache an hour
    later, whatever the provider would then answer. *)
Lemma fresh_embedding_is_served_from_the_cache_witness :
  let clock :=
    fun n : nat => Z.of_nat n * EmbeddingCache.microseconds_per_hour in
  let provider := fun (_ : nat) (_ : string) => Some [1 # 2] in
  let s1 :=
    (CachedEmbeddingService.generate_embedding
       id "m" provider clock "note" (CachedEmbeddingService.init 24)).2 in
  CachedEmbeddingService.generate_embedding
    id "m" (fun _ _ => None) clock "note" s1
  = (CachedEmbeddingService.Embedded [1 # 2],
     CachedEmbeddingService.mk
       (CachedEmbeddingService.cache s1)
       (S (CachedEmbeddingService.clock_reads s1))
       (CachedEmbeddingService.provider_calls s1)
       (CachedEmbeddingService.sleeps s1)).
Proof.
  intros clock provider s1.
  destruct (fresh_embedding_is_served_from_the_cache
              id "m" clock provider "note" (CachedEmbeddingService.init 24)
              s1 [1 # 2])
    as (stamp & _ & Hstamp & Hfresh & _); [reflexivity|].
  apply Hfresh.
  assert (Hs : EmbeddingCache._timestamps (CachedEmbeddingService.cache s1)
               !! EmbeddingCache._generate_key id "note" "m" = Some 0)
    by (vm_compute; reflexivity).
  rewrite Hs in Hstamp. injection Hstamp as <-. reflexivity.
Defined.

(** Three texts, the second blank, and a batch size of 2: the answers of
    the provider at the first and the third position, the zero vector at
    the second.  Two texts and a batch size of 0: three vectors come
    back. *)
Lemma batch_embeddings_one_vector_per_text_unless_batch_size_is_zero_witness :
  (let embeddings :=
     (CachedEmbeddingService.batch_embeddings
        id "m" 3 (fun n _ => Some [Z.of_nat (S n) # 1]) (fun n => Z.of_nat n)
        ["a"; ""; "b"] 2 (CachedEmbeddingService.init 24)).1 in
   embeddings !! 0%nat = Some [1 # 1]
   /\ embeddings !! 1%nat = Some [0%Q; 0%Q; 0%Q]
   /\ embeddings !! 2%nat = Some [2 # 1])
  /\ length
       (CachedEmbeddingService.batch_embeddings
          id "m" 3 (fun _ _ => Some [1 # 2]) (fun n => Z.of_nat n)
          ["a"; "b"] 0 (CachedEmbeddingService.init 24)).1
     = 3%nat.
Proof.
  split.
  - destruct (batch_embeddings_one_vector_per_text_unless_batch_size_is_zero
                id "m" 3 (fun n => Z.of_nat n)
                (fun n _ => Some [Z.of_nat (S n) # 1])
                ["a"; ""; "b"] 2 (CachedEmbeddingService.init 24))
      as [Hturns _].
    destruct (Hturns ltac:(lia))
      as (_ & _ & states & Hlen & Hhead & Hpos).
    destruct states as [|s0 [|s1 [|s2 [|s3 states]]]]; try discriminate Hlen.
    pose proof (Hhead s0 eq_refl) as ->.
    destruct (Hpos 0%nat "a" _ eq_refl eq_refl) as [H0 Hn0].
    pose proof (Hn0 s1 eq_refl) as ->.
    destruct (Hpos 1%nat "" _ eq_refl eq_refl) as [H1 Hn1].
    pose proof (Hn1 s2 eq_refl) as ->.
    destruct (Hpos 2%nat "b" _ eq_refl eq_refl) as [H2 _].
    cbv zeta. split; [exact H0|]. split; [exact H1|exact H2].
  - destruct (batch_embeddings_one_vector_per_text_unless_batch_size_is_zero
                id "m" 3 (fun n => Z.of_nat n) (fun _ _ => Some [1 # 2])
                ["a"; "b"] 0 (CachedEmbeddingService.init 24))
      as [_ Hzero].
    destruct (Hzero eq_refl) as [_ Hall]. apply Hall.
    + intros n t. by eexists.
    + repeat constructor.
Defined.

(** ** What a search returns is in the store *)

Section SearchResults.
Context {E : Env}.

Lemma is_stored_hit_preserved w w' sr :
  store_preserved w w' -> is_stored_hit w' sr -> is_stored_hit w sr.
Proof.
  intros (_ & Hf & Hc & _). unfold is_stored_hit. by rewrite Hf, Hc.
Qed.

Lemma get_fragment_row fragment_id w r w' :
  Storage.get_fragment fragment_id w = (Ok (Some r), w') ->
  exists row,
    fragments w !! fragment_id = Some row
    /\ r = Storage._row_to_fragment row.
Proof.
  cbv [Storage.get_fragment bind try_except sqlite external get_world ret].
  destruct (fault (tick w)); cbn; [discriminate|].
  destruct (fragments w !! fragment_id) as [row|]; cbn; [|discriminate].
  intros [= <- _]. by exists row.
Qed.

Lemma get_context_row context_id w r w' :
  Storage.get_context context_id w = (Ok (Some r), w') ->
  Storage.find_context context_id (contexts w) = Some r.
Proof.
  cbv [Storage.get_context bind try_except sqlite external get_world ret].
  destruct (fault (tick w)); cbn; [discriminate|].
  unfold Storage.find_context. congruence.
Qed.

Lemma search_hit_stored hit w rs w' :
  Storage.search_hit hit w = (Ok rs, w') -> Forall (is_stored_hit w) rs.
Proof.
  destruct hit as [fragment_id similarity].
  unfold Storage.search_hit, bind.
  destruct (Storage.get_fragment fragment_id w) as [[[fragment|]|e] w1]
    eqn:Hfragment; try discriminate.
  2:{ cbv [ret]. intros [= <- _]. constructor. }
  pose proof (reads_get_fragment _ _ _ _ Hfragment) as Hkeep.
  apply get_fragment_row in Hfragment as (row & Hrow & Hmapped).
  destruct (match MemoryFragment.context_ids fragment with
            | [] => ret None
            | first :: _ => Storage.get_context first
            end w1) as [[context|e] w2] eqn:Hcontext; [|discriminate].
  destruct (map_m Storage.get_anchor _ w2) as [[anchors|e] w3];
    [|discriminate].
  cbv [ret]. intros [= <- _]. constructor; [|constructor].
  split; [by exists fragment_id, row|]. cbn.
  destruct context as [context|]; [|done].
  destruct (MemoryFragment.context_ids fragment) as [|first rest];
    [discriminate|].
  exists first, rest. split; [reflexivity|].
  apply get_context_row in Hcontext.
  destruct Hkeep as (_ & _ & Hc & _). by rewrite <- Hc.
Qed.

(** What holds, relative to the store, of every result of a reading
    computation holds of every result of the loop over it. *)
Lemma map_m_reads_Forall {A B} (f : A -> M B) (Q : World -> B -> Prop) :
  (forall x, reads (f x)) ->
  (forall w w' y, store_preserved w w' -> Q w' y -> Q w y) ->
  (forall x w y w', f x w = (Ok y, w') -> Q w y) ->
  forall xs w ys w', map_m f xs w = (Ok ys, w') -> Forall (Q w) ys.
Proof.
  intros Hreads Hback Hf. induction xs as [|x xs IH]; intros w ys w'.
  - cbv [map_m ret]. intros [= <- _]. constructor.
  - cbn [map_m]. cbv [bind ret].
    destruct (f x w) as [[y|e] w1] eqn:Hx; [|discriminate].
    destruct (map_m f xs w1) as [[ys'|e] w2] eqn:Hrest; [|discriminate].
    intros [= <- _]. constructor; [by eapply Hf|].
    eapply Forall_impl; [by eapply IH|]. intros y'.
    apply Hback. by eapply Hreads.
Qed.

Lemma search_fragments_stored emb options w results w' :
  Storage.search_fragments emb options w = (Ok results, w') ->
  Forall (is_stored_hit w) results.
Proof.
  unfold Storage.search_fragments, bind.
  destruct (Storage.semantic_search emb options w) as [[found|e] w1]
    eqn:Hsearch; [|discriminate].
  apply reads_semantic_search in Hsearch.
  destruct (map_m Storage.search_hit found w1) as [[rs|e] w2] eqn:Hhits;
    [|discriminate].
  cbv [ret]. intros [= <- _].
  apply (map_m_reads_Forall _ (fun w rs => Forall (is_stored_hit w) rs))
    in Hhits.
  - apply Forall_concat. eapply Forall_impl; [exact Hhits|].
    intros rs' Hrs'. eapply Forall_impl; [exact Hrs'|]. intros sr.
    by apply is_stored_hit_preserved.
  - intros hit. apply reads_search_hit.
  - intros w0 w0' rs' Hkeep Hrs'. eapply Forall_impl; [exact Hrs'|].
    intros sr. by apply is_stored_hit_preserved.
  - intros hit w0 rs' w0'. apply search_hit_stored.
Qed.

Lemma dict_set_elem {V} (d : list (string * V)) k v x :
  x ∈ Dict.set d k v -> x = (k, v) \/ x ∈ d.
Proof.
  induction d as [|[k0 v0] d IH]; simpl.
  - intros ->%list_elem_of_singleton. by left.
  - destruct (String.eqb_spec k0 k) as [->|Hne].
    + intros [->|Hx]%elem_of_cons; [by left|right; by right].
    + intros [->|Hx]%elem_of_cons; [right; left|].
      destruct (IH Hx); [by left|right; by right].
Qed.

Lemma buckets_elem rs c srs sr :
  (c, srs) ∈ foldl Search.bucket [] rs -> sr ∈ srs -> sr ∈ rs.
Proof.
  intros Hc Hsr.
  assert (Hin : sr ∈ concat (foldl Search.bucket [] rs).*2).
  { apply list_elem_of_In, in_concat. exists srs.
    split; [|by apply list_elem_of_In].
    apply list_elem_of_In, list_elem_of_fmap. by exists (c, srs). }
  by rewrite buckets_concat in Hin.
Qed.

Lemma grouped_elem (th : list (string * list SearchResult.t)) :
  forall G0 p ctxs,
    (p, ctxs) ∈ foldl (fun g pr => Search.add_project g pr.1 pr.2) G0 th ->
    (p, ctxs) ∈ G0
    \/ exists rs, rs ∈ th.*2 /\ ctxs = foldl Search.bucket [] rs.
Proof.
  induction th as [|[q rs] th IH]; intros G0 p ctxs; cbn [foldl].
  - by left.
  - intros Hin. destruct (IH _ _ _ Hin) as [Hhere|(rs' & Hrs' & ->)].
    + unfold Search.add_project in Hhere. cbn [fst snd] in Hhere.
      destruct rs as [|sr rs]; [by left|].
      apply dict_set_elem in Hhere as [[= -> ->]|Hold]; [|by left].
      right. exists (sr :: rs). split; [left|reflexivity].
    + right. exists rs'. split; [by right|reflexivity].
Qed.

(** X29.  What a recall returns is in the store.  Every search result in
    the grouped answer of [search_memory] carries a fragment that is a row
    of the fragment table as [_row_to_fragment] reads it (an empty
    category is read as "general" and an empty source as "user", the
    other columns as they are stored), and the context it carries, when it
    carries one, is the stored row of the fragment's first context id: a
    hit of the vector store whose row is missing is dropped, never made
    up. *)
Theorem recalled_fragments_are_stored_rows :
  forall (query : string) (options : SearchOptions.t)
         (project_ids : Search.project_ids_arg)
         (default_project_id : option string) (w w' : World) G,
    Search.search_memory query options project_ids default_project_id w
    = (Ok G, w') ->
    forall p ctxs c srs sr,
      (p, ctxs) ∈ G -> (c, srs) ∈ ctxs -> sr ∈ srs ->
      is_stored_hit w sr.
Proof.
  intros query options project_ids default_project_id w w' G.
  unfold Search.search_memory. cbv [bind].
  destruct (Search.resolve_targets project_ids default_project_id w)
    as [[targets|e] w0] eqn:Htargets; [|discriminate].
  destruct (EmbeddingService.generate_embedding query w0)
    as [[emb|e] w1] eqn:Hemb; [|discriminate].
  intros Hloop. apply search_loop in Hloop as (hits & Hhits & ->).
  apply reads_resolve_targets in Htargets.
  apply reads_generate_embedding in Hemb.
  pose proof (map_m_length _ _ _ _ _ Hhits) as Hlen.
  apply (map_m_reads_Forall _ (fun w rs => Forall (is_stored_hit w) rs))
    in Hhits.
  - intros p ctxs c srs sr Hp Hc Hsr.
    apply grouped_elem in Hp as [Hnil|(rs & Hrs & ->)];
      [by apply elem_of_nil in Hnil|].
    rewrite snd_zip in Hrs by lia.
    apply (is_stored_hit_preserved w w1);
      [by eapply store_preserved_trans|].
    pose proof (proj1 (Forall_forall _ _) Hhits rs Hrs) as Hall.
    exact (proj1 (Forall_forall _ _) Hall sr (buckets_elem _ _ _ _ Hc Hsr)).
  - intros p. apply reads_search_fragments.
  - intros w2 w2' rs' Hkeep Hrs'. eapply Forall_impl; [exact Hrs'|].
    intros sr. by apply is_stored_hit_preserved.
  - intros p w2 rs' w2'. apply search_fragments_stored.
Qed.

End SearchResults.

(** The hit for "f1", and the hit for "f2", whose row holds an empty
    category and an empty source and is read as "general" and "user". *)
Lemma recalled_fragments_are_stored_rows_witness :
  is_stored_hit RecallExample.w RecallExample.hit
  /\ is_stored_hit MoreExamples.one_blank_row MoreExamples.hit_f2
  /\ fragments MoreExamples.one_blank_row !! "f2" = Some MoreExamples.f2.
Proof.
  split; [|split; [|reflexivity]].
  - apply (@recalled_fragments_are_stored_rows RecallExample.E
             "x" RecallExample.options
             (Search.Projects ["p1"; "p2"]) None RecallExample.w
             (set_tick RecallExample.w 7)
             [("p1", [("c1", [RecallExample.hit])])]
             ltac:(vm_compute; reflexivity)
             "p1" [("c1", [RecallExample.hit])] "c1" [RecallExample.hit]).
    + left.
    + left.
    + left.
  - apply (@recalled_fragments_are_stored_rows RecallExample.E
             "x" RecallExample.options
             (Search.Projects ["p1"; "p2"]) None MoreExamples.one_blank_row
             (set_tick MoreExamples.one_blank_row 7)
             [("p1", [("c1", [MoreExamples.hit_f2])])]
             ltac:(vm_compute; reflexivity)
             "p1" [("c1", [MoreExamples.hit_f2])] "c1" [MoreExamples.hit_f2]).
    + left.
    + left.
    + left.
Defined.

(** ** What a curation adds to the fragment table *)

Section CuratorFrame.
Context {E : Env} {C : Config} {P : Prompts}.

Lemma new_satisfy_refl Q w : new_fragments_satisfy Q w w.
Proof. intros fid f H. by left. Qed.

Lemma new_satisfy_trans Q w1 w2 w3 :
  new_fragments_satisfy Q w1 w2 -> new_fragments_satisfy Q w2 w3 ->
  new_fragments_satisfy Q w1 w3.
Proof.
  intros H12 H23 fid f H. destruct (H23 fid f H) as [H2|HQ]; [|by right].
  by apply H12.
Qed.

Lemma new_satisfy_same Q w w' :
  fragments w' = fragments w -> new_fragments_satisfy Q w w'.
Proof. intros Heq fid f H. left. by rewrite <- Heq. Qed.

Lemma new_satisfy_preserved Q w w' :
  store_preserved w w' -> new_fragments_satisfy Q w w'.
Proof. intros (_ & Hf & _). by apply new_satisfy_same. Qed.

Lemma new_satisfy_create_context Q project_id name description cf :
  respects (new_fragments_satisfy Q)
           (Memory.create_context project_id name description cf).
Proof.
  intros w r w' Hrun. apply memory_create_context_spec in Hrun
    as [(e & _ & Hkeep)|(cid & _ & _ & _ & _ & Hf & _)].
  - by apply new_satisfy_preserved.
  - by apply new_satisfy_same.
Qed.

Lemma new_satisfy_store_fragment project_id content context_id :
  respects (new_fragments_satisfy (curated project_id))
           (Memory.store_fragment project_id content "curated_ingestion"
                                  [context_id]).
Proof.
  intros w r w' Hrun. apply memory_store_fragment_spec in Hrun
    as (_ & _ & _ & [Hf|(fid & Hnew & Hcontent & Hf)] & _).
  - by apply new_satisfy_same.
  - intros x f. rewrite Hf. destruct (decide (x = fid)) as [->|Hne].
    + rewrite lookup_insert_eq. intros [= <-]. right.
      repeat split; try done. by eexists.
    + rewrite lookup_insert_ne by done. by left.
Qed.

Lemma new_satisfy_update_one_context Q entry :
  respects (new_fragments_satisfy Q)
           (IngestionCurator.update_one_context entry).
Proof.
  destruct entry as [cid new]. intros w r w' Hrun.
  destruct (update_one_context_spec cid new w) as (w1 & H1 & Hf & _).
  rewrite H1 in Hrun. injection Hrun as _ <-. by apply new_satisfy_same.
Qed.

Lemma new_satisfy_delete_old Q ids_to_delete project_id :
  respects (new_fragments_satisfy Q)
           (IngestionCurator.delete_old_fragments ids_to_delete project_id).
Proof.
  unfold IngestionCurator.delete_old_fragments.
  destruct (Json.truthy ids_to_delete);
    [|apply respects_ret, new_satisfy_refl].
  destruct (Json.len ids_to_delete);
    [|apply respects_raise, new_satisfy_refl].
  intros w r w'. unfold bind.
  destruct (Memory.delete_fragments_value ids_to_delete project_id w)
    as [r1 w1] eqn:Hdel.
  apply memory_delete_fragments_value_spec in Hdel
    as (_ & _ & _ & Hf & b & ->).
  cbv [ret]. intros [= _ <-].
  destruct Hf as [Hf|(items & texts & _ & _ & Hf)].
  - by apply new_satisfy_same.
  - intros fid f. rewrite Hf, lookup_delete_rows.
    destruct (decide (fid ∈ omap id texts)); [discriminate|]. by left.
Qed.

(** X30.  A curation adds nothing but curated fragments.  Whichever way
    [curate_and_chunk] ends, every fragment found in the store afterwards
    either was there before, unchanged, or is a fragment as the curation
    stores them: in the project, from the source "curated_ingestion", in
    the default category, filed under exactly one context, with content
    that is not blank. *)
Theorem curation_adds_only_curated_fragments :
  forall (content project_id : string) (w w' : World) r,
    IngestionCurator.curate_and_chunk content project_id w = (r, w') ->
    new_fragments_satisfy (curated project_id) w w'.
Proof.
  intros content project_id w w' r Hrun.
  eapply (respects_curate_and_chunk
            (new_fragments_satisfy (curated project_id))
            (new_satisfy_refl _) (new_satisfy_trans _)
            (new_satisfy_preserved _));
    [..|exact Hrun].
  - intros. apply new_satisfy_create_context.
  - intros. apply new_satisfy_store_fragment.
  - intros. apply new_satisfy_update_one_context.
  - intros. apply new_satisfy_delete_old.
Qed.

End CuratorFrame.

Lemma curation_adds_only_curated_fragments_witness :
  exists result w',
    IngestionCurator.curate_and_chunk
      (E := MoreExamples.note_env) (C := Examples.default_config)
      (P := Examples.plain_prompts) "buy milk" "p1" RecallExample.w
    = (Ok result, w')
    /\ new_fragments_satisfy (curated "p1") RecallExample.w w'.
Proof.
  destruct (IngestionCurator.curate_and_chunk _ _ _) as [r w'] eqn:Hrun.
  pose proof (f_equal fst Hrun) as Hr. vm_compute in Hr. subst r.
  eexists _, w'. split; [reflexivity|].
  exact (curation_adds_only_curated_fragments
           (E := MoreExamples.note_env) (C := Examples.default_config)
           (P := Examples.plain_prompts) "buy milk" "p1"
           RecallExample.w w' _ Hrun).
Defined.

(** ** The steps of a curation: which failures are absorbed *)

Section RaisesOnlyAs.
Context {E : Env} {B : Type}.
Variable source : M B.




End RaisesOnlyAs.

Section CurateSteps.
Context {E : Env} {C : Config} {P : Prompts}.








Abbreviation create_general project_id :=
  (Memory.create_context project_id "general" general_context_description []).










End CurateSteps.



